(* ===== verification/_CoqProject ===== *)
-Q . S2P
Prelude.v
Constants.v
Types.v
PositionMath.v
Account.v
Market.v
Asset.v
Oracle.v
Proposals.v
PriceFeed.v
Providers.v
Funding.v
Risk.v
Trade.v
OrderBook.v
Effects.v
Matching.v
Liquidation.v
AccountMsg.v
PublicPool.v
BookGenesis.v
Solvency.v
Sweeps.v
Blocks.v
Typed.v
Genesis.v
Queries.v
