(* ===== verification/Prelude.v ===== *)
(** * PerpDEX L1: a verification development

    PerpDEX L1 is a Cosmos SDK chain for perpetual futures written in Go.
    This library models the modules under [src/x] that hold the logic of the
    exchange, the processes under [src/services] that feed it prices, and
    proves the properties that make them correct.

    ** The program and its model

    The state of all modules is one record, [Chain] ([Types.v]): the stores
    of [x/account], [x/market], [x/orderbook] and, in [misc], those of the
    smaller modules. A keeper method that writes is a computation [K A], a
    function [Chain -> res Error A * Chain] that returns the store on every
    outcome, also on an error: what a failed call wrote stays visible to a
    caller that swallows the error, as in the code. [cached] is a cache
    context (rolled back on an error), [attempt] a swallowed error, [trap] an
    error inspected as a value, [map_err] a wrapped one. A read-only method
    is a function [Chain -> R A].

    - [Prelude.v]: outcomes, the state and error monad and its rules, record
      update, ordered iteration over maps, sums over maps, totality and
      success predicates ([safe], [succeeds]), tactics.
    - [Constants.v]: [src/types/constants.go] and the limits of the modules.
    - [Types.v]: the stored records, the errors and [Chain].
    - [PositionMath.v]: [x/account/types/position_math.go], the arithmetic of
      a fill and of margin requirements.
    - [Account.v]: the account keeper: accounts, asset balances with locks,
      positions, the owner and sub-account indexes.
    - [Market.v]: [x/market]: markets and their details, nonces, mark price
      gate, open interest, the expiry index, messages and end-blocker. The
      exit of positions of expired markets is the interface
      [LiquidationKeeper] with its laws [ExitHookOk] and
      [ExitHookKeepsNonces].
    - [Asset.v]: [x/asset]: the registry, its denom index and genesis.
    - [Oracle.v]: [x/oracle]: the price store, vote extensions, weighted
      median, proposal checks and pre-blocker, on decoded values.
    - [Proposals.v]: the byte level of the same pipeline: the codecs of
      [x/oracle/abci/codec] ([Codec] with its law [CodecOk]), the enable
      height, the injection of the bundle into a proposal.
    - [PriceFeed.v]: the aggregation of the sidecar ([Module sidecar],
      [services/oracle]) and the daemon of the node ([Module daemon],
      [x/oracle/daemon]) down to the vote extension.
    - [Providers.v]: the configuration of the sidecar and how its three
      providers read the answers of the exchanges, with the float arithmetic
      of [math/big] that turns text into an integer price.
    - [Funding.v]: [x/funding]: premium samples, mark price refresh, funding
      rates and the settlement of a position. Impact prices of the book come
      through the interface [ImpactSource]. Also the nonces of a market along
      every history of the operations that write market records.
    - [Risk.v]: [x/risk]: cross and isolated risk, health classes, the risk
      change rule, zero prices, takeover simulation.
    - [Trade.v]: [x/trade]: settlement of perpetual and spot fills.
    - [OrderBook.v]: [x/orderbook]: entries, price levels, indexes, the life
      of an order, expiry, genesis.
    - [Effects.v]: which parts of the state each lower module can touch.
    - [Matching.v]: [x/matching]: the matching loop, user and liquidation
      orders, messages, trigger orders. [EngineOk] is what the loop needs of
      the settlement it calls.
    - [Liquidation.v]: [x/liquidation]: partial liquidation, takeover by the
      liquidity pool, auto-deleveraging, exit of expired markets, messages
      and end-blocker; it discharges [ExitHookOk] and
      [ExitHookKeepsNonces].
    - [AccountMsg.v]: the messages of [x/account], over the chain and the
      bank ([BankKeeper], with the laws [BankOk]).
    - [PublicPool.v]: pools, their shares and their messages.
    - [BookGenesis.v]: the import of an order book, order by order.
    - [Solvency.v]: account, pool and asset messages composed into one
      history over the chain and the coins of the module.
    - [Sweeps.v]: what the sweeps over the book and the markets preserve.
    - [Blocks.v]: the hooks of all modules in the order of [app/modules.go]
      ([BeginBlock], [EndBlock]) around arbitrary messages: histories of
      blocks.
    - [Typed.v]: the well-typedness of stored orders along such histories.
    - [Genesis.v]: validation, import and export of every module and of the
      application in its order.
    - [Queries.v]: the query servers as views of the chain, over a
      [Paginator].

    ** What the theorems show

    - Settlement: a fill keeps a market balanced and conserves the ledger, is
      checked against the risk rule on each side whose check is on, and
      respects the size bounds; what a fill between cross-margin positions
      pays every account; spot settlement conserves assets.
    - Markets: nonces are handed out in order, whatever market messages and
      block hooks run between; the expiry index is exact and due markets are
      expired.
    - Book and matching: the indexes, levels and counters of the book stay
      consistent under every operation; iteration is by price then time; the
      matching loop terminates with enough fuel and fills only at admissible
      prices and sizes; a post-only order never takes; a liquidation order
      never closes more than asked.
    - Accounts: locked balances never exceed balances; transfers conserve;
      every history of messages refines a vault in which coins and claims
      move together.
    - Pools: minting and burning never lower the value of a share held by
      others, and in a pool that already has shares a mint followed by a burn
      is no profit.
    - Risk and funding: health classes are ordered thresholds; available
      collateral can be withdrawn safely; funding between two sides is zero
      sum.
    - The whole chain: along every history of blocks no hook fails or panics,
      and the orders in the store stay within the ranges of their types;
      expired markets leave the active set; what the application exports is
      imported again as the same state.
    - Prices, from the exchange to the store: text becomes an integer price
      that is exact or one unit less; every run of a configured sidecar is a
      run of the abstract feed, whose published price lies between the honest
      samples when fewer than half of them are faulty; the vote of the daemon
      passes the check of its peers and holds prices its own polls saw; an
      honest proposer's bundle reaches the pre-blocker unchanged; and less
      than half of the quoted weight (a vote weighs its power once per entry
      it lists for the market) cannot move a stored price past the deviation
      band of the rest.
    - Queries: a snapshot of the book shows its best levels, exactly; owner,
      sub-account, order and pending funding queries agree with the stores.
    - Assets: the registry invariant.
    - Defects: theorems of kind error exhibit behaviour that departs from the
      comments of the code.

    ** Integers, fuel and bounds

    Integers are [Z]. Division of [math.Int] is [Z.quot]. Wrap-around of
    machine integers is written ([wrap64], [wrapi64], [wrap32]) where the
    code computes in a fixed width on values that can reach its bound;
    [math.Int.Uint64] and [Int64] out of range are [Panic]. The 256-bit limit
    of [math.Int] is not modelled. Two loops need fuel: [nextMaker] gets one
    more than the number of entries, since every iteration that continues
    removes one, and the matching loop the fill limit plus the number of
    entries plus one; the termination theorems show that this is enough.

    ** Parameters

    Bech32 addresses and the governance authority ([Env]), the bank keeper
    ([BankKeeper]), the text functions of Go and the denom syntax of the SDK
    ([AssetText]), protobuf and zstd ([Proto], [Zstd] with their laws), the
    SDK's pagination ([Paginator]) and its default proposal handlers. Each
    property with such a hypothesis has a witness with a concrete instance.

    ** Not modelled

    Generated protobuf and gateway code, store prefixes, interface
    registration and the construction of the keepers, which have no behaviour
    of their own; events, logs and gas; the ante handlers and the SDK and IBC
    modules, which are not code of the repository; the HTTP requests, the gRPC
    transport and the goroutines of the price processes, whose answers enter
    as arbitrary values and whose steps interleave in any order; the command
    line and the metrics. *)

From stdpp Require Export base tactics numbers list gmap sorting strings.
From Stdlib Require Export ZArith Lia.

#[global] Open Scope Z_scope.

(** ** Outcomes of Go code

    [Ok] is a nil error, [Err] a non-nil error value, [Panic] a Go panic
    (an out-of-range [math.Int.Uint64], a division by zero), [NoFuel] a
    loop of the model that ran out of its fuel. *)

Inductive res (E A : Type) : Type :=
| Ok (a : A)
| Err (e : E)
| Panic
| NoFuel.

Arguments Ok {E A} a.
Arguments Err {E A} e.
Arguments Panic {E A}.
Arguments NoFuel {E A}.

#[global] Instance res_ret {E} : MRet (res E) := fun A a => Ok a.
#[global] Instance res_bind {E} : MBind (res E) := fun A B k m =>
  match m with
  | Ok a => k a
  | Err e => Err e
  | Panic => Panic
  | NoFuel => NoFuel
  end.

(** [if !b { return e }] *)
Definition ensure {E} (b : bool) (e : E) : res E unit :=
  if b then Ok tt else Err e.

(** [v, err := m[k]] with a not-found error. *)
Definition of_option {E A} (o : option A) (e : E) : res E A :=
  match o with Some a => Ok a | None => Err e end.

(** Left fold that stops at the first error, the shape of every keeper
    iteration with an [iterErr] captured by its callback. *)
Fixpoint foldM {E A B} (f : B -> A -> res E B) (b : B) (l : list A) : res E B :=
  match l with
  | [] => Ok b
  | a :: l => b' ← f b a; foldM f b' l
  end.

(** ** Stateful keeper code

    A keeper method takes the [sdk.Context] (the store) and returns
    [(value, error)]. Writes done before an error stay in the context: it
    is the caller that decides whether to discard them (a [CacheContext],
    the transaction branch) or to keep them, so the state is returned on
    every outcome. *)

Definition M (S E A : Type) : Type := S -> res E A * S.

#[global] Instance M_ret {S E} : MRet (M S E) := fun A a s => (Ok a, s).
#[global] Instance M_bind {S E} : MBind (M S E) := fun A B k m s =>
  match m s with
  | (Ok a, s') => k a s'
  | (Err e, s') => (Err e, s')
  | (Panic, s') => (Panic, s')
  | (NoFuel, s') => (NoFuel, s')
  end.

(** A read-only method. *)
Definition reads {S E A} (f : S -> res E A) : M S E A := fun s => (f s, s).

(** A pure computation that may fail. *)
Definition lift {S E A} (r : res E A) : M S E A := fun s => (r, s).

(** A store write that cannot fail. *)
Definition modify {S E} (f : S -> S) : M S E unit := fun s => (Ok tt, f s).

(** [sdkCtx.CacheContext()] followed by [writeCache()] on success: the
    writes of a failing [m] are discarded. *)
Definition cached {S E A} (m : M S E A) : M S E A := fun s =>
  match m s with
  | (Ok a, s') => (Ok a, s')
  | (r, _) => (r, s)
  end.

(** [if err := m; err != nil { log(err) }]: the error is swallowed and the
    writes [m] made before failing are kept. *)
Definition attempt {S E A} (m : M S E A) : M S E (option A) := fun s =>
  match m s with
  | (Ok a, s') => (Ok (Some a), s')
  | (Err _, s') => (Ok None, s')
  | (Panic, s') => (Panic, s')
  | (NoFuel, s') => (NoFuel, s')
  end.

(** [if errors.Is(err, ...) { return other }]: replaces the error value. *)
Definition map_err {S E A} (f : E -> E) (m : M S E A) : M S E A := fun s =>
  match m s with
  | (Err e, s') => (Err (f e), s')
  | r => r
  end.

(** Runs [f] on every element, stopping at the first error. *)
Fixpoint forM {S E A} (f : A -> M S E unit) (l : list A) : M S E unit :=
  match l with
  | [] => mret tt
  | a :: l => _ ← f a; forM f l
  end.

(** ** Inversion of successful runs *)

Section inversion.
Context {S E : Type}.

Lemma res_bind_ok {A B} (m : res E A) (k : A -> res E B) b :
    (x ← m; k x) = Ok b <-> exists a, m = Ok a /\ k a = Ok b.
  Proof.
    destruct m; cbn; (split; [intros H; try discriminate H; eauto | intros (a' & Ha & Hk)]);
      by simplify_eq.
  Qed.

Lemma res_ret_ok {A} (a b : A) : (mret a : res E A) = Ok b <-> a = b.
Proof. unfold mret, res_ret. split; congruence. Qed.

Lemma ensure_ok (b : bool) (e : E) u : ensure b e = Ok u <-> b = true.
  Proof. by destruct b, u. Qed.

Lemma of_option_ok {A} (o : option A) (e : E) a :
    of_option o e = Ok a <-> o = Some a.
  Proof. destruct o; cbn; split; congruence. Qed.

Lemma M_bind_ok {A B} (m : M S E A) (k : A -> M S E B) s b s' :
    (x ← m; k x) s = (Ok b, s') <->
    exists a s1, m s = (Ok a, s1) /\ k a s1 = (Ok b, s').
  Proof.
    unfold mbind, M_bind. destruct (m s) as [[a|e| |] s1];
      (split; [intros H; try discriminate H; eauto | intros (a' & s2 & Ha & Hk)]);
      by simplify_eq.
  Qed.

Lemma reads_ok {A} (f : S -> res E A) s a s' :
    reads f s = (Ok a, s') <-> f s = Ok a /\ s' = s.
  Proof. unfold reads. split; [by intros [= -> ->] | by intros [-> ->]]. Qed.

Lemma lift_ok {A} (r : res E A) (s : S) a s' :
    lift r s = (Ok a, s') <-> r = Ok a /\ s' = s.
  Proof. unfold lift. split; [by intros [= -> ->] | by intros [-> ->]]. Qed.

Lemma modify_ok (f : S -> S) s u s' :
    modify (E:=E) f s = (Ok u, s') <-> s' = f s.
  Proof. unfold modify. destruct u. split; [by intros [= ->] | by intros ->]. Qed.

Lemma M_ret_ok {A} (a : A) (s : S) b s' :
    (mret a : M S E A) s = (Ok b, s') <-> a = b /\ s' = s.
  Proof. unfold mret, M_ret. split; [by intros [= -> ->] | by intros [-> ->]]. Qed.

Lemma cached_ok {A} (m : M S E A) s a s' :
    cached m s = (Ok a, s') <-> m s = (Ok a, s').
  Proof. unfold cached. destruct (m s) as [[]]; split; congruence. Qed.

Lemma map_err_ok {A} (f : E -> E) (m : M S E A) s a s' :
  map_err f m s = (Ok a, s') <-> m s = (Ok a, s').
Proof. unfold map_err. destruct (m s) as [[]]; split; congruence. Qed.

(** A failing cached run leaves the store as it was. *)
Lemma cached_err {A} (m : M S E A) s e s' :
    cached m s = (Err e, s') -> s' = s.
  Proof. unfold cached. destruct (m s) as [[]]; congruence. Qed.
End inversion.

(** ** Symbolic execution *)

Section run.
Context {S E : Type}.

Lemma run_ensure {A} (b : bool) (e : E) (k : unit -> M S E A) s :
    (x ← lift (ensure b e); k x) s = if b then k tt s else (Err e, s).
  Proof. by destruct b. Qed.

Lemma run_lift_ok {A B} (a : B) (k : B -> M S E A) s :
    (x ← lift (Ok a); k x) s = k a s.
  Proof. done. Qed.

Lemma run_ret {A B} (a : B) (k : B -> M S E A) s : (x ← mret a; k x) s = k a s.
  Proof. done. Qed.

Lemma run_modify {A} (f : S -> S) (k : unit -> M S E A) s :
    (x ← modify f; k x) s = k tt (f s).
  Proof. done. Qed.

Lemma run_bind {A B} (m : M S E B) (k : B -> M S E A) s a s1 :
  m s = (Ok a, s1) -> (x ← m; k x) s = k a s1.
Proof. unfold mbind, M_bind. by intros ->. Qed.

Lemma run_if {A B} (b : bool) (m1 m2 : M S E B) (k : B -> M S E A) s :
    (x ← (if b then m1 else m2); k x) s = if b then (x ← m1; k x) s else (x ← m2; k x) s.
  Proof. by destruct b. Qed.

Lemma run_assoc {A B C} (m : M S E A) (f : A -> M S E B) (k : B -> M S E C) s :
  (y ← (x ← m; f x); k y) s = (x ← m; y ← f x; k y) s.
Proof. unfold mbind, M_bind. by destruct (m s) as [[] ?]. Qed.

(** A guard either stops the run with the store untouched or lets it go on. *)
Lemma guard_lift {A B} (x : res E A) (k : A -> M S E B) s r s' :
  (a ← lift x; k a) s = (r, s') -> s' = s \/ exists a, x = Ok a /\ k a s = (r, s').
Proof. unfold mbind, M_bind, lift. destruct x; intros [= ]; eauto. Qed.

Lemma guard_reads {A B} (f : S -> res E A) (k : A -> M S E B) s r s' :
  (a ← reads f; k a) s = (r, s') -> s' = s \/ exists a, f s = Ok a /\ k a s = (r, s').
Proof. unfold mbind, M_bind, reads. destruct (f s); intros [= ]; eauto. Qed.
End run.
Create HintDb run discriminated.
#[export] Hint Rewrite @run_ensure @run_lift_ok @run_ret @run_modify @run_if : run.

(** ** Frames: what a method leaves alone, on every outcome *)

Definition frames {S E A T} (f : S -> T) (m : M S E A) : Prop := forall s, f (m s).2 = f s.

Section frames.
Context {S E T : Type} (f : S -> T).

Lemma frames_bind {A B} (m : M S E A) (k : A -> M S E B) :
  frames f m -> (forall a, frames f (k a)) -> frames f (m ≫= k).
Proof.
  intros Hm Hk s. specialize (Hm s). unfold mbind, M_bind.
  destruct (m s) as [[] s1]; cbn in *; [by rewrite Hk|done..].
Qed.

Lemma frames_ret {A} (a : A) : frames f (mret a : M S E A).
Proof. done. Qed.

Lemma frames_lift {A} (r : res E A) : frames f (lift r).
Proof. done. Qed.

Lemma frames_reads {A} (g : S -> res E A) : frames f (reads g).
Proof. done. Qed.

Lemma frames_modify (g : S -> S) : (forall s, f (g s) = f s) -> frames f (modify (E:=E) g).
Proof. intros Hg s. apply Hg. Qed.

Lemma frames_if {A} (b : bool) (m1 m2 : M S E A) :
  frames f m1 -> frames f m2 -> frames f (if b then m1 else m2).
Proof. by destruct b. Qed.

Lemma frames_map_err {A} (g : E -> E) (m : M S E A) : frames f m -> frames f (map_err g m).
Proof. intros Hm s. specialize (Hm s). unfold map_err. by destruct (m s) as [[] ?]. Qed.

Lemma frames_cached {A} (m : M S E A) : frames f m -> frames f (cached m).
Proof. intros Hm s. specialize (Hm s). unfold cached. by destruct (m s) as [[] ?]. Qed.

Lemma frames_attempt {A} (m : M S E A) : frames f m -> frames f (attempt m).
Proof. intros Hm s. specialize (Hm s). unfold attempt. by destruct (m s) as [[] ?]. Qed.

Lemma frames_forM {A} (g : A -> M S E unit) l : (forall a, frames f (g a)) -> frames f (forM g l).
Proof. intros Hg. induction l; [done|]. apply frames_bind; auto. Qed.

Lemma frames_fun {A} (g : S -> M S E A) :
  (forall s, frames f (g s)) -> frames f (fun s => g s s).
Proof. intros Hg s. apply Hg. Qed.

Lemma frames_run {A} (m : M S E A) s r s' : frames f m -> m s = (r, s') -> f s' = f s.
Proof. intros Hm Hr. specialize (Hm s). by rewrite Hr in Hm. Qed.
End frames.

Create HintDb frames discriminated.
#[export] Hint Resolve frames_bind frames_ret frames_lift frames_reads frames_if frames_map_err
  frames_cached frames_attempt frames_forM : frames.

Lemma frames_at {S E A T} (f : S -> T) (m : M S E A) s : frames f m -> f (m s).2 = f s.
Proof. intros Hm. apply Hm. Qed.

Lemma frames_bind_at {S E A B T} (f : S -> T) (m : M S E A) (k : A -> M S E B) s :
  f (m s).2 = f s -> (forall a s1, f (k a s1).2 = f s1) -> f ((m ≫= k) s).2 = f s.
Proof.
  intros Hm Hk. unfold mbind, M_bind. destruct (m s) as [[] s1]; cbn in *; [by rewrite Hk|done..].
Qed.

(** Proves [frames f m] by going through the body of [m]; the methods it
    calls are in the [frames] hints. *)
Ltac solve_frames :=
  repeat (intros; cbv beta zeta; first
    [ reflexivity
    | apply frames_at; solve [auto 1 with frames]
    | apply frames_bind_at
    | apply (frames_at _ (map_err _ _)), frames_map_err; intros ?
    | apply (frames_at _ (forM _ _)), frames_forM; intros ? ?
    | case_match ]).

(** ** Runs that never exhaust a loop's fuel *)

Section total.
Context {S E : Type}.

Lemma res_bind_total {A B} (m : res E A) (k : A -> res E B) :
  m <> NoFuel -> (forall a, k a <> NoFuel) -> (m ≫= k) <> NoFuel.
Proof. destruct m; cbn; auto; discriminate. Qed.

Lemma foldM_total {A B} (f : B -> A -> res E B) l b :
  (forall b a, f b a <> NoFuel) -> foldM f b l <> NoFuel.
Proof. intros Hf. revert b. induction l; intros b; cbn; [done|]. apply res_bind_total; auto. Qed.

Lemma ensure_total (b : bool) (e : E) : ensure b e <> NoFuel.
Proof. by destruct b. Qed.

Lemma of_option_total {A} (o : option A) (e : E) : of_option o e <> NoFuel.
Proof. by destruct o. Qed.

Lemma M_bind_total {A B} (m : M S E A) (k : A -> M S E B) s :
  (m s).1 <> NoFuel -> (forall a s1, (k a s1).1 <> NoFuel) -> ((m ≫= k) s).1 <> NoFuel.
Proof. unfold mbind, M_bind. intros Hm Hk. destruct (m s) as [[] s1]; cbn in *; auto. Qed.

Lemma reads_total {A} (f : S -> res E A) s : f s <> NoFuel -> (reads f s).1 <> NoFuel.
Proof. done. Qed.

Lemma lift_total {A} (r : res E A) (s : S) : r <> NoFuel -> (lift r s).1 <> NoFuel.
Proof. done. Qed.

Lemma map_err_total {A} (f : E -> E) (m : M S E A) s : (m s).1 <> NoFuel -> (map_err f m s).1 <> NoFuel.
Proof. unfold map_err. by destruct (m s) as [[] ?]. Qed.
End total.

Create HintDb total discriminated.
#[export] Hint Resolve ensure_total of_option_total : total.

(** Proves [(m s).1 <> NoFuel] or [r <> NoFuel] by going through the body. *)
Ltac solve_total :=
  repeat (intros; cbv beta zeta; first
    [ discriminate
    | solve [auto 1 with total]
    | lazymatch goal with
      | |- (_ ≫= _) <> _ => apply res_bind_total
      | |- foldM _ _ _ <> _ => apply foldM_total
      | |- ((_ ≫= _) _).1 <> _ => apply M_bind_total
      | |- (reads _ _).1 <> _ => apply reads_total
      | |- (lift _ _).1 <> _ => apply lift_total
      | |- (map_err _ _ _).1 <> _ => apply map_err_total
      end
    | case_match ]).

(** Decomposes a hypothesis that a monadic run succeeded into the runs of
    its parts. *)
Ltac inv_ok :=
  repeat match goal with
  | H : (_ ≫= _) = Ok _ |- _ => apply res_bind_ok in H as (? & ? & H)
  | H : (_ ≫= _) _ = (Ok _, _) |- _ => apply M_bind_ok in H as (? & ? & ? & H)
  | H : ensure _ _ = Ok _ |- _ => apply ensure_ok in H
  | H : of_option _ _ = Ok _ |- _ => apply of_option_ok in H
  | H : reads _ _ = (Ok _, _) |- _ => first [apply reads_ok in H as [H ->] | apply reads_ok in H as [H _]]
  | H : lift _ _ = (Ok _, _) |- _ => first [apply lift_ok in H as [H ->] | apply lift_ok in H as [H _]]
  | H : modify _ _ = (Ok _, _) |- _ => apply modify_ok in H
  | H : map_err _ _ _ = (Ok _, _) |- _ => apply map_err_ok in H
  | H : cached _ _ = (Ok _, _) |- _ => apply cached_ok in H
  | H : @mret _ _ _ _ _ = (Ok _, _) |- _ => first [apply M_ret_ok in H as [H ->] | apply M_ret_ok in H as [H _]]
  | H : @mret _ _ _ _ = Ok _ |- _ => apply (proj1 (res_ret_ok _ _)) in H
  | H : Ok _ = Ok _ |- _ => injection H as H
  | H : (Ok _, _) = (Ok _, _) |- _ => injection H as H
  | H : Err _ = Ok _ |- _ => discriminate H
  | H : (Err _, _) = (Ok _, _) |- _ => discriminate H
  | H : Panic = Ok _ |- _ => discriminate H
  | H : NoFuel = Ok _ |- _ => discriminate H
  | H : (Panic, _) = (Ok _, _) |- _ => discriminate H
  | H : (NoFuel, _) = (Ok _, _) |- _ => discriminate H
  end.

(** Goes through the guards of a handler; the runs a guard stopped are
    closed by the facts about the initial store. *)
Ltac guards H :=
  repeat first
    [ rewrite run_assoc in H
    | apply guard_lift in H as [->|(? & ? & H)]; [by auto|]
    | apply guard_reads in H as [->|(? & ? & H)]; [by auto|] ];
  inv_ok.

(** Reflects boolean tests of the code into propositions. *)
Ltac breflect :=
  repeat match goal with
  | H : _ && _ = true |- _ => apply andb_true_iff in H as [? ?]
  | H : _ || _ = false |- _ => apply orb_false_iff in H as [? ?]
  | H : _ && _ = false |- _ => apply andb_false_iff in H
  | H : _ || _ = true |- _ => apply orb_true_iff in H
  | H : negb _ = true |- _ => apply negb_true_iff in H
  | H : negb _ = false |- _ => apply negb_false_iff in H
  | H : (_ =? _) = true |- _ => apply Z.eqb_eq in H
  | H : (_ =? _) = false |- _ => apply Z.eqb_neq in H
  | H : (_ <? _) = true |- _ => apply Z.ltb_lt in H
  | H : (_ <? _) = false |- _ => apply Z.ltb_ge in H
  | H : (_ <=? _) = true |- _ => apply Z.leb_le in H
  | H : (_ <=? _) = false |- _ => apply Z.leb_gt in H
  | H : bool_decide _ = true |- _ => apply bool_decide_eq_true in H
  | H : bool_decide _ = false |- _ => apply bool_decide_eq_false in H
  end.

(** Closes a concrete goal by evaluation. *)
Ltac by_compute := vm_compute; reflexivity.
Ltac by_decide := apply (bool_decide_unpack _); vm_compute; exact I.

(** Splits every [if] of the goal and reflects the tests. *)
Ltac case_ifs := repeat (case_match; breflect).

(** ** Record update: [r <| f := v |>] *)

Class Eta (R : Type) := { eta : R -> R }.
Class Setter {R T : Type} (proj : R -> T) := { set_field : (T -> T) -> R -> R }.
Arguments set_field {R T} proj {_} f r.

Ltac build_setter :=
  match goal with
  | |- @Setter ?R ?T ?proj =>
      let e := constr:(_ : Eta R) in
      let upd := fresh "upd" in
      let r := fresh "r" in
      constructor; intros upd r;
      let body := eval hnf in (@eta R e r) in
      let p := eval pattern (proj r) in body in
      match p with ?g _ => let t := eval cbv beta in (g (upd (proj r))) in exact t end
  end.

Declare Scope record_scope.
#[global] Open Scope record_scope.
Notation "r <| f := v |>" := (set_field f (fun _ => v) r)
  (at level 12, left associativity, f at level 11, v at level 99,
   format "r  <| f  :=  v |>") : record_scope.

(** ** Truncated division

    [math.Int.Quo] is [big.Int.Quo], which truncates toward zero:
    [Z.quot]. *)

Lemma quot_nonneg_div a b : 0 <= a -> 0 < b -> Z.quot a b = a / b.
Proof. intros. by apply Z.quot_div_nonneg. Qed.

Lemma quot_nonneg a b : 0 <= a -> 0 <= b -> 0 <= Z.quot a b.
Proof.
  intros Ha Hb. destruct (decide (b = 0)) as [->|]; [by destruct a|].
  apply Z.quot_pos; lia.
Qed.

Lemma quot_mono a b c : 0 < c -> a <= b -> Z.quot a c <= Z.quot b c.
Proof. intros. by apply Z.quot_le_mono. Qed.

Lemma quot_abs_le a b : b <> 0 -> Z.abs (Z.quot a b) <= Z.abs a.
Proof.
  intros Hb. rewrite <- Z.quot_abs by done.
  rewrite quot_nonneg_div by lia.
  apply Z.div_le_upper_bound; [lia|]. nia.
Qed.

(** A fraction of [x] lies between zero and [x]. *)
Lemma quot_scale_pos x n t : 0 <= x -> 0 <= n <= t -> 0 < t -> 0 <= Z.quot (x * n) t <= x.
Proof.
  intros Hx Hn Ht. assert (0 <= x * n) by nia. assert (x * n <= t * x) by nia.
  rewrite quot_nonneg_div by lia. split; [apply Z.div_pos; lia|].
  by apply Z.div_le_upper_bound.
Qed.

Lemma quot_scale x n t :
  0 <= n <= t -> 0 < t -> Z.min 0 x <= Z.quot (x * n) t <= Z.max 0 x.
Proof.
  intros Hn Ht. destruct (Z.lt_ge_cases x 0).
  - pose proof (quot_scale_pos (- x) n t ltac:(lia) Hn Ht) as H1.
    rewrite Z.mul_opp_l, Z.quot_opp_l in H1 by lia. lia.
  - pose proof (quot_scale_pos x n t ltac:(lia) Hn Ht). lia.
Qed.

(** Two truncated shares of [e], for parts that sum to the whole, miss [e]
    by at most one unit in the direction of [e]. *)
Lemma quot_shares_pos e a b m :
  0 <= e -> 0 < m -> 0 <= a -> 0 <= b -> a + b = m ->
  e - 1 <= Z.quot (e * a) m + Z.quot (e * b) m <= e.
Proof.
  intros He Hm Ha Hb Hs. rewrite !quot_nonneg_div by nia.
  pose proof (Z.div_mod (e * a) m ltac:(lia)) as Ea.
  pose proof (Z.div_mod (e * b) m ltac:(lia)) as Eb.
  pose proof (Z.mod_pos_bound (e * a) m Hm).
  pose proof (Z.mod_pos_bound (e * b) m Hm).
  assert (e * a + e * b = e * m) by nia.
  nia.
Qed.

Lemma quot_shares e a b m :
  0 < m -> 0 <= a -> 0 <= b -> a + b = m ->
  let t := Z.quot (e * a) m + Z.quot (e * b) m in
  t = e \/ t = e - Z.sgn e.
Proof.
  intros Hm Ha Hb Hs t.
  destruct (Z.lt_ge_cases e 0) as [Hneg|Hpos].
  - pose proof (quot_shares_pos (- e) a b m ltac:(lia) Hm Ha Hb Hs) as H.
    rewrite !Z.mul_opp_l, !Z.quot_opp_l in H by lia.
    rewrite (Z.sgn_neg e) by lia. subst t. lia.
  - pose proof (quot_shares_pos e a b m Hpos Hm Ha Hb Hs) as H.
    destruct (decide (e = 0)) as [->|]; [left; subst t; by rewrite !Z.mul_0_l, !Z.quot_0_l by lia|].
    rewrite (Z.sgn_pos e) by lia. subst t. lia.
Qed.

(** [e*d/(-s)] and [e*(s+d)/s], the closed and the kept share of a
    position of size [s] reduced by [d]. *)
Lemma quot_reduce e s d :
  s <> 0 -> 0 <= - d * Z.sgn s <= Z.abs s ->
  let t := Z.quot (e * d) (- s) + Z.quot (e * (s + d)) s in
  t = e \/ t = e - Z.sgn e.
Proof.
  intros Hs Hd.
  destruct (Z.lt_ge_cases s 0) as [Hneg|Hpos].
  - rewrite (Z.sgn_neg s), (Z.abs_neq s) in Hd by lia.
    replace (Z.quot (e * (s + d)) s) with (Z.quot (e * - (s + d)) (- s)).
    + apply quot_shares; lia.
    + rewrite Z.mul_opp_r, Z.quot_opp_opp; lia.
  - rewrite (Z.sgn_pos s), (Z.abs_eq s) in Hd by lia.
    replace (Z.quot (e * d) (- s)) with (Z.quot (e * - d) s).
    + apply quot_shares; lia.
    + rewrite Z.mul_opp_r, Z.quot_opp_l, Z.quot_opp_r; lia.
Qed.

(** ** Machine integers *)

Definition U64 : Z := 2 ^ 64.
Definition wrap64 (z : Z) : Z := z mod U64.

(** [math.Int.Uint64()]: panics outside of [0, 2^64). *)
Definition to_uint64 {E} (z : Z) : res E Z :=
  if (0 <=? z) && (z <? U64) then Ok z else Panic.

(** [math.Int.Int64()]: panics outside of [-2^63, 2^63). *)
Definition to_int64 {E} (z : Z) : res E Z :=
  if (- 2 ^ 63 <=? z) && (z <? 2 ^ 63) then Ok z else Panic.

Lemma to_uint64_total {E} z : to_uint64 (E:=E) z <> NoFuel.
Proof. unfold to_uint64. by case_match. Qed.
Lemma to_int64_total {E} z : to_int64 (E:=E) z <> NoFuel.
Proof. unfold to_int64. by case_match. Qed.
#[export] Hint Resolve to_uint64_total to_int64_total : total.

(** A conversion to [uint32] keeps the low 32 bits. *)
Definition wrap32 (z : Z) : Z := z mod 2 ^ 32.

(** [int64(x)] of an unsigned value, and int64 arithmetic. *)
Definition wrapi64 (z : Z) : Z := (z + 2 ^ 63) mod 2 ^ 64 - 2 ^ 63.

Lemma wrap64_id z : 0 <= z < U64 -> wrap64 z = z.
Proof. apply Z.mod_small. Qed.

Lemma wrap32_id z : 0 <= z < 2 ^ 32 -> wrap32 z = z.
Proof. apply Z.mod_small. Qed.

Lemma wrapi64_id z : - 2 ^ 63 <= z < 2 ^ 63 -> wrapi64 z = z.
Proof. intros. unfold wrapi64. rewrite Z.mod_small; lia. Qed.

(** ** Ordered iteration of stores

    The store iterates a collection in the byte order of its keys: the
    big-endian integer encodings make that the order of the integers, and
    the lexicographic order of pairs and triples. *)

Class KeyOrder (K : Type) := { key_le : K -> K -> bool }.
#[global] Instance Z_key : KeyOrder Z := {| key_le := Z.leb |}.
#[global] Instance prod_key {A B} `{KeyOrder A, KeyOrder B, EqDecision A} : KeyOrder (A * B) :=
  {| key_le x y := if decide (x.1 = y.1) then key_le x.2 y.2 else key_le x.1 y.1 |}.
Fixpoint lex_le {A} `{KeyOrder A, EqDecision A} (x y : list A) : bool :=
  match x, y with
  | [], _ => true
  | _ :: _, [] => false
  | a :: x, b :: y => if decide (a = b) then lex_le x y else key_le a b
  end.
#[global] Instance list_key {A} `{KeyOrder A, EqDecision A} : KeyOrder (list A) :=
  {| key_le := lex_le |}.

Definition key_leR {K} `{KeyOrder K} (x y : K) : Prop := key_le x y = true.
#[global] Instance key_leR_dec {K} `{KeyOrder K} : RelDecision (@key_leR K _).
Proof. intros x y. unfold key_leR. apply _. Defined.

Definition rowR {K V} `{KeyOrder K} (x y : K * V) : Prop := key_leR x.1 y.1.
#[global] Instance rowR_dec {K V} `{KeyOrder K} : RelDecision (@rowR K V _).
Proof. intros x y. unfold rowR. apply _. Defined.

(** The rows of a map in key order. *)
Definition rows {K V} `{KeyOrder K, Countable K} (m : gmap K V) : list (K * V) :=
  merge_sort rowR (map_to_list m).

(** The keys of a key set in order. *)
Definition keys {K} `{KeyOrder K, Countable K} (s : gset K) : list K :=
  merge_sort key_leR (elements s).

Lemma rows_perm {K V} `{KeyOrder K, Countable K} (m : gmap K V) :
  rows m ≡ₚ map_to_list m.
Proof. apply merge_sort_Permutation. Qed.

Lemma keys_perm {K} `{KeyOrder K, Countable K} (s : gset K) : keys s ≡ₚ elements s.
Proof. apply merge_sort_Permutation. Qed.

Lemma elem_of_rows {K V} `{KeyOrder K, Countable K} (m : gmap K V) k v :
  (k, v) ∈ rows m <-> m !! k = Some v.
Proof. by rewrite rows_perm, elem_of_map_to_list. Qed.

Lemma elem_of_keys {K} `{KeyOrder K, Countable K} (s : gset K) k : k ∈ keys s <-> k ∈ s.
Proof. by rewrite keys_perm, elem_of_elements. Qed.

(** The laws of a key order, which make an iteration sorted. *)
Class KeyOrderOk (K : Type) `{KeyOrder K} : Prop := {
  key_le_total : forall x y : K, key_le x y = true \/ key_le y x = true;
  key_le_trans : forall x y z : K, key_le x y = true -> key_le y z = true -> key_le x z = true;
  key_le_anti : forall x y : K, key_le x y = true -> key_le y x = true -> x = y
}.

#[global] Instance Z_key_ok : KeyOrderOk Z.
Proof. split; cbn; intros; breflect; rewrite ?Z.leb_le in *; lia. Qed.

#[global] Instance prod_key_ok {A B} `{KeyOrder A, KeyOrder B, EqDecision A, !KeyOrderOk A, !KeyOrderOk B} :
  KeyOrderOk (A * B).
Proof.
  split.
  - intros [a b] [a' b']; cbn. destruct (decide (a = a')) as [->|Hne].
    + rewrite decide_True by done. apply key_le_total.
    + rewrite decide_False by congruence. apply key_le_total.
  - intros [a b] [a' b'] [a'' b'']; cbn. intros H1 H2.
    repeat case_decide; subst; try done; eauto using key_le_trans.
    exfalso. eauto using key_le_anti.
  - intros [a b] [a' b']; cbn. intros H1 H2.
    repeat case_decide; subst; try done; f_equal; eauto using key_le_anti.
    exfalso; eauto using key_le_anti.
Qed.

#[global] Instance list_key_ok {A} `{KeyOrder A, EqDecision A, !KeyOrderOk A} : KeyOrderOk (list A).
Proof.
  split; cbn.
  - intros x. induction x as [|a x IH]; intros [|b y]; cbn; auto.
    destruct (decide (a = b)) as [->|Hne].
    + rewrite decide_True by done. apply IH.
    + rewrite decide_False by congruence. apply key_le_total.
  - intros x. induction x as [|a x IH]; intros [|b y] [|d z]; cbn; auto; try done.
    intros H1 H2. repeat case_decide; subst; try done; eauto using key_le_trans.
    exfalso. eauto using key_le_anti.
  - intros x. induction x as [|a x IH]; intros [|b y]; cbn; auto; try done.
    intros H1 H2. repeat case_decide; subst; try done; [f_equal; eauto|].
    exfalso; eauto using key_le_anti.
Qed.

Section sorted_rows.
Context {K V : Type} `{KeyOrder K, Countable K, !KeyOrderOk K}.

Lemma rows_sorted (m : gmap K V) : StronglySorted rowR (rows m).
Proof.
  assert (Total (@rowR K V _)) by (intros ??; apply key_le_total).
  assert (Transitive (@rowR K V _)).
  { intros x y z. unfold rowR, key_leR. apply key_le_trans. }
  apply (StronglySorted_merge_sort _).
Qed.

(** The first row that passes a test is the least one that does. *)
Lemma head_filter_rows (P : K * V -> Prop) `{!forall x, Decision (P x)} (m : gmap K V) x :
  head (filter P (rows m)) = Some x ->
  m !! x.1 = Some x.2 /\ P x /\
  forall k v, m !! k = Some v -> P (k, v) -> key_le x.1 k = true.
Proof.
  intros Hh. assert (x ∈ filter P (rows m)) as Hin.
  { destruct (filter P (rows m)); cbn in Hh; simplify_eq. apply list_elem_of_here. }
  apply list_elem_of_filter in Hin as [HP Hin]. destruct x as [kx vx].
  split; [by apply elem_of_rows|]. split; [done|]. intros k v Hk HPk.
  assert (forall l, StronglySorted rowR l -> head (filter P l) = Some (kx, vx) ->
    (k, v) ∈ l -> key_le kx k = true) as Hgen.
  { induction l as [|y l IH]; intros Hs Hhd Hel; [by apply not_elem_of_nil in Hel|].
    apply StronglySorted_inv in Hs as [Hs Hall]. rewrite filter_cons in Hhd.
    apply elem_of_cons in Hel as [<-|Hel].
    - rewrite decide_True in Hhd by done. cbn in Hhd. simplify_eq. by destruct (key_le_total kx kx).
    - destruct (decide (P y)); cbn in Hhd; [simplify_eq|by apply IH].
      rewrite Forall_forall in Hall. by apply (Hall (k, v)). }
  apply (Hgen _ (rows_sorted m) Hh). by apply elem_of_rows.
Qed.

Lemma head_filter_rows_none (P : K * V -> Prop) `{!forall x, Decision (P x)} (m : gmap K V) :
  head (filter P (rows m)) = None -> forall k v, m !! k = Some v -> ~ P (k, v).
Proof.
  intros Hh k v Hk HP. destruct (filter P (rows m)) eqn:E; [|done].
  assert ((k, v) ∈ filter P (rows m)) as Hin by by apply list_elem_of_filter; rewrite elem_of_rows.
  rewrite E in Hin. by apply not_elem_of_nil in Hin.
Qed.
End sorted_rows.

(** ** Sums over maps *)

Fixpoint lsum {A} (f : A -> Z) (l : list A) : Z :=
  match l with [] => 0 | a :: l => f a + lsum f l end.

Lemma lsum_app {A} (f : A -> Z) l1 l2 : lsum f (l1 ++ l2) = lsum f l1 + lsum f l2.
Proof. induction l1; cbn; lia. Qed.

Lemma lsum_perm {A} (f : A -> Z) l1 l2 : l1 ≡ₚ l2 -> lsum f l1 = lsum f l2.
Proof. induction 1; cbn; lia. Qed.

Lemma lsum_ext {A} (f g : A -> Z) l : (forall a, a ∈ l -> f a = g a) -> lsum f l = lsum g l.
Proof.
  induction l as [|a l IH]; intros H; cbn; [done|].
  rewrite (H a) by set_solver. rewrite IH; [done|]. set_solver.
Qed.

Lemma lsum_fmap {A B} (f : B -> Z) (g : A -> B) l : lsum f (g <$> l) = lsum (fun a => f (g a)) l.
Proof. induction l; cbn; lia. Qed.

Lemma lsum_nonneg {A} (f : A -> Z) l : (forall a, a ∈ l -> 0 <= f a) -> 0 <= lsum f l.
Proof.
  induction l as [|a l IH]; intros H; cbn; [done|].
  pose proof (H a ltac:(set_solver)).
  pose proof (IH ltac:(set_solver)). lia.
Qed.

Lemma filter_id {A} (P : A -> Prop) `{!forall x, Decision (P x)} (l : list A) : (forall x, x ∈ l -> P x) -> filter P l = l.
Proof.
  intros Hp. induction l as [|a l IH]; [done|]. rewrite filter_cons_True by (apply Hp; apply list_elem_of_here).
  f_equal. apply IH. intros x Hx. by apply Hp, list_elem_of_further.
Qed.

Lemma lsum_filter_le {A} (f : A -> Z) (P : A -> Prop) `{!forall x, Decision (P x)} l :
  (forall a, a ∈ l -> 0 <= f a) -> lsum f (filter P l) <= lsum f l.
Proof.
  intros Hf. induction l as [|a l IH]; [done|]. pose proof (Hf a (list_elem_of_here _ _)).
  rewrite filter_cons. specialize (IH (fun b Hb => Hf b (list_elem_of_further _ _ _ Hb))). case_decide; cbn; lia.
Qed.

Section msum.
Context {K V : Type} `{Countable K}.
Implicit Types (f : V -> Z) (m : gmap K V).

(** Sum of [f] over the rows of a map. *)
Definition msum f m : Z := lsum (fun kv => f kv.2) (map_to_list m).

Lemma msum_empty f : msum f ∅ = 0.
  Proof. unfold msum. by rewrite map_to_list_empty. Qed.

Lemma msum_insert_new f m k v :
    m !! k = None -> msum f (<[k := v]> m) = f v + msum f m.
  Proof.
    intros Hk. unfold msum. rewrite (lsum_perm _ _ _ (map_to_list_insert m k v Hk)). done.
  Qed.

Lemma msum_delete f m k v : m !! k = Some v -> msum f (delete k m) = msum f m - f v.
  Proof.
    intros Hk. rewrite <- (insert_delete_id m k v Hk) at 2.
    rewrite msum_insert_new by apply lookup_delete_eq. lia.
  Qed.

(** Overwriting one row changes the sum by that row only. *)
Lemma msum_insert f m k v :
    msum f (<[k := v]> m) = msum f m - default 0 (f <$> m !! k) + f v.
  Proof.
    destruct (m !! k) as [w|] eqn:Hk; cbn.
    - rewrite <- insert_delete_eq.
      rewrite msum_insert_new by apply lookup_delete_eq.
      rewrite (msum_delete f m k w Hk). lia.
    - rewrite msum_insert_new by done. lia.
  Qed.

Lemma msum_ext f g m : (forall k v, m !! k = Some v -> f v = g v) -> msum f m = msum g m.
  Proof.
    intros Hfg. apply lsum_ext. intros [k v] Hin%elem_of_map_to_list. eauto.
  Qed.
End msum.

Section ksum.
Context {K V : Type} `{Countable K}.
Implicit Types (f : K * V -> Z) (m : gmap K V).

(** Sum over the rows of a map of a function of the key and the value. *)
Definition ksum f m : Z := lsum f (map_to_list m).

Lemma ksum_insert_new f m k v :
  m !! k = None -> ksum f (<[k := v]> m) = f (k, v) + ksum f m.
Proof. intros Hk. unfold ksum. by rewrite (lsum_perm _ _ _ (map_to_list_insert m k v Hk)). Qed.

Lemma ksum_zero f m : (forall k v, m !! k = Some v -> f (k, v) = 0) -> ksum f m = 0.
Proof.
  induction m as [|k v m Hk IH] using map_ind; [done|]. intros Hf. rewrite ksum_insert_new by done.
  rewrite (Hf k v) by apply lookup_insert_eq. rewrite IH; [done|]. intros k' v' Hk'. apply Hf.
  rewrite lookup_insert_ne; [done|]. intros ->. congruence.
Qed.

Lemma ksum_delete f m k v : m !! k = Some v -> ksum f (delete k m) = ksum f m - f (k, v).
Proof.
  intros Hk. rewrite <- (insert_delete_id m k v Hk) at 2.
  rewrite ksum_insert_new by apply lookup_delete_eq. lia.
Qed.

Lemma ksum_update f m k v w :
  m !! k = Some v -> ksum f (<[k := w]> m) = ksum f m - f (k, v) + f (k, w).
Proof.
  intros Hk. rewrite <- insert_delete_eq, ksum_insert_new by apply lookup_delete_eq.
  rewrite (ksum_delete f m k v Hk). lia.
Qed.
Lemma ksum_ge f m k v :
  (forall k v, m !! k = Some v -> 0 <= f (k, v)) -> m !! k = Some v -> f (k, v) <= ksum f m.
Proof.
  intros Hf Hk. rewrite <- (Z.sub_add (f (k, v)) (ksum f m)), <- (ksum_delete f m k v Hk).
  assert (0 <= ksum f (delete k m)); [|lia].
  apply lsum_nonneg. intros [k' v'] Hin%elem_of_map_to_list.
  apply lookup_delete_Some in Hin as [_ Hin]. eauto.
Qed.
Lemma ksum_subseteq f (m1 m2 : gmap K V) :
  m1 ⊆ m2 -> (forall k v, m2 !! k = Some v -> 0 <= f (k, v)) -> ksum f m1 <= ksum f m2.
Proof.
  revert m2. induction m1 as [|k v m1 Hk IH] using map_ind; intros m2 Hsub Hf.
  - unfold ksum at 1. rewrite map_to_list_empty. cbn.
    apply lsum_nonneg. intros [k v] Hkv%elem_of_map_to_list. by apply Hf.
  - assert (m2 !! k = Some v) as Hm by (by apply (lookup_weaken (<[k := v]> m1)); [rewrite lookup_insert_eq|]).
    rewrite ksum_insert_new by done. assert (ksum f m1 <= ksum f (delete k m2)).
    + apply IH; [|intros k' v' ?%lookup_delete_Some; naive_solver].
      rewrite <- (delete_insert_id m1 k v Hk). by apply delete_mono.
    + rewrite (ksum_delete f m2 k v Hm) in *. lia.
Qed.
End ksum.

(** A predicate every outcome of a method keeps. *)
Definition stable {S E A} (P : S -> Prop) (m : M S E A) : Prop := forall s, P s -> P (m s).2.

Lemma stable_bind {S E A B} (P : S -> Prop) (m : M S E A) (k : A -> M S E B) :
  stable P m -> (forall a, stable P (k a)) -> stable P (m ≫= k).
Proof.
  intros Hm Hk s Hs. specialize (Hm s Hs). unfold mbind, M_bind.
  destruct (m s) as [[] s1]; cbn in *; [by apply Hk|done..].
Qed.

Lemma stable_frames {S E A T} (f : S -> T) (P : S -> Prop) (m : M S E A) :
  frames f m -> (forall s s', f s' = f s -> P s -> P s') -> stable P m.
Proof. intros Hm HP s Hs. exact (HP _ _ (Hm s) Hs). Qed.

Lemma stable_ret {S E A} (P : S -> Prop) (a : A) : stable P (mret a : M S E A).
Proof. intros s Hs. exact Hs. Qed.

Lemma stable_attempt {S E A} (P : S -> Prop) (m : M S E A) : stable P m -> stable P (attempt m).
Proof. intros Hm s Hs. specialize (Hm s Hs). unfold attempt. by destruct (m s) as [[] ?]. Qed.

Lemma stable_forM {S E A} (P : S -> Prop) (g : A -> M S E unit) l : (forall a, stable P (g a)) -> stable P (forM g l).
Proof. intros Hg. induction l; [by intros ? ?|]. apply stable_bind; auto. Qed.

Lemma stable_run {S E A} (P : S -> Prop) (m : M S E A) s r s' : stable P m -> m s = (r, s') -> P s -> P s'.
Proof. intros Hm Hr Hs. specialize (Hm s Hs). by rewrite Hr in Hm. Qed.

(** After a first part that succeeds, the rest runs from its result. *)
Lemma bind_state {S E A B} (P : S -> Prop) (m : M S E A) (k : A -> M S E B) s :
  P (m s).2 -> (forall a s1, m s = (Ok a, s1) -> P (k a s1).2) -> P ((m ≫= k) s).2.
Proof.
  unfold mbind, M_bind. intros H1 H2. destruct (m s) as [[a|e| |] s1]; cbn in *; [|done..].
  exact (H2 a s1 eq_refl).
Qed.

(** A postcondition on outcomes, through one bind. *)
Lemma bind_post {S E A B} (P : res E B * S -> Prop) (m : M S E A) (k : A -> M S E B) s :
  match m s with
  | (Ok a, s1) => P (k a s1)
  | (Err e, s1) => P (Err e, s1)
  | (Panic, s1) => P (Panic, s1)
  | (NoFuel, s1) => P (NoFuel, s1)
  end -> P ((m ≫= k) s).
Proof. unfold mbind, M_bind. by destruct (m s) as [[] ?]. Qed.

Lemma bind_total_at {S E A B} (m : M S E A) (k : A -> M S E B) s :
  (m s).1 <> NoFuel -> (forall a s1, m s = (Ok a, s1) -> (k a s1).1 <> NoFuel) ->
  ((m ≫= k) s).1 <> NoFuel.
Proof.
  unfold mbind, M_bind. intros Hm Hk. destruct (m s) as [[a|e| |] s1]; [|done..]. by apply Hk.
Qed.

Lemma bind_ext {S E A B} (m m' : M S E A) (k k' : A -> M S E B) s :
  m s = m' s -> (forall a s1, m' s = (Ok a, s1) -> k a s1 = k' a s1) -> (m ≫= k) s = (m' ≫= k') s.
Proof.
  unfold mbind, M_bind. intros -> Hk. destruct (m' s) as [[a|e| |] s1]; [|done..]. by apply Hk.
Qed.

(** ** Runs that return and keep an invariant

    [safe P m]: from a state in [P] the method returns a value or an error
    (no panic, no exhausted loop) and leaves [P] intact whichever it is. *)

Definition returned {E A} (r : res E A) : Prop :=
  match r with Ok _ | Err _ => True | Panic | NoFuel => False end.

Definition safe_at {S E A} (P : S -> Prop) (m : M S E A) (s : S) : Prop :=
  returned (m s).1 /\ P (m s).2.

Definition safe {S E A} (P : S -> Prop) (m : M S E A) : Prop := forall s, P s -> safe_at P m s.

Section returned.
Context {E : Type}.

Lemma returned_bind {A B} (m : res E A) (k : A -> res E B) :
  returned m -> (forall a, returned (k a)) -> returned (m ≫= k).
Proof. destruct m; cbn; auto. Qed.

Lemma returned_foldM {A B} (f : B -> A -> res E B) l b :
  (forall b a, returned (f b a)) -> returned (foldM f b l).
Proof. intros Hf. revert b. induction l; intros b; cbn; [done|]. apply returned_bind; auto. Qed.

Lemma returned_ensure (b : bool) (e : E) : returned (ensure b e).
Proof. by destruct b. Qed.

Lemma returned_of_option {A} (o : option A) (e : E) : returned (of_option o e).
Proof. by destruct o. Qed.
End returned.

Section safe.
Context {S E : Type} (P : S -> Prop).

Lemma safe_at_bind {A B} (m : M S E A) (k : A -> M S E B) s :
  safe_at P m s -> (forall a s1, m s = (Ok a, s1) -> P s1 -> safe_at P (k a) s1) -> safe_at P (m ≫= k) s.
Proof.
  unfold safe_at, mbind, M_bind. intros [H1 H2] Hk.
  destruct (m s) as [[a|e| |] s1]; cbn in *; [|done..]. by apply Hk.
Qed.

Lemma safe_run {A} (m : M S E A) s : safe P m -> P s -> safe_at P m s.
Proof. intros Hm. apply Hm. Qed.

Lemma safe_at_ret {A} (a : A) s : P s -> safe_at P (mret a : M S E A) s.
Proof. by split. Qed.

Lemma safe_at_lift {A} (r : res E A) s : returned r -> P s -> safe_at P (lift r) s.
Proof. by split. Qed.

Lemma safe_at_reads {A} (f : S -> res E A) s : returned (f s) -> P s -> safe_at P (reads f) s.
Proof. by split. Qed.

Lemma safe_at_modify (g : S -> S) s : P (g s) -> safe_at P (modify (E:=E) g) s.
Proof. by split. Qed.

Lemma safe_at_map_err {A} (g : E -> E) (m : M S E A) s : safe_at P m s -> safe_at P (map_err g m) s.
Proof. unfold safe_at, map_err. by destruct (m s) as [[] ?]. Qed.

(** A swallowed error is a success, so an [attempt] never fails. *)
Lemma safe_at_attempt {A} (m : M S E A) s :
  safe_at P m s -> exists o s', attempt m s = (Ok o, s') /\ P s' /\ safe_at P (attempt m) s.
Proof. unfold safe_at, attempt. destruct (m s) as [[] ?]; cbn; naive_solver. Qed.

Lemma safe_at_forM {A} (f : A -> M S E unit) l s :
  (forall a, a ∈ l -> safe P (f a)) -> P s -> safe_at P (forM f l) s.
Proof.
  revert s. induction l as [|a l IH]; intros s Hf Hs; [by split|].
  apply safe_at_bind; [apply Hf; [set_solver|done]|]. intros _ s1 _ H1. apply IH; [set_solver|done].
Qed.

Lemma safe_frames {A T} (f : S -> T) (m : M S E A) :
  frames f m -> (forall s s', f s' = f s -> P s -> P s') -> (forall s, returned (m s).1) -> safe P m.
Proof. intros Hm HP Hs s Hp. split; [apply Hs|]. exact (HP _ _ (Hm s) Hp). Qed.
End safe.

Create HintDb safe discriminated.
#[export] Hint Resolve returned_ensure returned_of_option : safe.

(** Proves [returned r] or [safe_at P m s] by going through the body. *)
Ltac solve_safe :=
  repeat (intros; cbv beta zeta; first
    [ exact I
    | assumption
    | solve [auto 2 with safe]
    | apply safe_run; [solve [auto 1 with safe]|]
    | lazymatch goal with
      | |- returned (_ ≫= _) => apply returned_bind
      | |- returned (foldM _ _ _) => apply returned_foldM
      | |- safe_at _ (_ ≫= _) _ => apply safe_at_bind
      | |- safe_at _ (mret _) _ => apply safe_at_ret
      | |- safe_at _ (reads _) _ => apply safe_at_reads
      | |- safe_at _ (lift _) _ => apply safe_at_lift
      | |- safe_at _ (modify _) _ => apply safe_at_modify
      | |- safe_at _ (map_err _ _) _ => apply safe_at_map_err
      | |- safe_at _ (forM _ _) _ => apply safe_at_forM
      | |- safe _ _ => intros ? ?
      end
    | case_match ]).

(** [succeeds P m]: from a state in [P] the method returns a value, never an
    error, and keeps [P]. *)
Definition succeeds {S E A} (P : S -> Prop) (m : M S E A) : Prop :=
  forall s, P s -> exists a s', m s = (Ok a, s') /\ P s'.

Section succeeds.
Context {S E : Type} (P : S -> Prop).

Lemma succeeds_ret {A} (a : A) : succeeds P (mret a : M S E A).
Proof. intros s Hs. by exists a, s. Qed.

Lemma succeeds_bind {A B} (m : M S E A) (k : A -> M S E B) :
  succeeds P m -> (forall a, succeeds P (k a)) -> succeeds P (m ≫= k).
Proof.
  intros Hm Hk s Hs. destruct (Hm s Hs) as (a & s1 & Hrun & H1).
  rewrite (run_bind _ _ _ _ _ Hrun). by apply Hk.
Qed.

Lemma succeeds_attempt {A} (m : M S E A) : safe P m -> succeeds P (attempt m).
Proof.
  intros Hm s Hs. destruct (safe_at_attempt P m s (Hm s Hs)) as (o & s' & ? & ? & _). eauto.
Qed.

Lemma succeeds_forM {A} (f : A -> M S E unit) l : (forall a, succeeds P (f a)) -> succeeds P (forM f l).
Proof. intros Hf. induction l; [apply succeeds_ret|]. apply succeeds_bind; auto. Qed.

Lemma succeeds_safe {A} (m : M S E A) : succeeds P m -> safe P m.
Proof. intros Hm s Hs. destruct (Hm s Hs) as (a & s' & Hrun & H1). unfold safe_at. by rewrite Hrun. Qed.

Lemma safe_stable {A} (m : M S E A) : safe P m -> stable P m.
Proof. intros Hm s Hs. apply (Hm s Hs). Qed.
End succeeds.

(** ** Rebuilding a store from its rows *)

Section rebuild.
Context {K V : Type} `{Countable K}.

Definition put_all (l : list (K * V)) (m : gmap K V) : gmap K V := foldl (fun m kv => <[kv.1 := kv.2]> m) m l.

Lemma put_all_lookup l m k v :
  NoDup l.*1 -> put_all l m !! k = Some v <-> (k, v) ∈ l \/ k ∉ l.*1 /\ m !! k = Some v.
Proof.
  revert m. induction l as [|[k' v'] l IH]; intros m Hnd; cbn; [set_solver|].
  apply NoDup_cons in Hnd as [Hni Hnd].
  change (foldl _ _ l) with (put_all l (<[k' := v']> m)).
  rewrite (IH _ Hnd), lookup_insert_Some, !elem_of_cons. cbn in Hni.
  assert ((k, v) ∈ l -> k ∈ l.*1) by (intros; apply list_elem_of_fmap; by exists (k, v)).
  destruct (decide (k = k')) as [->|Hne]; naive_solver.
Qed.

(** Rows stored under a key computed from the value. *)
Definition put_rows (f : V -> K) (l : list V) (m : gmap K V) : gmap K V := put_all ((fun v => (f v, v)) <$> l) m.

Lemma put_rows_cons f v l m : put_rows f (v :: l) m = put_rows f l (<[f v := v]> m).
Proof. done. Qed.

Lemma put_rows_lookup f l k v :
  NoDup (f <$> l) -> put_rows f l ∅ !! k = Some v <-> v ∈ l /\ f v = k.
Proof.
  intros Hnd. unfold put_rows. rewrite put_all_lookup by by rewrite <- list_fmap_compose.
  rewrite lookup_empty, list_elem_of_fmap. naive_solver.
Qed.
End rebuild.

Lemma NoDup_omap_strong {A B} (f : A -> option B) (l : list A) :
  (forall x y z, x ∈ l -> y ∈ l -> f x = Some z -> f y = Some z -> x = y) -> NoDup l -> NoDup (omap f l).
Proof.
  intros Hinj Hnd. induction Hnd as [|x l Hx Hnd IH]; [constructor|]. cbn.
  assert (NoDup (omap f l)) as IH' by (apply IH; intros; eapply Hinj; eauto using list_elem_of_further).
  destruct (f x) as [y|] eqn:Ey; [|done]. constructor; [|done].
  intros (x' & Hx' & Ex')%list_elem_of_omap. destruct Hx.
  by rewrite (Hinj x x' y (list_elem_of_here _ _) (list_elem_of_further _ _ _ Hx') Ey Ex').
Qed.

(** The rows of a store whose values carry their key have no key twice. *)
Lemma NoDup_keyed_rows {K V} `{Countable K, !KeyOrder K} (f : V -> K) (m : gmap K V) :
  map_Forall (fun k v => f v = k) m -> NoDup (f ∘ snd <$> rows m).
Proof.
  intros Hk. apply NoDup_fmap_2_strong.
  - intros [k1 v1] [k2 v2] H1%elem_of_rows H2%elem_of_rows E. cbn in E. rewrite (Hk _ _ H1), (Hk _ _ H2) in E. congruence.
  - rewrite rows_perm. apply NoDup_map_to_list.
Qed.

(** The values of a keyed map give the map back. *)
Lemma put_rows_id {K V} `{Countable K, !KeyOrder K} (f : V -> K) (m : gmap K V) :
  map_Forall (fun k v => f v = k) m -> put_rows f (rows m).*2 ∅ = m.
Proof.
  intros Hk. apply map_eq. intros k. apply option_eq. intros v.
  assert (NoDup (f <$> (rows m).*2)) as Hnd by (rewrite <- list_fmap_compose; by apply NoDup_keyed_rows).
  rewrite put_rows_lookup by done. rewrite list_elem_of_fmap. split.
  - intros [([k' v'] & -> & Hr%elem_of_rows) <-]. cbn. by rewrite (Hk _ _ Hr).
  - intros Hm. split; [|exact (Hk _ _ Hm)]. exists (k, v). split; [done|]. by apply elem_of_rows.
Qed.

(** The rows of a store are its values. *)
Lemma elem_of_values {K V} `{Countable K, !KeyOrder K} (m : gmap K V) v : v ∈ (rows m).*2 <-> exists k, m !! k = Some v.
Proof.
  rewrite list_elem_of_fmap. split.
  - intros ([k w] & -> & Hr%elem_of_rows). eauto.
  - intros [k Hk]. exists (k, v). split; [done|]. by apply elem_of_rows.
Qed.

Lemma list_to_set_row {A B} `{Countable B} (f : A -> option B) l x :
  list_to_set (omap f (l ++ [x])) = (list_to_set (option_list (f x)) ∪ list_to_set (omap f l) :> gset B).
Proof. rewrite omap_app, list_to_set_app_L, union_comm_L. cbn. by destruct (f x). Qed.

Lemma put_all_row {A K V} `{Countable K} (f : A -> option (K * V)) l x :
  put_all (omap f (l ++ [x])) ∅ = put_all (option_list (f x)) (put_all (omap f l) ∅).
Proof. rewrite omap_app. unfold put_all. rewrite foldl_app. cbn. by destruct (f x). Qed.

(** A counter below its floor is coerced up to it. *)
Lemma coerce_max x lo : (if x <? lo then lo else x) = Z.max lo x.
Proof. case_match; breflect; lia. Qed.

