(* ===== verification/Constants.v ===== *)
(** * Chain-wide constants

    The constants of [types/constants.go] that the modelled code reads, at
    their Go values. Indices, prices and amounts are [uint32]/[uint64]/
    [int64] constants in the source and integers here. *)

From S2P Require Import Prelude.


(** Time constants (milliseconds) (lines 15 and following) *)
Definition MinuteInMs : Z := 60000.
Definition HourInMs : Z := 3600000.

(** Funding constants. See zk-dex/l1/02-data-types.md §2.3 (lines 22 and following) *)
Definition FundingPeriod : Z := 3600000.
Definition FundingPeriodDivisor : Z := 8.
Definition MaxPremiumSampleCount : Z := 60.
Definition FundingRateTick : Z := 1000000.

(** Mark-price constants (lines 32 and following) *)
Definition MarkPremiumEmaTauMs : Z := 480000.
Definition MarkPremiumClampDivisor : Z := 200.

(** Precision / tick constants. See zk-dex/l1/02-data-types.md §2.2 (lines 44 and following) *)
Definition USDCToCollateralMultiplier : Z := 1000000.
Definition ImpactUSDCAmount : Z := 500000000.
Definition FeeTick : Z := 1000000.
Definition MarginTick : Z := 10000.
Definition ShareTick : Z := 10000.

(** Account / market index ranges. See zk-dex/l1/02-data-types.md §2.4 (lines 56 and following) *)
Definition MaxAccountIndex : Z := 281474976710654.
Definition MaxMasterAccountIndex : Z := 140737488355327.
Definition MinSubAccountIndex : Z := 140737488355328.
Definition NilMasterAccountIndex : Z := 0.
Definition TreasuryAccountIndex : Z := 0.
Definition InsuranceFundOperatorAccountIdx : Z := 1.
Definition MaxPerpsMarketIndex : Z := 254.
Definition MinSpotMarketIndex : Z := 2048.
Definition MaxSpotMarketIndex : Z := 4094.
Definition NilMarketIndex : Z := 255.
Definition FirstUserMasterAccountIndex : Z := 2.

(** Asset constants (lines 73 and following) *)
Definition USDCAssetIndex : Z := 3.
Definition NilAssetIndex : Z := 0.
Definition MinAssetIndex : Z := 1.
Definition MaxAssetIndex : Z := 62.
Definition USDCDenom : string := "uusdc".
Definition USDCDisplayName : string := "USDC".
Definition MaxAssetDecimals : Z := 18.
Definition MaxExtensionMultiplier : Z := 1000000000000000000.
Definition MaxAssetDisplayNameLen : Z := 32.

(** Order constants (lines 109 and following) *)
Definition MaxOrderPrice : Z := 4294967295.
Definition MaxOrderBaseAmount : Z := 281474976710655.
Definition MaxOrderQuoteAmount : Z := 281474976710655.
Definition FirstAskNonce : Z := 1.
Definition FirstBidNonce : Z := 281474976710655.
Definition MinClientOrderIndex : Z := 1.
Definition MaxClientOrderIndex : Z := 281474976710655.

(** Perp position bit-width bounds. POSITION_SIZE_BITS = 56 and (lines 126 and following) *)
Definition MaxPositionSize : Z := 72057594037927935.
Definition MaxEntryQuote : Z := 72057594037927935.

(** Min transfer / withdraw amounts (USDC 6-decimal external precision) (lines 134 and following) *)
Definition MinPartialTransferAmount : Z := 10000000.
Definition MinPartialWithdrawAmount : Z := 10000000.

(** Account types (lines 140 and following) *)
Definition MasterAccountType : Z := 0.
Definition SubAccountType : Z := 1.
Definition PublicPoolAccountType : Z := 2.
Definition InsuranceFundAccountType : Z := 3.

(** Account trading modes (lines 148 and following) *)
Definition AccountTradingModeSimple : Z := 0.
Definition AccountTradingModeUnified : Z := 1.

(** Public pool constants: per-pool strategy slot count, share list (lines 156 and following) *)
Definition NbStrategies : Z := 8.
Definition SharesListSize : Z := 16.
Definition InitialPoolShareValue : Z := 1000.
Definition PublicPoolStatusActive : Z := 0.
Definition PublicPoolStatusFrozen : Z := 1.
Definition DefaultLLPCooldownPeriodMs : Z := 604800000.

(** Market types & status (lines 166 and following) *)
Definition MarketTypePerps : Z := 0.
Definition MarketTypeSpot : Z := 1.
Definition MarketStatusExpired : Z := 0.
Definition MarketStatusActive : Z := 1.

(** Asset routing (lines 174 and following) *)
Definition RouteTypePerps : Z := 0.
Definition RouteTypeSpot : Z := 1.

(** Margin modes (lines 180 and following) *)
Definition MarginModeDisabled : Z := 0.
Definition MarginModeEnabled : Z := 1.
Definition CrossMargin : Z := 0.
Definition IsolatedMargin : Z := 1.
Definition RemoveMargin : Z := 0.
Definition AddMargin : Z := 1.

(** Order types (lines 190 and following) *)
Definition LimitOrder : Z := 0.
Definition MarketOrder : Z := 1.
Definition StopLossOrder : Z := 2.
Definition StopLossLimitOrder : Z := 3.
Definition TakeProfitOrder : Z := 4.
Definition TakeProfitLimitOrder : Z := 5.
Definition TWAPOrder : Z := 6.
Definition TWAPSubOrder : Z := 7.
Definition LiquidationOrder : Z := 8.

(** Time-in-force (lines 203 and following) *)
Definition IOC : Z := 0.
Definition GTT : Z := 1.
Definition PostOnly : Z := 2.

(** Trigger statuses (lines 210 and following) *)
Definition TriggerStatusNA : Z := 0.
Definition TriggerStatusMarkPrice : Z := 1.

(** Order status (lines 218 and following) *)
Definition OrderStatusOpen : Z := 0.
Definition OrderStatusPartiallyFilled : Z := 1.
Definition OrderStatusFilled : Z := 2.
Definition OrderStatusCancelled : Z := 3.
Definition OrderStatusTriggeredPending : Z := 4.

(** Health status (lines 227 and following) *)
Definition HealthHealthy : Z := 0.
Definition HealthPreLiquidation : Z := 1.
Definition HealthPartialLiquidation : Z := 2.
Definition HealthFullLiquidation : Z := 3.
Definition HealthBankruptcy : Z := 4.

(** Cancel-all modes (lines 236 and following) *)
Definition ImmediateCancelAll : Z := 0.
Definition ScheduledCancelAll : Z := 1.
Definition AbortScheduledCancelAll : Z := 2.
