(* ===== verification/Types.v ===== *)
(** * Stored records, error values and the chain state

    The protobuf records of the x/ modules (the Go structs generated from
    [proto/perpdex/*/v1]), the sentinel errors the modelled code returns,
    and the stores of the keepers. A [math.Int] field is an integer: the
    keepers normalise nil values to zero on every read
    ([NormalizeIntFields]), so a nil value is never observed. *)

From S2P Require Import Prelude.

(** ** x/account *)

Record PublicPoolShare := mkPublicPoolShare {
  sh_PublicPoolIndex : Z;
  sh_ShareAmount : Z;
  sh_PrincipalAmount : Z;
  sh_EntryTimestamp : Z
}.

Record PublicPoolInfo := mkPublicPoolInfo {
  pi_Status : Z;
  pi_OperatorFee : Z;
  pi_MinOperatorShareRate : Z;
  pi_TotalShares : Z;
  pi_OperatorShares : Z;
  pi_Strategies : list Z
}.

Record Account := mkAccount {
  acc_AccountIndex : Z;
  acc_MasterAccountIndex : Z;
  acc_OwnerAddress : string;
  acc_AccountType : Z;
  acc_AccountTradingMode : Z;
  acc_Collateral : Z;
  acc_TotalOrderCount : Z;
  acc_TotalNonCrossOrderCount : Z;
  acc_CancelAllTime : Z;
  acc_CreatedAt : Z;
  acc_PublicPoolShares : list PublicPoolShare;
  acc_PublicPoolInfo : option PublicPoolInfo
}.

Record AccountAsset := mkAccountAsset {
  aa_AccountIndex : Z;
  aa_AssetIndex : Z;
  aa_Balance : Z;
  aa_LockedBalance : Z;
  aa_MarginMode : Z
}.

(** Per-account bookkeeping that only genesis reads and writes. *)
Record AccountMeta := mkAccountMeta {
  am_AccountIndex : Z;
  am_NextClientOrderIndex : Z
}.

Record AccountPosition := mkAccountPosition {
  pos_AccountIndex : Z;
  pos_MarketIndex : Z;
  pos_BaseSize : Z;
  pos_EntryQuote : Z;
  pos_LastFundingRatePrefixSum : Z;
  pos_InitialMarginFraction : Z;
  pos_MarginMode : Z;
  pos_AllocatedMargin : Z;
  pos_TotalOrderCount : Z;
  pos_TotalPositionTiedOrderCount : Z;
  pos_CreatedAt : Z
}.

Record AccountParams := mkAccountParams {
  ap_TreasuryAccountIndex : Z;
  ap_InsuranceFundAccountIndex : Z;
  ap_MinPartialTransferAmount : Z;
  ap_MinPartialWithdrawAmount : Z;
  ap_LiquidityPoolIndex : Z;
  ap_LiquidityPoolCooldownPeriodMs : Z
}.

(** ** x/asset *)

Record Asset := mkAsset {
  as_AssetIndex : Z;
  as_Denom : string;
  as_DisplayName : string;
  as_Decimals : Z;
  as_ExtensionMultiplier : Z;
  as_MinTransferAmount : Z;
  as_MinWithdrawalAmount : Z;
  as_MarginMode : Z;
  as_Enabled : bool;
  as_CreatedAt : Z
}.

(** ** x/market *)

Record Market := mkMarket {
  mkt_MarketIndex : Z;
  mkt_Status : Z;
  mkt_MarketType : Z;
  mkt_BaseAssetId : Z;
  mkt_QuoteAssetId : Z;
  mkt_TakerFee : Z;
  mkt_MakerFee : Z;
  mkt_LiquidationFee : Z;
  mkt_SizeExtensionMultiplier : Z;
  mkt_QuoteExtensionMultiplier : Z;
  mkt_MinBaseAmount : Z;
  mkt_MinQuoteAmount : Z;
  mkt_OrderQuoteLimit : Z;
  mkt_ExpiryTimestamp : Z;
  mkt_CreatedAt : Z;
  mkt_MaxOpenOrdersPerAccount : Z
}.

Record MarketDetails := mkMarketDetails {
  md_MarketIndex : Z;
  md_DefaultInitialMarginFraction : Z;
  md_MinInitialMarginFraction : Z;
  md_MaintenanceMarginFraction : Z;
  md_CloseOutMarginFraction : Z;
  md_QuoteMultiplier : Z;
  md_InterestRate : Z;
  md_FundingRatePrefixSum : Z;
  md_AggregatePremiumSum : Z;
  md_ImpactBidPrice : Z;
  md_ImpactAskPrice : Z;
  md_ImpactPrice : Z;
  md_OpenInterest : Z;
  md_IndexPrice : Z;
  md_MarkPrice : Z;
  md_FundingClampSmall : Z;
  md_FundingClampBig : Z;
  md_OpenInterestLimit : Z;
  md_AskNonce : Z;
  md_BidNonce : Z;
  md_TotalOrderCount : Z;
  md_TotalPremiumSamples : Z;
  md_LastPremiumSampleTimestamp : Z;
  md_LastMarkPriceRefreshTimestamp : Z;
  md_MarkPremiumEma : Z
}.

Record MarketParams := mkMarketParams {
  mp_MaxPerpsMarketIndex : Z;
  mp_MinSpotMarketIndex : Z;
  mp_MaxSpotMarketIndex : Z;
  mp_MaxMarketsExpiredPerBlock : Z;
  mp_MaxMarkPriceStalenessMs : Z
}.

(** ** x/orderbook *)

Record Order := mkOrder {
  ord_OrderIndex : Z;
  ord_ClientOrderIndex : Z;
  ord_OwnerAccountIndex : Z;
  ord_MarketIndex : Z;
  ord_IsAsk : bool;
  ord_OrderType : Z;
  ord_TimeInForce : Z;
  ord_ReduceOnly : bool;
  ord_Price : Z;
  ord_Nonce : Z;
  ord_InitialBaseAmount : Z;
  ord_RemainingBaseAmount : Z;
  ord_TriggerPrice : Z;
  ord_TriggerStatus : Z;
  ord_Expiry : Z;
  ord_CreatedAt : Z;
  ord_Status : Z
}.

Record OrderBookEntry := mkOrderBookEntry {
  ent_OrderIndex : Z;
  ent_OwnerAccountIndex : Z;
  ent_Price : Z;
  ent_Nonce : Z;
  ent_RemainingBaseAmount : Z;
  ent_Expiry : Z;
  ent_ReduceOnly : bool;
  ent_OrderType : Z
}.

Record PriceLevelAggregate := mkPriceLevelAggregate {
  pl_MarketIndex : Z;
  pl_Price : Z;
  pl_AskBaseSum : Z;
  pl_AskQuoteSum : Z;
  pl_BidBaseSum : Z;
  pl_BidQuoteSum : Z;
  pl_AskCount : Z;
  pl_BidCount : Z
}.

(** ** x/oracle, x/funding, x/matching, x/liquidation *)

Record OraclePrice := mkOraclePrice {
  op_MarketIndex : Z;
  op_IndexPrice : Z;
  op_MarkPrice : Z;
  op_LastUpdatedTimestamp : Z;
  op_LastUpdatedHeight : Z;
  op_ParticipantCount : Z;
  op_TotalVotingPower : Z
}.

Record OracleParams := mkOracleParams {
  orp_MaxAgeMs : Z;
  orp_MarkPriceEmaAlpha : Z;
  orp_MinVotingPowerRatio : Z;
  orp_DeviationThresholdBps : Z;
  orp_VoteExtensionEnabled : bool
}.

Record FundingParams := mkFundingParams {
  fp_FundingPeriodMs : Z;
  fp_FundingPeriodDivisor : Z;
  fp_MaxPremiumSampleCount : Z
}.

Record MatchingParams := mkMatchingParams {
  mtp_MaxFillsPerMsg : Z;
  mtp_MaxCancelsPerMsg : Z
}.

Record LiquidationParams := mkLiquidationParams {
  lp_MaxAdlAttemptsPerBlock : Z;
  lp_MaxAdlCandidatesPerVictim : Z
}.

(** ** Sentinel errors

    One constructor per registered error the modelled code returns, tagged
    by its module. [Wrapf] keeps the sentinel, so the text is dropped. *)

Inductive AccountError :=
| ErrInvalidAuthority | ErrAccountNotFound | ErrUnauthorized | ErrInvalidParams
| ErrInsufficientFunds | ErrInvalidRoute | ErrAssetDisabled | ErrAssetNotMargin
| ErrAmountTooSmall | ErrInvalidAccountType | ErrInvalidMarginAction
| ErrPositionNotIsolated | ErrPositionNotEmpty | ErrAccountIndexExceed
| ErrRiskRegression | ErrInvalidTradingMode | ErrPoolFrozen | ErrPoolNotActive
| ErrCooldownNotElapsed | ErrOperatorRateViolation | ErrNotInsuranceFund
| ErrInvalidStrategyIdx | ErrPoolMustBeEmpty | ErrSharesListFull
| ErrInsufficientShares | ErrInvalidPoolUpdate | ErrInvalidPoolAccount
| ErrPoolGenericMsg | ErrInvalidMarginMode | ErrInvalidDepositorIndex | ErrAccountExists.

Inductive MarketError :=
| ErrMarketNotFound | ErrMarketExists | ErrInvalidMarket | ErrMarketIndexExceed
| ErrInvalidMarginChain | ErrNonceExhausted | ErrOpenInterestLimit
| ErrMarketInvalidParams | ErrMarketInvalidAuthority
| ErrZeroMarkPrice | ErrStaleMarkPrice | ErrMissingPrice.

Inductive BookError :=
| ErrOrderNotFound | ErrInvariantViolated | ErrQuoteOverflow
| ErrPriceLevelOverflow | ErrOrderNotCancelable | ErrOrderExists.

Inductive TradeError :=
| ErrMakerRiskRegression | ErrMakerInsufficientBalance
| ErrTakerRiskRegression | ErrTakerInsufficientBalance
| ErrMakerInvalidPosition | ErrTakerInvalidPosition
| ErrMakerInsufficientCollateral | ErrTakerInsufficientCollateral
| ErrInvalidTransferAmount
(** the package-private [errPositionOutOfBounds] of x/trade/keeper/perp *)
| errPositionOutOfBounds.

Inductive MatchingError :=
| ErrInvalidOrder | ErrMatchUnauthorized | ErrPostOnlyCross | ErrReduceOnlyViolated
| ErrPoolCannotPlaceOrder | ErrDuplicateClientOrder | ErrMatchOrderNotCancelable
| ErrUnimplemented | ErrQuoteLimitExceeded | ErrAccountUnderLiquidation
| ErrTooManyOpenOrders | ErrMatchInvalidParams | ErrMatchInvalidAuthority
(** the package-private [errTakerRejected] of x/matching/keeper *)
| errTakerRejected.

Inductive LiquidationError :=
| ErrNotLiquidatable | ErrNotBankrupt | ErrLiqInvalidParams | ErrLiqUnauthorized
| ErrInvalidADLCounterparty | ErrInsufficientCollateral.

Inductive OracleError :=
| ErrPriceNotFound | ErrStalePrice | ErrInvalidPrice | ErrOracleInvalidParams
| ErrOracleInvalidAuthority
(** a plain error in [GenesisState.Validate] *)
| ErrDuplicatePrice.

Inductive AssetError :=
| ErrAssetNotFound | ErrAssetExists | ErrInvalidAssetParams | ErrUSDCMarginConstraint
| ErrAssetIndexExceedsMax | ErrInvalidModuleParams | ErrAssetInvalidAuthority.

Inductive Error :=
| EAccount (e : AccountError)
| EMarket (e : MarketError)
| EBook (e : BookError)
| ETrade (e : TradeError)
| EMatching (e : MatchingError)
| ELiquidation (e : LiquidationError)
| EOracle (e : OracleError)
| EAsset (e : AssetError)
(** [collections.ErrNotFound], where the code does not translate it *)
| ENotFound
(** [sdkerrors.ErrInvalidAddress] *)
| EInvalidAddress
(** an error returned by a keeper outside the repository (the bank) *)
| EBank.

#[global] Instance AccountError_eq : EqDecision AccountError. Proof. solve_decision. Defined.
#[global] Instance MarketError_eq : EqDecision MarketError. Proof. solve_decision. Defined.
#[global] Instance BookError_eq : EqDecision BookError. Proof. solve_decision. Defined.
#[global] Instance TradeError_eq : EqDecision TradeError. Proof. solve_decision. Defined.
#[global] Instance MatchingError_eq : EqDecision MatchingError. Proof. solve_decision. Defined.
#[global] Instance LiquidationError_eq : EqDecision LiquidationError. Proof. solve_decision. Defined.
#[global] Instance OracleError_eq : EqDecision OracleError. Proof. solve_decision. Defined.
#[global] Instance AssetError_eq : EqDecision AssetError. Proof. solve_decision. Defined.
#[global] Instance Error_eq : EqDecision Error. Proof. solve_decision. Defined.

(** ** Keeper stores *)

(** [x/account/keeper/keeper.go]: the collections of the account keeper. *)
Record AccountStore := mkAccountStore {
  ast_Params : AccountParams;
  ast_Accounts : gmap Z Account;
  ast_OwnerToIndex : gmap string Z;
  ast_AccountAssets : gmap (Z * Z) AccountAsset;
  ast_AccountPositions : gmap (Z * Z) AccountPosition;
  ast_NextMasterIndex : Z;
  ast_NextSubIndex : Z;
  ast_MasterSubAccounts : gset (Z * Z);
  ast_AccountMetas : gmap Z AccountMeta
}.

(** [x/market/keeper/keeper.go]: the collections of the market keeper. *)
Record MarketStore := mkMarketStore {
  mst_Params : MarketParams;
  mst_Markets : gmap Z Market;
  mst_MarketDetails : gmap Z MarketDetails;
  mst_ExpiryIndex : gset (Z * Z)
}.

(** [x/orderbook/keeper/keeper.go]: the collections of the orderbook
    keeper. A sortable key is its byte string. *)
Record BookStore := mkBookStore {
  bst_Orders : gmap Z Order;
  bst_NextOrderIndex : Z;
  bst_OrderBookEntries : gmap (Z * list Z) OrderBookEntry;
  bst_OrderToSortKey : gmap (Z * Z) (list Z);
  bst_PriceLevels : gmap (Z * Z) PriceLevelAggregate;
  bst_UserOrderIndex : gmap (Z * Z * Z) Z;
  bst_TriggerIndex : gset (Z * Z * Z);
  bst_AccountOpenOrders : gset (Z * Z * Z);
  bst_AccountOpenOrderCount : gmap (Z * Z) Z;
  bst_ExpiryIndex : gset (Z * Z)
}.

(** The parameters and metadata of the modules that keep nothing else. *)
Record MiscStore := mkMiscStore {
  xst_Assets : gmap Z Asset;
  xst_DenomToIndex : gmap string Z;
  xst_NextAssetIndex : Z;
  xst_MaxAssetIndex : Z;
  xst_OraclePrices : gmap Z OraclePrice;
  xst_OracleParams : OracleParams;
  xst_FundingParams : FundingParams;
  xst_LastFundingRoundTimestamp : Z;
  xst_MatchingParams : MatchingParams;
  xst_LiquidationParams : LiquidationParams
}.

(** The [sdk.Context] the keepers share: block time in milliseconds and
    every module store. *)
Record Chain := mkChain {
  BlockTime : Z;
  account : AccountStore;
  market : MarketStore;
  book : BookStore;
  misc : MiscStore
}.

(** Keeper methods of this chain. *)
Notation K A := (M Chain Error A).
Notation R A := (res Error A).

(** What the keepers take from outside of the repository: the bech32
    decoder of the SDK and the governance authority address the app passes
    to every keeper. *)
Class Env := {
  valid_bech32 : string -> bool;
  authority : string
}.

(** ** Field update instances *)

#[global] Instance PublicPoolShare_eta : Eta PublicPoolShare := {| eta r :=
  mkPublicPoolShare (sh_PublicPoolIndex r) (sh_ShareAmount r)
    (sh_PrincipalAmount r) (sh_EntryTimestamp r) |}.
#[global] Instance PublicPoolInfo_eta : Eta PublicPoolInfo := {| eta r :=
  mkPublicPoolInfo (pi_Status r) (pi_OperatorFee r) (pi_MinOperatorShareRate
    r) (pi_TotalShares r) (pi_OperatorShares r) (pi_Strategies r) |}.
#[global] Instance Account_eta : Eta Account := {| eta r :=
  mkAccount (acc_AccountIndex r) (acc_MasterAccountIndex r) (acc_OwnerAddress
    r) (acc_AccountType r) (acc_AccountTradingMode r) (acc_Collateral r)
    (acc_TotalOrderCount r) (acc_TotalNonCrossOrderCount r) (acc_CancelAllTime
    r) (acc_CreatedAt r) (acc_PublicPoolShares r) (acc_PublicPoolInfo r) |}.
#[global] Instance AccountAsset_eta : Eta AccountAsset := {| eta r :=
  mkAccountAsset (aa_AccountIndex r) (aa_AssetIndex r) (aa_Balance r)
    (aa_LockedBalance r) (aa_MarginMode r) |}.
#[global] Instance AccountPosition_eta : Eta AccountPosition := {| eta r :=
  mkAccountPosition (pos_AccountIndex r) (pos_MarketIndex r) (pos_BaseSize r)
    (pos_EntryQuote r) (pos_LastFundingRatePrefixSum r)
    (pos_InitialMarginFraction r) (pos_MarginMode r) (pos_AllocatedMargin r)
    (pos_TotalOrderCount r) (pos_TotalPositionTiedOrderCount r) (pos_CreatedAt
    r) |}.
#[global] Instance AccountParams_eta : Eta AccountParams := {| eta r :=
  mkAccountParams (ap_TreasuryAccountIndex r) (ap_InsuranceFundAccountIndex r)
    (ap_MinPartialTransferAmount r) (ap_MinPartialWithdrawAmount r)
    (ap_LiquidityPoolIndex r) (ap_LiquidityPoolCooldownPeriodMs r) |}.
#[global] Instance Asset_eta : Eta Asset := {| eta r :=
  mkAsset (as_AssetIndex r) (as_Denom r) (as_DisplayName r) (as_Decimals r)
    (as_ExtensionMultiplier r) (as_MinTransferAmount r)
    (as_MinWithdrawalAmount r) (as_MarginMode r) (as_Enabled r) (as_CreatedAt
    r) |}.
#[global] Instance Market_eta : Eta Market := {| eta r :=
  mkMarket (mkt_MarketIndex r) (mkt_Status r) (mkt_MarketType r)
    (mkt_BaseAssetId r) (mkt_QuoteAssetId r) (mkt_TakerFee r) (mkt_MakerFee r)
    (mkt_LiquidationFee r) (mkt_SizeExtensionMultiplier r)
    (mkt_QuoteExtensionMultiplier r) (mkt_MinBaseAmount r) (mkt_MinQuoteAmount
    r) (mkt_OrderQuoteLimit r) (mkt_ExpiryTimestamp r) (mkt_CreatedAt r)
    (mkt_MaxOpenOrdersPerAccount r) |}.
#[global] Instance MarketDetails_eta : Eta MarketDetails := {| eta r :=
  mkMarketDetails (md_MarketIndex r) (md_DefaultInitialMarginFraction r)
    (md_MinInitialMarginFraction r) (md_MaintenanceMarginFraction r)
    (md_CloseOutMarginFraction r) (md_QuoteMultiplier r) (md_InterestRate r)
    (md_FundingRatePrefixSum r) (md_AggregatePremiumSum r) (md_ImpactBidPrice
    r) (md_ImpactAskPrice r) (md_ImpactPrice r) (md_OpenInterest r)
    (md_IndexPrice r) (md_MarkPrice r) (md_FundingClampSmall r)
    (md_FundingClampBig r) (md_OpenInterestLimit r) (md_AskNonce r)
    (md_BidNonce r) (md_TotalOrderCount r) (md_TotalPremiumSamples r)
    (md_LastPremiumSampleTimestamp r) (md_LastMarkPriceRefreshTimestamp r)
    (md_MarkPremiumEma r) |}.
#[global] Instance MarketParams_eta : Eta MarketParams := {| eta r :=
  mkMarketParams (mp_MaxPerpsMarketIndex r) (mp_MinSpotMarketIndex r)
    (mp_MaxSpotMarketIndex r) (mp_MaxMarketsExpiredPerBlock r)
    (mp_MaxMarkPriceStalenessMs r) |}.
#[global] Instance Order_eta : Eta Order := {| eta r :=
  mkOrder (ord_OrderIndex r) (ord_ClientOrderIndex r) (ord_OwnerAccountIndex
    r) (ord_MarketIndex r) (ord_IsAsk r) (ord_OrderType r) (ord_TimeInForce r)
    (ord_ReduceOnly r) (ord_Price r) (ord_Nonce r) (ord_InitialBaseAmount r)
    (ord_RemainingBaseAmount r) (ord_TriggerPrice r) (ord_TriggerStatus r)
    (ord_Expiry r) (ord_CreatedAt r) (ord_Status r) |}.
#[global] Instance OrderBookEntry_eta : Eta OrderBookEntry := {| eta r :=
  mkOrderBookEntry (ent_OrderIndex r) (ent_OwnerAccountIndex r) (ent_Price r)
    (ent_Nonce r) (ent_RemainingBaseAmount r) (ent_Expiry r) (ent_ReduceOnly
    r) (ent_OrderType r) |}.
#[global] Instance PriceLevelAggregate_eta : Eta PriceLevelAggregate := {| eta r :=
  mkPriceLevelAggregate (pl_MarketIndex r) (pl_Price r) (pl_AskBaseSum r)
    (pl_AskQuoteSum r) (pl_BidBaseSum r) (pl_BidQuoteSum r) (pl_AskCount r)
    (pl_BidCount r) |}.
#[global] Instance OraclePrice_eta : Eta OraclePrice := {| eta r :=
  mkOraclePrice (op_MarketIndex r) (op_IndexPrice r) (op_MarkPrice r)
    (op_LastUpdatedTimestamp r) (op_LastUpdatedHeight r)
    (op_ParticipantCount r) (op_TotalVotingPower r) |}.
#[global] Instance FundingParams_eta : Eta FundingParams := {| eta r :=
  mkFundingParams (fp_FundingPeriodMs r) (fp_FundingPeriodDivisor r)
    (fp_MaxPremiumSampleCount r) |}.
#[global] Instance MatchingParams_eta : Eta MatchingParams := {| eta r :=
  mkMatchingParams (mtp_MaxFillsPerMsg r) (mtp_MaxCancelsPerMsg r) |}.
#[global] Instance LiquidationParams_eta : Eta LiquidationParams := {| eta r :=
  mkLiquidationParams (lp_MaxAdlAttemptsPerBlock r)
    (lp_MaxAdlCandidatesPerVictim r) |}.
#[global] Instance AccountStore_eta : Eta AccountStore := {| eta r :=
  mkAccountStore (ast_Params r) (ast_Accounts r) (ast_OwnerToIndex r)
    (ast_AccountAssets r) (ast_AccountPositions r) (ast_NextMasterIndex r)
    (ast_NextSubIndex r) (ast_MasterSubAccounts r) (ast_AccountMetas r) |}.
#[global] Instance MarketStore_eta : Eta MarketStore := {| eta r :=
  mkMarketStore (mst_Params r) (mst_Markets r) (mst_MarketDetails r)
    (mst_ExpiryIndex r) |}.
#[global] Instance BookStore_eta : Eta BookStore := {| eta r :=
  mkBookStore (bst_Orders r) (bst_NextOrderIndex r) (bst_OrderBookEntries r)
    (bst_OrderToSortKey r) (bst_PriceLevels r) (bst_UserOrderIndex r)
    (bst_TriggerIndex r) (bst_AccountOpenOrders r) (bst_AccountOpenOrderCount
    r) (bst_ExpiryIndex r) |}.
#[global] Instance MiscStore_eta : Eta MiscStore := {| eta r :=
  mkMiscStore (xst_Assets r) (xst_DenomToIndex r) (xst_NextAssetIndex r) (xst_MaxAssetIndex r) (xst_OraclePrices r) (xst_OracleParams r)
    (xst_FundingParams r) (xst_LastFundingRoundTimestamp r)
    (xst_MatchingParams r) (xst_LiquidationParams r) |}.
#[global] Instance Chain_eta : Eta Chain := {| eta r :=
  mkChain (BlockTime r) (account r) (market r) (book r) (misc r) |}.

(** One setter per field. *)
#[global] Instance set_sh_PublicPoolIndex : Setter sh_PublicPoolIndex. Proof. build_setter. Defined.
#[global] Instance set_sh_ShareAmount : Setter sh_ShareAmount. Proof. build_setter. Defined.
#[global] Instance set_sh_PrincipalAmount : Setter sh_PrincipalAmount. Proof. build_setter. Defined.
#[global] Instance set_sh_EntryTimestamp : Setter sh_EntryTimestamp. Proof. build_setter. Defined.
#[global] Instance set_pi_Status : Setter pi_Status. Proof. build_setter. Defined.
#[global] Instance set_pi_OperatorFee : Setter pi_OperatorFee. Proof. build_setter. Defined.
#[global] Instance set_pi_MinOperatorShareRate : Setter pi_MinOperatorShareRate. Proof. build_setter. Defined.
#[global] Instance set_pi_TotalShares : Setter pi_TotalShares. Proof. build_setter. Defined.
#[global] Instance set_pi_OperatorShares : Setter pi_OperatorShares. Proof. build_setter. Defined.
#[global] Instance set_pi_Strategies : Setter pi_Strategies. Proof. build_setter. Defined.
#[global] Instance set_acc_AccountIndex : Setter acc_AccountIndex. Proof. build_setter. Defined.
#[global] Instance set_acc_MasterAccountIndex : Setter acc_MasterAccountIndex. Proof. build_setter. Defined.
#[global] Instance set_acc_OwnerAddress : Setter acc_OwnerAddress. Proof. build_setter. Defined.
#[global] Instance set_acc_AccountType : Setter acc_AccountType. Proof. build_setter. Defined.
#[global] Instance set_acc_AccountTradingMode : Setter acc_AccountTradingMode. Proof. build_setter. Defined.
#[global] Instance set_acc_Collateral : Setter acc_Collateral. Proof. build_setter. Defined.
#[global] Instance set_acc_TotalOrderCount : Setter acc_TotalOrderCount. Proof. build_setter. Defined.
#[global] Instance set_acc_TotalNonCrossOrderCount : Setter acc_TotalNonCrossOrderCount. Proof. build_setter. Defined.
#[global] Instance set_acc_CancelAllTime : Setter acc_CancelAllTime. Proof. build_setter. Defined.
#[global] Instance set_acc_CreatedAt : Setter acc_CreatedAt. Proof. build_setter. Defined.
#[global] Instance set_acc_PublicPoolShares : Setter acc_PublicPoolShares. Proof. build_setter. Defined.
#[global] Instance set_acc_PublicPoolInfo : Setter acc_PublicPoolInfo. Proof. build_setter. Defined.
#[global] Instance set_aa_AccountIndex : Setter aa_AccountIndex. Proof. build_setter. Defined.
#[global] Instance set_aa_AssetIndex : Setter aa_AssetIndex. Proof. build_setter. Defined.
#[global] Instance set_aa_Balance : Setter aa_Balance. Proof. build_setter. Defined.
#[global] Instance set_aa_LockedBalance : Setter aa_LockedBalance. Proof. build_setter. Defined.
#[global] Instance set_aa_MarginMode : Setter aa_MarginMode. Proof. build_setter. Defined.
#[global] Instance set_pos_AccountIndex : Setter pos_AccountIndex. Proof. build_setter. Defined.
#[global] Instance set_pos_MarketIndex : Setter pos_MarketIndex. Proof. build_setter. Defined.
#[global] Instance set_pos_BaseSize : Setter pos_BaseSize. Proof. build_setter. Defined.
#[global] Instance set_pos_EntryQuote : Setter pos_EntryQuote. Proof. build_setter. Defined.
#[global] Instance set_pos_LastFundingRatePrefixSum : Setter pos_LastFundingRatePrefixSum. Proof. build_setter. Defined.
#[global] Instance set_pos_InitialMarginFraction : Setter pos_InitialMarginFraction. Proof. build_setter. Defined.
#[global] Instance set_pos_MarginMode : Setter pos_MarginMode. Proof. build_setter. Defined.
#[global] Instance set_pos_AllocatedMargin : Setter pos_AllocatedMargin. Proof. build_setter. Defined.
#[global] Instance set_pos_TotalOrderCount : Setter pos_TotalOrderCount. Proof. build_setter. Defined.
#[global] Instance set_pos_TotalPositionTiedOrderCount : Setter pos_TotalPositionTiedOrderCount. Proof. build_setter. Defined.
#[global] Instance set_pos_CreatedAt : Setter pos_CreatedAt. Proof. build_setter. Defined.
#[global] Instance set_ap_TreasuryAccountIndex : Setter ap_TreasuryAccountIndex. Proof. build_setter. Defined.
#[global] Instance set_ap_InsuranceFundAccountIndex : Setter ap_InsuranceFundAccountIndex. Proof. build_setter. Defined.
#[global] Instance set_ap_MinPartialTransferAmount : Setter ap_MinPartialTransferAmount. Proof. build_setter. Defined.
#[global] Instance set_ap_MinPartialWithdrawAmount : Setter ap_MinPartialWithdrawAmount. Proof. build_setter. Defined.
#[global] Instance set_ap_LiquidityPoolIndex : Setter ap_LiquidityPoolIndex. Proof. build_setter. Defined.
#[global] Instance set_ap_LiquidityPoolCooldownPeriodMs : Setter ap_LiquidityPoolCooldownPeriodMs. Proof. build_setter. Defined.
#[global] Instance set_as_AssetIndex : Setter as_AssetIndex. Proof. build_setter. Defined.
#[global] Instance set_as_Denom : Setter as_Denom. Proof. build_setter. Defined.
#[global] Instance set_as_DisplayName : Setter as_DisplayName. Proof. build_setter. Defined.
#[global] Instance set_as_Decimals : Setter as_Decimals. Proof. build_setter. Defined.
#[global] Instance set_as_ExtensionMultiplier : Setter as_ExtensionMultiplier. Proof. build_setter. Defined.
#[global] Instance set_as_MinTransferAmount : Setter as_MinTransferAmount. Proof. build_setter. Defined.
#[global] Instance set_as_MinWithdrawalAmount : Setter as_MinWithdrawalAmount. Proof. build_setter. Defined.
#[global] Instance set_as_MarginMode : Setter as_MarginMode. Proof. build_setter. Defined.
#[global] Instance set_as_Enabled : Setter as_Enabled. Proof. build_setter. Defined.
#[global] Instance set_as_CreatedAt : Setter as_CreatedAt. Proof. build_setter. Defined.
#[global] Instance set_mkt_MarketIndex : Setter mkt_MarketIndex. Proof. build_setter. Defined.
#[global] Instance set_mkt_Status : Setter mkt_Status. Proof. build_setter. Defined.
#[global] Instance set_mkt_MarketType : Setter mkt_MarketType. Proof. build_setter. Defined.
#[global] Instance set_mkt_BaseAssetId : Setter mkt_BaseAssetId. Proof. build_setter. Defined.
#[global] Instance set_mkt_QuoteAssetId : Setter mkt_QuoteAssetId. Proof. build_setter. Defined.
#[global] Instance set_mkt_TakerFee : Setter mkt_TakerFee. Proof. build_setter. Defined.
#[global] Instance set_mkt_MakerFee : Setter mkt_MakerFee. Proof. build_setter. Defined.
#[global] Instance set_mkt_LiquidationFee : Setter mkt_LiquidationFee. Proof. build_setter. Defined.
#[global] Instance set_mkt_SizeExtensionMultiplier : Setter mkt_SizeExtensionMultiplier. Proof. build_setter. Defined.
#[global] Instance set_mkt_QuoteExtensionMultiplier : Setter mkt_QuoteExtensionMultiplier. Proof. build_setter. Defined.
#[global] Instance set_mkt_MinBaseAmount : Setter mkt_MinBaseAmount. Proof. build_setter. Defined.
#[global] Instance set_mkt_MinQuoteAmount : Setter mkt_MinQuoteAmount. Proof. build_setter. Defined.
#[global] Instance set_mkt_OrderQuoteLimit : Setter mkt_OrderQuoteLimit. Proof. build_setter. Defined.
#[global] Instance set_mkt_ExpiryTimestamp : Setter mkt_ExpiryTimestamp. Proof. build_setter. Defined.
#[global] Instance set_mkt_CreatedAt : Setter mkt_CreatedAt. Proof. build_setter. Defined.
#[global] Instance set_mkt_MaxOpenOrdersPerAccount : Setter mkt_MaxOpenOrdersPerAccount. Proof. build_setter. Defined.
#[global] Instance set_md_MarketIndex : Setter md_MarketIndex. Proof. build_setter. Defined.
#[global] Instance set_md_DefaultInitialMarginFraction : Setter md_DefaultInitialMarginFraction. Proof. build_setter. Defined.
#[global] Instance set_md_MinInitialMarginFraction : Setter md_MinInitialMarginFraction. Proof. build_setter. Defined.
#[global] Instance set_md_MaintenanceMarginFraction : Setter md_MaintenanceMarginFraction. Proof. build_setter. Defined.
#[global] Instance set_md_CloseOutMarginFraction : Setter md_CloseOutMarginFraction. Proof. build_setter. Defined.
#[global] Instance set_md_QuoteMultiplier : Setter md_QuoteMultiplier. Proof. build_setter. Defined.
#[global] Instance set_md_InterestRate : Setter md_InterestRate. Proof. build_setter. Defined.
#[global] Instance set_md_FundingRatePrefixSum : Setter md_FundingRatePrefixSum. Proof. build_setter. Defined.
#[global] Instance set_md_AggregatePremiumSum : Setter md_AggregatePremiumSum. Proof. build_setter. Defined.
#[global] Instance set_md_ImpactBidPrice : Setter md_ImpactBidPrice. Proof. build_setter. Defined.
#[global] Instance set_md_ImpactAskPrice : Setter md_ImpactAskPrice. Proof. build_setter. Defined.
#[global] Instance set_md_ImpactPrice : Setter md_ImpactPrice. Proof. build_setter. Defined.
#[global] Instance set_md_OpenInterest : Setter md_OpenInterest. Proof. build_setter. Defined.
#[global] Instance set_md_IndexPrice : Setter md_IndexPrice. Proof. build_setter. Defined.
#[global] Instance set_md_MarkPrice : Setter md_MarkPrice. Proof. build_setter. Defined.
#[global] Instance set_md_FundingClampSmall : Setter md_FundingClampSmall. Proof. build_setter. Defined.
#[global] Instance set_md_FundingClampBig : Setter md_FundingClampBig. Proof. build_setter. Defined.
#[global] Instance set_md_OpenInterestLimit : Setter md_OpenInterestLimit. Proof. build_setter. Defined.
#[global] Instance set_md_AskNonce : Setter md_AskNonce. Proof. build_setter. Defined.
#[global] Instance set_md_BidNonce : Setter md_BidNonce. Proof. build_setter. Defined.
#[global] Instance set_md_TotalOrderCount : Setter md_TotalOrderCount. Proof. build_setter. Defined.
#[global] Instance set_md_TotalPremiumSamples : Setter md_TotalPremiumSamples. Proof. build_setter. Defined.
#[global] Instance set_md_LastPremiumSampleTimestamp : Setter md_LastPremiumSampleTimestamp. Proof. build_setter. Defined.
#[global] Instance set_md_LastMarkPriceRefreshTimestamp : Setter md_LastMarkPriceRefreshTimestamp. Proof. build_setter. Defined.
#[global] Instance set_md_MarkPremiumEma : Setter md_MarkPremiumEma. Proof. build_setter. Defined.
#[global] Instance set_mp_MaxPerpsMarketIndex : Setter mp_MaxPerpsMarketIndex. Proof. build_setter. Defined.
#[global] Instance set_mp_MinSpotMarketIndex : Setter mp_MinSpotMarketIndex. Proof. build_setter. Defined.
#[global] Instance set_mp_MaxSpotMarketIndex : Setter mp_MaxSpotMarketIndex. Proof. build_setter. Defined.
#[global] Instance set_mp_MaxMarketsExpiredPerBlock : Setter mp_MaxMarketsExpiredPerBlock. Proof. build_setter. Defined.
#[global] Instance set_mp_MaxMarkPriceStalenessMs : Setter mp_MaxMarkPriceStalenessMs. Proof. build_setter. Defined.
#[global] Instance set_ord_OrderIndex : Setter ord_OrderIndex. Proof. build_setter. Defined.
#[global] Instance set_ord_ClientOrderIndex : Setter ord_ClientOrderIndex. Proof. build_setter. Defined.
#[global] Instance set_ord_OwnerAccountIndex : Setter ord_OwnerAccountIndex. Proof. build_setter. Defined.
#[global] Instance set_ord_MarketIndex : Setter ord_MarketIndex. Proof. build_setter. Defined.
#[global] Instance set_ord_IsAsk : Setter ord_IsAsk. Proof. build_setter. Defined.
#[global] Instance set_ord_OrderType : Setter ord_OrderType. Proof. build_setter. Defined.
#[global] Instance set_ord_TimeInForce : Setter ord_TimeInForce. Proof. build_setter. Defined.
#[global] Instance set_ord_ReduceOnly : Setter ord_ReduceOnly. Proof. build_setter. Defined.
#[global] Instance set_ord_Price : Setter ord_Price. Proof. build_setter. Defined.
#[global] Instance set_ord_Nonce : Setter ord_Nonce. Proof. build_setter. Defined.
#[global] Instance set_ord_InitialBaseAmount : Setter ord_InitialBaseAmount. Proof. build_setter. Defined.
#[global] Instance set_ord_RemainingBaseAmount : Setter ord_RemainingBaseAmount. Proof. build_setter. Defined.
#[global] Instance set_ord_TriggerPrice : Setter ord_TriggerPrice. Proof. build_setter. Defined.
#[global] Instance set_ord_TriggerStatus : Setter ord_TriggerStatus. Proof. build_setter. Defined.
#[global] Instance set_ord_Expiry : Setter ord_Expiry. Proof. build_setter. Defined.
#[global] Instance set_ord_CreatedAt : Setter ord_CreatedAt. Proof. build_setter. Defined.
#[global] Instance set_ord_Status : Setter ord_Status. Proof. build_setter. Defined.
#[global] Instance set_ent_OrderIndex : Setter ent_OrderIndex. Proof. build_setter. Defined.
#[global] Instance set_ent_OwnerAccountIndex : Setter ent_OwnerAccountIndex. Proof. build_setter. Defined.
#[global] Instance set_ent_Price : Setter ent_Price. Proof. build_setter. Defined.
#[global] Instance set_ent_Nonce : Setter ent_Nonce. Proof. build_setter. Defined.
#[global] Instance set_ent_RemainingBaseAmount : Setter ent_RemainingBaseAmount. Proof. build_setter. Defined.
#[global] Instance set_ent_Expiry : Setter ent_Expiry. Proof. build_setter. Defined.
#[global] Instance set_ent_ReduceOnly : Setter ent_ReduceOnly. Proof. build_setter. Defined.
#[global] Instance set_ent_OrderType : Setter ent_OrderType. Proof. build_setter. Defined.
#[global] Instance set_pl_MarketIndex : Setter pl_MarketIndex. Proof. build_setter. Defined.
#[global] Instance set_pl_Price : Setter pl_Price. Proof. build_setter. Defined.
#[global] Instance set_pl_AskBaseSum : Setter pl_AskBaseSum. Proof. build_setter. Defined.
#[global] Instance set_pl_AskQuoteSum : Setter pl_AskQuoteSum. Proof. build_setter. Defined.
#[global] Instance set_pl_BidBaseSum : Setter pl_BidBaseSum. Proof. build_setter. Defined.
#[global] Instance set_pl_BidQuoteSum : Setter pl_BidQuoteSum. Proof. build_setter. Defined.
#[global] Instance set_pl_AskCount : Setter pl_AskCount. Proof. build_setter. Defined.
#[global] Instance set_pl_BidCount : Setter pl_BidCount. Proof. build_setter. Defined.
#[global] Instance set_op_MarketIndex : Setter op_MarketIndex. Proof. build_setter. Defined.
#[global] Instance set_op_IndexPrice : Setter op_IndexPrice. Proof. build_setter. Defined.
#[global] Instance set_op_MarkPrice : Setter op_MarkPrice. Proof. build_setter. Defined.
#[global] Instance set_op_LastUpdatedTimestamp : Setter op_LastUpdatedTimestamp. Proof. build_setter. Defined.
#[global] Instance set_op_LastUpdatedHeight : Setter op_LastUpdatedHeight. Proof. build_setter. Defined.
#[global] Instance set_op_ParticipantCount : Setter op_ParticipantCount. Proof. build_setter. Defined.
#[global] Instance set_op_TotalVotingPower : Setter op_TotalVotingPower. Proof. build_setter. Defined.
#[global] Instance set_fp_FundingPeriodMs : Setter fp_FundingPeriodMs. Proof. build_setter. Defined.
#[global] Instance set_fp_FundingPeriodDivisor : Setter fp_FundingPeriodDivisor. Proof. build_setter. Defined.
#[global] Instance set_fp_MaxPremiumSampleCount : Setter fp_MaxPremiumSampleCount. Proof. build_setter. Defined.
#[global] Instance set_mtp_MaxFillsPerMsg : Setter mtp_MaxFillsPerMsg. Proof. build_setter. Defined.
#[global] Instance set_mtp_MaxCancelsPerMsg : Setter mtp_MaxCancelsPerMsg. Proof. build_setter. Defined.
#[global] Instance set_lp_MaxAdlAttemptsPerBlock : Setter lp_MaxAdlAttemptsPerBlock. Proof. build_setter. Defined.
#[global] Instance set_lp_MaxAdlCandidatesPerVictim : Setter lp_MaxAdlCandidatesPerVictim. Proof. build_setter. Defined.
#[global] Instance set_ast_Params : Setter ast_Params. Proof. build_setter. Defined.
#[global] Instance set_ast_Accounts : Setter ast_Accounts. Proof. build_setter. Defined.
#[global] Instance set_ast_OwnerToIndex : Setter ast_OwnerToIndex. Proof. build_setter. Defined.
#[global] Instance set_ast_AccountAssets : Setter ast_AccountAssets. Proof. build_setter. Defined.
#[global] Instance set_ast_AccountPositions : Setter ast_AccountPositions. Proof. build_setter. Defined.
#[global] Instance set_ast_NextMasterIndex : Setter ast_NextMasterIndex. Proof. build_setter. Defined.
#[global] Instance set_ast_NextSubIndex : Setter ast_NextSubIndex. Proof. build_setter. Defined.
#[global] Instance set_ast_MasterSubAccounts : Setter ast_MasterSubAccounts. Proof. build_setter. Defined.
#[global] Instance set_ast_AccountMetas : Setter ast_AccountMetas. Proof. build_setter. Defined.
#[global] Instance set_mst_Params : Setter mst_Params. Proof. build_setter. Defined.
#[global] Instance set_mst_Markets : Setter mst_Markets. Proof. build_setter. Defined.
#[global] Instance set_mst_MarketDetails : Setter mst_MarketDetails. Proof. build_setter. Defined.
#[global] Instance set_mst_ExpiryIndex : Setter mst_ExpiryIndex. Proof. build_setter. Defined.
#[global] Instance set_bst_Orders : Setter bst_Orders. Proof. build_setter. Defined.
#[global] Instance set_bst_NextOrderIndex : Setter bst_NextOrderIndex. Proof. build_setter. Defined.
#[global] Instance set_bst_OrderBookEntries : Setter bst_OrderBookEntries. Proof. build_setter. Defined.
#[global] Instance set_bst_OrderToSortKey : Setter bst_OrderToSortKey. Proof. build_setter. Defined.
#[global] Instance set_bst_PriceLevels : Setter bst_PriceLevels. Proof. build_setter. Defined.
#[global] Instance set_bst_UserOrderIndex : Setter bst_UserOrderIndex. Proof. build_setter. Defined.
#[global] Instance set_bst_TriggerIndex : Setter bst_TriggerIndex. Proof. build_setter. Defined.
#[global] Instance set_bst_AccountOpenOrders : Setter bst_AccountOpenOrders. Proof. build_setter. Defined.
#[global] Instance set_bst_AccountOpenOrderCount : Setter bst_AccountOpenOrderCount. Proof. build_setter. Defined.
#[global] Instance set_bst_ExpiryIndex : Setter bst_ExpiryIndex. Proof. build_setter. Defined.
#[global] Instance set_xst_Assets : Setter xst_Assets. Proof. build_setter. Defined.
#[global] Instance set_xst_DenomToIndex : Setter xst_DenomToIndex. Proof. build_setter. Defined.
#[global] Instance set_xst_NextAssetIndex : Setter xst_NextAssetIndex. Proof. build_setter. Defined.
#[global] Instance set_xst_MaxAssetIndex : Setter xst_MaxAssetIndex. Proof. build_setter. Defined.
#[global] Instance set_xst_OraclePrices : Setter xst_OraclePrices. Proof. build_setter. Defined.
#[global] Instance set_xst_OracleParams : Setter xst_OracleParams. Proof. build_setter. Defined.
#[global] Instance set_xst_FundingParams : Setter xst_FundingParams. Proof. build_setter. Defined.
#[global] Instance set_xst_LastFundingRoundTimestamp : Setter xst_LastFundingRoundTimestamp. Proof. build_setter. Defined.
#[global] Instance set_xst_MatchingParams : Setter xst_MatchingParams. Proof. build_setter. Defined.
#[global] Instance set_xst_LiquidationParams : Setter xst_LiquidationParams. Proof. build_setter. Defined.
#[global] Instance set_BlockTime : Setter BlockTime. Proof. build_setter. Defined.
#[global] Instance set_account : Setter account. Proof. build_setter. Defined.
#[global] Instance set_market : Setter market. Proof. build_setter. Defined.
#[global] Instance set_book : Setter book. Proof. build_setter. Defined.
#[global] Instance set_misc : Setter misc. Proof. build_setter. Defined.

(** ** The empty chain, the base of the concrete states of the witnesses *)

Definition empty_chain : Chain := {|
  BlockTime := 0;
  account := mkAccountStore (mkAccountParams 0 1 10000000 10000000 1 0) ∅ ∅ ∅ ∅ 1 1 ∅ ∅;
  market := mkMarketStore (mkMarketParams 254 2048 4094 1 60000) ∅ ∅ ∅;
  book := mkBookStore ∅ 1 ∅ ∅ ∅ ∅ ∅ ∅ ∅ ∅;
  misc := mkMiscStore ∅ ∅ 1 62 ∅ (mkOracleParams 60000 10000 6667 500 true) (mkFundingParams 3600000 8 60) 0
            (mkMatchingParams 100 100) (mkLiquidationParams 10 10) |}.
