(* ===== verification/PositionMath.v ===== *)
(** * Position arithmetic

    [x/account/types/position_math.go], the initial-margin helper of
    [x/market/types/market_helpers.go] and the fee helper of
    [x/trade/types/fee_math.go]: pure functions shared by the trade engine,
    the risk keeper and the liquidation engine. *)

From S2P Require Import Prelude Constants Types.

(** ** Definitions *)

Definition IsSameSide (a b : Z) : bool :=
  if (a =? 0) || (b =? 0) then false else eqb (a <? 0) (b <? 0).

Definition IsLong (p : AccountPosition) : bool := negb (pos_BaseSize p <? 0).
Definition IsShort (p : AccountPosition) : bool := pos_BaseSize p <? 0.
Definition OpeningIsBid (p : AccountPosition) : bool := IsLong p.
Definition OpeningIsAsk (p : AccountPosition) : bool := IsShort p.

Definition Notional (p : AccountPosition) (markPrice : Z) : Z :=
  if (pos_BaseSize p =? 0) || (markPrice =? 0) then 0
  else Z.abs (pos_BaseSize p) * markPrice.

Definition MarginRequirement (p : AccountPosition) (markPrice fractionBps : Z) : Z :=
  if fractionBps =? 0 then 0
  else let notional := Notional p markPrice in
       if notional =? 0 then 0
       else Z.quot (notional * fractionBps) MarginTick.

(** [MarketDetails.InitialMargin] *)
Definition MarketInitialMargin (d : MarketDetails) (posAbs markPrice : Z) : Z :=
  if (posAbs =? 0) || (markPrice =? 0) || (md_DefaultInitialMarginFraction d =? 0) then 0
  else let notional := posAbs * markPrice in
       Z.quot (notional * md_DefaultInitialMarginFraction d) MarginTick.

(** [AccountPosition.InitialMargin] *)
Definition InitialMargin (p : AccountPosition) (markPrice : Z) (md : MarketDetails) : Z :=
  MarketInitialMargin md (Z.abs (pos_BaseSize p)) markPrice.

Definition MaintenanceMargin (p : AccountPosition) (markPrice : Z) (md : MarketDetails) : Z :=
  MarginRequirement p markPrice (md_MaintenanceMarginFraction md).

Definition CloseOutMargin (p : AccountPosition) (markPrice : Z) (md : MarketDetails) : Z :=
  MarginRequirement p markPrice (md_CloseOutMarginFraction md).

Definition UnrealizedPnL (p : AccountPosition) (markPrice : Z) : Z :=
  if (pos_BaseSize p =? 0) || (markPrice =? 0) then 0
  else pos_BaseSize p * markPrice - pos_EntryQuote p.

Definition MarketValue (p : AccountPosition) (markPrice : Z) : Z :=
  pos_AllocatedMargin p + UnrealizedPnL p markPrice.

Record FillResult := mkFillResult {
  fr_Position : AccountPosition;
  fr_RealizedPnL : Z;
  fr_SideFlipped : bool
}.

(** The four scenarios of a fill: the new entry quote and the realized
    PnL ([switch] of [ApplyFill]). *)
Definition fill_quote (curSize curEntryQuote delta priceInt : Z) : Z * Z :=
  let notional := delta * priceInt in
  let newSize := curSize + delta in
  if curSize =? 0 then (notional, 0)
  else if IsSameSide curSize delta then (curEntryQuote + notional, 0)
  else if (newSize =? 0) || IsSameSide curSize newSize then
    let realizedPnL := notional + Z.quot (curEntryQuote * delta) (- curSize) in
    if newSize =? 0 then (0, realizedPnL)
    else (Z.quot (curEntryQuote * newSize) curSize, realizedPnL)
  else
    let closeBase := Z.abs curSize in
    let closeNotional := closeBase * priceInt in
    let closeNotional := if delta <? 0 then - closeNotional else closeNotional in
    let realizedPnL := closeNotional + curEntryQuote in
    let residual := newSize in
    (residual * priceInt, realizedPnL).

Definition ApplyFill (p : AccountPosition) (delta price : Z) : FillResult :=
  let curSize := pos_BaseSize p in
  let newSize := curSize + delta in
  let q := fill_quote curSize (pos_EntryQuote p) delta price in
  {| fr_Position := p <| pos_BaseSize := newSize |> <| pos_EntryQuote := q.1 |>;
     fr_RealizedPnL := q.2;
     fr_SideFlipped :=
       negb (curSize =? 0) && negb (newSize =? 0) && negb (IsSameSide curSize newSize) |}.

(** [x/trade/types/fee_math.go]: [FeeOf]. *)
Definition FeeOf (notional bps : Z) : Z :=
  if (bps =? 0) || (notional =? 0) then 0
  else Z.quot (notional * bps) FeeTick.

(** ** Lemmas *)

Lemma IsSameSide_spec a b :
  IsSameSide a b = true <-> (0 < a /\ 0 < b) \/ (a < 0 /\ b < 0).
Proof.
  unfold IsSameSide.
  destruct (Z.eqb_spec a 0), (Z.eqb_spec b 0); cbn; [lia..|].
  destruct (Z.ltb_spec a 0), (Z.ltb_spec b 0); cbn; lia.
Qed.

Lemma IsSameSide_false a b :
  IsSameSide a b = false <-> ~ ((0 < a /\ 0 < b) \/ (a < 0 /\ b < 0)).
Proof. rewrite <- IsSameSide_spec. destruct (IsSameSide a b); intuition congruence. Qed.

(** Case split on the tests of the position code. *)
Ltac side_cases :=
  repeat match goal with
  | |- context [IsSameSide ?a ?b] => let E := fresh "E" in destruct (IsSameSide a b) eqn:E
  | |- context [?a =? ?b] => destruct (Z.eqb_spec a b)
  | |- context [?a <? ?b] => destruct (Z.ltb_spec a b)
  | H : IsSameSide _ _ = true |- _ => apply IsSameSide_spec in H
  | H : IsSameSide _ _ = false |- _ => apply IsSameSide_false in H
  end; cbn [orb andb negb fst snd].

(** A position holds an entry quote only while it holds a size. *)
Definition flat_ok (p : AccountPosition) : Prop :=
  pos_BaseSize p = 0 -> pos_EntryQuote p = 0.

Lemma apply_fill_size p delta price :
  pos_BaseSize (fr_Position (ApplyFill p delta price)) = pos_BaseSize p + delta.
Proof. reflexivity. Qed.

Lemma apply_fill_frame p delta price :
  let p' := fr_Position (ApplyFill p delta price) in
  pos_AccountIndex p' = pos_AccountIndex p /\ pos_MarketIndex p' = pos_MarketIndex p /\
  pos_MarginMode p' = pos_MarginMode p /\ pos_AllocatedMargin p' = pos_AllocatedMargin p /\
  pos_LastFundingRatePrefixSum p' = pos_LastFundingRatePrefixSum p.
Proof. by repeat split. Qed.

Lemma apply_fill_flat_ok p delta price :
  flat_ok (fr_Position (ApplyFill p delta price)).
Proof.
  unfold flat_ok. cbn. intros H. unfold fill_quote. side_cases; nia.
Qed.

(** ** Quote conservation

    A fill never creates quote: what leaves the entry quote is realized,
    except for at most one unit of truncation. *)

Lemma fill_quote_conserved s e d p :
  (s = 0 -> e = 0) ->
  let q := fill_quote s e d p in
  let lost := e + d * p - (q.1 + q.2) in
  lost = 0 \/ lost = Z.sgn e.
Proof.
  intros He q lost. subst lost q. unfold fill_quote. side_cases; try lia.
  all: try (assert (d <> 0 \/ d = 0) as [] by lia).
  all: try (match goal with |- context [Z.quot] =>
    destruct (quot_reduce e s d) as [Ht|Ht]; [lia | destruct (Z.lt_ge_cases s 0);
      [rewrite (Z.sgn_neg s) by lia | rewrite (Z.sgn_pos s) by lia]; lia | ..] end).
  all: try (replace (s + d) with 0 in * by lia; rewrite ?Z.mul_0_r, ?Z.quot_0_l in * by lia; lia).
  all: try lia.
  all: left; nia.
Qed.

(** A fill never creates or destroys quote: the new entry quote plus the
    realized PnL equal the old entry quote plus the trade quote, up to at
    most one unit of truncation in the direction of the old entry quote; and
    a position that ends flat has no entry quote left. *)
Theorem fill_conserves_quote p delta price :
  flat_ok p ->
  let r := ApplyFill p delta price in
  let lost := pos_EntryQuote p + delta * price
              - (pos_EntryQuote (fr_Position r) + fr_RealizedPnL r) in
  (lost = 0 \/ lost = Z.sgn (pos_EntryQuote p)) /\
  pos_BaseSize (fr_Position r) = pos_BaseSize p + delta /\
  flat_ok (fr_Position r).
Proof.
  intros Hp r lost. split_and!.
  - apply (fill_quote_conserved (pos_BaseSize p) (pos_EntryQuote p) delta price Hp).
  - done.
  - apply apply_fill_flat_ok.
Qed.

(** A fill that flips a position is the same as closing it completely
    and opening the residual in the other direction, with the same final
    position and the same total realized PnL. *)
Theorem flip_is_close_then_open p delta price :
  flat_ok p -> fr_SideFlipped (ApplyFill p delta price) = true ->
  let close := ApplyFill p (- pos_BaseSize p) price in
  let reopen := ApplyFill (fr_Position close) (pos_BaseSize p + delta) price in
  fr_Position (ApplyFill p delta price) = fr_Position reopen /\
  fr_RealizedPnL (ApplyFill p delta price) = fr_RealizedPnL close + fr_RealizedPnL reopen.
Proof.
  intros Hp Hf. destruct p as [a m s e l i mm al to tt cr]. cbn in Hf. breflect.
  unfold flat_ok in Hp. cbn in Hp. apply IsSameSide_false in H0.
  unfold ApplyFill, fill_quote. cbn.
  replace (s + - s) with 0 by lia. rewrite (proj2 (Z.eqb_neq s 0)) by done. cbn.
  destruct (IsSameSide s delta) eqn:E1; [apply IsSameSide_spec in E1; lia|].
  destruct (IsSameSide s (- s)) eqn:E2; [apply IsSameSide_spec in E2; lia|].
  rewrite (proj2 (Z.eqb_neq (s + delta) 0)) by done. cbn.
  destruct (IsSameSide s (s + delta)) eqn:E3; [apply IsSameSide_spec in E3; lia|].
  cbn. assert (Z.quot (e * - s) (- s) = e) as -> by (apply Z.quot_mul; lia).
  split; [done|]. destruct (Z.ltb_spec delta 0); lia.
Qed.

(** C38: closing a position completely at a price realizes the negation of
    the unrealized PnL the position shows at that price: a long that gained
    is debited its gain, and one that lost is credited its loss. *)
Theorem close_realizes_negated_pnl p price :
  pos_BaseSize p <> 0 -> price <> 0 ->
  fr_RealizedPnL (ApplyFill p (- pos_BaseSize p) price) = - UnrealizedPnL p price.
Proof.
  intros Hs Hp. unfold ApplyFill, UnrealizedPnL, fill_quote. cbn.
  rewrite (proj2 (Z.eqb_neq _ _) Hs), (proj2 (Z.eqb_neq _ _) Hp). cbn.
  destruct (IsSameSide _ _) eqn:E1; [apply IsSameSide_spec in E1; lia|].
  replace (pos_BaseSize p + - pos_BaseSize p) with 0 by lia. cbn.
  rewrite Z.quot_mul by lia. lia.
Qed.

(** ** Witnesses *)

Definition long_10_at_100 : AccountPosition := mkAccountPosition 2 0 10 1000 0 0 CrossMargin 0 0 0 0.

Lemma fill_conserves_quote_witness :
  pos_BaseSize (fr_Position (ApplyFill long_10_at_100 (-3) 110)) = 7.
Proof. apply (fill_conserves_quote long_10_at_100 (-3) 110). done. Defined.

Lemma flip_is_close_then_open_witness :
  fr_RealizedPnL (ApplyFill long_10_at_100 (-15) 110) =
  fr_RealizedPnL (ApplyFill long_10_at_100 (-10) 110) + 0.
Proof. apply (flip_is_close_then_open long_10_at_100 (-15) 110); done. Defined.

Lemma close_realizes_negated_pnl_witness :
  fr_RealizedPnL (ApplyFill long_10_at_100 (-10) 110) = - 100.
Proof. apply (close_realizes_negated_pnl long_10_at_100 110); done. Defined.
