(* ===== verification/Account.v ===== *)
(** * The account keeper

    [x/account/keeper/account.go], [asset.go], [position.go] and the guards
    of [x/account/types/account_helpers.go]: accounts and sub-accounts,
    spot balances with their locked part, and position rows. *)

From S2P Require Import Prelude Constants Types PositionMath.

(** A write to one of the account keeper's collections. *)
Definition set_account_store (f : AccountStore -> AccountStore) : K unit :=
  modify (fun c => c <| account := f (account c) |>).

(** ** Accounts *)

Definition GetAccount (idx : Z) (c : Chain) : R Account :=
  of_option (ast_Accounts (account c) !! idx) (EAccount ErrAccountNotFound).

Definition Accounts_Set (a : Account) : K unit :=
  set_account_store (fun s =>
    s <| ast_Accounts := <[acc_AccountIndex a := a]> (ast_Accounts s) |>).

Definition createAccount (a : Account) : K unit :=
  Accounts_Set a;;
  (if negb (bool_decide (acc_OwnerAddress a = EmptyString))
      && (acc_AccountType a =? MasterAccountType)
   then set_account_store (fun s =>
          s <| ast_OwnerToIndex := <[acc_OwnerAddress a := acc_AccountIndex a]> (ast_OwnerToIndex s) |>)
   else mret tt);;
  (if negb (acc_AccountType a =? MasterAccountType)
      && negb (acc_MasterAccountIndex a =? NilMasterAccountIndex)
   then set_account_store (fun s =>
          s <| ast_MasterSubAccounts :=
              {[ (acc_MasterAccountIndex a, acc_AccountIndex a) ]} ∪ ast_MasterSubAccounts s |>)
   else mret tt).

Definition updateAccount (a : Account) : K unit := Accounts_Set a.

Definition GetMasterAccountByOwner (owner : string) (c : Chain) : R Account :=
  idx ← of_option (ast_OwnerToIndex (account c) !! owner) (EAccount ErrAccountNotFound);
  GetAccount idx c.

(** [Sequence.Next]: returns the current value and stores its successor. *)
Definition NextMasterIndex_Next : K Z := fun c =>
  let n := ast_NextMasterIndex (account c) in
  (Ok n, c <| account := account c <| ast_NextMasterIndex := wrap64 (n + 1) |> |>).

Definition NextSubIndex_Next : K Z := fun c =>
  let n := ast_NextSubIndex (account c) in
  (Ok n, c <| account := account c <| ast_NextSubIndex := wrap64 (n + 1) |> |>).

Definition new_account (idx master : Z) (owner : string) (ty createdAt : Z) : Account := {|
  acc_AccountIndex := idx;
  acc_MasterAccountIndex := master;
  acc_OwnerAddress := owner;
  acc_AccountType := ty;
  acc_AccountTradingMode := AccountTradingModeSimple;
  acc_Collateral := 0;
  acc_TotalOrderCount := 0;
  acc_TotalNonCrossOrderCount := 0;
  acc_CancelAllTime := 0;
  acc_CreatedAt := createdAt;
  acc_PublicPoolShares := [];
  acc_PublicPoolInfo := None |}.

(** Returns the existing account of [owner], or allocates the next master
    index. *)
Definition EnsureMasterAccount (bech : string) : K Account := fun c =>
  match GetMasterAccountByOwner bech c with
  | Ok a => (Ok a, c)
  | Err (EAccount ErrAccountNotFound) =>
      (idx ← NextMasterIndex_Next;
       idx ← (if idx <? FirstUserMasterAccountIndex
              then set_account_store (fun s =>
                     s <| ast_NextMasterIndex := FirstUserMasterAccountIndex + 1 |>);;
                   mret FirstUserMasterAccountIndex
              else mret idx);
       lift (ensure (idx <=? MaxMasterAccountIndex) (EAccount ErrAccountIndexExceed));;
       let newAcc := new_account idx NilMasterAccountIndex bech MasterAccountType (BlockTime c) in
       createAccount newAcc;;
       mret newAcc) c
  | Err e => (Err e, c)
  | Panic => (Panic, c)
  | NoFuel => (NoFuel, c)
  end.

Definition CreateSubAccount (master : Account) : K Account := fun c =>
  (lift (ensure (acc_AccountType master =? MasterAccountType) (EAccount ErrInvalidAccountType));;
   idx ← NextSubIndex_Next;
   idx ← (if idx <? MinSubAccountIndex
          then set_account_store (fun s =>
                 s <| ast_NextSubIndex := MinSubAccountIndex + 1 |>);;
               mret MinSubAccountIndex
          else mret idx);
   lift (ensure (idx <=? MaxAccountIndex) (EAccount ErrAccountIndexExceed));;
   let sub := new_account idx (acc_AccountIndex master) (acc_OwnerAddress master)
                SubAccountType (BlockTime c) in
   createAccount sub;;
   mret sub) c.

Definition AddCollateral (idx delta : Z) : K unit :=
  a ← reads (GetAccount idx);
  updateAccount (a <| acc_Collateral := acc_Collateral a + delta |>).

Definition IsAuthorized (signer : string) (idx : Z) (c : Chain) : R bool :=
  a ← GetAccount idx c;
  if bool_decide (acc_OwnerAddress a = EmptyString) then mret false
  else mret (bool_decide (acc_OwnerAddress a = signer)).

(** The accounts [IterateAccounts] visits, in index order. *)
Definition IterateAccounts (c : Chain) : list Account :=
  (rows (ast_Accounts (account c))).*2.

Definition UpdateAccountTradingMode (idx mode : Z) : K unit :=
  a ← reads (GetAccount idx);
  updateAccount (a <| acc_AccountTradingMode := mode |>).

(** ** Spot balances *)

Definition setAccountAsset (aa : AccountAsset) : K unit :=
  set_account_store (fun s =>
    s <| ast_AccountAssets :=
        <[(aa_AccountIndex aa, aa_AssetIndex aa) := aa]> (ast_AccountAssets s) |>).

Definition empty_asset (accIdx assetIdx : Z) : AccountAsset := {|
  aa_AccountIndex := accIdx;
  aa_AssetIndex := assetIdx;
  aa_Balance := 0;
  aa_LockedBalance := 0;
  aa_MarginMode := MarginModeDisabled |}.

(** The zero row stands for an absent one. *)
Definition GetAccountAsset (accIdx assetIdx : Z) (c : Chain) : AccountAsset :=
  default (empty_asset accIdx assetIdx) (ast_AccountAssets (account c) !! (accIdx, assetIdx)).

Definition AddAccountAssetBalance (accIdx assetIdx delta : Z) : K unit := fun c =>
  (let aa := GetAccountAsset accIdx assetIdx c in
   (if delta <? 0 then
      let debit := - delta in
      let available := aa_Balance aa - aa_LockedBalance aa in
      lift (ensure (negb (available <? debit)) (EAccount ErrInsufficientFunds))
    else mret tt);;
   let aa := aa <| aa_Balance := aa_Balance aa + delta |> in
   lift (ensure (negb (aa_Balance aa <? 0)) (EAccount ErrInsufficientFunds));;
   setAccountAsset aa) c.

Definition SetAccountAssetMarginMode (accIdx assetIdx mode : Z) : K unit := fun c =>
  let aa := GetAccountAsset accIdx assetIdx c in
  setAccountAsset (aa <| aa_AccountIndex := accIdx |> <| aa_AssetIndex := assetIdx |>
                      <| aa_MarginMode := mode |>) c.

(** Both rows are read before either is written. *)
Definition TransferAccountAssetBalance
    (from to assetIdx amount : Z) (drainLockedFirst : bool) : K unit := fun c =>
  if amount =? 0 then (Ok tt, c)
  else
    (lift (ensure (negb (amount <? 0)) (EAccount ErrInsufficientFunds));;
     let src := GetAccountAsset from assetIdx c in
     lift (ensure (if drainLockedFirst then negb (aa_Balance src <? amount)
                   else negb (aa_Balance src - aa_LockedBalance src <? amount))
             (EAccount ErrInsufficientFunds));;
     let dst := GetAccountAsset to assetIdx c in
     let src := if drainLockedFirst then
                  let drain := if aa_LockedBalance src <? amount
                               then aa_LockedBalance src else amount in
                  src <| aa_LockedBalance := aa_LockedBalance src - drain |>
                else src in
     let src := src <| aa_Balance := aa_Balance src - amount |> in
     let dst := dst <| aa_Balance := aa_Balance dst + amount |> in
     setAccountAsset src;;
     setAccountAsset dst) c.

Definition AvailableBalance (accIdx assetIdx : Z) (c : Chain) : Z :=
  let aa := GetAccountAsset accIdx assetIdx c in
  let avail := aa_Balance aa - aa_LockedBalance aa in
  if avail <? 0 then 0 else avail.

Definition IncreaseLockedBalance (accIdx assetIdx amount : Z) : K unit := fun c =>
  if amount =? 0 then (Ok tt, c)
  else
    (lift (ensure (negb (amount <? 0)) (EAccount ErrInsufficientFunds));;
     let aa := GetAccountAsset accIdx assetIdx c in
     let available := aa_Balance aa - aa_LockedBalance aa in
     lift (ensure (negb (available <? amount)) (EAccount ErrInsufficientFunds));;
     setAccountAsset (aa <| aa_LockedBalance := aa_LockedBalance aa + amount |>)) c.

Definition DecreaseLockedBalance (accIdx assetIdx amount : Z) : K unit := fun c =>
  if amount =? 0 then (Ok tt, c)
  else
    (lift (ensure (negb (amount <? 0)) (EAccount ErrInsufficientFunds));;
     let aa := GetAccountAsset accIdx assetIdx c in
     let release := if aa_LockedBalance aa <? amount then aa_LockedBalance aa else amount in
     setAccountAsset (aa <| aa_LockedBalance := aa_LockedBalance aa - release |>)) c.

(** ** Positions *)

Definition setPosition (p : AccountPosition) : K unit :=
  set_account_store (fun s =>
    s <| ast_AccountPositions :=
        <[(pos_AccountIndex p, pos_MarketIndex p) := p]> (ast_AccountPositions s) |>).

Definition empty_position (accIdx marketIdx : Z) : AccountPosition := {|
  pos_AccountIndex := accIdx;
  pos_MarketIndex := marketIdx;
  pos_BaseSize := 0;
  pos_EntryQuote := 0;
  pos_LastFundingRatePrefixSum := 0;
  pos_InitialMarginFraction := 0;
  pos_MarginMode := CrossMargin;
  pos_AllocatedMargin := 0;
  pos_TotalOrderCount := 0;
  pos_TotalPositionTiedOrderCount := 0;
  pos_CreatedAt := 0 |}.

Definition GetPosition (accIdx marketIdx : Z) (c : Chain) : AccountPosition :=
  default (empty_position accIdx marketIdx)
    (ast_AccountPositions (account c) !! (accIdx, marketIdx)).

(** Read-modify-write of a position. The callback also returns the values
    it assigns to variables captured from its caller. *)
Definition UpdatePosition {X} (accIdx marketIdx : Z)
    (mut : AccountPosition -> R (AccountPosition * X)) : K (AccountPosition * X) := fun c =>
  (let pos := GetPosition accIdx marketIdx c in
   let pos := pos <| pos_AccountIndex := accIdx |> <| pos_MarketIndex := marketIdx |> in
   px ← lift (mut pos);
   setPosition px.1;;
   mret px) c.

Definition SetPositionLeverage (accIdx marketIdx marginMode imf : Z) : K unit :=
  UpdatePosition accIdx marketIdx (fun p =>
    mret (p <| pos_MarginMode := marginMode |> <| pos_InitialMarginFraction := imf |>, tt));;
  mret tt.

(** The rows [IterateAccountPositions] visits, in market order. *)
Definition IterateAccountPositions (accountIdx : Z) (c : Chain) : list AccountPosition :=
  (filter (fun kv => kv.1.1 = accountIdx) (rows (ast_AccountPositions (account c)))).*2.

(** ** Pool and type guards *)

Definition IsPoolType (a : Account) : bool :=
  (acc_AccountType a =? PublicPoolAccountType) || (acc_AccountType a =? InsuranceFundAccountType).

Definition EnsureNotFrozen (info : option PublicPoolInfo) : R unit :=
  i ← of_option info (EAccount ErrInvalidPoolAccount);
  ensure (negb (pi_Status i =? PublicPoolStatusFrozen)) (EAccount ErrPoolFrozen).

Definition EnsureActive (info : option PublicPoolInfo) : R unit :=
  i ← of_option info (EAccount ErrInvalidPoolAccount);
  ensure (pi_Status i =? PublicPoolStatusActive) (EAccount ErrPoolNotActive).

Definition rejectPoolAccount (idx : Z) (c : Chain) : R unit :=
  a ← GetAccount idx c;
  ensure (negb (IsPoolType a)) (EAccount ErrPoolGenericMsg).

(** ** Well-formed account stores *)

(** Every row is stored under the key it carries. *)
Definition keyed (c : Chain) : Prop :=
  map_Forall (fun i a => acc_AccountIndex a = i) (ast_Accounts (account c)) /\
  map_Forall (fun k p => (pos_AccountIndex p, pos_MarketIndex p) = k)
    (ast_AccountPositions (account c)) /\
  map_Forall (fun k aa => (aa_AccountIndex aa, aa_AssetIndex aa) = k)
    (ast_AccountAssets (account c)).
#[global] Instance keyed_dec c : Decision (keyed c).
Proof. apply _. Defined.

(** A balance covers its locked part. *)
Definition asset_ok (aa : AccountAsset) : Prop :=
  0 <= aa_LockedBalance aa <= aa_Balance aa.

Definition assets_ok (c : Chain) : Prop :=
  map_Forall (fun _ aa => asset_ok aa) (ast_AccountAssets (account c)).
#[global] Instance assets_ok_dec c : Decision (assets_ok c).
Proof. apply _. Defined.

Lemma get_asset_key c a x :
  keyed c ->
  aa_AccountIndex (GetAccountAsset a x c) = a /\ aa_AssetIndex (GetAccountAsset a x c) = x.
Proof.
  intros (_ & _ & Hk). unfold GetAccountAsset.
  destruct (_ !! _) as [aa|] eqn:Haa; cbn; [|done].
  apply Hk in Haa. by simplify_eq.
Qed.

Lemma get_asset_ok c a x : assets_ok c -> asset_ok (GetAccountAsset a x c).
Proof.
  intros Hc. unfold GetAccountAsset.
  destruct (_ !! _) as [aa|] eqn:Haa; cbn; [by apply (Hc _ _ Haa)|].
  unfold asset_ok; cbn; lia.
Qed.

Lemma get_position_key c a m :
  keyed c ->
  pos_AccountIndex (GetPosition a m c) = a /\ pos_MarketIndex (GetPosition a m c) = m.
Proof.
  intros (_ & Hk & _). unfold GetPosition.
  destruct (_ !! _) as [p|] eqn:Hp; cbn; [|done].
  apply Hk in Hp. by simplify_eq.
Qed.

(** The outcome of a successful write to each table. *)
Definition with_asset (aa : AccountAsset) (c : Chain) : Chain := (setAccountAsset aa c).2.
Definition with_position (p : AccountPosition) (c : Chain) : Chain := (setPosition p c).2.
Definition with_account (a : Account) (c : Chain) : Chain := (updateAccount a c).2.

Lemma get_position_with c p a m :
  GetPosition a m (with_position p c) =
    if decide ((pos_AccountIndex p, pos_MarketIndex p) = (a, m)) then p else GetPosition a m c.
Proof.
  unfold GetPosition, with_position. cbn. case_decide as E.
  - rewrite E. by rewrite lookup_insert_eq.
  - by rewrite lookup_insert_ne.
Qed.

Lemma get_asset_with c aa a x :
  GetAccountAsset a x (with_asset aa c) =
    if decide ((aa_AccountIndex aa, aa_AssetIndex aa) = (a, x)) then aa else GetAccountAsset a x c.
Proof.
  unfold GetAccountAsset, with_asset. cbn. case_decide as E.
  - rewrite E. by rewrite lookup_insert_eq.
  - by rewrite lookup_insert_ne.
Qed.

Lemma get_account_with c a i :
  GetAccount i (with_account a c) =
    if decide (acc_AccountIndex a = i) then Ok a else GetAccount i c.
Proof.
  unfold GetAccount, with_account. cbn. case_decide as E.
  - rewrite E. by rewrite lookup_insert_eq.
  - by rewrite lookup_insert_ne.
Qed.

Lemma keyed_with_position c p : keyed c -> keyed (with_position p c).
Proof.
  intros (H1 & H2 & H3). split_and!; [done| |done].
  intros k q. unfold with_position; cbn.
  rewrite lookup_insert_Some. intros [[<- <-]|[_ Hq]]; [done|]. by apply H2.
Qed.

Lemma keyed_with_asset c aa : keyed c -> keyed (with_asset aa c).
Proof.
  intros (H1 & H2 & H3). split_and!; [done|done|].
  intros k q. unfold with_asset; cbn.
  rewrite lookup_insert_Some. intros [[<- <-]|[_ Hq]]; [done|]. by apply H3.
Qed.

Lemma keyed_with_account c a : keyed c -> keyed (with_account a c).
Proof.
  intros (H1 & H2 & H3). split_and!; [|done|done].
  intros k q. unfold with_account; cbn.
  rewrite lookup_insert_Some. intros [[<- <-]|[_ Hq]]; [done|]. by apply H1.
Qed.

#[export] Hint Resolve keyed_with_position keyed_with_asset keyed_with_account : core.

Lemma assets_ok_with c aa : assets_ok c -> asset_ok aa -> assets_ok (with_asset aa c).
Proof. intros Hc Ha. by apply map_Forall_insert_2. Qed.

Lemma UpdatePosition_ok {X} a m (f : AccountPosition -> R (AccountPosition * X)) c px c' :
  keyed c ->
  UpdatePosition a m f c = (Ok px, c') <->
  f (GetPosition a m c) = Ok px /\ c' = with_position px.1 c.
Proof.
  intros Hk. unfold UpdatePosition.
  destruct (get_position_key c a m Hk) as [Ha Hm].
  replace (GetPosition a m c <| pos_AccountIndex := a |> <| pos_MarketIndex := m |>)
    with (GetPosition a m c).
  - unfold mbind, M_bind, lift. cbn. split.
    + destruct (f _); cbn; intros [= <- <-]. done.
    + intros [-> ->]. done.
  - destruct (GetPosition a m c); cbn in *. by subst.
Qed.

Lemma AddCollateral_ok i d c u c' :
  AddCollateral i d c = (Ok u, c') <->
  exists a, GetAccount i c = Ok a /\
    c' = with_account (a <| acc_Collateral := acc_Collateral a + d |>) c.
Proof.
  unfold AddCollateral. rewrite M_bind_ok. setoid_rewrite reads_ok. split.
  - intros (a & s1 & [Ha ->] & H). exists a. split; [done|].
    unfold updateAccount, Accounts_Set, set_account_store in H.
    apply modify_ok in H. by subst.
  - intros (a & Ha & ->). exists a, c. destruct u. done.
Qed.

(** ** Totals *)

(** Net base size of all positions of a market. *)
Definition net_base (m : Z) (c : Chain) : Z :=
  msum (fun p => if pos_MarketIndex p =? m then pos_BaseSize p else 0)
    (ast_AccountPositions (account c)).

(** Sum of the absolute sizes of all positions of a market. *)
Definition gross_base (m : Z) (c : Chain) : Z :=
  msum (fun p => if pos_MarketIndex p =? m then Z.abs (pos_BaseSize p) else 0)
    (ast_AccountPositions (account c)).

(** Collateral, margin and entry quote held by accounts and positions. *)
Definition total_collateral (c : Chain) : Z := msum acc_Collateral (ast_Accounts (account c)).
Definition total_allocated (c : Chain) : Z :=
  msum pos_AllocatedMargin (ast_AccountPositions (account c)).
Definition total_entry_quote (c : Chain) : Z :=
  msum pos_EntryQuote (ast_AccountPositions (account c)).

(** Total balance of an asset. *)
Definition total_balance (x : Z) (c : Chain) : Z :=
  msum (fun aa => if aa_AssetIndex aa =? x then aa_Balance aa else 0)
    (ast_AccountAssets (account c)).

(** A position write changes a position total by the written row only. *)
Lemma psum_with_position (f : AccountPosition -> Z) c p a m :
  keyed c -> pos_AccountIndex p = a -> pos_MarketIndex p = m -> f (empty_position a m) = 0 ->
  msum f (ast_AccountPositions (account (with_position p c))) =
  msum f (ast_AccountPositions (account c)) - f (GetPosition a m c) + f p.
Proof.
  intros Hk <- <- H0. unfold with_position; cbn. rewrite msum_insert.
  f_equal. f_equal. unfold GetPosition.
  destruct (_ !! _); cbn; [done|]. by rewrite H0.
Qed.

Lemma csum_with_account c a b :
  GetAccount (acc_AccountIndex a) c = Ok b ->
  total_collateral (with_account a c) = total_collateral c - acc_Collateral b + acc_Collateral a.
Proof.
  unfold GetAccount, total_collateral, with_account. intros Hb%of_option_ok. cbn.
  rewrite msum_insert, Hb. done.
Qed.

Lemma bsum_with_asset c aa a x y :
  keyed c -> aa_AccountIndex aa = a -> aa_AssetIndex aa = x ->
  total_balance y (with_asset aa c) =
  total_balance y c + (if x =? y then aa_Balance aa - aa_Balance (GetAccountAsset a x c) else 0).
Proof.
  intros Hk <- <-. unfold with_asset, total_balance; cbn. rewrite msum_insert.
  destruct (get_asset_key c (aa_AccountIndex aa) (aa_AssetIndex aa) Hk) as [_ Hx].
  revert Hx. unfold GetAccountAsset. destruct (_ !! _) as [b|]; cbn.
  - intros ->. destruct (_ =? y); lia.
  - intros _. destruct (_ =? y); lia.
Qed.

(** ** Histories of spot-balance operations *)

Inductive spot_step (c : Chain) : Chain -> Prop :=
| step_add a x d r c' : AddAccountAssetBalance a x d c = (r, c') -> spot_step c c'
| step_mode a x mode r c' : SetAccountAssetMarginMode a x mode c = (r, c') -> spot_step c c'
| step_transfer from to x amt lockedFirst r c' :
    TransferAccountAssetBalance from to x amt lockedFirst c = (r, c') -> spot_step c c'
| step_lock a x amt r c' : IncreaseLockedBalance a x amt c = (r, c') -> spot_step c c'
| step_unlock a x amt r c' : DecreaseLockedBalance a x amt c = (r, c') -> spot_step c c'.

Lemma run_set_asset aa (k : unit -> K unit) c :
  (x ← setAccountAsset aa; k x) c = k tt (with_asset aa c).
Proof. done. Qed.
#[export] Hint Rewrite run_set_asset : run.

(** Runs the guards of a balance operation to its writes. *)
Ltac run_asset_op H :=
  unfold AddAccountAssetBalance, SetAccountAssetMarginMode, TransferAccountAssetBalance,
    IncreaseLockedBalance, DecreaseLockedBalance in H;
  autorewrite with run in H;
  repeat (match type of H with
          | (if ?b then _ else _) = _ => destruct b eqn:?
          | setAccountAsset ?a ?c = (?r, ?c') =>
              change (setAccountAsset a c) with (Ok (E:=Error) tt, with_asset a c) in H
          | (_, _) = (_, _) => first [discriminate H | injection H as <- <- | injection H as <-]
          end; autorewrite with run in * ); breflect.

Lemma transfer_ok from to x amount lockedFirst c c' :
  TransferAccountAssetBalance from to x amount lockedFirst c = (Ok tt, c') ->
  (amount = 0 /\ c' = c) \/
  (0 < amount /\
   let src := GetAccountAsset from x c in
   let dst := GetAccountAsset to x c in
   exists locked',
   c' = with_asset (dst <| aa_Balance := aa_Balance dst + amount |>)
          (with_asset (src <| aa_LockedBalance := locked' |>
                           <| aa_Balance := aa_Balance src - amount |>) c)).
Proof.
  intros H. destruct lockedFirst; run_asset_op H; subst; eauto;
    right; (split; [lia|]); eexists; [done|].
  instantiate (1 := aa_LockedBalance (GetAccountAsset from x c)).
  by destruct (GetAccountAsset from x c).
Qed.

Lemma spot_step_inv c c' :
  spot_step c c' -> keyed c -> assets_ok c -> keyed c' /\ assets_ok c'.
Proof.
  intros Hs Hk Hc. destruct Hs as [a x d r c' H|a x mode r c' H|from to x amt lf r c' H
    |a x amt r c' H|a x amt r c' H].
  3: pose proof (get_asset_ok c from x Hc) as [? ?];
     pose proof (get_asset_ok c to x Hc) as [? ?]; destruct lf.
  all: try pose proof (get_asset_ok c a x Hc) as [? ?].
  all: run_asset_op H; auto; (split; [by auto|]);
    repeat apply assets_ok_with; auto; unfold asset_ok; cbn; try case_match; breflect; lia.
Qed.

(** C17: in every history of spot-balance operations, failed ones included,
    no account's locked balance becomes negative or exceeds its balance, so
    an available balance is never negative. *)
Theorem spot_balances_safe c c' a x :
  rtc spot_step c c' -> keyed c -> assets_ok c ->
  let aa := GetAccountAsset a x c' in
  0 <= aa_LockedBalance aa <= aa_Balance aa /\
  AvailableBalance a x c' = aa_Balance aa - aa_LockedBalance aa.
Proof.
  intros Hr Hk Hc. assert (keyed c' /\ assets_ok c') as [Hk' Hc'].
  { induction Hr as [|c c1 c2 Hs _ IH]; [done|].
    destruct (spot_step_inv c c1 Hs Hk Hc). auto. }
  pose proof (get_asset_ok c' a x Hc') as [? ?]. cbn.
  split; [done|]. unfold AvailableBalance. case_match; breflect; lia.
Qed.

(** A transfer between two accounts moves exactly [amount] from the one
    to the other, leaves every other row alone, and conserves the total
    balance of every asset, whichever part of the source it drains. *)
Theorem transfer_conserves from to x amount lockedFirst c c' :
  TransferAccountAssetBalance from to x amount lockedFirst c = (Ok tt, c') ->
  keyed c -> from <> to ->
  aa_Balance (GetAccountAsset from x c') = aa_Balance (GetAccountAsset from x c) - amount /\
  aa_Balance (GetAccountAsset to x c') = aa_Balance (GetAccountAsset to x c) + amount /\
  (forall a y, (a, y) <> (from, x) -> (a, y) <> (to, x) ->
     GetAccountAsset a y c' = GetAccountAsset a y c) /\
  (forall y, total_balance y c' = total_balance y c).
Proof.
  intros H Hk Hne.
  destruct (get_asset_key c from x Hk) as [Hf1 Hf2].
  destruct (get_asset_key c to x Hk) as [Ht1 Ht2].
  apply transfer_ok in H as [[-> ->]|(Hpos & l & ->)]; [split_and!; [lia..|done|done]|].
  split_and!.
  - rewrite !get_asset_with; cbn. rewrite Hf1, Hf2, Ht1, Ht2.
    rewrite (decide_False (P := (to, x) = (from, x))) by congruence.
    by rewrite decide_True.
  - rewrite get_asset_with; cbn. rewrite Ht1, Ht2. by rewrite decide_True.
  - intros a y H1 H2. rewrite !get_asset_with; cbn. rewrite Hf1, Hf2, Ht1, Ht2.
    by rewrite !decide_False by congruence.
  - intros y. rewrite (bsum_with_asset _ _ to x), (bsum_with_asset _ _ from x) by auto.
    rewrite get_asset_with; cbn. rewrite Hf1, Hf2.
    rewrite (decide_False (P := (from, x) = (to, x))) by congruence.
    destruct (x =? y); lia.
Qed.

(** A transfer of an account to itself is not a no-op: both rows are
    loaded before either is written, so the credit overwrites the debit and
    the balance grows by [amount]. *)
Theorem self_transfer_mints a x amount lockedFirst c c' :
  TransferAccountAssetBalance a a x amount lockedFirst c = (Ok tt, c') ->
  keyed c ->
  aa_Balance (GetAccountAsset a x c') = aa_Balance (GetAccountAsset a x c) + amount /\
  total_balance x c' = total_balance x c + amount.
Proof.
  intros H Hk. destruct (get_asset_key c a x Hk) as [Ha Hx].
  apply transfer_ok in H as [[-> ->]|(Hpos & l & ->)]; [split; lia|]. split.
  - rewrite get_asset_with; cbn. rewrite Ha, Hx. by rewrite decide_True.
  - rewrite !(bsum_with_asset _ _ a x) by auto. rewrite Z.eqb_refl.
    rewrite get_asset_with; cbn. rewrite Ha, Hx, decide_True by done. cbn. lia.
Qed.

(** ** Witnesses *)

(** Accounts 2 and 3 with a spot balance of asset 3, partly locked. *)
Definition spot_demo : Chain :=
  empty_chain <| account := account empty_chain
    <| ast_AccountAssets := list_to_map
         [((2, 3), mkAccountAsset 2 3 100 30 0); ((3, 3), mkAccountAsset 3 3 5 0 0)] |> |>.

Lemma spot_balances_safe_witness :
  let c' := (IncreaseLockedBalance 2 3 70 (TransferAccountAssetBalance 2 3 3 80 true spot_demo).2).2 in
  0 <= aa_LockedBalance (GetAccountAsset 2 3 c') <= aa_Balance (GetAccountAsset 2 3 c').
Proof.
  apply (spot_balances_safe spot_demo).
  - eapply rtc_l; [eapply step_transfer; apply surjective_pairing|].
    eapply rtc_once, step_lock. apply surjective_pairing.
  - by_decide.
  - by_decide.
Defined.

Lemma transfer_conserves_witness :
  total_balance 3 (TransferAccountAssetBalance 2 3 3 80 true spot_demo).2 = 105.
Proof.
  rewrite (proj2 (proj2 (proj2 (transfer_conserves 2 3 3 80 true spot_demo
    (TransferAccountAssetBalance 2 3 3 80 true spot_demo).2
    ltac:(by_compute) ltac:(by_decide) ltac:(lia)))) 3).
  by_compute.
Defined.

Lemma self_transfer_mints_witness :
  total_balance 3 (TransferAccountAssetBalance 2 2 3 70 false spot_demo).2 = 175.
Proof.
  rewrite (proj2 (self_transfer_mints 2 3 70 false spot_demo
    (TransferAccountAssetBalance 2 2 3 70 false spot_demo).2
    ltac:(by_compute) ltac:(by_decide))).
  by_compute.
Defined.
