(* ===== verification/Market.v ===== *)
(** * The market keeper

    [x/market]: market records and their runtime details, the mark-price
    gate, order nonces, open interest, the expiry index with its
    end-blocker, and the governance messages. *)

From S2P Require Import Prelude Constants Types.

(** What x/market needs of x/liquidation: the exit hook of an expired
    market ([x/market/types/expected_keepers.go]). *)
Class LiquidationKeeper := {
  ApplyExitPosition_hook : Z -> K unit
}.

(** ** Index ranges and parameters ([x/market/types/params.go]) *)

Definition IsPerpsIndex (p : MarketParams) (idx : Z) : bool :=
  (idx <=? mp_MaxPerpsMarketIndex p) && negb (idx =? NilMarketIndex).

Definition IsSpotIndex (p : MarketParams) (idx : Z) : bool :=
  (mp_MinSpotMarketIndex p <=? idx) && (idx <=? mp_MaxSpotMarketIndex p).

Definition IsValidIndex (p : MarketParams) (idx : Z) : bool :=
  IsPerpsIndex p idx || IsSpotIndex p idx.

Definition MarketParams_Validate (p : MarketParams) : R unit :=
  ensure (negb ((mp_MinSpotMarketIndex p =? 0) || (mp_MaxSpotMarketIndex p =? 0)))
    (EMarket ErrMarketInvalidParams);;
  ensure (negb (mp_MinSpotMarketIndex p <=? mp_MaxPerpsMarketIndex p))
    (EMarket ErrMarketInvalidParams);;
  ensure (negb (mp_MaxSpotMarketIndex p <? mp_MinSpotMarketIndex p))
    (EMarket ErrMarketInvalidParams);;
  ensure (negb (NilMarketIndex <=? mp_MaxPerpsMarketIndex p))
    (EMarket ErrMarketInvalidParams);;
  ensure (negb (mp_MaxMarkPriceStalenessMs p <? 0)) (EMarket ErrMarketInvalidParams).

(** ** Reads *)

Definition GetMarket (idx : Z) (c : Chain) : R Market :=
  of_option (mst_Markets (market c) !! idx) (EMarket ErrMarketNotFound).

Definition GetMarketDetails (idx : Z) (c : Chain) : R MarketDetails :=
  of_option (mst_MarketDetails (market c) !! idx) (EMarket ErrMarketNotFound).

(** Fails closed when the mark price is zero or stale. *)
Definition gateMarkPrice (d : MarketDetails) (c : Chain) : R unit :=
  ensure (negb (md_MarkPrice d =? 0)) (EMarket ErrZeroMarkPrice);;
  let p := mst_Params (market c) in
  if mp_MaxMarkPriceStalenessMs p <=? 0 then mret tt
  else
    let now := BlockTime c in
    ensure (negb ((md_LastMarkPriceRefreshTimestamp d =? 0)
                  || (mp_MaxMarkPriceStalenessMs p <? now - md_LastMarkPriceRefreshTimestamp d)))
      (EMarket ErrStaleMarkPrice).

Definition GetMarkPriceAndDetails (marketIdx : Z) (c : Chain) : R (Z * MarketDetails) :=
  d ← of_option (mst_MarketDetails (market c) !! marketIdx) (EMarket ErrMissingPrice);
  gateMarkPrice d c;;
  mret (md_MarkPrice d, d).

Definition GetMarkPrice (marketIdx : Z) (c : Chain) : R Z :=
  d ← of_option (mst_MarketDetails (market c) !! marketIdx) (EMarket ErrMissingPrice);
  gateMarkPrice d c;;
  mret (md_MarkPrice d).

Definition IsPerpsMarket (idx : Z) (c : Chain) : bool := IsPerpsIndex (mst_Params (market c)) idx.
Definition IsSpotMarket (idx : Z) (c : Chain) : bool := IsSpotIndex (mst_Params (market c)) idx.

(** The markets [IterateMarkets] visits, in index order. *)
Definition IterateMarkets (c : Chain) : list Market := (rows (mst_Markets (market c))).*2.

(** ** Writes *)

Definition set_market_store (f : MarketStore -> MarketStore) : K unit :=
  modify (fun c => c <| market := f (market c) |>).

Definition Markets_Set (m : Market) : K unit :=
  set_market_store (fun s => s <| mst_Markets := <[mkt_MarketIndex m := m]> (mst_Markets s) |>).

Definition ExpiryIndex_Set (k : Z * Z) : K unit :=
  set_market_store (fun s => s <| mst_ExpiryIndex := {[k]} ∪ mst_ExpiryIndex s |>).

Definition ExpiryIndex_Remove (k : Z * Z) : K unit :=
  set_market_store (fun s => s <| mst_ExpiryIndex := mst_ExpiryIndex s ∖ {[k]} |>).

Definition createMarket (m : Market) : K unit :=
  Markets_Set m;;
  if (mkt_Status m =? MarketStatusActive) && (0 <? mkt_ExpiryTimestamp m)
  then ExpiryIndex_Set (mkt_ExpiryTimestamp m, mkt_MarketIndex m)
  else mret tt.

Definition updateMarket (old m : Market) : K unit :=
  Markets_Set m;;
  let wasIndexed := (mkt_Status old =? MarketStatusActive) && (0 <? mkt_ExpiryTimestamp old) in
  let wantsIndexed := (mkt_Status m =? MarketStatusActive) && (0 <? mkt_ExpiryTimestamp m) in
  let expiryChanged := negb (mkt_ExpiryTimestamp old =? mkt_ExpiryTimestamp m) in
  (if wasIndexed && (negb wantsIndexed || expiryChanged)
   then ExpiryIndex_Remove (mkt_ExpiryTimestamp old, mkt_MarketIndex old)
   else mret tt);;
  (if wantsIndexed && (negb wasIndexed || expiryChanged)
   then ExpiryIndex_Set (mkt_ExpiryTimestamp m, mkt_MarketIndex m)
   else mret tt).

Definition SetMarketDetails (d : MarketDetails) : K unit :=
  set_market_store (fun s =>
    s <| mst_MarketDetails := <[md_MarketIndex d := d]> (mst_MarketDetails s) |>).

(** ** Nonces and open interest *)

Definition AllocateNonce (marketIdx : Z) (isAsk : bool) : K Z :=
  d ← reads (GetMarketDetails marketIdx);
  lift (ensure (negb (md_BidNonce d <=? md_AskNonce d)) (EMarket ErrNonceExhausted));;
  let nonce := if isAsk then md_AskNonce d else md_BidNonce d in
  let d := if isAsk then d <| md_AskNonce := md_AskNonce d + 1 |>
           else d <| md_BidNonce := md_BidNonce d - 1 |> in
  lift (ensure (negb (md_BidNonce d <=? md_AskNonce d)) (EMarket ErrNonceExhausted));;
  SetMarketDetails d;;
  mret nonce.

Definition MaxInt64 : Z := 2 ^ 63 - 1.
Definition MinInt64 : Z := - 2 ^ 63.

Definition checkedAddInt64 (a b : Z) : R Z :=
  ensure (negb ((0 <? b) && (MaxInt64 - b <? a))) (EMarket ErrMarketInvalidParams);;
  ensure (negb ((b <? 0) && (a <? MinInt64 - b))) (EMarket ErrMarketInvalidParams);;
  mret (a + b).

Definition UpdateOpenInterest (marketIdx delta : Z) : K unit :=
  d ← reads (GetMarketDetails marketIdx);
  next ← lift (checkedAddInt64 (md_OpenInterest d) delta);
  lift (ensure (negb (next <? 0)) (EMarket ErrMarketInvalidParams));;
  lift (ensure (negb ((0 <? md_OpenInterestLimit d) && (md_OpenInterestLimit d <? next)))
          (EMarket ErrOpenInterestLimit));;
  SetMarketDetails (d <| md_OpenInterest := next |>).

(** ** Expiry *)

Section expiry.
Context `{LiquidationKeeper}.

(** The hook's error is logged and emitted, never returned; what it wrote
    before failing stays. *)
Definition applyMarketExit (m : Market) : K unit :=
  attempt (ApplyExitPosition_hook (mkt_MarketIndex m));;
  mret tt.

Definition expireMarket (m : Market) : K unit :=
  let old := m in
  let m := m <| mkt_Status := MarketStatusExpired |> in
  updateMarket old m;;
  applyMarketExit m.

(** The loop of [iterateExpired] over the due index keys. *)
Fixpoint iterateExpired_loop (visit : Market -> K unit) (budget processed : Z)
    (due : list (Z * Z)) : K unit := fun c =>
  match due with
  | [] => (Ok tt, c)
  | key :: due =>
      if processed <? budget then
        match GetMarket key.2 c with
        | Ok m =>
            if negb (mkt_Status m =? MarketStatusActive) then
              (ExpiryIndex_Remove key;; iterateExpired_loop visit budget processed due) c
            else
              (r ← attempt (visit m);
               iterateExpired_loop visit budget
                 (match r with Some _ => processed + 1 | None => processed end) due) c
        | _ => (ExpiryIndex_Remove key;; iterateExpired_loop visit budget processed due) c
        end
      else (Ok tt, c)
  end.

(** Index entries whose expiry is at most [now], in key order. *)
Definition due_keys (now : Z) (c : Chain) : list (Z * Z) :=
  filter (fun k => k.1 <= now) (keys (mst_ExpiryIndex (market c))).

Definition iterateExpired (now budget : Z) (visit : Market -> K unit) : K unit := fun c =>
  if budget =? 0 then (Ok tt, c)
  else iterateExpired_loop visit budget 0 (due_keys now c) c.

Definition Market_EndBlocker : K unit := fun c =>
  iterateExpired (BlockTime c) (mp_MaxMarketsExpiredPerBlock (mst_Params (market c)))
    expireMarket c.

End expiry.

(** ** Stateless validation ([x/market/types/msgs.go]) *)

Definition validMarginChain (defaultImf minImf maintenanceMf closeOutMf : Z) : bool :=
  if defaultImf <? minImf then false
  else if defaultImf <=? maintenanceMf then false
  else if maintenanceMf <=? closeOutMf then false
  else true.

Definition validateMarketIndexForType (idx marketType : Z) : R unit :=
  ensure (negb (idx =? NilMarketIndex)) (EMarket ErrMarketIndexExceed);;
  if marketType =? MarketTypePerps then
    ensure (negb (MaxPerpsMarketIndex <? idx)) (EMarket ErrMarketIndexExceed)
  else if marketType =? MarketTypeSpot then
    ensure (negb ((idx <? MinSpotMarketIndex) || (MaxSpotMarketIndex <? idx)))
      (EMarket ErrMarketIndexExceed)
  else Err (EMarket ErrInvalidMarket).

Definition validateMarketStatics (m : Market) : R unit :=
  validateMarketIndexForType (mkt_MarketIndex m) (mkt_MarketType m);;
  ensure (negb (mkt_QuoteAssetId m =? NilAssetIndex)) (EMarket ErrInvalidMarket);;
  (if mkt_MarketType m =? MarketTypeSpot then
     ensure (negb (mkt_BaseAssetId m =? NilAssetIndex)) (EMarket ErrInvalidMarket);;
     ensure (negb (mkt_BaseAssetId m =? mkt_QuoteAssetId m)) (EMarket ErrInvalidMarket)
   else mret tt);;
  ensure (negb (FeeTick <=? mkt_TakerFee m)) (EMarket ErrMarketInvalidParams);;
  ensure (negb (FeeTick <=? mkt_MakerFee m)) (EMarket ErrMarketInvalidParams);;
  ensure (negb (FeeTick <=? mkt_LiquidationFee m)) (EMarket ErrMarketInvalidParams);;
  ensure (negb (mkt_MinBaseAmount m =? 0)) (EMarket ErrMarketInvalidParams);;
  ensure (negb (mkt_MinQuoteAmount m =? 0)) (EMarket ErrMarketInvalidParams);;
  ensure (negb (mkt_OrderQuoteLimit m <? 0)) (EMarket ErrMarketInvalidParams);;
  ensure (negb (mkt_SizeExtensionMultiplier m <=? 0)) (EMarket ErrMarketInvalidParams);;
  ensure (negb (mkt_QuoteExtensionMultiplier m <=? 0)) (EMarket ErrMarketInvalidParams);;
  ensure (negb (mkt_ExpiryTimestamp m <? 0)) (EMarket ErrInvalidMarket).

Definition validateMarketDetailsStatics (d : MarketDetails) : R unit :=
  ensure (negb (md_MinInitialMarginFraction d =? 0)) (EMarket ErrMarketInvalidParams);;
  ensure (negb ((MarginTick <? md_DefaultInitialMarginFraction d)
                || (MarginTick <? md_MinInitialMarginFraction d)
                || (MarginTick <? md_MaintenanceMarginFraction d)
                || (MarginTick <? md_CloseOutMarginFraction d)))
    (EMarket ErrMarketInvalidParams);;
  ensure (validMarginChain (md_DefaultInitialMarginFraction d) (md_MinInitialMarginFraction d)
            (md_MaintenanceMarginFraction d) (md_CloseOutMarginFraction d))
    (EMarket ErrInvalidMarginChain);;
  ensure (negb (md_FundingClampBig d <? md_FundingClampSmall d)) (EMarket ErrMarketInvalidParams);;
  ensure (negb (FundingRateTick <? md_InterestRate d)) (EMarket ErrMarketInvalidParams).

Definition validateMarketDetailsInit (d : MarketDetails) : R unit :=
  ensure (md_AskNonce d =? FirstAskNonce) (EMarket ErrNonceExhausted);;
  ensure (md_BidNonce d =? FirstBidNonce) (EMarket ErrNonceExhausted);;
  ensure (md_OpenInterest d =? 0) (EMarket ErrMarketInvalidParams);;
  ensure (md_AggregatePremiumSum d =? 0) (EMarket ErrMarketInvalidParams);;
  ensure (md_TotalOrderCount d =? 0) (EMarket ErrMarketInvalidParams);;
  ensure (md_TotalPremiumSamples d =? 0) (EMarket ErrMarketInvalidParams);;
  ensure (md_LastPremiumSampleTimestamp d =? 0) (EMarket ErrMarketInvalidParams);;
  ensure (negb (negb (md_MarkPrice d =? 0) || negb (md_IndexPrice d =? 0)
                || negb (md_ImpactBidPrice d =? 0) || negb (md_ImpactAskPrice d =? 0)
                || negb (md_ImpactPrice d =? 0))) (EMarket ErrMarketInvalidParams);;
  ensure (md_FundingRatePrefixSum d =? 0) (EMarket ErrMarketInvalidParams).

(** ** Governance messages *)

Record MsgCreateMarket := mkMsgCreateMarket {
  cm_Authority : string;
  cm_Market : Market;
  cm_MarketDetails : MarketDetails
}.

Record MsgUpdateMarket := mkMsgUpdateMarket {
  um_Authority : string;
  um_MarketIndex : Z;
  um_NewStatus : Z;
  um_NewTakerFee : Z;
  um_NewMakerFee : Z;
  um_NewLiquidationFee : Z;
  um_NewMinBaseAmount : Z;
  um_NewMinQuoteAmount : Z;
  um_NewOrderQuoteLimit : Z;
  um_NewExpiryTimestamp : Z
}.

Record MsgUpdateMarketDetails := mkMsgUpdateMarketDetails {
  ud_Authority : string;
  ud_MarketIndex : Z;
  ud_NewDefaultImf : Z;
  ud_NewMinImf : Z;
  ud_NewMaintenanceMf : Z;
  ud_NewCloseOutMf : Z;
  ud_NewFundingClampSmall : Z;
  ud_NewFundingClampBig : Z;
  ud_NewInterestRate : Z;
  ud_NewOpenInterestLimit : Z
}.

(** [x/asset/keeper/asset.go]: [GetAsset]. *)
Definition GetAsset (idx : Z) (c : Chain) : R Asset :=
  of_option (xst_Assets (misc c) !! idx) (EAsset ErrAssetNotFound).

Section messages.
Context `{Env, LiquidationKeeper}.

Definition validAuth (a : string) : R unit := ensure (valid_bech32 a) EInvalidAddress.

Definition MsgCreateMarket_ValidateBasic (m : MsgCreateMarket) : R unit :=
  validAuth (cm_Authority m);;
  ensure (mkt_MarketIndex (cm_Market m) =? md_MarketIndex (cm_MarketDetails m))
    (EMarket ErrInvalidMarket);;
  ensure (mkt_Status (cm_Market m) =? MarketStatusActive) (EMarket ErrInvalidMarket);;
  validateMarketStatics (cm_Market m);;
  validateMarketDetailsStatics (cm_MarketDetails m);;
  validateMarketDetailsInit (cm_MarketDetails m).

Definition MsgUpdateMarket_ValidateBasic (m : MsgUpdateMarket) : R unit :=
  validAuth (um_Authority m);;
  ensure (negb (um_MarketIndex m =? NilMarketIndex)) (EMarket ErrMarketIndexExceed);;
  ensure ((um_NewStatus m =? MarketStatusActive) || (um_NewStatus m =? MarketStatusExpired))
    (EMarket ErrInvalidMarket);;
  ensure (negb (FeeTick <=? um_NewTakerFee m)) (EMarket ErrMarketInvalidParams);;
  ensure (negb (FeeTick <=? um_NewMakerFee m)) (EMarket ErrMarketInvalidParams);;
  ensure (negb (FeeTick <=? um_NewLiquidationFee m)) (EMarket ErrMarketInvalidParams);;
  ensure (negb (um_NewMinBaseAmount m =? 0)) (EMarket ErrMarketInvalidParams);;
  ensure (negb (um_NewMinQuoteAmount m =? 0)) (EMarket ErrMarketInvalidParams);;
  ensure (negb (um_NewOrderQuoteLimit m <? 0)) (EMarket ErrMarketInvalidParams);;
  ensure (negb (um_NewExpiryTimestamp m <? 0)) (EMarket ErrInvalidMarket);;
  ensure (negb ((um_NewStatus m =? MarketStatusExpired) && (0 <? um_NewExpiryTimestamp m)))
    (EMarket ErrInvalidMarket).

(** The [MarketDetails] literal of the message's [ValidateBasic]. *)
Definition details_of_msg (m : MsgUpdateMarketDetails) : MarketDetails :=
  mkMarketDetails 0 (ud_NewDefaultImf m) (ud_NewMinImf m) (ud_NewMaintenanceMf m)
    (ud_NewCloseOutMf m) 0 (ud_NewInterestRate m) 0 0 0 0 0 0 0 0
    (ud_NewFundingClampSmall m) (ud_NewFundingClampBig m) 0 0 0 0 0 0 0 0.

Definition MsgUpdateMarketDetails_ValidateBasic (m : MsgUpdateMarketDetails) : R unit :=
  validAuth (ud_Authority m);;
  ensure (negb (ud_MarketIndex m =? NilMarketIndex)) (EMarket ErrMarketIndexExceed);;
  validateMarketDetailsStatics (details_of_msg m);;
  ensure (negb (MaxOrderBaseAmount <? ud_NewOpenInterestLimit m)) (EMarket ErrMarketInvalidParams).

Definition resetRuntimeDetails (d : MarketDetails) : MarketDetails :=
  d <| md_MarkPrice := 0 |> <| md_IndexPrice := 0 |> <| md_ImpactBidPrice := 0 |>
    <| md_ImpactAskPrice := 0 |> <| md_ImpactPrice := 0 |> <| md_OpenInterest := 0 |>
    <| md_AggregatePremiumSum := 0 |> <| md_TotalOrderCount := 0 |>
    <| md_TotalPremiumSamples := 0 |> <| md_LastPremiumSampleTimestamp := 0 |>
    <| md_FundingRatePrefixSum := 0 |> <| md_QuoteMultiplier := 0 |>.

Definition check_authority (a : string) : R unit :=
  ensure (bool_decide (a = authority)) (EMarket ErrMarketInvalidAuthority).

Definition CreateMarket (msg : MsgCreateMarket) : K unit := fun c =>
  (lift (MsgCreateMarket_ValidateBasic msg);;
   lift (check_authority (cm_Authority msg));;
   let market0 := cm_Market msg in
   let details := cm_MarketDetails msg in
   lift (ensure (bool_decide (mst_Markets (market c) !! mkt_MarketIndex market0 = None))
           (EMarket ErrMarketExists));;
   let params := mst_Params (market c) in
   lift (if mkt_MarketType market0 =? MarketTypePerps
         then ensure (IsPerpsIndex params (mkt_MarketIndex market0)) (EMarket ErrMarketIndexExceed)
         else if mkt_MarketType market0 =? MarketTypeSpot
         then ensure (IsSpotIndex params (mkt_MarketIndex market0)) (EMarket ErrMarketIndexExceed)
         else mret tt);;
   quote ← reads (GetAsset (mkt_QuoteAssetId market0));
   lift (ensure (as_Enabled quote) (EMarket ErrInvalidMarket));;
   (if mkt_MarketType market0 =? MarketTypePerps
    then lift (ensure (mkt_QuoteAssetId market0 =? USDCAssetIndex) (EMarket ErrInvalidMarket))
    else if mkt_MarketType market0 =? MarketTypeSpot
    then base ← reads (GetAsset (mkt_BaseAssetId market0));
         lift (ensure (as_Enabled base) (EMarket ErrInvalidMarket))
    else mret tt);;
   createMarket (market0 <| mkt_CreatedAt := BlockTime c |>
                         <| mkt_Status := MarketStatusActive |>);;
   SetMarketDetails (resetRuntimeDetails details)) c.

Definition UpdateMarket (msg : MsgUpdateMarket) : K unit := fun c =>
  (lift (MsgUpdateMarket_ValidateBasic msg);;
   lift (check_authority (um_Authority msg));;
   old ← reads (GetMarket (um_MarketIndex msg));
   lift (ensure (negb (mkt_Status old =? MarketStatusExpired)) (EMarket ErrInvalidMarket));;
   lift (ensure (negb ((0 <? um_NewExpiryTimestamp msg)
                       && (um_NewExpiryTimestamp msg <=? BlockTime c)))
           (EMarket ErrInvalidMarket));;
   let m := old <| mkt_TakerFee := um_NewTakerFee msg |> <| mkt_MakerFee := um_NewMakerFee msg |>
                <| mkt_LiquidationFee := um_NewLiquidationFee msg |>
                <| mkt_MinBaseAmount := um_NewMinBaseAmount msg |>
                <| mkt_MinQuoteAmount := um_NewMinQuoteAmount msg |>
                <| mkt_OrderQuoteLimit := um_NewOrderQuoteLimit msg |>
                <| mkt_ExpiryTimestamp := um_NewExpiryTimestamp msg |>
                <| mkt_Status := um_NewStatus msg |> in
   updateMarket old m;;
   (if um_NewStatus msg =? MarketStatusExpired then applyMarketExit m else mret tt)) c.

Definition UpdateMarketDetails (msg : MsgUpdateMarketDetails) : K unit :=
  lift (MsgUpdateMarketDetails_ValidateBasic msg);;
  lift (check_authority (ud_Authority msg));;
  d ← reads (GetMarketDetails (ud_MarketIndex msg));
  SetMarketDetails
    (d <| md_DefaultInitialMarginFraction := ud_NewDefaultImf msg |>
       <| md_MinInitialMarginFraction := ud_NewMinImf msg |>
       <| md_MaintenanceMarginFraction := ud_NewMaintenanceMf msg |>
       <| md_CloseOutMarginFraction := ud_NewCloseOutMf msg |>
       <| md_FundingClampSmall := ud_NewFundingClampSmall msg |>
       <| md_FundingClampBig := ud_NewFundingClampBig msg |>
       <| md_InterestRate := ud_NewInterestRate msg |>
       <| md_OpenInterestLimit := ud_NewOpenInterestLimit msg |>).

Definition Market_UpdateParams (auth : string) (p : MarketParams) : K unit :=
  lift (validAuth auth);;
  lift (MarketParams_Validate p);;
  lift (check_authority auth);;
  set_market_store (fun s => s <| mst_Params := p |>).

End messages.

(** ** Lemmas *)

(** Records are stored under the index they carry. *)
Definition market_keyed (c : Chain) : Prop :=
  map_Forall (fun i m => mkt_MarketIndex m = i) (mst_Markets (market c)) /\
  map_Forall (fun i d => md_MarketIndex d = i) (mst_MarketDetails (market c)).
#[global] Instance market_keyed_dec c : Decision (market_keyed c).
Proof. apply _. Defined.

Definition with_details (d : MarketDetails) (c : Chain) : Chain := (SetMarketDetails d c).2.

Lemma get_details_key c i d :
  market_keyed c -> GetMarketDetails i c = Ok d -> md_MarketIndex d = i.
Proof. intros [_ Hk] Hd%of_option_ok. by apply (Hk i d). Qed.

Lemma get_details_with c d i :
  GetMarketDetails i (with_details d c) =
    if decide (md_MarketIndex d = i) then Ok d else GetMarketDetails i c.
Proof.
  unfold GetMarketDetails, with_details. cbn. case_decide as E.
  - rewrite E. by rewrite lookup_insert_eq.
  - by rewrite lookup_insert_ne.
Qed.

Lemma market_keyed_with_details c d : market_keyed c -> market_keyed (with_details d c).
Proof.
  intros [H1 H2]. split; [done|]. unfold with_details; cbn. by apply map_Forall_insert_2.
Qed.
#[export] Hint Resolve market_keyed_with_details : core.

Lemma SetMarketDetails_ok d c u c' : SetMarketDetails d c = (Ok u, c') -> c' = with_details d c.
Proof. intros [= <-]. done. Qed.

(** The mark-price gate: what a successful read certifies. *)
Definition mark_fresh (d : MarketDetails) (c : Chain) : Prop :=
  md_MarkPrice d <> 0 /\
  (0 < mp_MaxMarkPriceStalenessMs (mst_Params (market c)) ->
   md_LastMarkPriceRefreshTimestamp d <> 0 /\
   BlockTime c - md_LastMarkPriceRefreshTimestamp d
     <= mp_MaxMarkPriceStalenessMs (mst_Params (market c))).

Lemma gateMarkPrice_ok d c : gateMarkPrice d c = Ok tt <-> mark_fresh d c.
Proof.
  unfold gateMarkPrice, mark_fresh. rewrite res_bind_ok. setoid_rewrite ensure_ok. split.
  - intros ([] & Hz & H). breflect. split; [done|]. intros Hpos.
    case_match; breflect; [lia|]. rewrite ensure_ok in H. breflect. lia.
  - intros [Hz Hf]. exists tt. split; [by apply negb_true_iff, Z.eqb_neq|].
    case_match; breflect; [done|]. apply ensure_ok, negb_true_iff, orb_false_iff.
    destruct (Hf ltac:(lia)). split; [by apply Z.eqb_neq | apply Z.ltb_ge; lia].
Qed.

Lemma gateMarkPrice_cases d c : gateMarkPrice d c = Ok tt \/ exists e, gateMarkPrice d c = Err e.
Proof.
  unfold gateMarkPrice, ensure. destruct (negb (md_MarkPrice d =? 0)); cbn; [|eauto].
  repeat case_match; eauto.
Qed.

Lemma GetMarkPriceAndDetails_ok i c p d :
  GetMarkPriceAndDetails i c = Ok (p, d) <->
  mst_MarketDetails (market c) !! i = Some d /\ p = md_MarkPrice d /\ mark_fresh d c.
Proof.
  unfold GetMarkPriceAndDetails. rewrite res_bind_ok. split.
  - intros (d' & Hd & H). inv_ok. destruct x. apply gateMarkPrice_ok in H0. by simplify_eq.
  - intros (Hd & -> & Hf). exists d. rewrite Hd. split; [done|].
    apply gateMarkPrice_ok in Hf. by rewrite Hf.
Qed.

Lemma AllocateNonce_ok i isAsk c n c' :
  AllocateNonce i isAsk c = (Ok n, c') ->
  exists d, GetMarketDetails i c = Ok d /\
    n = (if isAsk then md_AskNonce d else md_BidNonce d) /\
    let d' := if isAsk then d <| md_AskNonce := md_AskNonce d + 1 |>
              else d <| md_BidNonce := md_BidNonce d - 1 |> in
    md_AskNonce d < md_BidNonce d /\ md_AskNonce d' < md_BidNonce d' /\
    c' = with_details d' c.
Proof.
  unfold AllocateNonce. intros H. inv_ok. breflect. exists x. subst.
  destruct isAsk; apply SetMarketDetails_ok in H3; cbn in *; split_and!; auto; lia.
Qed.

Lemma checkedAddInt64_ok a b n :
  MinInt64 <= a <= MaxInt64 -> MinInt64 <= b <= MaxInt64 ->
  checkedAddInt64 a b = Ok n <-> n = a + b /\ MinInt64 <= a + b <= MaxInt64.
Proof.
  unfold checkedAddInt64, MaxInt64, MinInt64. intros Ha Hb. split.
  - intros H. inv_ok. breflect. destruct H0, H1; breflect; lia.
  - intros [-> Hn].
    rewrite (proj2 (negb_true_iff _)); [cbn|].
    rewrite (proj2 (negb_true_iff _)); [done|].
    all: apply andb_false_iff; rewrite !Z.ltb_ge; lia.
Qed.

Lemma UpdateOpenInterest_ok i delta c u c' :
  UpdateOpenInterest i delta c = (Ok u, c') ->
  exists d, GetMarketDetails i c = Ok d /\
    let next := md_OpenInterest d + delta in
    0 <= next /\ (0 < md_OpenInterestLimit d -> next <= md_OpenInterestLimit d) /\
    c' = with_details (d <| md_OpenInterest := next |>) c.
Proof.
  unfold UpdateOpenInterest. intros H. inv_ok. unfold checkedAddInt64 in *. inv_ok.
  breflect. exists x. subst. split_and!; [done|lia| |].
  - match goal with H : _ \/ _ |- _ => destruct H end; breflect; lia.
  - by eapply SetMarketDetails_ok.
Qed.

(** ** Expiry index *)

Definition auto_expiry (m : Market) : Prop :=
  mkt_Status m = MarketStatusActive /\ 0 < mkt_ExpiryTimestamp m.

(** The index holds exactly the active markets that have an expiry. *)
Definition expiry_inv (c : Chain) : Prop :=
  map_Forall (fun i m => mkt_MarketIndex m = i) (mst_Markets (market c)) /\
  forall e i, (e, i) ∈ mst_ExpiryIndex (market c) <->
    exists m, mst_Markets (market c) !! i = Some m /\ auto_expiry m /\ mkt_ExpiryTimestamp m = e.

Lemma auto_expiry_spec m :
  (mkt_Status m =? MarketStatusActive) && (0 <? mkt_ExpiryTimestamp m) = true <-> auto_expiry m.
Proof. unfold auto_expiry. rewrite andb_true_iff, Z.eqb_eq, Z.ltb_lt. done. Qed.

Definition with_market (ix : gset (Z * Z)) (m : Market) (c : Chain) : Chain :=
  c <| market := market c <| mst_Markets := <[mkt_MarketIndex m := m]> (mst_Markets (market c)) |>
                          <| mst_ExpiryIndex := ix |> |>.

(** Replacing the record of one market keeps the index exact when the
    index drops the entries of the old record and gains the new one's. *)
Lemma expiry_inv_with ix m c :
  expiry_inv c ->
  (forall e i, (e, i) ∈ ix <->
     if decide (i = mkt_MarketIndex m) then auto_expiry m /\ mkt_ExpiryTimestamp m = e
     else (e, i) ∈ mst_ExpiryIndex (market c)) ->
  expiry_inv (with_market ix m c).
Proof.
  intros [Hk Hi] Hix. split; cbn.
  - by apply map_Forall_insert_2.
  - intros e i. rewrite Hix. case_decide as E.
    + subst. rewrite lookup_insert_eq. split; [intros [? ?]; eauto|].
      intros (m' & [= <-] & ?); done.
    + rewrite lookup_insert_ne by done. apply Hi.
Qed.

Lemma createMarket_run m c :
  exists ix, createMarket m c = (Ok tt, with_market ix m c) /\
  ix = (if (mkt_Status m =? MarketStatusActive) && (0 <? mkt_ExpiryTimestamp m)
        then {[(mkt_ExpiryTimestamp m, mkt_MarketIndex m)]} ∪ mst_ExpiryIndex (market c)
        else mst_ExpiryIndex (market c)).
Proof.
  eexists; split; [|reflexivity]. unfold createMarket, Markets_Set, set_market_store.
  autorewrite with run. destruct (_ && _); cbn; done.
Qed.

Lemma createMarket_inv m c :
  expiry_inv c -> mst_Markets (market c) !! mkt_MarketIndex m = None ->
  exists c', createMarket m c = (Ok tt, c') /\ expiry_inv c'.
Proof.
  intros Hc Hn. destruct (createMarket_run m c) as (ix & -> & Hix).
  eexists; split; [done|]. apply expiry_inv_with; [done|]. intros e i.
  assert (forall e', (e', mkt_MarketIndex m) ∉ mst_ExpiryIndex (market c)) as Hno.
  { intros e' (m' & Hm' & _)%(proj2 Hc). congruence. }
  subst ix. case_match eqn:Ha.
  - apply auto_expiry_spec in Ha. case_decide; subst; set_solver.
  - case_decide; [|done]. subst. split; [by intros ?%Hno|].
    intros [Hx%auto_expiry_spec _]. congruence.
Qed.

Lemma updateMarket_run old m c :
  exists ix, updateMarket old m c = (Ok tt, with_market ix m c) /\
  let was := (mkt_Status old =? MarketStatusActive) && (0 <? mkt_ExpiryTimestamp old) in
  let wants := (mkt_Status m =? MarketStatusActive) && (0 <? mkt_ExpiryTimestamp m) in
  let changed := negb (mkt_ExpiryTimestamp old =? mkt_ExpiryTimestamp m) in
  let ix1 := if was && (negb wants || changed)
             then mst_ExpiryIndex (market c) ∖ {[(mkt_ExpiryTimestamp old, mkt_MarketIndex old)]}
             else mst_ExpiryIndex (market c) in
  ix = if wants && (negb was || changed)
       then {[(mkt_ExpiryTimestamp m, mkt_MarketIndex m)]} ∪ ix1 else ix1.
Proof.
  eexists; split; [|reflexivity].
  unfold updateMarket, Markets_Set, set_market_store. autorewrite with run. cbv zeta.
  repeat match goal with |- context [if ?b then _ else _] => destruct b eqn:? end; done.
Qed.

Lemma updateMarket_inv old m c :
  expiry_inv c -> mst_Markets (market c) !! mkt_MarketIndex m = Some old ->
  exists c', updateMarket old m c = (Ok tt, c') /\ expiry_inv c' /\
    (exists ix, c' = with_market ix m c).
Proof.
  intros Hc Hold. destruct (updateMarket_run old m c) as (ix & -> & Hix).
  eexists; split; [done|]. split; [|by eauto]. apply expiry_inv_with; [done|]. intros e i.
  assert (mkt_MarketIndex old = mkt_MarketIndex m) as Hidx by by apply (proj1 Hc).
  assert (forall e', (e', mkt_MarketIndex m) ∈ mst_ExpiryIndex (market c) <->
            auto_expiry old /\ mkt_ExpiryTimestamp old = e') as Ho.
  { intros e'. rewrite (proj2 Hc). split; [intros (?&?&?&?); by simplify_eq | eauto]. }
  cbv zeta in Hix. rewrite Hidx in Hix.
  destruct (_ && (0 <? mkt_ExpiryTimestamp old)) eqn:Hwas;
    [apply auto_expiry_spec in Hwas | rewrite <- not_true_iff_false, auto_expiry_spec in Hwas];
  (destruct (_ && (0 <? mkt_ExpiryTimestamp m)) eqn:Hwants;
    [apply auto_expiry_spec in Hwants | rewrite <- not_true_iff_false, auto_expiry_spec in Hwants]);
  destruct (Z.eqb_spec (mkt_ExpiryTimestamp old) (mkt_ExpiryTimestamp m)) as [Heq|Hneq];
  cbn in Hix; subst ix; case_decide; subst;
  rewrite ?elem_of_union, ?elem_of_difference, ?elem_of_singleton, ?Ho; naive_solver.
Qed.

(** What the keeper relies on of the exit hook: it leaves the market
    records and the index alone, and from the states the hook is meant for,
    which market updates preserve, it returns without a panic. *)
Class ExitHookOk `{LiquidationKeeper} := {
  exit_ok : Chain -> Prop;
  exit_ok_account c c' : account c' = account c -> exit_ok c -> exit_ok c';
  exit_frame i c : let c' := (ApplyExitPosition_hook i c).2 in
    mst_Markets (market c') = mst_Markets (market c) /\
    mst_ExpiryIndex (market c') = mst_ExpiryIndex (market c);
  exit_safe i : safe exit_ok (ApplyExitPosition_hook i)
}.

Section expiry_proofs.
Context `{ExitHookOk}.

Lemma expiry_inv_frame c c' :
  mst_Markets (market c') = mst_Markets (market c) ->
  mst_ExpiryIndex (market c') = mst_ExpiryIndex (market c) ->
  expiry_inv c -> expiry_inv c'.
Proof. unfold expiry_inv. by intros -> ->. Qed.

Lemma applyMarketExit_frame m c :
  mst_Markets (market (applyMarketExit m c).2) = mst_Markets (market c) /\
  mst_ExpiryIndex (market (applyMarketExit m c).2) = mst_ExpiryIndex (market c).
Proof.
  unfold applyMarketExit, mbind, M_bind, attempt.
  pose proof (exit_frame (mkt_MarketIndex m) c) as [H1 H2].
  by destruct (ApplyExitPosition_hook _ c) as [[] c1].
Qed.

Lemma applyMarketExit_run m c :
  exit_ok c -> exists c', applyMarketExit m c = (Ok tt, c') /\ exit_ok c'.
Proof.
  intros Hok. unfold applyMarketExit.
  destruct (safe_at_attempt _ _ _ (exit_safe (mkt_MarketIndex m) c Hok)) as (o & c1 & Hrun & H1 & _).
  exists c1. by rewrite (run_bind _ _ _ _ _ Hrun).
Qed.

(** Expiring an active market: status flips, the index entry goes. *)
Lemma expireMarket_state m c :
  expiry_inv c -> mst_Markets (market c) !! mkt_MarketIndex m = Some m ->
  expiry_inv (expireMarket m c).2 /\
  mst_Markets (market (expireMarket m c).2) =
    <[mkt_MarketIndex m := m <| mkt_Status := MarketStatusExpired |>]> (mst_Markets (market c)).
Proof.
  intros Hc Hm. unfold expireMarket.
  destruct (updateMarket_inv m (m <| mkt_Status := MarketStatusExpired |>) c Hc)
    as (c1 & Hu & Hc1 & ix & ->); [done|].
  rewrite (run_bind _ _ _ _ _ Hu).
  destruct (applyMarketExit_frame (m <| mkt_Status := MarketStatusExpired |>)
    (with_market ix (m <| mkt_Status := MarketStatusExpired |>) c)) as [Ha Hb].
  split; [by apply (expiry_inv_frame _ _ Ha Hb)|]. by rewrite Ha.
Qed.

Lemma expireMarket_run m c :
  expiry_inv c -> exit_ok c -> mst_Markets (market c) !! mkt_MarketIndex m = Some m ->
  exists c', expireMarket m c = (Ok tt, c') /\ exit_ok c'.
Proof.
  intros Hc Hok Hm. unfold expireMarket.
  destruct (updateMarket_inv m (m <| mkt_Status := MarketStatusExpired |>) c Hc)
    as (c1 & Hu & _ & ix & ->); [done|].
  rewrite (run_bind _ _ _ _ _ Hu). apply applyMarketExit_run. by apply (exit_ok_account c).
Qed.

(** The due loop with enough budget expires every due market and touches
    no other. *)
Lemma iterateExpired_loop_run budget due processed c :
  expiry_inv c -> exit_ok c -> NoDup due -> (forall k, k ∈ due -> k ∈ mst_ExpiryIndex (market c)) ->
  processed + Z.of_nat (length due) <= budget ->
  exists c', iterateExpired_loop expireMarket budget processed due c = (Ok tt, c') /\
    expiry_inv c' /\
    forall i, mst_Markets (market c') !! i =
      (fun m => if bool_decide ((mkt_ExpiryTimestamp m, i) ∈ due)
                then m <| mkt_Status := MarketStatusExpired |> else m)
      <$> mst_Markets (market c) !! i.
Proof.
  revert processed c. induction due as [|[e i] due IH]; intros processed c Hc Hok Hnd Hin Hb.
  { exists c. split_and!; [done..|]. intros j. by destruct (mst_Markets (market c) !! j). }
  apply NoDup_cons in Hnd as [Hni Hnd]. cbn [length] in Hb.
  destruct (proj1 (proj2 Hc e i)) as (m & Hm & [Hact Hpos] & He).
  { apply Hin. set_solver. }
  assert (mkt_MarketIndex m = i) as Hmi by by apply (proj1 Hc).
  destruct (expireMarket_state m c Hc) as [Hc1 Hms]; [by rewrite Hmi|].
  destruct (expireMarket_run m c Hc Hok) as (c1 & H1 & Hok1); [by rewrite Hmi|].
  rewrite H1 in Hc1, Hms. cbn [snd] in Hc1, Hms.
  assert (forall j e', (e', j) ∈ due -> j <> i) as Hji.
  { intros j e' Hj ->. destruct (proj1 (proj2 Hc e' i)) as (m' & Hm' & _ & He').
    { apply Hin. set_solver. } assert (m' = m) as -> by congruence. congruence. }
  destruct (IH (processed + 1) c1) as (c2 & H2 & Hc2 & Hmk); [done|done|done| |lia|].
  { intros [e' j] Hk. destruct (proj1 (proj2 Hc e' j)) as (m' & Hm' & Ha' & He').
    { apply Hin. set_solver. }
    apply (proj2 (proj2 Hc1 e' j)). exists m'. rewrite Hms, Hmi, lookup_insert_ne; eauto.
    by eapply not_eq_sym, Hji. }
  exists c2. split_and!; [|done|].
  - cbn [iterateExpired_loop]. rewrite (proj2 (Z.ltb_lt _ _)) by lia.
    unfold GetMarket. cbn [snd]. rewrite Hm. cbn [of_option].
    rewrite Hact. cbn. unfold mbind, M_bind, attempt. rewrite H1. done.
  - intros j. rewrite Hmk, Hms, Hmi. destruct (decide (j = i)) as [->|Hne].
    + rewrite lookup_insert_eq, Hm. cbn. rewrite bool_decide_eq_false_2, bool_decide_eq_true_2;
        [done| |intros Hx; by apply (Hji i _ Hx)]. rewrite He. set_solver.
    + rewrite lookup_insert_ne by done. destruct (_ !! j) as [m'|]; [|done]. cbn.
      rewrite (bool_decide_ext _ ((mkt_ExpiryTimestamp m', j) ∈ (e, i) :: due)); [done|].
      set_solver.
Qed.
End expiry_proofs.

(** ** Nonce counters *)

Definition nonces (i : Z) (c : Chain) : option (Z * Z) :=
  (fun d => (md_AskNonce d, md_BidNonce d)) <$> mst_MarketDetails (market c) !! i.

(** Market [i] exists and its counters stand at [x]. *)
Definition counters (i : Z) (x : option (Z * Z)) (c : Chain) : Prop :=
  market_keyed c /\ is_Some (mst_Markets (market c) !! i) /\ nonces i c = x.
#[global] Instance counters_dec i x c : Decision (counters i x c).
Proof. unfold counters. apply _. Defined.

(** What the counters rely on of the exit hook. *)
Class ExitHookKeepsNonces `{LiquidationKeeper} :=
  exit_counters j i x : stable (counters i x) (ApplyExitPosition_hook j).

Section counters.
Context (i : Z) (x : option (Z * Z)).

Lemma counters_market c c' : market c' = market c -> counters i x c -> counters i x c'.
Proof. unfold counters, market_keyed, nonces. by intros ->. Qed.

Lemma counters_details d c :
  counters i x c -> (md_MarketIndex d = i -> x = Some (md_AskNonce d, md_BidNonce d)) ->
  counters i x (with_details d c).
Proof.
  intros (Hk & Hm & Hn) Hd. split_and!; [by apply market_keyed_with_details|done|].
  unfold nonces, with_details. cbn. destruct (decide (md_MarketIndex d = i)) as [E|Hne].
  - rewrite E, lookup_insert_eq. by rewrite (Hd E).
  - by rewrite lookup_insert_ne by done.
Qed.

(** Storing a changed record that keeps its index and its nonces. *)
Lemma counters_update j d d' c :
  counters i x c -> GetMarketDetails j c = Ok d ->
  md_MarketIndex d' = md_MarketIndex d -> md_AskNonce d' = md_AskNonce d -> md_BidNonce d' = md_BidNonce d ->
  counters i x (with_details d' c).
Proof.
  intros Hc Hd E1 E2 E3. apply counters_details; [done|]. intros E. destruct Hc as (Hk & _ & <-).
  pose proof (get_details_key c j d Hk Hd). apply of_option_ok in Hd. unfold nonces.
  replace i with j by congruence. rewrite Hd. cbn. congruence.
Qed.

Lemma set_details_counters j d d' c r c' :
  SetMarketDetails d' c = (r, c') -> counters i x c -> GetMarketDetails j c = Ok d ->
  md_MarketIndex d' = md_MarketIndex d -> md_AskNonce d' = md_AskNonce d -> md_BidNonce d' = md_BidNonce d ->
  counters i x c'.
Proof. intros Hr. assert (c' = with_details d' c) as -> by by injection Hr. apply counters_update. Qed.

Lemma Markets_Set_counters m : stable (counters i x) (Markets_Set m).
Proof.
  intros c ([K1 K2] & Hm & Hn). split_and!; [split; [|exact K2]|..|done].
  - cbn. apply map_Forall_insert_2; done.
  - cbn. by apply lookup_insert_is_Some'; right.
Qed.

Lemma index_set_counters k : stable (counters i x) (ExpiryIndex_Set k).
Proof. intros c Hc. exact Hc. Qed.
Lemma index_remove_counters k : stable (counters i x) (ExpiryIndex_Remove k).
Proof. intros c Hc. exact Hc. Qed.

Lemma createMarket_counters m : stable (counters i x) (createMarket m).
Proof.
  apply stable_bind; [apply Markets_Set_counters|]. intros _.
  destruct (_ && _); [apply index_set_counters|apply stable_ret].
Qed.

Lemma updateMarket_counters old m : stable (counters i x) (updateMarket old m).
Proof.
  apply stable_bind; [apply Markets_Set_counters|]. intros _. cbv zeta.
  apply stable_bind; [|intros _]; (destruct (_ && (_ || _)); [|apply stable_ret]).
  - apply index_remove_counters.
  - apply index_set_counters.
Qed.

Lemma UpdateOpenInterest_counters j delta : stable (counters i x) (UpdateOpenInterest j delta).
Proof.
  intros c Hc. destruct (UpdateOpenInterest j delta c) as [r c'] eqn:Hr. unfold UpdateOpenInterest in Hr.
  guards Hr.
  by eapply set_details_counters.
Qed.

(** An allocation for another market, or one that fails. *)
Lemma AllocateNonce_counters j isAsk c r c' :
  AllocateNonce j isAsk c = (r, c') -> (j = i -> forall n, r <> Ok n) ->
  counters i x c -> counters i x c'.
Proof.
  intros Hr Hne Hc. unfold AllocateNonce in Hr. guards Hr. injection Hr as <- <-.
  apply counters_details; [done|]. intros E. exfalso. refine (Hne _ _ eq_refl).
  match goal with H : GetMarketDetails j c = Ok ?d |- _ =>
    rewrite <- (get_details_key c j d (proj1 Hc) H), <- E end. by destruct isAsk.
Qed.

Section handlers.
Context `{Env, LiquidationKeeper, !ExitHookKeepsNonces}.

Lemma CreateMarket_counters msg : stable (counters i x) (CreateMarket msg).
Proof.
  intros c Hc. destruct (CreateMarket msg c) as [r c'] eqn:Hr. unfold CreateMarket in Hr. guards Hr.
  assert (mkt_MarketIndex (cm_Market msg) = md_MarketIndex (cm_MarketDetails msg)) as Hidx.
  { unfold MsgCreateMarket_ValidateBasic in *. inv_ok. by breflect. }
  breflect. assert (md_MarketIndex (cm_MarketDetails msg) <> i) as Hne.
  { intros E. destruct Hc as (_ & [m0 Hm0] & _). congruence. }
  set (m := cm_Market msg <| mkt_CreatedAt := BlockTime c |> <| mkt_Status := MarketStatusActive |>) in *.
  assert (forall r c', (createMarket m;; SetMarketDetails (resetRuntimeDetails (cm_MarketDetails msg))) c
            = (r, c') -> counters i x c') as Hw.
  { intros r' c1 Hw. eapply stable_run; [|exact Hw|exact Hc]. apply stable_bind; [apply createMarket_counters|].
    intros _ c2 Hc2. by apply counters_details. }
  repeat (case_match; try rewrite run_ret in Hr); guards Hr; eauto.
Qed.

Lemma applyMarketExit_counters m : stable (counters i x) (applyMarketExit m).
Proof. apply stable_bind; [apply stable_attempt, exit_counters|intros ?; apply stable_ret]. Qed.

Lemma UpdateMarket_counters msg : stable (counters i x) (UpdateMarket msg).
Proof.
  intros c Hc. destruct (UpdateMarket msg c) as [r c'] eqn:Hr. unfold UpdateMarket in Hr. guards Hr.
  eapply stable_run; [|exact Hr|exact Hc]. apply stable_bind; [apply updateMarket_counters|].
  intros _. case_match; [apply applyMarketExit_counters|apply stable_ret].
Qed.

Lemma UpdateMarketDetails_counters msg : stable (counters i x) (UpdateMarketDetails msg).
Proof.
  intros c Hc. destruct (UpdateMarketDetails msg c) as [r c'] eqn:Hr. unfold UpdateMarketDetails in Hr. guards Hr.
  by eapply set_details_counters.
Qed.

Lemma Market_UpdateParams_counters auth p : stable (counters i x) (Market_UpdateParams auth p).
Proof.
  intros c Hc. destruct (Market_UpdateParams auth p c) as [r c'] eqn:Hr. unfold Market_UpdateParams in Hr. guards Hr.
  by injection Hr as _ <-.
Qed.

Lemma expireMarket_counters m : stable (counters i x) (expireMarket m).
Proof. apply stable_bind; [apply updateMarket_counters|]. intros _. apply applyMarketExit_counters. Qed.

Lemma iterateExpired_loop_counters budget due n :
  stable (counters i x) (iterateExpired_loop expireMarket budget n due).
Proof.
  revert n. induction due as [|k due IH]; intros n c Hc; cbn; [done|].
  case_match; [|done]. assert (counters i x ((ExpiryIndex_Remove k;; iterateExpired_loop expireMarket budget n due) c).2) as Hskip.
  { apply (stable_bind (counters i x)); [apply index_remove_counters|intros _; apply IH|exact Hc]. }
  destruct (GetMarket k.2 c) as [m|e|e|]; [|done..]. case_match; [done|].
  apply (stable_bind (counters i x)); [apply stable_attempt, expireMarket_counters|intros o; apply IH|exact Hc].
Qed.

Lemma Market_EndBlocker_counters : stable (counters i x) Market_EndBlocker.
Proof. intros c Hc. unfold Market_EndBlocker, iterateExpired. case_match; [done|]. by apply iterateExpired_loop_counters. Qed.
End handlers.
End counters.

(** The order of allocations: later asks are larger, later bids smaller,
    and an ask is always below a bid. *)
Definition nonce_before (x y : bool * Z) : Prop :=
  match x.1, y.1 with
  | true, true => y.2 < x.2
  | false, false => x.2 < y.2
  | true, false => x.2 < y.2
  | false, true => y.2 < x.2
  end.

(** A mark price is served only when it is non-zero and, while the
    staleness bound is on, refreshed at most that long ago; in every other
    case the read fails. *)
Theorem mark_price_fails_closed i c :
  (forall p, GetMarkPrice i c = Ok p ->
     exists d, mst_MarketDetails (market c) !! i = Some d /\ p = md_MarkPrice d /\ mark_fresh d c) /\
  (forall d, mst_MarketDetails (market c) !! i = Some d -> ~ mark_fresh d c ->
     exists e, GetMarkPrice i c = Err e) /\
  (mst_MarketDetails (market c) !! i = None -> GetMarkPrice i c = Err (EMarket ErrMissingPrice)).
Proof.
  unfold GetMarkPrice. split_and!.
  - intros p Hp. inv_ok. destruct x0. apply gateMarkPrice_ok in H0. subst. eauto.
  - intros d -> Hn. cbn. rewrite <- gateMarkPrice_ok in Hn.
    destruct (gateMarkPrice_cases d c) as [?|[e He]]; [done|]. rewrite He. eauto.
  - by intros ->.
Qed.

(** An open-interest update that succeeds adds exactly the signed delta
    in [int64] range, never goes below zero or above a configured limit, and
    changes nothing else; otherwise the store is unchanged. *)
Theorem open_interest_bounded i delta c r c' d :
  UpdateOpenInterest i delta c = (r, c') -> market_keyed c ->
  GetMarketDetails i c = Ok d ->
  MinInt64 <= md_OpenInterest d <= MaxInt64 -> MinInt64 <= delta <= MaxInt64 ->
  let next := md_OpenInterest d + delta in
  if bool_decide (0 <= next <= MaxInt64 /\ (0 < md_OpenInterestLimit d -> next <= md_OpenInterestLimit d))
  then r = Ok tt /\ c' = with_details (d <| md_OpenInterest := next |>) c
  else (exists e, r = Err e) /\ c' = c.
Proof.
  intros H Hk Hd Ho Hdel next. unfold UpdateOpenInterest in H.
  unfold mbind, M_bind, reads, lift in H. rewrite Hd in H.
  destruct (checkedAddInt64 (md_OpenInterest d) delta) as [n|e| |] eqn:Hn.
  - apply checkedAddInt64_ok in Hn as [-> Hn]; [|done|done]. fold next in H, Hn.
    case_bool_decide as Hb.
    + rewrite (proj2 (Z.ltb_ge next 0)) in H by lia. cbn in H.
      rewrite (proj2 (negb_true_iff _)) in H; [by injection H as <- <-|].
      apply andb_false_iff. rewrite Z.ltb_ge, Z.ltb_ge. lia.
    + destruct (Z.ltb_spec next 0); cbn in H; [simplify_eq; eauto|].
      destruct (Z.ltb_spec 0 (md_OpenInterestLimit d)); cbn in H; [|exfalso; apply Hb; lia].
      destruct (Z.ltb_spec (md_OpenInterestLimit d) next); cbn in H; [simplify_eq; eauto|].
      exfalso. apply Hb. lia.
  - simplify_eq. rewrite bool_decide_eq_false_2; [eauto|]. intros [Hx _].
    assert (checkedAddInt64 (md_OpenInterest d) delta = Ok next) as Hy; [|congruence].
    apply checkedAddInt64_ok; [done..|]. unfold MinInt64, next in *. lia.
  - exfalso. unfold checkedAddInt64, ensure in Hn. repeat case_match; done.
  - exfalso. unfold checkedAddInt64, ensure in Hn. repeat case_match; done.
Qed.

(** ** Histories of the market module *)

Section market_history.
Context `{Env, ExitHookOk}.



Lemma due_keys_ok now c :
  NoDup (due_keys now c) /\ (forall k, k ∈ due_keys now c <-> k ∈ mst_ExpiryIndex (market c) /\ k.1 <= now).
Proof.
  unfold due_keys. split.
  - apply NoDup_filter. rewrite keys_perm. apply NoDup_elements.
  - intros k. rewrite list_elem_of_filter, elem_of_keys. tauto.
Qed.

Lemma expiry_inv_details d c : expiry_inv c -> expiry_inv (with_details d c).
Proof. by apply expiry_inv_frame. Qed.
#[local] Hint Resolve expiry_inv_details : core.

Lemma CreateMarket_keeps msg c r c' : CreateMarket msg c = (r, c') -> expiry_inv c -> expiry_inv c'.
Proof.
  intros H2 Hc. unfold CreateMarket in H2. guards H2. breflect.
  set (m := cm_Market msg <| mkt_CreatedAt := BlockTime c |> <| mkt_Status := MarketStatusActive |>) in *.
  assert (forall r c', (createMarket m;; SetMarketDetails (resetRuntimeDetails (cm_MarketDetails msg))) c
            = (r, c') -> expiry_inv c') as Hw.
  { intros r' c1 Hr. destruct (createMarket_inv m c Hc) as (c2 & Hcm & Hc2); [done|].
    unfold mbind, M_bind in Hr. rewrite Hcm in Hr. injection Hr as _ <-.
    by apply (expiry_inv_frame c2). }
  repeat (case_match; try rewrite run_ret in H2); guards H2; eauto.
Qed.


End market_history.


(** C36: the end-blocker returns, and when the block budget covers the due
    entries it expires every active market whose expiry has passed and
    leaves every other market record as it was. *)
Theorem end_blocker_expires_due `{ExitHookOk} c :
  expiry_inv c -> exit_ok c ->
  0 < mp_MaxMarketsExpiredPerBlock (mst_Params (market c)) ->
  Z.of_nat (length (due_keys (BlockTime c) c)) <= mp_MaxMarketsExpiredPerBlock (mst_Params (market c)) ->
  exists c', Market_EndBlocker c = (Ok tt, c') /\
    forall i, mst_Markets (market c') !! i =
      (fun m => if bool_decide (mkt_Status m = MarketStatusActive /\ 0 < mkt_ExpiryTimestamp m <= BlockTime c)
                then m <| mkt_Status := MarketStatusExpired |> else m)
      <$> mst_Markets (market c) !! i.
Proof.
  intros Hc Hok Hpos Hb. destruct (due_keys_ok (BlockTime c) c) as [Hnd Hin].
  destruct (iterateExpired_loop_run (mp_MaxMarketsExpiredPerBlock (mst_Params (market c)))
    (due_keys (BlockTime c) c) 0 c) as (c' & Hr & _ & Hm); [done|done|done| |lia|].
  { intros k Hk. by apply Hin. }
  exists c'. split.
  - unfold Market_EndBlocker, iterateExpired. by rewrite (proj2 (Z.eqb_neq _ _)) by lia.
  - intros i. rewrite Hm. destruct (mst_Markets (market c) !! i) as [m|] eqn:Hmi; [|done]. cbn.
    erewrite bool_decide_ext; [done|]. rewrite Hin, (proj2 Hc). cbn. unfold auto_expiry. split.
    + intros [(m' & ? & [? ?] & ?) ?]. simplify_eq. split; [done|lia].
    + intros (? & ? & ?). eauto 10.
Qed.

(** ** Witnesses *)

Definition demo_env : Env := {| valid_bech32 := fun _ => true; authority := "gov" |}.
Definition demo_hook : LiquidationKeeper := {| ApplyExitPosition_hook := fun _ => mret tt |}.
Lemma demo_hook_ok : @ExitHookOk demo_hook.
Proof. refine {| exit_ok := fun _ => True |}; done. Defined.
Lemma demo_hook_nonces : @ExitHookKeepsNonces demo_hook.
Proof. by intros j i x c. Defined.

Definition usdc : Asset := mkAsset 3 "uusdc" "USDC" 6 1 1 1 1 true 0.

(** A perps market 0 (fees 500/200/10000 per million, margins 10%/5%/3%)
    that expires at time 50. *)
Definition demo_market : Market :=
  mkMarket 0 MarketStatusActive MarketTypePerps 0 3 500 200 10000 1 1 1 1 0 50 0 0.
Definition demo_details : MarketDetails :=
  mkMarketDetails 0 1000 500 500 300 0 100 0 0 0 0 0 0 0 0 500 40000 0
    FirstAskNonce FirstBidNonce 0 0 0 0 0.

Definition demo_chain0 : Chain :=
  empty_chain <| BlockTime := 100 |>
    <| misc := misc empty_chain <| xst_Assets := {[ 3 := usdc ]} |> |>.

Definition demo_chain1 : Chain :=
  (@CreateMarket demo_env (mkMsgCreateMarket "gov" demo_market demo_details) demo_chain0).2.

Lemma demo_expiry0 : expiry_inv demo_chain0.
Proof.
  split; [by_decide|]. intros e i. split; [set_solver|]. intros (m & Hm & _).
  change ((∅ : gmap Z Market) !! i = Some m) in Hm. by rewrite lookup_empty in Hm.
Qed.

Lemma open_interest_bounded_witness :
  (UpdateOpenInterest 0 7 demo_chain1).1 = Ok tt.
Proof.
  destruct (GetMarketDetails 0 demo_chain1) as [d|e| |] eqn:Hd; [|vm_compute in Hd; congruence..].
  pose proof (open_interest_bounded 0 7 demo_chain1 _ _ d
    (surjective_pairing (UpdateOpenInterest 0 7 demo_chain1)) ltac:(by_decide) Hd) as H.
  vm_compute in Hd. injection Hd as <-. cbn in H.
  apply H; unfold MinInt64, MaxInt64; lia.
Defined.


Lemma end_blocker_expires_due_witness :
  exists c', @Market_EndBlocker demo_hook demo_chain1 = (Ok tt, c') /\
    mst_Markets (market c') !! 0 =
      Some (demo_market <| mkt_CreatedAt := 100 |> <| mkt_Status := MarketStatusExpired |>).
Proof.
  destruct (@end_blocker_expires_due demo_hook demo_hook_ok demo_chain1) as (c' & H1 & H2).
  - refine (@CreateMarket_keeps demo_env _ demo_chain0 _ demo_chain1
      (surjective_pairing _) demo_expiry0).
  - exact I.
  - by_compute.
  - vm_compute. discriminate.
  - exists c'. split; [done|]. rewrite H2. by_compute.
Defined.

Lemma mark_price_fails_closed_witness :
  exists e, GetMarkPrice 0 demo_chain1 = Err e.
Proof.
  destruct (mst_MarketDetails (market demo_chain1) !! 0) as [d|] eqn:Hd;
    [|vm_compute in Hd; discriminate].
  apply (proj1 (proj2 (mark_price_fails_closed 0 demo_chain1)) d Hd).
  vm_compute in Hd. injection Hd as <-. intros [H _]. by apply H.
Defined.
