(* ===== verification/Asset.v ===== *)
(** * The asset registry

    [x/asset/keeper] and [x/asset/types]: the assets with their denom index,
    the messages that register and update them, the rules that keep USDC the
    only collateral, and genesis. *)

From S2P Require Import Prelude Constants Types Market.

(** What the module takes from outside of the repository: the text functions
    of Go's [strings] package, on Unicode strings, and the denom syntax of
    the SDK. Nothing is assumed of them. *)
Class AssetText := {
  ToLower : string -> string;
  TrimSpace : string -> string;
  EqualFold : string -> string -> bool;
  ValidateDenom : string -> bool
}.

Definition set_misc_store (f : MiscStore -> MiscStore) : K unit := modify (fun c => c <| misc := f (misc c) |>).

(** ** The keeper ([asset.go]) *)

Definition GetAssetByDenom (denom : string) (c : Chain) : R Asset :=
  idx ← of_option (xst_DenomToIndex (misc c) !! denom) (EAsset ErrAssetNotFound);
  GetAsset idx c.

Definition HasDenom (denom : string) (c : Chain) : bool :=
  bool_decide (is_Some (xst_DenomToIndex (misc c) !! denom)).

Definition CreateAsset (a : Asset) : K unit := fun c =>
  (lift (ensure (negb (as_AssetIndex a =? NilAssetIndex)) (EAsset ErrInvalidAssetParams));;
   lift (ensure (negb (bool_decide (is_Some (xst_Assets (misc c) !! as_AssetIndex a)))) (EAsset ErrAssetExists));;
   lift (ensure (negb (HasDenom (as_Denom a) c)) (EAsset ErrAssetExists));;
   set_misc_store (fun s => s <| xst_Assets := <[as_AssetIndex a := a]> (xst_Assets s) |>);;
   set_misc_store (fun s => s <| xst_DenomToIndex := <[as_Denom a := as_AssetIndex a]> (xst_DenomToIndex s) |>)) c.

Definition Keeper_UpdateAsset (a : Asset) : K unit := fun c =>
  (lift (ensure (negb (as_AssetIndex a =? NilAssetIndex)) (EAsset ErrInvalidAssetParams));;
   prev ← reads (GetAsset (as_AssetIndex a));
   lift (ensure (bool_decide (as_Denom prev = as_Denom a)) (EAsset ErrInvalidAssetParams));;
   set_misc_store (fun s => s <| xst_Assets := <[as_AssetIndex a := a]> (xst_Assets s) |>)) c.

Definition AllAssets (c : Chain) : list Asset := (rows (xst_Assets (misc c))).*2.

(** [Sequence.Next] *)
Definition NextAssetIndex_Next : K Z := fun c =>
  let n := xst_NextAssetIndex (misc c) in
  (Ok n, c <| misc := misc c <| xst_NextAssetIndex := wrap64 (n + 1) |> |>).

Definition AssetParams_Validate (maxAssetIndex : Z) : R unit :=
  ensure (negb (maxAssetIndex =? 0)) (EAsset ErrInvalidModuleParams);;
  ensure (negb (maxAssetIndex <? MinAssetIndex)) (EAsset ErrInvalidModuleParams);;
  ensure (negb (MaxAssetIndex <? maxAssetIndex)) (EAsset ErrInvalidModuleParams).

(** ** Messages ([msgs.go]) *)

Record MsgRegisterAsset := mkMsgRegisterAsset {
  ra_Authority : string; ra_Denom : string; ra_DisplayName : string; ra_Decimals : Z;
  ra_ExtensionMultiplier : Z; ra_MinTransferAmount : Z; ra_MinWithdrawalAmount : Z; ra_MarginMode : Z }.
Record MsgUpdateAsset := mkMsgUpdateAsset {
  ua_Authority : string; ua_AssetIndex : Z; ua_MinTransferAmount : Z; ua_MinWithdrawalAmount : Z;
  ua_Enabled : bool }.

Definition IsCanonicalUSDCDenom (denom : string) : bool := bool_decide (denom = USDCDenom).

Section messages.
Context `{Env, AssetText}.

Definition foldDisplayName (name : string) : string := ToLower (TrimSpace name).

Definition HasDisplayName (name : string) (c : Chain) : bool :=
  let folded := foldDisplayName name in
  if bool_decide (folded = EmptyString) then false
  else existsb (fun a => bool_decide (foldDisplayName (as_DisplayName a) = folded)) (AllAssets c).

Definition IsCanonicalUSDCDisplayName (name : string) : bool := EqualFold (TrimSpace name) USDCDisplayName.

Definition MsgRegisterAsset_ValidateBasic (m : MsgRegisterAsset) : R unit :=
  ensure (valid_bech32 (ra_Authority m)) EInvalidAddress;;
  ensure (ValidateDenom (ra_Denom m)) (EAsset ErrInvalidAssetParams);;
  ensure (negb (IsCanonicalUSDCDenom (ra_Denom m))) (EAsset ErrUSDCMarginConstraint);;
  ensure (negb (bool_decide (ra_DisplayName m = EmptyString))) (EAsset ErrInvalidAssetParams);;
  ensure (negb (MaxAssetDisplayNameLen <? Z.of_nat (String.length (ra_DisplayName m)))) (EAsset ErrInvalidAssetParams);;
  ensure (negb (IsCanonicalUSDCDisplayName (ra_DisplayName m))) (EAsset ErrUSDCMarginConstraint);;
  ensure (negb ((ra_Decimals m =? 0) || (MaxAssetDecimals <? ra_Decimals m))) (EAsset ErrInvalidAssetParams);;
  ensure (negb ((ra_ExtensionMultiplier m =? 0) || (MaxExtensionMultiplier <? ra_ExtensionMultiplier m)))
    (EAsset ErrInvalidAssetParams);;
  ensure (negb (ra_MinTransferAmount m =? 0)) (EAsset ErrInvalidAssetParams);;
  ensure (negb (ra_MinWithdrawalAmount m =? 0)) (EAsset ErrInvalidAssetParams);;
  ensure (ra_MarginMode m =? MarginModeDisabled) (EAsset ErrUSDCMarginConstraint).

Definition MsgUpdateAsset_ValidateBasic (m : MsgUpdateAsset) : R unit :=
  ensure (valid_bech32 (ua_Authority m)) EInvalidAddress;;
  ensure (negb (ua_AssetIndex m =? NilAssetIndex)) (EAsset ErrInvalidAssetParams);;
  ensure (negb (ua_MinTransferAmount m =? 0)) (EAsset ErrInvalidAssetParams);;
  ensure (negb (ua_MinWithdrawalAmount m =? 0)) (EAsset ErrInvalidAssetParams).

Definition ensureAuthority (signer : string) : R unit :=
  ensure (bool_decide (signer = authority)) (EAsset ErrAssetInvalidAuthority).

(** ** Handlers ([msg_server.go]) *)

Definition RegisterAsset (msg : MsgRegisterAsset) : K Z := fun c =>
  (lift (MsgRegisterAsset_ValidateBasic msg);;
   lift (ensureAuthority (ra_Authority msg));;
   lift (ensure (negb (HasDisplayName (ra_DisplayName msg) c)) (EAsset ErrAssetExists));;
   let maxAssetIndex := xst_MaxAssetIndex (misc c) in
   idx ← NextAssetIndex_Next;
   lift (ensure (negb (idx <? MinAssetIndex)) (EAsset ErrInvalidModuleParams));;
   lift (ensure (negb (maxAssetIndex <? idx)) (EAsset ErrAssetIndexExceedsMax));;
   lift (ensure (negb (wrap32 idx =? USDCAssetIndex)) (EAsset ErrUSDCMarginConstraint));;
   let asset := mkAsset (wrap32 idx) (ra_Denom msg) (ra_DisplayName msg) (ra_Decimals msg)
     (ra_ExtensionMultiplier msg) (ra_MinTransferAmount msg) (ra_MinWithdrawalAmount msg) (ra_MarginMode msg)
     true (BlockTime c) in
   CreateAsset asset;;
   mret (as_AssetIndex asset)) c.

Definition UpdateAsset (msg : MsgUpdateAsset) : K unit :=
  lift (MsgUpdateAsset_ValidateBasic msg);;
  lift (ensureAuthority (ua_Authority msg));;
  a ← reads (GetAsset (ua_AssetIndex msg));
  lift (ensure (negb ((ua_AssetIndex msg =? USDCAssetIndex) && negb (ua_Enabled msg))) (EAsset ErrUSDCMarginConstraint));;
  Keeper_UpdateAsset (a <| as_MinTransferAmount := ua_MinTransferAmount msg |>
                        <| as_MinWithdrawalAmount := ua_MinWithdrawalAmount msg |>
                        <| as_Enabled := ua_Enabled msg |>).

Definition Asset_UpdateParams (auth : string) (maxAssetIndex : Z) : K unit :=
  lift (ensure (valid_bech32 auth) EInvalidAddress);;
  lift (AssetParams_Validate maxAssetIndex);;
  lift (ensureAuthority auth);;
  set_misc_store (fun s => s <| xst_MaxAssetIndex := maxAssetIndex |>).

(** ** Genesis ([types/genesis.go], [keeper/genesis.go]) *)

Record AssetGenesis := mkAssetGenesis {
  ag_MaxAssetIndex : Z;
  ag_Assets : list Asset;
  ag_NextAssetIndex : Z
}.

Definition validateUSDCBinding (a : Asset) : R unit :=
  let marginEnabled := as_MarginMode a =? MarginModeEnabled in
  if as_AssetIndex a =? USDCAssetIndex then
    ensure (bool_decide (as_Denom a = USDCDenom)) (EAsset ErrUSDCMarginConstraint);;
    ensure (bool_decide (as_DisplayName a = USDCDisplayName)) (EAsset ErrUSDCMarginConstraint);;
    ensure marginEnabled (EAsset ErrUSDCMarginConstraint)
  else
    ensure (negb marginEnabled) (EAsset ErrUSDCMarginConstraint);;
    ensure (negb (IsCanonicalUSDCDenom (as_Denom a))) (EAsset ErrUSDCMarginConstraint);;
    ensure (negb (IsCanonicalUSDCDisplayName (as_DisplayName a))) (EAsset ErrUSDCMarginConstraint).

Definition validateAssetEntry (a : Asset) : R unit :=
  ensure (ValidateDenom (as_Denom a)) (EAsset ErrInvalidAssetParams);;
  ensure (negb (bool_decide (as_DisplayName a = EmptyString))) (EAsset ErrInvalidAssetParams);;
  ensure (negb (MaxAssetDisplayNameLen <? Z.of_nat (String.length (as_DisplayName a)))) (EAsset ErrInvalidAssetParams);;
  ensure (negb ((as_Decimals a =? 0) || (MaxAssetDecimals <? as_Decimals a))) (EAsset ErrInvalidAssetParams);;
  ensure (negb ((as_ExtensionMultiplier a =? 0) || (MaxExtensionMultiplier <? as_ExtensionMultiplier a)))
    (EAsset ErrInvalidAssetParams);;
  ensure (negb (as_MinTransferAmount a =? 0)) (EAsset ErrInvalidAssetParams);;
  ensure (negb (as_MinWithdrawalAmount a =? 0)) (EAsset ErrInvalidAssetParams);;
  ensure ((as_MarginMode a =? MarginModeDisabled) || (as_MarginMode a =? MarginModeEnabled))
    (EAsset ErrInvalidAssetParams);;
  validateUSDCBinding a.

(** The three sets of keys seen so far and the largest index. *)
Record seen := mkSeen {
  sn_Index : gset Z;
  sn_Denom : gset string;
  sn_Name : gset string;
  sn_Max : Z
}.

Definition validate_row (maxIdx : Z) (s : seen) (a : Asset) : R seen :=
  ensure (negb ((as_AssetIndex a <? MinAssetIndex) || (maxIdx <? as_AssetIndex a))) (EAsset ErrInvalidAssetParams);;
  ensure (negb (bool_decide (as_AssetIndex a ∈ sn_Index s))) (EAsset ErrAssetExists);;
  ensure (negb (bool_decide (as_Denom a ∈ sn_Denom s))) (EAsset ErrAssetExists);;
  let foldedName := ToLower (TrimSpace (as_DisplayName a)) in
  ensure (negb (bool_decide (foldedName ∈ sn_Name s))) (EAsset ErrAssetExists);;
  validateAssetEntry a;;
  mret (mkSeen ({[ as_AssetIndex a ]} ∪ sn_Index s) ({[ as_Denom a ]} ∪ sn_Denom s) ({[ foldedName ]} ∪ sn_Name s)
          (if sn_Max s <? as_AssetIndex a then as_AssetIndex a else sn_Max s)).

Definition AssetGenesis_Validate (gs : AssetGenesis) : R unit :=
  AssetParams_Validate (ag_MaxAssetIndex gs);;
  let maxIdx := ag_MaxAssetIndex gs in
  s ← foldM (validate_row maxIdx) (mkSeen ∅ ∅ ∅ 0) (ag_Assets gs);
  let next := ag_NextAssetIndex gs in
  if next =? 0 then mret tt
  else
    ensure (negb (bool_decide (next ∈ sn_Index s))) (EAsset ErrInvalidModuleParams);;
    ensure (negb (next <? MinAssetIndex)) (EAsset ErrInvalidModuleParams);;
    ensure (negb (maxIdx + 1 <? next)) (EAsset ErrInvalidModuleParams);;
    ensure (negb (next <=? sn_Max s)) (EAsset ErrInvalidModuleParams).

Definition max_index (l : list Asset) : Z :=
  foldl (fun m a => if m <? as_AssetIndex a then as_AssetIndex a else m) 0 l.

Definition Asset_InitGenesis (gs : AssetGenesis) : K unit :=
  set_misc_store (fun s => s <| xst_MaxAssetIndex := ag_MaxAssetIndex gs |>);;
  forM CreateAsset (ag_Assets gs);;
  let maxSeenIdx := max_index (ag_Assets gs) in
  let next := ag_NextAssetIndex gs in
  let next := if next <? MinAssetIndex then MinAssetIndex else next in
  let next := if MinAssetIndex <=? maxSeenIdx
              then if next <? maxSeenIdx + 1 then maxSeenIdx + 1 else next
              else next in
  set_misc_store (fun s => s <| xst_NextAssetIndex := next |>).

Definition Asset_ExportGenesis (c : Chain) : R AssetGenesis :=
  let next := xst_NextAssetIndex (misc c) in
  ensure (negb ((2 ^ 32 - 1 <? next) || (xst_MaxAssetIndex (misc c) + 1 <? next))) (EAsset ErrInvalidModuleParams);;
  mret (mkAssetGenesis (xst_MaxAssetIndex (misc c)) (AllAssets c) next).

(** The genesis the chain starts from by default: USDC alone. *)
Definition usdc_asset : Asset :=
  mkAsset USDCAssetIndex USDCDenom USDCDisplayName 6 USDCToCollateralMultiplier MinPartialTransferAmount
    MinPartialWithdrawAmount MarginModeEnabled true 0.
Definition Asset_DefaultGenesis : AssetGenesis := mkAssetGenesis MaxAssetIndex [usdc_asset] (USDCAssetIndex + 1).
End messages.

(** ** The registry invariant *)

Record asset_inv (c : Chain) : Prop := {
  ai_key i a : xst_Assets (misc c) !! i = Some a -> as_AssetIndex a = i /\ MinAssetIndex <= i <= MaxAssetIndex;
  ai_denom d i : xst_DenomToIndex (misc c) !! d = Some i <-> exists a, xst_Assets (misc c) !! i = Some a /\ as_Denom a = d;
  ai_usdc i a : xst_Assets (misc c) !! i = Some a ->
    (as_MarginMode a = MarginModeEnabled <-> i = USDCAssetIndex) /\ (as_Denom a = USDCDenom <-> i = USDCAssetIndex);
  ai_max : MinAssetIndex <= xst_MaxAssetIndex (misc c) <= MaxAssetIndex
}.

(** What never changes of a registered asset. *)
Definition identity (a : Asset) := (as_Denom a, as_DisplayName a, as_Decimals a, as_ExtensionMultiplier a, as_MarginMode a).

Definition registered_stays (c c' : Chain) : Prop :=
  forall i a, xst_Assets (misc c) !! i = Some a -> exists a', xst_Assets (misc c') !! i = Some a' /\ identity a' = identity a.

Lemma asset_inv_frame c c' :
  xst_Assets (misc c') = xst_Assets (misc c) -> xst_DenomToIndex (misc c') = xst_DenomToIndex (misc c) ->
  xst_MaxAssetIndex (misc c') = xst_MaxAssetIndex (misc c) -> asset_inv c -> asset_inv c' /\ registered_stays c c'.
Proof.
  intros H1 H2 H3 [I1 I2 I3 I4]. split; [|intros i a Ha; rewrite H1; eauto].
  split; [by rewrite H1|by rewrite H1, H2|by rewrite H1|by rewrite H3].
Qed.

Lemma registered_trans c1 c2 c3 : registered_stays c1 c2 -> registered_stays c2 c3 -> registered_stays c1 c3.
Proof. intros H1 H2 i a Ha. destruct (H1 _ _ Ha) as (b & Hb & E). destruct (H2 _ _ Hb) as (d & Hd & E'). exists d. by rewrite E', E. Qed.

(** Storing a new asset. *)
Definition stored (a : Asset) (c : Chain) : Chain :=
  c <| misc := misc c <| xst_Assets := <[as_AssetIndex a := a]> (xst_Assets (misc c)) |>
                      <| xst_DenomToIndex := <[as_Denom a := as_AssetIndex a]> (xst_DenomToIndex (misc c)) |> |>.

Lemma CreateAsset_cases a c r c' :
  CreateAsset a c = (r, c') ->
  (c' = c /\ r <> Ok tt) \/
  (r = Ok tt /\ c' = stored a c /\ as_AssetIndex a <> NilAssetIndex /\
   xst_Assets (misc c) !! as_AssetIndex a = None /\ xst_DenomToIndex (misc c) !! as_Denom a = None).
Proof.
  unfold CreateAsset, HasDenom. rewrite !run_ensure. intros H.
  destruct (negb (_ =? _)) eqn:E1; [|injection H as <- <-; left; done].
  destruct (negb (bool_decide (is_Some (xst_Assets _ !! _)))) eqn:E2; [|injection H as <- <-; left; done].
  destruct (negb _) eqn:E3 in H; [|injection H as <- <-; left; done]. injection H as <- <-. right. breflect.
  rewrite eq_None_not_Some, eq_None_not_Some. done.
Qed.

(** A new row that is not USDC keeps the invariant. *)
Lemma stored_inv a c :
  asset_inv c -> MinAssetIndex <= as_AssetIndex a <= MaxAssetIndex ->
  xst_Assets (misc c) !! as_AssetIndex a = None -> xst_DenomToIndex (misc c) !! as_Denom a = None ->
  (as_MarginMode a = MarginModeEnabled <-> as_AssetIndex a = USDCAssetIndex) ->
  (as_Denom a = USDCDenom <-> as_AssetIndex a = USDCAssetIndex) ->
  asset_inv (stored a c) /\ registered_stays c (stored a c).
Proof.
  intros [I1 I2 I3 I4] Hr Hn Hd Hm Hu. split; [split; cbn; [| | |done]|].
  - intros i b. rewrite lookup_insert_Some. intros [[<- <-]|[_ Hb]]; eauto.
  - intros d i. rewrite lookup_insert_Some. split.
    + intros [[<- <-]|[Hne Hi]]; [exists a; by rewrite lookup_insert_eq|].
      apply I2 in Hi as (b & Hb & Hbd). exists b. split; [|done]. rewrite lookup_insert_ne; [done|congruence].
    + intros (b & Hb & <-). apply lookup_insert_Some in Hb as [[<- <-]|[Hne Hb]]; [by left|].
      right. split; [|apply I2; eauto]. intros E. assert (xst_DenomToIndex (misc c) !! as_Denom b = Some i) as Hi by (apply I2; eauto).
      rewrite E in Hd. congruence.
  - intros i b. rewrite lookup_insert_Some. intros [[<- <-]|[_ Hb]]; eauto.
  - intros i b Hb. cbn. exists b. split; [|done]. rewrite lookup_insert_ne; [done|congruence].
Qed.

(** Rewriting a row under the same identity. *)
Lemma rewritten_inv i a b c :
  asset_inv c -> xst_Assets (misc c) !! i = Some b -> as_AssetIndex a = i -> identity a = identity b ->
  let c' := c <| misc := misc c <| xst_Assets := <[i := a]> (xst_Assets (misc c)) |> |> in
  asset_inv c' /\ registered_stays c c'.
Proof.
  intros [I1 I2 I3 I4] Hb Ha He c'. unfold identity in He. simplify_eq. split; [split; cbn; [| | |done]|].
  - intros j d. rewrite lookup_insert_Some. intros [[<- <-]|[_ Hd]]; [|eauto]. split; [done|]. by apply (I1 _ _ Hb).
  - intros d j. rewrite I2. split.
    + intros (x & Hx & <-). destruct (decide (as_AssetIndex a = j)) as [<-|].
      * exists a. rewrite lookup_insert_eq. split; [done|]. congruence.
      * exists x. by rewrite lookup_insert_ne.
    + intros (x & Hx & <-). apply lookup_insert_Some in Hx as [[<- <-]|[_ Hx]]; eauto.
  - intros j d. rewrite lookup_insert_Some. intros [[<- <-]|[_ Hd]]; [|eauto].
    match goal with Hm : as_MarginMode a = _, Hn : as_Denom a = _ |- _ => rewrite Hm, Hn end. by apply (I3 _ _ Hb).
  - intros j d Hd. unfold c'. cbn. destruct (decide (as_AssetIndex a = j)) as [<-|].
    + exists a. rewrite lookup_insert_eq. split; [done|]. simplify_eq. unfold identity. congruence.
    + exists d. by rewrite lookup_insert_ne.
Qed.

Section asset_history.
Context `{Env, AssetText}.

Inductive asset_step (c : Chain) : Chain -> Prop :=
| step_register msg r c' : RegisterAsset msg c = (r, c') -> asset_step c c'
| step_update_asset msg r c' : UpdateAsset msg c = (r, c') -> asset_step c c'
| step_asset_params auth p r c' : Asset_UpdateParams auth p c = (r, c') -> asset_step c c'.

Lemma RegisterAsset_inv msg c r c' :
  RegisterAsset msg c = (r, c') -> asset_inv c -> asset_inv c' /\ registered_stays c c'.
Proof.
  intros Hr Hc. pose proof (asset_inv_frame c c eq_refl eq_refl eq_refl Hc) as Hsame.
  unfold RegisterAsset in Hr. guards Hr.
  set (n := xst_NextAssetIndex (misc c)). set (c1 := c <| misc := misc c <| xst_NextAssetIndex := wrap64 (n + 1) |> |>).
  rewrite (run_bind NextAssetIndex_Next _ c n c1 eq_refl) in Hr.
  pose proof (asset_inv_frame c c1 eq_refl eq_refl eq_refl Hc) as [Hc1 Hs1]. guards Hr.
  set (a := mkAsset _ _ _ _ _ _ _ _ _ _) in Hr.
  assert (asset_inv c' /\ registered_stays c1 c') as [? ?]; [|eauto using registered_trans].
  assert (exists r0, CreateAsset a c1 = (r0, c')) as [r0 Hrun].
  { unfold mbind, M_bind in Hr. destruct (CreateAsset a c1) as [[]]; injection Hr as _ <-; eauto. }
  apply CreateAsset_cases in Hrun as [[-> _]|(_ & -> & _ & Hfree & Hden)]; [by apply (asset_inv_frame c1 c1)|].
  unfold MsgRegisterAsset_ValidateBasic in H1. inv_ok. breflect. pose proof (ai_max c Hc) as Hmax.
  assert (wrap32 n = n) as Hw. { unfold wrap32. apply Z.mod_small. unfold MinAssetIndex, MaxAssetIndex in *. lia. }
  apply stored_inv; [done| |done|done| |]; cbn; rewrite ?Hw in *.
  - lia.
  - split; [|lia]. intros E. rewrite E in *. done.
  - split; [|lia]. intros E. unfold IsCanonicalUSDCDenom in *. by rewrite E, bool_decide_eq_false in *.
Qed.

Lemma UpdateAsset_inv msg c r c' :
  UpdateAsset msg c = (r, c') -> asset_inv c -> asset_inv c' /\ registered_stays c c'.
Proof.
  intros Hr Hc. pose proof (asset_inv_frame c c eq_refl eq_refl eq_refl Hc) as Hsame.
  unfold UpdateAsset, Keeper_UpdateAsset in Hr. guards Hr. injection Hr as _ <-.
  unfold GetAsset in H3, H6. inv_ok. cbn in H6. pose proof (proj1 (ai_key c Hc _ _ H3)) as Hk. rewrite Hk in H6.
  match goal with |- asset_inv ?d /\ _ =>
    change d with (c <| misc := misc c <| xst_Assets := <[as_AssetIndex x1 := x1 <| as_MinTransferAmount := ua_MinTransferAmount msg |>
      <| as_MinWithdrawalAmount := ua_MinWithdrawalAmount msg |> <| as_Enabled := ua_Enabled msg |>]> (xst_Assets (misc c)) |> |>) end.
  apply (rewritten_inv _ _ x1); [done|by rewrite Hk|done|done].
Qed.

Lemma Asset_UpdateParams_inv auth p c r c' :
  Asset_UpdateParams auth p c = (r, c') -> asset_inv c -> asset_inv c' /\ registered_stays c c'.
Proof.
  intros Hr Hc. pose proof (asset_inv_frame c c eq_refl eq_refl eq_refl Hc) as Hsame.
  unfold Asset_UpdateParams in Hr. guards Hr. injection Hr as _ <-. split; [|intros i a Ha; eauto].
  unfold AssetParams_Validate in *. inv_ok. breflect. destruct Hc as [I1 I2 I3 I4]. by split.
Qed.

(** C18: in every history of registrations, updates and parameter changes,
    failed ones included, each asset is stored under its index, the denom
    index finds exactly the asset of that denom, USDC is the only
    margin-enabled asset and the only one with its denom, and a registered
    asset is never removed and keeps its denom, name, precision and margin
    mode. *)
Theorem asset_registry_consistent c c' :
  rtc asset_step c c' -> asset_inv c ->
  (forall d a, GetAssetByDenom d c' = Ok a <->
     exists i, xst_Assets (misc c') !! i = Some a /\ as_Denom a = d) /\
  (forall i a, xst_Assets (misc c') !! i = Some a -> as_AssetIndex a = i /\
     (as_MarginMode a = MarginModeEnabled <-> i = USDCAssetIndex) /\ (as_Denom a = USDCDenom <-> i = USDCAssetIndex)) /\
  (forall i a, xst_Assets (misc c) !! i = Some a ->
     exists a', xst_Assets (misc c') !! i = Some a' /\ identity a' = identity a).
Proof.
  intros Hr Hc. assert (asset_inv c' /\ registered_stays c c') as [[I1 I2 I3 _] Hs].
  { induction Hr as [c|c c1 c2 Hstep _ IH]; [by apply asset_inv_frame|].
    assert (asset_inv c1 /\ registered_stays c c1) as [H1 H2].
    { destruct Hstep; [by eapply RegisterAsset_inv|by eapply UpdateAsset_inv|by eapply Asset_UpdateParams_inv]. }
    destruct (IH H1) as [H3 H4]. eauto using registered_trans. }
  split_and!; [|intros i a Ha; split; [by apply I1|by apply I3]|done].
  intros d a. unfold GetAssetByDenom, GetAsset. rewrite res_bind_ok. setoid_rewrite of_option_ok. split.
  - intros (i & Hi & Ha). exists i. split; [done|]. apply I2 in Hi as (b & Hb & <-). congruence.
  - intros (i & Ha & Hd). exists i. split; [|done]. apply I2. eauto.
Qed.

(** *** Genesis *)

Lemma create_all l c :
  (forall a, a ∈ l -> as_AssetIndex a <> NilAssetIndex /\ xst_Assets (misc c) !! as_AssetIndex a = None /\
     xst_DenomToIndex (misc c) !! as_Denom a = None) ->
  NoDup (as_AssetIndex <$> l) -> NoDup (as_Denom <$> l) ->
  exists A D, forM CreateAsset l c = (Ok tt, c <| misc := misc c <| xst_Assets := A |> <| xst_DenomToIndex := D |> |>) /\
    (forall i a, A !! i = Some a <-> xst_Assets (misc c) !! i = Some a \/ a ∈ l /\ as_AssetIndex a = i) /\
    (forall d i, D !! d = Some i <->
       xst_DenomToIndex (misc c) !! d = Some i \/ exists a, a ∈ l /\ as_Denom a = d /\ as_AssetIndex a = i).
Proof.
  revert c. induction l as [|a l IH]; intros c Hl Hi Hd.
  - exists (xst_Assets (misc c)), (xst_DenomToIndex (misc c)). split; [by destruct c as [? ? ? ? []]|].
    split; intros; rewrite ?elem_of_nil; naive_solver (try set_solver).
  - apply NoDup_cons in Hi as [Hi1 Hi2]. apply NoDup_cons in Hd as [Hd1 Hd2].
    destruct (Hl a) as (H1 & H2 & H3); [set_solver|].
    assert (CreateAsset a c = (Ok tt, stored a c)) as Hrun.
    { destruct (CreateAsset a c) as [r c1] eqn:E. pose proof (CreateAsset_cases _ _ _ _ E) as [[_ Hr]|(-> & -> & _)]; [|done].
      exfalso. unfold CreateAsset, HasDenom in E. rewrite !run_ensure, H2, H3 in E.
      rewrite (proj2 (Z.eqb_neq _ _) H1) in E. cbn in E. by injection E as <- _. }
    destruct (IH (stored a c)) as (A & D & HA & HA1 & HD1); [|done|done|].
    { intros b Hb. destruct (Hl b) as (K1 & K2 & K3); [set_solver|]. split; [done|]. cbn.
      rewrite !lookup_insert_ne; [done| |]; intros E; [apply Hd1|apply Hi1]; rewrite E; by apply list_elem_of_fmap_2. }
    exists A, D. split; [|split].
    + cbn [forM]. rewrite (run_bind _ _ _ _ _ Hrun), HA. done.
    + intros i b. rewrite HA1. cbn. rewrite lookup_insert_Some, elem_of_cons. naive_solver congruence.
    + intros d i. rewrite HD1. cbn. rewrite lookup_insert_Some. setoid_rewrite elem_of_cons. naive_solver congruence.
Qed.

Lemma max_index_spec l m :
  let mx := foldl (fun m a => if m <? as_AssetIndex a then as_AssetIndex a else m) m l in
  m <= mx /\ (forall a, a ∈ l -> as_AssetIndex a <= mx) /\ (mx = m \/ exists a, a ∈ l /\ as_AssetIndex a = mx).
Proof.
  revert m. induction l as [|a l IH]; intros m; cbn; [split_and!; [lia|by intros a ?%not_elem_of_nil|by left]|].
  destruct (IH (if m <? as_AssetIndex a then as_AssetIndex a else m)) as (H1 & H2 & H3). cbn in *.
  split_and!.
  - case_match; breflect; lia.
  - intros b [->|Hb]%elem_of_cons; [case_match; breflect; lia|auto].
  - destruct H3 as [H3|(b & Hb & H3)]; [|right; exists b; split; [set_solver|done]].
    rewrite H3. case_match; [right; exists a; split; [set_solver|done]|by left].
Qed.

Definition fresh_assets (c : Chain) : Prop := xst_Assets (misc c) = ∅ /\ xst_DenomToIndex (misc c) = ∅.

(** What [InitGenesis] stores from rows without duplicates. *)
Lemma InitGenesis_run gs c :
  fresh_assets c -> (forall a, a ∈ ag_Assets gs -> as_AssetIndex a <> NilAssetIndex) ->
  NoDup (as_AssetIndex <$> ag_Assets gs) -> NoDup (as_Denom <$> ag_Assets gs) ->
  exists c', Asset_InitGenesis gs c = (Ok tt, c') /\
    xst_MaxAssetIndex (misc c') = ag_MaxAssetIndex gs /\
    (forall i a, xst_Assets (misc c') !! i = Some a <-> a ∈ ag_Assets gs /\ as_AssetIndex a = i) /\
    (forall d i, xst_DenomToIndex (misc c') !! d = Some i <->
       exists a, a ∈ ag_Assets gs /\ as_Denom a = d /\ as_AssetIndex a = i) /\
    xst_NextAssetIndex (misc c') =
      Z.max (ag_NextAssetIndex gs) (Z.max MinAssetIndex (max_index (ag_Assets gs) + 1)) /\
    c' = c <| misc := misc c <| xst_Assets := xst_Assets (misc c') |> <| xst_DenomToIndex := xst_DenomToIndex (misc c') |>
      <| xst_NextAssetIndex := xst_NextAssetIndex (misc c') |> <| xst_MaxAssetIndex := xst_MaxAssetIndex (misc c') |> |>.
Proof.
  intros [F1 F2] Hnil Hi Hd. unfold Asset_InitGenesis.
  set (c1 := c <| misc := misc c <| xst_MaxAssetIndex := ag_MaxAssetIndex gs |> |>).
  rewrite (run_bind _ _ c tt c1 eq_refl).
  destruct (create_all (ag_Assets gs) c1) as (A & D & Hrun & HA & HD); [|done|done|].
  { intros a Ha. cbn. rewrite F1, F2, !lookup_empty. auto. }
  rewrite (run_bind _ _ _ _ _ Hrun). eexists. split; [reflexivity|]. cbn. split_and!; [done| | | |done].
  - intros i a. rewrite HA. cbn. rewrite F1, lookup_empty. naive_solver.
  - intros d i. rewrite HD. cbn. rewrite F2, lookup_empty. naive_solver.
  - destruct (max_index_spec (ag_Assets gs) 0) as (H1 & _). fold (max_index (ag_Assets gs)) in H1.
    unfold MinAssetIndex. repeat case_match; breflect; lia.
Qed.

(** Exporting the registry and importing it into an empty module gives
    back every asset, the denom index, the parameters and the next index. *)
Theorem asset_genesis_roundtrip c gs c0 :
  asset_inv c -> MinAssetIndex <= xst_NextAssetIndex (misc c) ->
  map_Forall (fun i _ => i < xst_NextAssetIndex (misc c)) (xst_Assets (misc c)) ->
  Asset_ExportGenesis c = Ok gs -> fresh_assets c0 ->
  exists c1, Asset_InitGenesis gs c0 = (Ok tt, c1) /\
    xst_Assets (misc c1) = xst_Assets (misc c) /\ xst_DenomToIndex (misc c1) = xst_DenomToIndex (misc c) /\
    xst_MaxAssetIndex (misc c1) = xst_MaxAssetIndex (misc c) /\
    xst_NextAssetIndex (misc c1) = xst_NextAssetIndex (misc c) /\
    c1 = c0 <| misc := misc c0 <| xst_Assets := xst_Assets (misc c1) |> <| xst_DenomToIndex := xst_DenomToIndex (misc c1) |>
      <| xst_NextAssetIndex := xst_NextAssetIndex (misc c1) |> <| xst_MaxAssetIndex := xst_MaxAssetIndex (misc c1) |> |>.
Proof.
  intros Hc Hn Hlt Hex Hf. unfold Asset_ExportGenesis in Hex. inv_ok. subst gs. destruct Hc as [I1 I2 I3 I4].
  assert (forall i a, a ∈ AllAssets c /\ as_AssetIndex a = i <-> xst_Assets (misc c) !! i = Some a) as Hall.
  { intros i a. unfold AllAssets. rewrite list_elem_of_fmap. split.
    - intros [([j b] & -> & Hj%elem_of_rows) Hi]. cbn in *. destruct (I1 _ _ Hj) as [E _]. congruence.
    - intros Ha. split; [|by apply (I1 _ _ Ha)]. exists (i, a). split; [done|]. by apply elem_of_rows. }
  assert (forall {B} (f : Asset -> B), (forall i a j b, xst_Assets (misc c) !! i = Some a ->
    xst_Assets (misc c) !! j = Some b -> f a = f b -> i = j) -> NoDup (f <$> AllAssets c)) as Hnd.
  { intros B f Hinj. unfold AllAssets. rewrite <- list_fmap_compose. apply NoDup_fmap_2_strong.
    - intros [i a] [j b] Hi%elem_of_rows Hj%elem_of_rows E. cbn in E. pose proof (Hinj _ _ _ _ Hi Hj E). congruence.
    - rewrite rows_perm. apply NoDup_map_to_list. }
  set (gs := mkAssetGenesis _ _ _).
  destruct (InitGenesis_run gs c0 Hf) as (c1 & Hrun & K1 & K2 & K3 & K4 & K5).
  - intros a Ha. destruct (I1 (as_AssetIndex a) a) as [_ ?]; [by apply Hall|]. unfold MinAssetIndex, NilAssetIndex in *. lia.
  - apply Hnd. intros i a j b Ha Hb E. destruct (I1 _ _ Ha), (I1 _ _ Hb). congruence.
  - apply Hnd. intros i a j b Ha Hb E. assert (xst_DenomToIndex (misc c) !! as_Denom a = Some i) by (apply I2; eauto).
    assert (xst_DenomToIndex (misc c) !! as_Denom a = Some j) by (apply I2; eauto). congruence.
  - unfold gs in K1, K2, K3, K4. cbn in K1, K2, K3. cbn [ag_Assets ag_NextAssetIndex] in K4. exists c1. split_and!; [done| | |done| |done].
    + apply map_eq. intros i. apply option_eq. intros a. by rewrite K2, Hall.
    + apply map_eq. intros d. apply option_eq. intros i. rewrite K3, I2. split.
      * intros (a & Ha & Hd & Hi). exists a. split; [by apply Hall|done].
      * intros (a & Ha & Hd). exists a. by apply Hall in Ha as [? ?].
    + rewrite K4. destruct (max_index_spec (AllAssets c) 0) as (_ & _ & K6). fold (max_index (AllAssets c)) in K6.
      assert (max_index (AllAssets c) < xst_NextAssetIndex (misc c)); [|unfold MinAssetIndex in *; lia].
      destruct K6 as [->|(a & Ha & <-)]; [unfold MinAssetIndex in *; lia|]. apply (Hlt (as_AssetIndex a) a). by apply Hall.
Qed.

(** The USDC rules of a valid row. *)
Lemma entry_usdc a :
  validateAssetEntry a = Ok tt ->
  (as_MarginMode a = MarginModeEnabled <-> as_AssetIndex a = USDCAssetIndex) /\
  (as_Denom a = USDCDenom <-> as_AssetIndex a = USDCAssetIndex).
Proof.
  unfold validateAssetEntry, validateUSDCBinding, IsCanonicalUSDCDenom. intros He. inv_ok.
  destruct (as_AssetIndex a =? USDCAssetIndex) eqn:E; inv_ok; breflect; tauto.
Qed.

(** The sets [GenesisState.Validate] threads through the rows. *)
Lemma validate_rows mx l s s' :
  foldM (validate_row mx) s l = Ok s' ->
  (forall a, a ∈ l -> MinAssetIndex <= as_AssetIndex a <= mx /\ as_AssetIndex a ∉ sn_Index s /\ as_Denom a ∉ sn_Denom s /\
     validateAssetEntry a = Ok tt) /\
  NoDup (as_AssetIndex <$> l) /\ NoDup (as_Denom <$> l) /\
  sn_Max s' = foldl (fun m a => if m <? as_AssetIndex a then as_AssetIndex a else m) (sn_Max s) l.
Proof.
  revert s. induction l as [|a l IH]; intros s Hs.
  { cbn in Hs. inv_ok. subst. split_and!; [by intros a ?%not_elem_of_nil|constructor..|done]. }
  cbn [foldM] in Hs. inv_ok. destruct (IH _ Hs) as (K1 & K2 & K3 & K4). unfold validate_row in *. inv_ok.
  subst. cbn in *. breflect. split_and!; [|constructor; [|done]..|done].
  - intros b [->|Hb]%elem_of_cons; [|destruct (K1 b Hb) as (? & ? & ? & ?); set_solver].
    split_and!; try done. match goal with u : () |- _ => by destruct u end.
  - intros (b & Eb & Hb)%list_elem_of_fmap. destruct (K1 b Hb). set_solver.
  - intros (b & Eb & Hb)%list_elem_of_fmap. destruct (K1 b Hb). set_solver.
Qed.

(** A genesis the validator accepts is imported without an error into an
    empty module, holds exactly its rows, starts with the registry invariant
    and with a next index above every registered asset. *)
Theorem valid_asset_genesis_imports gs c :
  AssetGenesis_Validate gs = Ok tt -> fresh_assets c ->
  exists c', Asset_InitGenesis gs c = (Ok tt, c') /\ asset_inv c' /\
    (forall i a, xst_Assets (misc c') !! i = Some a <-> a ∈ ag_Assets gs /\ as_AssetIndex a = i) /\
    map_Forall (fun i _ => i < xst_NextAssetIndex (misc c')) (xst_Assets (misc c')) /\
    MinAssetIndex <= xst_NextAssetIndex (misc c') <= xst_MaxAssetIndex (misc c') + 1 /\
    c' = c <| misc := misc c <| xst_Assets := xst_Assets (misc c') |> <| xst_DenomToIndex := xst_DenomToIndex (misc c') |>
      <| xst_NextAssetIndex := xst_NextAssetIndex (misc c') |> <| xst_MaxAssetIndex := xst_MaxAssetIndex (misc c') |> |>.
Proof.
  intros Hv Hf. unfold AssetGenesis_Validate in Hv. inv_ok.
  destruct (validate_rows _ _ _ _ ltac:(eassumption)) as (K1 & K2 & K3 & _).
  destruct (InitGenesis_run gs c Hf) as (c' & Hrun & L1 & L2 & L3 & L4 & L6); [|done..|].
  { intros a Ha. destruct (K1 a Ha) as [? _]. unfold MinAssetIndex, NilAssetIndex in *. lia. }
  unfold AssetParams_Validate in *. inv_ok. breflect.
  exists c'. split; [done|]. split; [split|split; [done|split; [|split; [|done]]]].
  - intros i a [Ha <-]%L2. destruct (K1 a Ha). split; [done|lia].
  - intros d i. rewrite L3. split; intros (a & Ha); exists a; rewrite L2 in *; naive_solver.
  - intros i a [Ha <-]%L2. by apply entry_usdc, K1.
  - rewrite L1. lia.
  - intros i a [Ha <-]%L2. rewrite L4. destruct (max_index_spec (ag_Assets gs) 0) as (_ & L5 & _).
    specialize (L5 a Ha). fold (max_index (ag_Assets gs)) in L5. lia.
  - rewrite L4, L1.
    assert (ag_NextAssetIndex gs <= ag_MaxAssetIndex gs + 1).
    { destruct (Z.eqb_spec (ag_NextAssetIndex gs) 0) as [?|?]; inv_ok; breflect; unfold MinAssetIndex in *; lia. }
    destruct (max_index_spec (ag_Assets gs) 0) as (_ & _ & [E|(a & Ha & E)]); fold (max_index (ag_Assets gs)) in E;
      [|destruct (K1 a Ha) as [? _]]; unfold MinAssetIndex in *; lia.
Qed.

End asset_history.

(** ** Witnesses *)

Definition demo_text : AssetText :=
  {| ToLower := fun s => s; TrimSpace := fun s => s; EqualFold := String.eqb; ValidateDenom := fun d => negb (String.eqb d "") |}.

Definition demo_register : MsgRegisterAsset := mkMsgRegisterAsset "gov" "uatom" "ATOM" 6 100 1 1 MarginModeDisabled.

(** The default genesis, then one more asset. *)
Definition demo_assets : Chain := (@Asset_InitGenesis Asset_DefaultGenesis empty_chain).2.
Definition demo_assets2 : Chain := (@RegisterAsset demo_env demo_text demo_register demo_assets).2.

Lemma demo_assets_inv : asset_inv demo_assets.
Proof.
  destruct (InitGenesis_run Asset_DefaultGenesis empty_chain) as (c & Hrun & K1 & K2 & K3 & _).
  { done. }
  { intros a ->%list_elem_of_singleton. done. }
  { repeat constructor; set_solver. }
  { repeat constructor; set_solver. }
  unfold demo_assets. rewrite Hrun. cbn [snd]. cbn [ag_Assets Asset_DefaultGenesis] in *.
  assert (forall i a, xst_Assets (misc c) !! i = Some a <-> a = usdc_asset /\ USDCAssetIndex = i) as K4.
  { intros i a. rewrite K2, list_elem_of_singleton. naive_solver. }
  split.
  - intros i a [-> <-]%K4. done.
  - intros d i. rewrite K3. setoid_rewrite list_elem_of_singleton. setoid_rewrite K4. naive_solver.
  - intros i a [-> <-]%K4. done.
  - rewrite K1. done.
Qed.

Lemma asset_registry_consistent_witness :
  exists a, GetAssetByDenom "uatom" demo_assets2 = Ok a /\ as_AssetIndex a = 4 /\
    (as_MarginMode a = MarginModeEnabled <-> 4 = USDCAssetIndex) /\
    exists b, xst_Assets (misc demo_assets2) !! USDCAssetIndex = Some b /\ identity b = identity usdc_asset.
Proof.
  destruct (@asset_registry_consistent demo_env demo_text demo_assets demo_assets2) as (H1 & H2 & H3).
  - eapply rtc_l; [|apply rtc_refl]. eapply (step_register _ demo_register). unfold demo_assets2. apply surjective_pairing.
  - apply demo_assets_inv.
  - destruct (H3 USDCAssetIndex usdc_asset) as (b & Hb & E); [vm_compute; reflexivity|].
    eexists. split; [apply H1; exists 4; split; vm_compute; reflexivity|]. split; [reflexivity|].
    split; [exact (proj1 (proj2 (H2 4 _ ltac:(vm_compute; reflexivity))))|]. eauto.
Defined.

Lemma valid_asset_genesis_imports_witness :
  exists c', Asset_InitGenesis Asset_DefaultGenesis empty_chain = (Ok tt, c') /\ asset_inv c'.
Proof.
  destruct (@valid_asset_genesis_imports demo_text Asset_DefaultGenesis empty_chain) as (c' & K1 & K2 & _).
  - vm_compute. reflexivity.
  - split; reflexivity.
  - exists c'. split; assumption.
Defined.
