(* ===== verification/Oracle.v ===== *)
(** * The price oracle

    [x/oracle]: the price store with its freshness gate, the stake-weighted
    median over the committed vote extensions that the pre-blocker writes,
    and the checks of the ABCI++ proposal handlers. Votes and bundles are
    decoded values here; [Proposals] adds the codecs and the bytes. *)

From S2P Require Import Prelude Constants Types Market.

(** ** Price store ([x/oracle/keeper/keeper.go]) *)

Definition GetStoredPrice (marketIdx : Z) (c : Chain) : R OraclePrice :=
  of_option (xst_OraclePrices (misc c) !! marketIdx) (EOracle ErrPriceNotFound).

Definition GetPrice (marketIdx : Z) (c : Chain) : R OraclePrice :=
  p ← GetStoredPrice marketIdx c;
  let params := xst_OracleParams (misc c) in
  if orp_MaxAgeMs params <=? 0 then mret p
  else
    let now := BlockTime c in
    ensure (negb (op_LastUpdatedTimestamp p <=? 0)) (EOracle ErrStalePrice);;
    ensure (negb (orp_MaxAgeMs params <? now - op_LastUpdatedTimestamp p)) (EOracle ErrStalePrice);;
    mret p.

Definition SetPriceUnsafe (p : OraclePrice) : K unit :=
  modify (fun c => c <| misc := misc c
    <| xst_OraclePrices := <[op_MarketIndex p := p]> (xst_OraclePrices (misc c)) |> |>).

Definition SetPrice (p : OraclePrice) : K unit :=
  lift (ensure (negb ((op_IndexPrice p =? 0) || (op_MarkPrice p =? 0))) (EOracle ErrInvalidPrice));;
  SetPriceUnsafe p.

Definition DefaultOracleParams : OracleParams := mkOracleParams 60000 2000 6667 500 true.

Definition OracleParams_Validate (p : OracleParams) : R unit :=
  ensure (negb (orp_MaxAgeMs p <=? 0)) (EOracle ErrOracleInvalidParams);;
  ensure (negb (10000 <? orp_MarkPriceEmaAlpha p)) (EOracle ErrOracleInvalidParams);;
  ensure (negb (10000 <? orp_MinVotingPowerRatio p)) (EOracle ErrOracleInvalidParams).

Definition Oracle_UpdateParams `{Env} (auth : string) (p : OracleParams) : K unit :=
  lift (validAuth auth);;
  lift (OracleParams_Validate p);;
  lift (ensure (bool_decide (auth = authority)) (EOracle ErrOracleInvalidAuthority));;
  modify (fun c => c <| misc := misc c <| xst_OracleParams := p |> |>).

(** ** Weighted median ([x/oracle/keeper/aggregation.go]) *)

Definition valR (x y : Z * Z) : Prop := x.1 <= y.1.
#[global] Instance valR_dec : RelDecision valR.
Proof. intros x y. unfold valR. apply _. Defined.

(** The walk over the pairs sorted by value. *)
Fixpoint median_walk (total half cum last : Z) (pairs : list (Z * Z)) : Z :=
  match pairs with
  | [] => last
  | p :: pairs =>
      let cum := wrap64 (cum + p.2) in
      if (total <=? wrap64 (cum * 2)) && (half <? cum) then p.1
      else median_walk total half cum p.1 pairs
  end.

Definition sum64 (l : list Z) : Z := foldl (fun s w => wrap64 (s + w)) 0 l.

Definition WeightedMedian (values weights : list Z) : Z :=
  let n := length values in
  if (n =? 0)%nat || negb (n =? length weights)%nat then 0
  else
    let pairs := zip values weights in
    let total := sum64 weights in
    let half := total / 2 in
    median_walk total half 0 0 (merge_sort valR pairs).

Definition withinBps (value reference thresholdBps : Z) : bool :=
  if reference =? 0 then true
  else
    let diff := if reference <? value then value - reference else reference - value in
    wrap64 (diff * 10000) <=? wrap64 (reference * thresholdBps).

(** ** Vote extensions *)

Record MarketPrice := mkMarketPrice {
  mpr_MarketIndex : Z;
  mpr_IndexPrice : Z;
  mpr_MarkPrice : Z
}.

Record OracleVote := mkOracleVote {
  ov_Prices : list MarketPrice;
  ov_SubmittedAtHeight : Z
}.

(** A validator's entry of an [ExtendedCommitInfo]: its power, whether it
    committed, its decoded extension ([None]: empty or undecodable bytes)
    and whether extension bytes and a signature are present. *)
Record VoteInfo := mkVoteInfo {
  vi_Address : list Z;
  vi_Power : Z;
  vi_Commit : bool;
  vi_HasExtension : bool;
  vi_Vote : option OracleVote;
  vi_HasSignature : bool
}.

Record ExtendedCommit := mkExtendedCommit {
  ec_Round : Z;
  ec_Votes : list VoteInfo
}.

(** [VerifyVoteExtension]: true is ACCEPT. [ext = None] is an empty
    payload; [Some None] does not decode. *)
Fixpoint verify_prices (seen : list Z) (ps : list MarketPrice) : bool :=
  match ps with
  | [] => true
  | mp :: ps =>
      if (mpr_IndexPrice mp =? 0) || (mpr_MarkPrice mp =? 0) then false
      else if bool_decide (mpr_MarketIndex mp ∈ seen) then false
      else verify_prices (mpr_MarketIndex mp :: seen) ps
  end.

Definition VerifyVoteExtension (enabled : bool) (height : Z) (ext : option (option OracleVote)) : bool :=
  if negb enabled then match ext with Some _ => false | None => true end
  else match ext with
       | None => true
       | Some None => false
       | Some (Some v) =>
           if negb (ov_SubmittedAtHeight v =? height) then false
           else verify_prices [] (ov_Prices v)
       end.

(** [ExtendVote]: the fetched prices without the zero ones. *)
Definition ExtendVote (enabled : bool) (height : Z) (fetched : option (list MarketPrice))
  : option OracleVote :=
  if negb enabled then None
  else match fetched with
       | None => None
       | Some prices =>
           Some {| ov_Prices := filter (fun p => ~ (mpr_IndexPrice p = 0 \/ mpr_MarkPrice p = 0)) prices;
                   ov_SubmittedAtHeight := height |}
       end.

(** ** Commit validation ([x/oracle/abci/ve/validate.go]) *)

Fixpoint extended_power (totalPower committedPower : Z) (vs : list VoteInfo) : option (Z * Z) :=
  match vs with
  | [] => Some (totalPower, committedPower)
  | v :: vs =>
      if vi_Power v <? 0 then None
      else
        let totalPower := wrapi64 (totalPower + vi_Power v) in
        if negb (vi_Commit v) then extended_power totalPower committedPower vs
        else
          let committedPower := wrapi64 (committedPower + vi_Power v) in
          if vi_HasExtension v && negb (vi_HasSignature v) then None
          else extended_power totalPower committedPower vs
  end.

Definition ValidateExtendedCommit (ext : ExtendedCommit) : bool :=
  match extended_power 0 0 (ec_Votes ext) with
  | None => false
  | Some (totalPower, committedPower) =>
      if totalPower =? 0 then true
      else negb (wrapi64 (3 * committedPower) <=? wrapi64 (2 * totalPower))
  end.

(** A [CommitInfo] of CometBFT: round and (address, power, committed). *)
Definition ValidateExtendedCommitAgainstLastCommit (ext : ExtendedCommit)
    (lastRound : Z) (lastVotes : list (list Z * Z * bool)) : bool :=
  (ec_Round ext =? lastRound)
  && bool_decide ((fun v => (vi_Address v, vi_Power v, vi_Commit v)) <$> ec_Votes ext = lastVotes).

(** [ProcessProposal] up to the wrapped default handler: true forwards the
    proposal, false rejects it. [tx0 = None]: no transaction;
    [Some None]: the first one does not decode. *)
Definition ProcessProposal (enabled : bool) (tx0 : option (option ExtendedCommit)) : bool :=
  if negb enabled then true
  else match tx0 with
       | Some (Some ext) => negb (ec_Round ext <? 0) && ValidateExtendedCommit ext
       | _ => false
       end.

(** [injectAndResize] *)
Definition tx_bytes := list Z.

Fixpoint resize_loop (alreadyInjected : bool) (maxSizeBytes consumed : Z)
    (returned txs : list tx_bytes) : list tx_bytes :=
  match txs with
  | [] => returned
  | tx :: txs =>
      if alreadyInjected then
        resize_loop false maxSizeBytes (consumed + Z.of_nat (length tx)) (returned ++ [tx]) txs
      else
        let consumed := consumed + Z.of_nat (length tx) in
        if maxSizeBytes <? consumed then returned
        else resize_loop false maxSizeBytes consumed (returned ++ [tx]) txs
  end.

Definition already_injected (appTxs : list tx_bytes) (injectTx : tx_bytes) : bool :=
  match appTxs with tx :: _ => bool_decide (tx = injectTx) | [] => false end.

Definition injectAndResize (appTxs : list tx_bytes) (injectTx : tx_bytes) (maxSizeBytes : Z)
  : list tx_bytes :=
  let alreadyInjected := already_injected appTxs injectTx in
  let injectBytes := Z.of_nat (length injectTx) in
  if negb alreadyInjected && (injectBytes <=? maxSizeBytes)
  then resize_loop alreadyInjected maxSizeBytes injectBytes [injectTx] appTxs
  else resize_loop alreadyInjected maxSizeBytes 0 [] appTxs.

(** ** Aggregation ([x/oracle/keeper/preblock.go]) *)

Record sample := mkSample { sm_index : Z; sm_mark : Z; sm_weight : Z }.

Record aggregation := mkAggregation {
  ag_marketIndex : Z;
  ag_indexPrice : Z;
  ag_markPrice : Z;
  ag_participantCount : Z;
  ag_totalPower : Z
}.

(** The samples of one committed vote, appended market by market. *)
Fixpoint collect_prices (w : Z) (ps : list MarketPrice) (col : gmap Z (list sample))
  : gmap Z (list sample) :=
  match ps with
  | [] => col
  | mp :: ps =>
      if (mpr_IndexPrice mp =? 0) || (mpr_MarkPrice mp =? 0) then collect_prices w ps col
      else collect_prices w ps
             (<[mpr_MarketIndex mp := default [] (col !! mpr_MarketIndex mp)
                ++ [mkSample (mpr_IndexPrice mp) (mpr_MarkPrice mp) w]]> col)
  end.

Fixpoint collect_votes (vs : list VoteInfo) (col : gmap Z (list sample)) : gmap Z (list sample) :=
  match vs with
  | [] => col
  | v :: vs =>
      match vi_Vote v with
      | Some ov =>
          let w := wrap64 (vi_Power v) in
          if negb (vi_HasExtension v) || (w =? 0) then collect_votes vs col
          else collect_votes vs (collect_prices w (ov_Prices ov) col)
      | None => collect_votes vs col
      end
  end.

(** One market of the aggregation loop. *)
Definition aggregate_market (params : OracleParams) (totalCommittedPower marketIdx : Z)
    (samples : list sample) : option aggregation :=
  let marketPower := sum64 (sm_weight <$> samples) in
  let quorumNumerator := orp_MinVotingPowerRatio params in
  if (0 <? quorumNumerator) && (0 <? wrap64 totalCommittedPower)
     && (wrap64 (marketPower * 10000) <? wrap64 (wrap64 totalCommittedPower * quorumNumerator))
  then None
  else
    let idx := WeightedMedian (sm_index <$> samples) (sm_weight <$> samples) in
    let mk := WeightedMedian (sm_mark <$> samples) (sm_weight <$> samples) in
    if (idx =? 0) || (mk =? 0) then None
    else
      let '(idx, mk) :=
        if 0 <? orp_DeviationThresholdBps params then
          let kept := filter (fun s =>
            withinBps (sm_index s) idx (orp_DeviationThresholdBps params)
            && withinBps (sm_mark s) mk (orp_DeviationThresholdBps params) = true) samples in
          if (0 <? length kept)%nat
          then (WeightedMedian (sm_index <$> kept) (sm_weight <$> kept),
                WeightedMedian (sm_mark <$> kept) (sm_weight <$> kept))
          else (idx, mk)
        else (idx, mk) in
      if (idx =? 0) || (mk =? 0) then None
      else Some (mkAggregation marketIdx idx mk (wrap32 (Z.of_nat (length samples))) marketPower).

(** The source ranges over a Go map: the markets are visited in no fixed
    order, each writing only its own price. *)
Definition aggregateFromExtInfo (ext : ExtendedCommit) (params : OracleParams) : list aggregation :=
  let committed := filter (fun v => vi_Commit v = true) (ec_Votes ext) in
  let totalCommittedPower := foldl (fun s v => wrapi64 (s + vi_Power v)) 0 committed in
  if (totalCommittedPower <=? 0) || (length committed =? 0)%nat then []
  else
    let collected := collect_votes committed ∅ in
    omap (fun kv => aggregate_market params totalCommittedPower kv.1 kv.2) (rows collected).

Definition applyMarkSmoothing (p : OraclePrice) (params : OracleParams) (c : Chain) : OraclePrice :=
  let alpha := orp_MarkPriceEmaAlpha params in
  if (alpha =? 0) || (10000 <=? alpha) then p
  else match GetStoredPrice (op_MarketIndex p) c with
       | Ok prev =>
           if op_MarkPrice prev =? 0 then p
           else
             let smoothed := (alpha * op_MarkPrice p + (10000 - alpha) * op_MarkPrice prev) / 10000 in
             let smoothed := if smoothed =? 0 then 1 else smoothed in
             p <| op_MarkPrice := wrap32 smoothed |>
       | _ => p
       end.

(** One iteration of the pre-blocker's write loop: a rejected price is
    logged and skipped. *)
Definition apply_aggregation (height : Z) (params : OracleParams) (agg : aggregation) : K unit :=
  fun c =>
    let p := mkOraclePrice (ag_marketIndex agg) (ag_indexPrice agg) (ag_markPrice agg)
               (BlockTime c) height (ag_participantCount agg) (ag_totalPower agg) in
    (attempt (SetPrice (applyMarkSmoothing p params c));; mret tt) c.

Definition PreBlocker (enabled : bool) (height : Z) (tx0 : option (option ExtendedCommit)) : K unit :=
  fun c =>
    if negb enabled then (Ok tt, c)
    else match tx0 with
         | Some (Some ext) =>
             let params := xst_OracleParams (misc c) in
             forM (apply_aggregation height params) (aggregateFromExtInfo ext params) c
         | _ => (Ok tt, c)
         end.

(** ** Weighted median *)

Definition wsum (l : list (Z * Z)) : Z := lsum snd l.

Lemma sum64_small l acc :
  (forall w, w ∈ l -> 0 <= w) -> 0 <= acc -> acc + lsum (fun w => w) l < U64 ->
  foldl (fun s w => wrap64 (s + w)) acc l = acc + lsum (fun w => w) l.
Proof.
  revert acc. induction l as [|w l IH]; intros acc Hw Ha Hs; cbn in *; [lia|].
  assert (0 <= w) by (apply Hw; set_solver).
  assert (0 <= lsum (fun w => w) l) by (apply lsum_nonneg; set_solver).
  rewrite wrap64_id by lia. rewrite IH; [lia|set_solver|lia|lia].
Qed.

(** The walk stops at the first pair whose cumulative weight exceeds half
    of the total. *)
Lemma median_walk_split total cum last l :
  (forall p, p ∈ l -> 0 <= p.2) -> 0 <= cum <= total / 2 -> cum + wsum l = total -> total < 2 ^ 63 ->
  0 < total ->
  exists l1 w l2, l = l1 ++ (median_walk total (total / 2) cum last l, w) :: l2 /\
    cum + wsum l1 <= total / 2 < cum + wsum l1 + w.
Proof.
  revert cum last. induction l as [|[v w] l IH]; intros cum last Hw Hc Hs Ht H0.
  { cbn in Hs. pose proof (Z.div_lt total 2). lia. }
  assert (0 <= w) by (apply (Hw (v, w)); set_solver).
  assert (0 <= wsum l) as Hl by (apply lsum_nonneg; set_solver).
  unfold wsum in *. cbn in Hs. cbn [median_walk].
  assert (wrap64 (cum + w) = cum + w) as E1 by (apply wrap64_id; unfold U64; lia).
  cbn [fst snd]. rewrite E1.
  assert (wrap64 ((cum + w) * 2) = (cum + w) * 2) as E2 by (apply wrap64_id; unfold U64; lia).
  rewrite E2. pose proof (Z.div_mod total 2 ltac:(lia)). pose proof (Z.mod_pos_bound total 2 ltac:(lia)).
  destruct ((total <=? (cum + w) * 2) && (total / 2 <? cum + w)) eqn:Hx; breflect.
  - exists [], w, l. cbn. split; [done|lia].
  - assert (cum + w <= total / 2) as Hle by (destruct Hx; breflect; lia).
    destruct (IH (cum + w) v) as (l1 & w' & l2 & Hl2 & ?); [set_solver|lia|lia|lia|lia|].
    exists ((v, w) :: l1), w', l2. split; [cbn; by f_equal|]. cbn. lia.
Qed.

Lemma wsum_filter_le (P : Z * Z -> Prop) `{!forall x, Decision (P x)} l :
  (forall p, p ∈ l -> 0 <= p.2) -> 0 <= wsum (filter P l) <= wsum l.
Proof.
  intros Hw. induction l as [|p l IH]; [done|].
  assert (0 <= p.2) by (apply Hw; set_solver).
  rewrite filter_cons. unfold wsum in *. destruct (decide (P p)); cbn;
    (destruct IH as [? ?]; [set_solver|lia]).
Qed.

Lemma wsum_filter_none (P : Z * Z -> Prop) `{!forall x, Decision (P x)} l :
  (forall p, p ∈ l -> ~ P p) -> filter P l = [].
Proof.
  intros HP. induction l as [|p l IH]; [done|].
  rewrite filter_cons_False by (apply HP; set_solver). apply IH. set_solver.
Qed.

#[global] Instance valR_trans : Transitive valR.
Proof. intros x y z. unfold valR. lia. Qed.
#[global] Instance valR_total : Total valR.
Proof. intros x y. unfold valR. lia. Qed.

Lemma zip_lookup_in {A B} (l : list A) (k : list B) x : x ∈ zip l k -> x.1 ∈ l /\ x.2 ∈ k.
Proof.
  destruct x as [a b]. intros H%elem_of_zip_with. cbn.
  destruct H as (a' & b' & [= -> ->] & ? & ?). done.
Qed.

Lemma lsum_zip_snd vs ws :
  length vs = length ws -> wsum (zip vs ws) = lsum (fun w : Z => w) ws.
Proof.
  revert ws. induction vs as [|v vs IH]; intros [|w ws] H; cbn in *; [done|done|done|].
  unfold wsum in *. cbn. rewrite IH; lia.
Qed.

(** The weighted median cannot be moved by a minority. If the samples
    whose value lies in [lo, hi] carry more than half of the weight, the
    median lies in [lo, hi], whatever the other samples are. *)
Theorem weighted_median_robust values weights lo hi :
  length values = length weights ->
  (forall w, w ∈ weights -> 0 <= w) ->
  lsum (fun w => w) weights < 2 ^ 63 ->
  lsum (fun w => w) weights <
    2 * wsum (filter (fun p => lo <= p.1 <= hi) (zip values weights)) ->
  lo <= WeightedMedian values weights <= hi.
Proof.
  intros Hlen Hw Hmax Hgood.
  set (pairs := zip values weights) in *.
  assert (forall p, p ∈ pairs -> 0 <= p.2) as Hp by (intros p Hin%zip_lookup_in; apply Hw, Hin).
  assert (wsum pairs = lsum (fun w => w) weights) as Hsum by by apply lsum_zip_snd.
  pose proof (wsum_filter_le (fun p => lo <= p.1 <= hi) pairs Hp) as Hf.
  assert (0 < wsum pairs) as Hpos by lia.
  unfold WeightedMedian. destruct values as [|v0 values0]; [by cbn in Hpos|].
  rewrite Hlen, Nat.eqb_refl. destruct (Nat.eqb_spec (length weights) 0) as [E|_]; [cbn in *; lia|].
  cbn [orb negb]. fold pairs. clearbody pairs.
  assert (sum64 weights = wsum pairs) as Htot.
  { unfold sum64. rewrite sum64_small; [lia|done|lia|unfold U64; lia]. }
  rewrite Htot. set (l := merge_sort valR pairs).
  assert (l ≡ₚ pairs) as Hperm by apply merge_sort_Permutation.
  assert (wsum l = wsum pairs) as Hls by by apply lsum_perm.
  destruct (median_walk_split (wsum pairs) 0 0 l) as (l1 & w & l2 & Hl & Hm);
    [intros p; rewrite Hperm; apply Hp | split; [lia|apply Z.div_pos; lia] | lia | lia | lia |].
  set (r := median_walk _ _ _ _ _) in *.
  assert (StronglySorted valR l) as Hss by (apply StronglySorted_merge_sort; apply _).
  rewrite Hl in Hss. apply StronglySorted_app in Hss as (Hb & Hs1 & Hs2).
  apply StronglySorted_inv in Hs2 as [Hs2 Hafter]. rewrite Forall_forall in Hafter.
  assert (wsum (filter (fun p => lo <= p.1 <= hi) pairs) =
          wsum (filter (fun p => lo <= p.1 <= hi) l)) as Hfl
    by (apply lsum_perm; by rewrite Hperm).
  rewrite Hl, filter_app in Hfl. unfold wsum in Hfl, Hls, Hm. rewrite lsum_app in Hfl.
  rewrite Hl, lsum_app in Hls. cbn in Hls.
  assert (forall p, p ∈ l1 \/ p ∈ l2 -> 0 <= p.2) as Hpl.
  { intros p Hin. apply Hp. rewrite <- Hperm, Hl. set_solver. }
  pose proof (wsum_filter_le (fun p => lo <= p.1 <= hi) l1 ltac:(auto)) as Hf1.
  pose proof (wsum_filter_le (fun p => lo <= p.1 <= hi) l2 ltac:(auto)) as Hf2.
  unfold wsum in *.
  pose proof (Z.div_mod (lsum snd pairs) 2 ltac:(lia)).
  pose proof (Z.mod_pos_bound (lsum snd pairs) 2 ltac:(lia)).
  split; apply Z.nlt_ge; intros Hout.
  - rewrite (wsum_filter_none _ l1), filter_cons_False in Hfl; [cbn in Hfl; lia|cbn; lia|].
    intros p Hin. specialize (Hb p (r, w) Hin ltac:(set_solver)). unfold valR in Hb. cbn in Hb. lia.
  - rewrite filter_cons_False, (wsum_filter_none _ l2) in Hfl; [cbn in Hfl; lia| |cbn; lia].
    intros p Hin. specialize (Hafter p Hin). unfold valR in Hafter. cbn in Hafter. lia.
Qed.

(** ** Pre-blocker *)

(** Every stored price has non-zero index and mark. *)
Definition prices_nonzero (c : Chain) : Prop :=
  map_Forall (fun _ p => op_IndexPrice p <> 0 /\ op_MarkPrice p <> 0) (xst_OraclePrices (misc c)).
#[global] Instance prices_nonzero_dec c : Decision (prices_nonzero c).
Proof. apply _. Defined.

Lemma apply_aggregation_run h params agg c :
  exists c', apply_aggregation h params agg c = (Ok tt, c') /\
    (prices_nonzero c -> prices_nonzero c') /\
    (forall i, i <> ag_marketIndex agg ->
       xst_OraclePrices (misc c') !! i = xst_OraclePrices (misc c) !! i).
Proof.
  unfold apply_aggregation, attempt, mbind, M_bind, SetPrice.
  set (p := applyMarkSmoothing _ _ _).
  assert (op_MarketIndex p = ag_marketIndex agg) as Hi.
  { unfold p, applyMarkSmoothing. by repeat case_match. }
  unfold mbind, M_bind, lift, ensure. destruct (negb _) eqn:Hz; [|eauto].
  eexists; split; [done|]. breflect. split.
  - intros Hc. apply map_Forall_insert_2; [done|]. done.
  - intros i Hne. cbn. by rewrite lookup_insert_ne by congruence.
Qed.

Lemma forM_aggregations_run h params aggs c :
  exists c', forM (apply_aggregation h params) aggs c = (Ok tt, c') /\
    (prices_nonzero c -> prices_nonzero c') /\
    (forall i, i ∉ ag_marketIndex <$> aggs ->
       xst_OraclePrices (misc c') !! i = xst_OraclePrices (misc c) !! i).
Proof.
  revert c. induction aggs as [|agg aggs IH]; intros c; [by eexists|].
  destruct (apply_aggregation_run h params agg c) as (c1 & H1 & Hn1 & Hf1).
  destruct (IH c1) as (c2 & H2 & Hn2 & Hf2).
  exists c2. cbn [forM]. unfold mbind, M_bind. rewrite H1, H2. split_and!; [done|auto|].
  intros i Hi. rewrite fmap_cons in Hi. rewrite Hf2, Hf1 by set_solver. done.
Qed.

(** Whatever bundle the proposer injects, the pre-blocker returns
    without an error (it cannot halt the chain) and never leaves a zero
    index or mark price in the store. *)
Theorem preblocker_total_and_nonzero enabled height tx0 c :
  prices_nonzero c ->
  exists c', PreBlocker enabled height tx0 c = (Ok tt, c') /\ prices_nonzero c'.
Proof.
  intros Hc. unfold PreBlocker. destruct enabled; cbn; [|eauto].
  destruct tx0 as [[ext|]|]; [|eauto..].
  destruct (forM_aggregations_run height (xst_OracleParams (misc c))
    (aggregateFromExtInfo ext (xst_OracleParams (misc c))) c) as (c' & -> & Hn & _). eauto.
Qed.

(** A bundle of one self-declared validator. *)
Definition forged_commit (marketIdx idx mk : Z) : ExtendedCommit := {|
  ec_Round := 0;
  ec_Votes := [ {| vi_Address := []; vi_Power := 1; vi_Commit := true; vi_HasExtension := true;
                   vi_Vote := Some {| ov_Prices := [mkMarketPrice marketIdx idx mk];
                                      ov_SubmittedAtHeight := 0 |};
                   vi_HasSignature := true |} ] |}.

Lemma median_single v : WeightedMedian [v] [1] = v.
Proof. done. Qed.

Lemma withinBps_self v t : 0 <= v < 2 ^ 32 -> 0 <= t < 2 ^ 32 -> withinBps v v t = true.
Proof.
  intros Hv Ht. unfold withinBps. destruct (v =? 0); [done|].
  rewrite Z.ltb_irrefl, Z.sub_diag, Z.mul_0_l. apply Z.leb_le.
  rewrite (wrap64_id 0) by (unfold U64; lia).
  unfold wrap64, U64. apply Z.mod_pos_bound. lia.
Qed.

Lemma aggregate_single marketIdx idx mk params :
  0 < idx < 2 ^ 32 -> 0 < mk < 2 ^ 32 ->
  0 <= orp_MinVotingPowerRatio params <= 10000 -> 0 <= orp_DeviationThresholdBps params < 2 ^ 32 ->
  aggregate_market params 1 marketIdx [mkSample idx mk 1] = Some (mkAggregation marketIdx idx mk 1 1).
Proof.
  intros Hi Hm Hq Hd. unfold aggregate_market. cbn [fmap list_fmap sm_weight sm_index sm_mark length].
  change (sum64 [1]) with 1. change (wrap64 1) with 1.
  rewrite (proj2 (Z.ltb_ge (wrap64 (1 * 10000)) (wrap64 (1 * orp_MinVotingPowerRatio params)))).
  2:{ rewrite !wrap64_id; unfold U64; lia. }
  rewrite andb_false_r, !median_single.
  assert ((idx =? 0) || (mk =? 0) = false) as Hnz by (apply orb_false_iff; rewrite !Z.eqb_neq; lia).
  rewrite Hnz. destruct (0 <? orp_DeviationThresholdBps params); [|by rewrite Hnz].
  rewrite filter_cons_True, filter_nil.
  2:{ cbn. by rewrite !withinBps_self by lia. }
  cbn [fmap list_fmap sm_weight sm_index sm_mark length]. rewrite !median_single.
  cbn. by rewrite Hnz.
Qed.

Lemma aggregate_forged marketIdx idx mk params :
  0 < idx < 2 ^ 32 -> 0 < mk < 2 ^ 32 ->
  0 <= orp_MinVotingPowerRatio params <= 10000 -> 0 <= orp_DeviationThresholdBps params < 2 ^ 32 ->
  aggregateFromExtInfo (forged_commit marketIdx idx mk) params =
    [mkAggregation marketIdx idx mk 1 1].
Proof.
  intros Hi Hm Hq Hd.
  assert (collect_votes (ec_Votes (forged_commit marketIdx idx mk)) ∅
          = {[marketIdx := [mkSample idx mk 1]]}) as Hcol.
  { cbn. rewrite (proj2 (Z.eqb_neq idx 0)), (proj2 (Z.eqb_neq mk 0)) by lia. cbn.
    by rewrite lookup_empty, insert_empty. }
  unfold aggregateFromExtInfo.
  change (filter (fun v => vi_Commit v = true) (ec_Votes (forged_commit marketIdx idx mk)))
    with (ec_Votes (forged_commit marketIdx idx mk)).
  rewrite Hcol. change (foldl _ 0 (ec_Votes (forged_commit marketIdx idx mk))) with 1.
  unfold rows. rewrite map_to_list_singleton.
  change (merge_sort rowR [(marketIdx, [mkSample idx mk 1])]) with [(marketIdx, [mkSample idx mk 1])].
  cbn [Z.leb Z.compare orb length forged_commit ec_Votes Nat.eqb omap list_omap fst snd].
  by rewrite aggregate_single.
Qed.

(** The mark price a market ends up with: the new one, unless a smoothing
    weight below 100% mixes it with a non-zero one stored before. *)
Definition smoothed_mark (alpha : Z) (old : option Z) (mk : Z) : Z :=
  match old with
  | Some prev =>
      if (0 <? alpha) && (alpha <? 10000) && (0 <? prev)
      then Z.max 1 ((alpha * mk + (10000 - alpha) * prev) / 10000) else mk
  | None => mk
  end.

Definition stored_mark (i : Z) (c : Chain) : option Z :=
  match GetStoredPrice i c with Ok p => Some (op_MarkPrice p) | _ => None end.

(** A non-zero aggregate is stored with its index price and the smoothed
    mark price. *)
Lemma apply_aggregation_write h params agg c :
  0 <= orp_MarkPriceEmaAlpha params -> ag_indexPrice agg <> 0 -> 0 < ag_markPrice agg < 2 ^ 32 ->
  (forall prev, stored_mark (ag_marketIndex agg) c = Some prev -> 0 <= prev < 2 ^ 32) ->
  apply_aggregation h params agg c =
    (Ok tt, (SetPriceUnsafe (mkOraclePrice (ag_marketIndex agg) (ag_indexPrice agg)
               (smoothed_mark (orp_MarkPriceEmaAlpha params) (stored_mark (ag_marketIndex agg) c) (ag_markPrice agg))
               (BlockTime c) h (ag_participantCount agg) (ag_totalPower agg)) c).2).
Proof.
  intros Ha Hi Hm Hold. unfold apply_aggregation.
  set (old := stored_mark (ag_marketIndex agg) c) in *. set (alpha := orp_MarkPriceEmaAlpha params) in *.
  set (new := smoothed_mark alpha old (ag_markPrice agg)).
  match goal with |- (attempt (SetPrice ?q) ;; _) _ = _ =>
    assert (q = mkOraclePrice (ag_marketIndex agg) (ag_indexPrice agg) new
              (BlockTime c) h (ag_participantCount agg) (ag_totalPower agg) /\ 0 < new) as [-> Hnew] end.
  { unfold applyMarkSmoothing. fold alpha. cbn [op_MarketIndex op_MarkPrice]. subst new old. unfold smoothed_mark, stored_mark in *.
    destruct (GetStoredPrice (ag_marketIndex agg) c) as [prev|e|e|]; [|split; [by case_match|lia]..].
    specialize (Hold _ eq_refl).
    destruct (Z.eqb_spec alpha 0) as [E|]; [rewrite E; split; [done|cbn; lia]|].
    destruct (Z.leb_spec 10000 alpha); [rewrite (proj2 (Z.ltb_ge alpha _)), andb_false_r by done; split; [done|cbn; lia]|].
    rewrite (proj2 (Z.ltb_lt 0 alpha)), (proj2 (Z.ltb_lt alpha _)) by lia. cbn [orb andb].
    destruct (Z.eqb_spec (op_MarkPrice prev) 0) as [E|]; [rewrite E; split; [done|cbn; lia]|].
    rewrite (proj2 (Z.ltb_lt 0 _)) by lia.
    set (s := (alpha * ag_markPrice agg + (10000 - alpha) * op_MarkPrice prev) / 10000).
    assert (0 <= s < 2 ^ 32) as Hs by (subst s; split; [apply Z.div_pos; nia|apply Z.div_lt_upper_bound; nia]).
    assert (wrap32 (if s =? 0 then 1 else s) = Z.max 1 s) as Hw.
    { destruct (Z.eqb_spec s 0) as [E|]; [by rewrite E|]. rewrite wrap32_id; lia. }
    split; [|lia]. cbn. by rewrite Hw. }
  unfold SetPrice, attempt. unfold mbind at 1. unfold M_bind at 1. rewrite run_ensure. cbn.
  by rewrite (proj2 (Z.eqb_neq _ _) Hi), (proj2 (Z.eqb_neq new 0)) by lia.
Qed.

(** C39: the injected bundle is checked only against itself, so a proposer
    sets any index price it likes: for every market and every non-zero index
    and mark price there is a bundle, from one made-up validator, that
    [ProcessProposal] accepts and that makes the pre-blocker store exactly
    that index price, and as mark price the made-up one mixed with the stored
    one by the smoothing weight of the parameters (20% by default), or the
    made-up one itself when smoothing is off or no mark price was stored. The
    parameters are valid ones of their types and the stored mark price, if
    any, is a 32-bit number. *)
Theorem proposer_controls_price marketIdx idx mk height c :
  0 < idx < 2 ^ 32 -> 0 < mk < 2 ^ 32 ->
  OracleParams_Validate (xst_OracleParams (misc c)) = Ok tt ->
  0 <= orp_MinVotingPowerRatio (xst_OracleParams (misc c)) ->
  0 <= orp_DeviationThresholdBps (xst_OracleParams (misc c)) < 2 ^ 32 ->
  0 <= orp_MarkPriceEmaAlpha (xst_OracleParams (misc c)) ->
  (forall prev, stored_mark marketIdx c = Some prev -> 0 <= prev < 2 ^ 32) ->
  exists ext c', ProcessProposal true (Some (Some ext)) = true /\
    PreBlocker true height (Some (Some ext)) c = (Ok tt, c') /\
    exists p, GetStoredPrice marketIdx c' = Ok p /\ op_IndexPrice p = idx /\
      op_MarkPrice p = smoothed_mark (orp_MarkPriceEmaAlpha (xst_OracleParams (misc c))) (stored_mark marketIdx c) mk.
Proof.
  intros Hi Hm Hv Hq Hd Ha Hold. unfold OracleParams_Validate in Hv. inv_ok. breflect.
  exists (forged_commit marketIdx idx mk). eexists. split; [done|].
  unfold PreBlocker. cbn [negb]. rewrite aggregate_forged by lia.
  cbn [forM]. erewrite run_bind by (apply apply_aggregation_write; [done|cbn; lia|cbn; lia|done]).
  split; [done|]. unfold GetStoredPrice; cbn. rewrite lookup_insert_eq. cbn. eauto.
Qed.

(** ** Proposal sizes *)

Definition total_size (txs : list tx_bytes) : Z := lsum (fun tx => Z.of_nat (length tx)) txs.

Lemma resize_loop_size maxS consumed returned txs :
  total_size returned = consumed -> consumed <= maxS ->
  total_size (resize_loop false maxS consumed returned txs) <= maxS /\
  exists kept, resize_loop false maxS consumed returned txs = returned ++ kept /\ kept `prefix_of` txs.
Proof.
  revert consumed returned. induction txs as [|tx txs IH]; intros consumed returned Hc Hle.
  - cbn [resize_loop]. split; [lia|]. exists []. by rewrite app_nil_r.
  - cbn [resize_loop]. case_match; breflect.
    + split; [lia|]. exists []. rewrite app_nil_r. split; [done|apply prefix_nil].
    + destruct (IH (consumed + Z.of_nat (length tx)) (returned ++ [tx])) as (H1 & kept & H2 & H3); [|lia|].
      { unfold total_size in *. rewrite lsum_app. cbn. lia. }
      split; [done|]. exists (tx :: kept). rewrite H2, <- app_assoc. split; [done|].
      by apply prefix_cons.
Qed.

(** The proposal keeps within the block size: when the bundle fits and
    the default handler did not already put it first, the result starts with
    the bundle, continues with a prefix of the other transactions in their
    order, and its total size is at most the limit. *)
Theorem inject_within_limit appTxs injectTx maxSize :
  Z.of_nat (length injectTx) <= maxSize ->
  head appTxs <> Some injectTx ->
  exists kept, injectAndResize appTxs injectTx maxSize = injectTx :: kept /\
    kept `prefix_of` appTxs /\ total_size (injectTx :: kept) <= maxSize.
Proof.
  intros Hfit Hne. unfold injectAndResize.
  assert (already_injected appTxs injectTx = false) as ->.
  { destruct appTxs; [done|]. apply bool_decide_eq_false_2. cbn in Hne. congruence. }
  rewrite (proj2 (Z.leb_le _ _) Hfit). cbn [negb andb].
  destruct (resize_loop_size maxSize (Z.of_nat (length injectTx)) [injectTx] appTxs)
    as (H1 & kept & H2 & H3); [cbn; lia|done|].
  exists kept. rewrite H2 in *. done.
Qed.

(** ** Witnesses *)

Lemma weighted_median_robust_witness :
  99 <= WeightedMedian [100; 5000; 101; 1] [40; 30; 20; 10] <= 102.
Proof.
  apply (weighted_median_robust [100; 5000; 101; 1] [40; 30; 20; 10] 99 102).
  - reflexivity.
  - intros w Hw. repeat (apply elem_of_cons in Hw as [->|Hw]; [lia|]). by apply elem_of_nil in Hw.
  - vm_compute. reflexivity.
  - vm_compute. reflexivity.
Defined.

Lemma preblocker_total_and_nonzero_witness :
  exists c', PreBlocker true 7 (Some (Some (forged_commit 0 100 101))) empty_chain = (Ok tt, c')
    /\ prices_nonzero c'.
Proof. apply (preblocker_total_and_nonzero true 7 _ empty_chain). by_decide. Defined.

(** Under the default parameters, with a mark price of 100 stored. *)
Definition smoothing_demo : Chain := (SetPriceUnsafe (mkOraclePrice 0 100 100 0 1 3 75)
  (empty_chain <| misc := misc empty_chain <| xst_OracleParams := DefaultOracleParams |> |>)).2.

Lemma proposer_controls_price_witness :
  exists ext c', ProcessProposal true (Some (Some ext)) = true /\
    PreBlocker true 7 (Some (Some ext)) smoothing_demo = (Ok tt, c') /\
    exists p, GetStoredPrice 0 c' = Ok p /\ op_IndexPrice p = 1 /\ op_MarkPrice p = 1080.
Proof.
  apply (proposer_controls_price 0 1 5000 7 smoothing_demo); try lia; try reflexivity; try (cbn; lia).
  intros prev Hp. vm_compute in Hp. injection Hp as <-. lia.
Defined.

Lemma inject_within_limit_witness :
  exists kept, injectAndResize [[1; 2]; [3; 4; 5]] [9; 9] 5 = [9; 9] :: kept /\
    kept `prefix_of` [[1; 2]; [3; 4; 5]] /\ total_size ([9; 9] :: kept) <= 5.
Proof. apply (inject_within_limit [[1; 2]; [3; 4; 5]] [9; 9] 5); [cbn; lia|done]. Defined.
