(* ===== verification/Proposals.v ===== *)
(** * Block proposals

    The byte level of the oracle's ABCI++ pipeline: the codecs of
    [x/oracle/abci/codec], and the handlers of [x/oracle/keeper/voteext.go]
    and [preblock.go] that encode votes, inject the bundle of the last commit
    into a proposal, check it, and decode it again. The handlers of [Oracle]
    work on decoded values; here they are composed with the codecs.

    The protobuf marshalling of the messages and the zstd library are not
    code of the modules: they are the parameters [Proto] and [Zstd], with
    their documented laws. The SDK's default proposal handlers are arguments
    of the handlers that wrap them. *)

From S2P Require Import Prelude Constants Types Market Oracle.

(** ** Codecs ([x/oracle/abci/codec/codec.go]) *)

(** [VoteExtensionCodec] and [ExtendedCommitCodec]. *)
Record Codec (A : Type) := mkCodec {
  Encode : A -> option tx_bytes;
  Decode : tx_bytes -> option A
}.
Arguments mkCodec {A} _ _.
Arguments Encode {A} _ _.
Arguments Decode {A} _ _.

(** [Marshal], [Unmarshal] and the zero value of a message. *)
Class Proto (A : Type) := {
  Marshal : A -> option tx_bytes;
  Unmarshal : tx_bytes -> option A;
  zero : A
}.

(** Unmarshalling inverts marshalling, and no bytes are the zero message. *)
Class ProtoOk (A : Type) `{Proto A} := {
  unmarshal_marshal a bz : Marshal a = Some bz -> Unmarshal bz = Some a;
  unmarshal_nil : Unmarshal [] = Some zero
}.

Class Zstd := {
  EncodeAll : tx_bytes -> tx_bytes;
  DecodeAll : tx_bytes -> option tx_bytes
}.

(** A frame decodes to its content; only empty content may have no frame. *)
Class ZstdOk `{Zstd} := {
  decode_frame bz : EncodeAll bz <> [] -> DecodeAll (EncodeAll bz) = Some bz;
  no_frame bz : EncodeAll bz = [] -> bz = []
}.

Definition RawCodec {A} `{Proto A} : Codec A := mkCodec Marshal (fun bz =>
  if bool_decide (bz = []) then Some zero else Unmarshal bz).

Definition ZstdCodec {A} `{Proto A, Zstd} (inner : Codec A) : Codec A := mkCodec
  (fun a => raw ← Encode inner a; Some (EncodeAll raw))
  (fun bz => if bool_decide (bz = []) then Some zero else raw ← DecodeAll bz; Decode inner raw).

(** What the handlers rely on. *)
Class CodecOk {A} `{Proto A} (k : Codec A) := {
  codec_roundtrip a bz : Encode k a = Some bz -> Decode k bz = Some a;
  codec_nil : Decode k [] = Some zero
}.

#[export] Instance RawCodec_ok {A} `{ProtoOk A} : CodecOk RawCodec.
Proof.
  split; [|done]. intros a bz Ha%unmarshal_marshal. cbn. case_bool_decide as Hb; [|done]. subst bz.
  by rewrite <- unmarshal_nil.
Qed.

#[export] Instance ZstdCodec_ok {A} `{Proto A, ZstdOk} (inner : Codec A) : CodecOk inner -> CodecOk (ZstdCodec inner).
Proof.
  intros Hk. split; [|done]. intros a bz Ha. cbn in Ha. destruct (Encode inner a) as [raw|] eqn:Hr; [|done].
  cbn in Ha. injection Ha as <-. cbn. case_bool_decide as Hb.
  - apply no_frame in Hb. subst raw. apply codec_roundtrip in Hr. by rewrite codec_nil in Hr.
  - rewrite decode_frame by done. cbn. by apply codec_roundtrip.
Qed.

(** ** The bundle of a commit *)

(** CometBFT's flag of a vote. *)
Inductive BlockIDFlag := BlockIDFlagUnknown | BlockIDFlagAbsent | BlockIDFlagCommit | BlockIDFlagNil.

Definition is_commit (f : BlockIDFlag) : bool := match f with BlockIDFlagCommit => true | _ => false end.

Record ExtendedVoteInfo := mkExtendedVoteInfo {
  ev_Address : list Z;
  ev_Power : Z;
  ev_BlockIdFlag : BlockIDFlag;
  ev_VoteExtension : tx_bytes;
  ev_ExtensionSignature : tx_bytes
}.

Record ExtendedCommitInfo := mkExtendedCommitInfo {
  eci_Round : Z;
  eci_Votes : list ExtendedVoteInfo
}.

Definition CountCommittedVotes (ext : ExtendedCommitInfo) : Z * Z :=
  foldl (fun '(committedPower, totalPower) v =>
    (if is_commit (ev_BlockIdFlag v) then wrapi64 (committedPower + ev_Power v) else committedPower,
     wrapi64 (totalPower + ev_Power v))) (0, 0) (eci_Votes ext).

(** ** Handlers *)

Section handlers.
Context (veCodec : Codec OracleVote) (ecCodec : Codec ExtendedCommitInfo).

(** What the keeper reads of a vote and of a bundle. *)
Definition view (v : ExtendedVoteInfo) : VoteInfo :=
  mkVoteInfo (ev_Address v) (ev_Power v) (is_commit (ev_BlockIdFlag v)) (negb (bool_decide (ev_VoteExtension v = [])))
    (Decode veCodec (ev_VoteExtension v)) (negb (bool_decide (ev_ExtensionSignature v = []))).

Definition view_commit (ext : ExtendedCommitInfo) : ExtendedCommit :=
  mkExtendedCommit (eci_Round ext) (view <$> eci_Votes ext).

(** [cp]: [VoteExtensionsEnableHeight] of the consensus parameters. *)
Definition veEnabled (cp : option Z) (height : Z) (c : Chain) : bool :=
  if negb (orp_VoteExtensionEnabled (xst_OracleParams (misc c))) then false
  else match cp with
       | None => false
       | Some h => if h =? 0 then false else h <? height
       end.

(** Txs[0], decoded. *)
Definition first_tx (txs : list tx_bytes) : option (option ExtendedCommit) :=
  (fun bz => view_commit <$> Decode ecCodec bz) <$> head txs.

Definition ExtendVote_bytes (cp : option Z) (height : Z) (fetched : option (list MarketPrice)) (c : Chain) : tx_bytes :=
  match ExtendVote (veEnabled cp height c) height fetched with
  | None => []
  | Some vote => default [] (Encode veCodec vote)
  end.

Definition VerifyVoteExtension_bytes (cp : option Z) (height : Z) (bz : tx_bytes) (c : Chain) : bool :=
  VerifyVoteExtension (veEnabled cp height c) height (if bool_decide (bz = []) then None else Some (Decode veCodec bz)).

(** [defaultHandler] picks transactions of at most the given size. *)
Definition PrepareProposal (defaultHandler : Z -> option (list tx_bytes)) (cp : option Z) (height maxTxBytes : Z)
    (localLastCommit : ExtendedCommitInfo) (c : Chain) : option (list tx_bytes) :=
  if negb (veEnabled cp height c) then defaultHandler maxTxBytes
  else match Encode ecCodec localLastCommit with
       | None => defaultHandler maxTxBytes
       | Some extInfoBz =>
           let injectedSize := Z.of_nat (length extInfoBz) in
           if maxTxBytes <=? injectedSize then defaultHandler maxTxBytes
           else
             let maxTxBytes := maxTxBytes - injectedSize in
             txs ← defaultHandler maxTxBytes;
             Some (injectAndResize txs extInfoBz (maxTxBytes + injectedSize))
       end.

(** [defaultHandler] accepts, rejects or fails; true is ACCEPT. *)
Definition ProcessProposal_bytes (defaultHandler : list tx_bytes -> option bool) (cp : option Z) (height : Z)
    (txs : list tx_bytes) (c : Chain) : bool :=
  if negb (veEnabled cp height c) then default false (defaultHandler txs)
  else if ProcessProposal true (first_tx txs) then default false (defaultHandler (tail txs))
  else false.

Definition PreBlocker_bytes (cp : option Z) (height : Z) (txs : list tx_bytes) : K unit := fun c =>
  PreBlocker (veEnabled cp height c) height (first_tx txs) c.

End handlers.

(** ** An honest proposer *)

Lemma resize_loop_all maxS consumed returned txs :
  consumed + total_size txs <= maxS -> resize_loop false maxS consumed returned txs = returned ++ txs.
Proof.
  revert consumed returned. unfold total_size. induction txs as [|tx txs IH]; intros consumed returned Hs; cbn in *.
  { by rewrite app_nil_r. }
  assert (0 <= lsum (fun tx => Z.of_nat (length tx)) txs) by (apply lsum_nonneg; lia).
  rewrite (proj2 (Z.ltb_ge _ _)) by lia. rewrite IH by lia. by rewrite <- (assoc_L (++)).
Qed.

(** The bundle ends up first, before everything the default handler chose,
    unless that handler had already put the same bytes first. *)
Lemma inject_all txs bz maxS :
  total_size txs + Z.of_nat (length bz) <= maxS ->
  injectAndResize txs bz maxS = bz :: txs \/ injectAndResize txs bz maxS = txs /\ head txs = Some bz.
Proof.
  intros Hs. unfold injectAndResize, already_injected. destruct txs as [|tx txs].
  { left. cbn in Hs |- *. by rewrite (proj2 (Z.leb_le _ _)) by lia. }
  unfold total_size in Hs. cbn in Hs. assert (0 <= lsum (fun tx => Z.of_nat (length tx)) txs) by (apply lsum_nonneg; lia).
  case_bool_decide as Hb; cbn [negb andb].
  - right. subst tx. cbn [resize_loop]. rewrite resize_loop_all; [done|]. unfold total_size. lia.
  - left. rewrite (proj2 (Z.leb_le _ _)) by lia. rewrite resize_loop_all; [done|]. unfold total_size. cbn. lia.
Qed.

Section honest.
Context `{Proto OracleVote, Proto ExtendedCommitInfo}.
Context (veCodec : Codec OracleVote) (ecCodec : Codec ExtendedCommitInfo) `{!CodecOk veCodec, !CodecOk ecCodec}.

(** C21: a proposal of an honest proposer whose bundle fits is never rejected
    because of the bundle: its size stays within the limit, peers hand
    exactly the transactions the proposer's default handler chose to their
    own default handler (less a first one that repeats the bundle), and the
    pre-blocker of the block aggregates the proposer's commit, byte for byte
    what it had received. *)
Theorem honest_proposal_delivers chooses accepts cp height maxTxBytes commit c bz chosen :
  veEnabled cp height c = true -> Encode ecCodec commit = Some bz ->
  0 <= eci_Round commit -> ValidateExtendedCommit (view_commit veCodec commit) = true ->
  Z.of_nat (length bz) < maxTxBytes ->
  chooses (maxTxBytes - Z.of_nat (length bz)) = Some chosen ->
  total_size chosen <= maxTxBytes - Z.of_nat (length bz) ->
  exists txs rest, PrepareProposal ecCodec chooses cp height maxTxBytes commit c = Some txs /\
    total_size txs <= maxTxBytes /\ (chosen = rest \/ chosen = bz :: rest) /\
    ProcessProposal_bytes veCodec ecCodec accepts cp height txs c = default false (accepts rest) /\
    PreBlocker_bytes veCodec ecCodec cp height txs c =
      PreBlocker true height (Some (Some (view_commit veCodec commit))) c.
Proof.
  intros Hen Henc Hr Hv Hfit Hc Hsz. unfold PrepareProposal. rewrite Hen, Henc. cbn [negb].
  rewrite (proj2 (Z.leb_gt _ _)) by lia. rewrite Hc. cbn. rewrite Z.sub_add.
  assert (exists rest, injectAndResize chosen bz maxTxBytes = bz :: rest /\ (chosen = rest \/ chosen = bz :: rest)
    /\ total_size (bz :: rest) <= maxTxBytes) as (rest & Hi & Hrest & Hsize).
  { destruct (inject_all chosen bz maxTxBytes ltac:(lia)) as [->|[-> Hh]].
    - exists chosen. split_and!; [done|by left|]. unfold total_size in *. cbn. lia.
    - destruct chosen as [|tx rest]; [done|]. injection Hh as ->. exists rest. split_and!; [done|by right|lia]. }
  exists (bz :: rest), rest. rewrite Hi. split_and!; [done..| |].
  - unfold ProcessProposal_bytes, first_tx. rewrite Hen. cbn [head fmap option_fmap option_map tail negb].
    rewrite (codec_roundtrip _ _ Henc). cbn [option_map fmap option_fmap]. unfold ProcessProposal. cbn [negb].
    rewrite Hv. cbn. by rewrite (proj2 (Z.ltb_ge _ _)).
  - unfold PreBlocker_bytes, first_tx. rewrite Hen. cbn [head fmap option_fmap option_map]. by rewrite (codec_roundtrip _ _ Henc).
Qed.

(** A proposer whose bundle does not fit falls back to a plain proposal,
    which every peer rejects: its first transaction is not a bundle. *)
Theorem oversized_bundle_rejected chooses accepts cp height maxTxBytes commit c bz chosen :
  veEnabled cp height c = true -> Encode ecCodec commit = Some bz -> maxTxBytes <= Z.of_nat (length bz) ->
  chooses maxTxBytes = Some chosen -> (forall tx, head chosen = Some tx -> Decode ecCodec tx = None) ->
  PrepareProposal ecCodec chooses cp height maxTxBytes commit c = Some chosen /\
  ProcessProposal_bytes veCodec ecCodec accepts cp height chosen c = false.
Proof.
  intros Hen Henc Hbig Hc Htx. unfold PrepareProposal, ProcessProposal_bytes, first_tx. rewrite Hen, Henc. cbn [negb].
  rewrite (proj2 (Z.leb_le _ _)) by done. split; [done|]. destruct chosen as [|tx txs]; [done|]. cbn.
  by rewrite (Htx tx eq_refl).
Qed.

(** The bytes of a vote pass the check of the peers when the vote does. *)
Lemma extension_bytes_verified cp height fetched c :
  VerifyVoteExtension true height (Some (ExtendVote true height fetched)) = true ->
  VerifyVoteExtension_bytes veCodec cp height (ExtendVote_bytes veCodec cp height fetched c) c = true.
Proof.
  intros Hv. unfold VerifyVoteExtension_bytes, ExtendVote_bytes. destruct (veEnabled cp height c); [|done].
  destruct (ExtendVote true height fetched) as [vote|]; [|done]. destruct (Encode veCodec vote) as [bz|] eqn:He; [|done].
  change (default [] (Some bz)) with bz. case_bool_decide; [done|]. by rewrite (codec_roundtrip _ _ He).
Qed.
End honest.

(** ** What the votes make of a price *)

(** The entries of a vote that the aggregation counts for a market. *)
Definition counts_for (m : Z) (mp : MarketPrice) : Prop :=
  mpr_MarketIndex mp = m /\ mpr_IndexPrice mp <> 0 /\ mpr_MarkPrice mp <> 0.
#[global] Instance counts_for_dec m mp : Decision (counts_for m mp).
Proof. unfold counts_for. apply _. Defined.

Definition counted (m : Z) (v : VoteInfo) : list MarketPrice :=
  match vi_Vote v with
  | Some ov => if vi_HasExtension v then filter (counts_for m) (ov_Prices ov) else []
  | None => []
  end.

Definition vote_samples (m : Z) (v : VoteInfo) : list sample :=
  let w := wrap64 (vi_Power v) in
  if w =? 0 then [] else (fun mp => mkSample (mpr_IndexPrice mp) (mpr_MarkPrice mp) w) <$> counted m v.

Lemma collect_prices_market w ps col m :
  default [] (collect_prices w ps col !! m) =
  default [] (col !! m) ++ ((fun mp => mkSample (mpr_IndexPrice mp) (mpr_MarkPrice mp) w) <$> filter (counts_for m) ps).
Proof.
  revert col. induction ps as [|mp ps IH]; intros col; [cbn; by rewrite app_nil_r|]. cbn [collect_prices].
  destruct (_ || _) eqn:Hz.
  - rewrite IH, filter_cons_False; [done|]. intros (_ & Hi & Hm). breflect. destruct Hz; by breflect.
  - breflect. rewrite IH. destruct (decide (mpr_MarketIndex mp = m)) as [<-|Hne].
    + rewrite lookup_insert_eq, filter_cons_True by done. cbn. by rewrite <- (assoc_L (++)).
    + rewrite lookup_insert_ne, filter_cons_False by (done || (unfold counts_for; tauto)). done.
Qed.

Lemma collect_votes_market vs col m :
  default [] (collect_votes vs col !! m) = default [] (col !! m) ++ mjoin (vote_samples m <$> vs).
Proof.
  revert col. induction vs as [|v vs IH]; intros col; [cbn; by rewrite app_nil_r|]. cbn [collect_votes]. cbn [fmap list_fmap mjoin list_join].
  unfold vote_samples at 1, counted. destruct (vi_Vote v) as [ov|] eqn:Hv; [|by rewrite IH; case_match].
  destruct (vi_HasExtension v), (wrap64 (vi_Power v) =? 0) eqn:Hw; cbn [negb orb]; rewrite IH; [done| |done|done].
  by rewrite collect_prices_market, <- (assoc_L (++)).
Qed.

Lemma aggregate_market_index params total m l a : aggregate_market params total m l = Some a -> ag_marketIndex a = m.
Proof. unfold aggregate_market. intros Ha. repeat case_match; simplify_eq; done. Qed.

(** An aggregate is over the samples of the committed votes. *)
Lemma aggregations_samples ext params a :
  a ∈ aggregateFromExtInfo ext params ->
  exists total, aggregate_market params total (ag_marketIndex a)
    (mjoin (vote_samples (ag_marketIndex a) <$> filter (fun v => vi_Commit v = true) (ec_Votes ext))) = Some a.
Proof.
  unfold aggregateFromExtInfo. set (vs := filter _ (ec_Votes ext)). case_match; [by intros ?%not_elem_of_nil|].
  intros ([m l] & Hin%elem_of_rows & Ha)%list_elem_of_omap. cbn in Ha.
  pose proof (aggregate_market_index _ _ _ _ _ Ha) as ->.
  pose proof (collect_votes_market vs ∅ m) as Hm. rewrite Hin, lookup_empty in Hm. cbn in Hm. subst l. eauto.
Qed.

Lemma median_walk_elem total half cum last l :
  l <> [] -> median_walk total half cum last l ∈ l.*1.
Proof.
  revert cum last. induction l as [|p l IH]; intros cum last Hne; [done|]. cbn [median_walk].
  case_match; [apply list_elem_of_here|]. destruct l as [|q l]; [apply list_elem_of_here|].
  apply list_elem_of_further, IH. done.
Qed.

Lemma WeightedMedian_elem {A} (f g : A -> Z) l : l <> [] -> WeightedMedian (f <$> l) (g <$> l) ∈ f <$> l.
Proof.
  intros Hne. unfold WeightedMedian. rewrite !length_fmap, Nat.eqb_refl.
  destruct (Nat.eqb_spec (length l) 0) as [E|_]; [by apply nil_length_inv in E|]. cbn [orb negb].
  assert (zip (f <$> l) (g <$> l) = (fun a => (f a, g a)) <$> l) as -> by (clear; induction l as [|a l IH]; cbn; by f_equal).
  set (pairs := (fun a => (f a, g a)) <$> l). pose proof (merge_sort_Permutation valR pairs) as Hp.
  assert (pairs.*1 = f <$> l) as <- by (unfold pairs; by rewrite <- list_fmap_compose).
  revert Hp. generalize (merge_sort valR pairs). intros s Hp. rewrite <- Hp. apply median_walk_elem.
  intros ->. apply Permutation_nil_l in Hp. by destruct l.
Qed.

Lemma withinBps_band v r t :
  0 <= v < 2 ^ 32 -> 0 <= r < 2 ^ 32 -> 0 <= t < 2 ^ 32 -> r <> 0 ->
  withinBps v r t = true -> Z.abs (v - r) * 10000 <= r * t.
Proof.
  intros Hv Hr Ht Hnz Hw. unfold withinBps in Hw. rewrite (proj2 (Z.eqb_neq _ _) Hnz) in Hw.
  apply Z.leb_le in Hw. assert (0 <= r * t < U64) by (unfold U64; nia).
  assert ((if r <? v then v - r else r - v) = Z.abs (v - r)) as E by (case_match; breflect; lia).
  rewrite E in Hw. rewrite !wrap64_id in Hw by (unfold U64 in *; lia). done.
Qed.

(** The samples that lie in a range with more than half of the weight keep
    the aggregate within the deviation band of the range. *)
Lemma aggregate_market_band params total m l a lo hi :
  (forall s, s ∈ l -> 0 <= sm_weight s /\ 0 <= sm_index s < 2 ^ 32) -> lsum sm_weight l < 2 ^ 63 ->
  0 <= orp_DeviationThresholdBps params < 2 ^ 32 ->
  lsum sm_weight l < 2 * lsum sm_weight (filter (fun s => lo <= sm_index s <= hi) l) ->
  aggregate_market params total m l = Some a ->
  exists r, lo <= r <= hi /\ Z.abs (ag_indexPrice a - r) * 10000 <= r * orp_DeviationThresholdBps params.
Proof.
  intros Hs Hmax Hd Hgood Ha.
  set (idx := WeightedMedian (sm_index <$> l) (sm_weight <$> l)).
  assert (lo <= idx <= hi) as Hidx.
  { apply weighted_median_robust.
    - by rewrite !length_fmap.
    - intros w (s & -> & Hin)%list_elem_of_fmap. by apply Hs.
    - by rewrite lsum_fmap.
    - rewrite lsum_fmap. eapply Z.lt_le_trans; [exact Hgood|]. apply Z.eq_le_incl. f_equal.
      clear. unfold wsum. induction l as [|s l IH]; [done|]. cbn [fmap list_fmap zip zip_with]. rewrite !filter_cons.
      cbn [fst]. case_decide; cbn; by rewrite IH. }
  assert (l <> []) as Hne by (intros ->; cbn in Hgood; lia).
  assert (0 <= idx < 2 ^ 32) as Hb.
  { pose proof (WeightedMedian_elem sm_index sm_weight l Hne) as Hin. fold idx in Hin.
    apply list_elem_of_fmap in Hin as (s & -> & Hin). by apply Hs. }
  exists idx. split; [done|]. unfold aggregate_market in Ha. fold idx in Ha. case_match; [done|].
  destruct (_ || _) eqn:Hz in Ha; [done|]. breflect.
  match type of Ha with context [let '(_, _) := ?e in _] => destruct e as [z z0] eqn:He end.
  assert (ag_indexPrice a = z) as -> by (destruct (_ || _); [done|]; by injection Ha as <-). clear Ha.
  assert (Z.abs (idx - idx) * 10000 <= idx * orp_DeviationThresholdBps params) as Hrefl by (rewrite Z.sub_diag; cbn; nia).
  destruct (0 <? orp_DeviationThresholdBps params); [|by injection He as <- _].
  set (kept := filter _ l) in He. destruct (Nat.ltb_spec 0 (length kept)) as [Hk|_]; [|by injection He as <- _].
  injection He as <- _. assert (kept <> []) as Hkn by (intros E; rewrite E in Hk; cbn in Hk; lia).
  pose proof (WeightedMedian_elem sm_index sm_weight kept Hkn) as Hin.
  apply list_elem_of_fmap in Hin as (s & -> & [Hw Hin]%list_elem_of_filter). breflect.
  apply withinBps_band; try done. by apply Hs.
Qed.

Definition anything (_ : Z) : Prop := True.
Definition within (lo hi x : Z) : Prop := lo <= x <= hi.
#[global] Instance anything_dec x : Decision (anything x) := left I.
#[global] Instance within_dec lo hi x : Decision (within lo hi x).
Proof. unfold within. apply _. Defined.

Lemma verify_prices_seen m seen ps : verify_prices seen ps = true -> m ∈ seen -> filter (counts_for m) ps = [].
Proof.
  revert seen. induction ps as [|mp ps IH]; intros seen Hv Hm; [done|]. cbn in Hv. do 2 (case_match; [done|]).
  rewrite filter_cons_False.
  - apply (IH _ Hv). by apply list_elem_of_further.
  - intros [<- _]. by apply bool_decide_eq_false in H0.
Qed.

(** A verified vote counts at most once for a market. *)
Lemma verify_prices_once m seen ps : verify_prices seen ps = true -> (length (filter (counts_for m) ps) <= 1)%nat.
Proof.
  revert seen. induction ps as [|mp ps IH]; intros seen Hv; [cbn; lia|]. cbn in Hv. do 2 (case_match; [done|]).
  destruct (decide (counts_for m mp)) as [Hu|Hu].
  - rewrite filter_cons_True by done. cbn. rewrite (verify_prices_seen m (mpr_MarketIndex mp :: seen)); [done..|].
    destruct Hu as [<- _]. apply list_elem_of_here.
  - rewrite filter_cons_False by done. eauto.
Qed.

(** The weight a vote gives a market by its entries with an index price in
    [P]: its power, once for every such entry. *)
Definition quoted_weight (m : Z) (P : Z -> Prop) `{!forall x, Decision (P x)} (v : VoteInfo) : Z :=
  vi_Power v * Z.of_nat (length (filter (fun mp => P (mpr_IndexPrice mp)) (counted m v))).

(** Peers that verify a vote leave it its power at most once; nothing checks
    this again when the bundle is aggregated. *)
Lemma verified_weighs_once m v ov :
  0 <= vi_Power v -> vi_Vote v = Some ov -> verify_prices [] (ov_Prices ov) = true ->
  quoted_weight m anything v <= vi_Power v.
Proof.
  intros Hp Ho Hv. unfold quoted_weight, counted. rewrite Ho.
  pose proof (verify_prices_once m [] _ Hv) as Hl. destruct (vi_HasExtension v); [|cbn; lia].
  rewrite filter_id by done. nia.
Qed.

(** The types of a vote as it arrives from the wire: a non-negative power of
    an [int64] and prices of 32 bits. *)
Record wire_typed (v : VoteInfo) : Prop := {
  wt_power : 0 <= vi_Power v < 2 ^ 63;
  wt_width ov mp : vi_Vote v = Some ov -> mp ∈ ov_Prices ov -> 0 <= mpr_IndexPrice mp < 2 ^ 32
}.

Lemma samples_weight (P : Z -> Prop) `{!forall x, Decision (P x)} w mps :
  lsum sm_weight (filter (fun s => P (sm_index s))
    ((fun mp => mkSample (mpr_IndexPrice mp) (mpr_MarkPrice mp) w) <$> mps)) =
  w * Z.of_nat (length (filter (fun mp => P (mpr_IndexPrice mp)) mps)).
Proof.
  induction mps as [|mp mps IH]; [cbn; lia|]. rewrite fmap_cons, !filter_cons. cbn [sm_index].
  case_decide; [|done]. cbn [lsum sm_weight length]. rewrite IH. lia.
Qed.

Lemma vote_samples_weight m P `{!forall x, Decision (P x)} v :
  wire_typed v -> lsum sm_weight (filter (fun s => P (sm_index s)) (vote_samples m v)) = quoted_weight m P v.
Proof.
  intros Hv. pose proof (wt_power _ Hv) as Hp. unfold vote_samples, quoted_weight.
  rewrite wrap64_id by (unfold U64; lia). destruct (Z.eqb_spec (vi_Power v) 0) as [->|_]; [done|].
  apply samples_weight.
Qed.

Lemma votes_weight m P `{!forall x, Decision (P x)} vs :
  (forall v, v ∈ vs -> wire_typed v) ->
  lsum sm_weight (filter (fun s => P (sm_index s)) (mjoin (vote_samples m <$> vs))) = lsum (quoted_weight m P) vs.
Proof.
  induction vs as [|v vs IH]; intros Hv; [done|].
  change (mjoin (vote_samples m <$> v :: vs)) with (vote_samples m v ++ mjoin (vote_samples m <$> vs)).
  rewrite filter_app, lsum_app, vote_samples_weight, IH; [done| |by apply Hv, list_elem_of_here].
  intros. by apply Hv, list_elem_of_further.
Qed.

Lemma vote_samples_typed m vs s :
  (forall v, v ∈ vs -> wire_typed v) -> s ∈ mjoin (vote_samples m <$> vs) -> 0 <= sm_weight s /\ 0 <= sm_index s < 2 ^ 32.
Proof.
  intros Hv (l & Hs & (v & -> & Hin)%list_elem_of_fmap)%list_elem_of_join. unfold vote_samples in Hs.
  case_match; [by apply not_elem_of_nil in Hs|]. apply list_elem_of_fmap in Hs as (mp & -> & Hmp). cbn. split.
  - unfold wrap64, U64. apply Z.mod_pos_bound. lia.
  - unfold counted in Hmp. destruct (vi_Vote v) as [ov|] eqn:Ho; [|by apply not_elem_of_nil in Hmp].
    destruct (vi_HasExtension v); [|by apply not_elem_of_nil in Hmp].
    apply list_elem_of_filter in Hmp as [_ Hmp]. by eapply (wt_width _ (Hv _ Hin)).
Qed.

(** A stored price is the old one or the index of an aggregate. *)
Lemma forM_aggregations_stored h params aggs c c' i p :
  forM (apply_aggregation h params) aggs c = (Ok tt, c') -> GetStoredPrice i c' = Ok p ->
  GetStoredPrice i c = Ok p \/ exists a, a ∈ aggs /\ ag_marketIndex a = i /\ op_IndexPrice p = ag_indexPrice a.
Proof.
  revert c. induction aggs as [|a aggs IH]; intros c Hr Hp; [injection Hr as <-; by left|]. cbn [forM] in Hr.
  destruct (apply_aggregation_run h params a c) as (c1 & H1 & _). unfold mbind, M_bind in Hr. rewrite H1 in Hr.
  destruct (IH c1 Hr Hp) as [H0|(b & Hb & E)]; [|right; exists b; split; [by apply list_elem_of_further|done]].
  revert H1 H0. unfold apply_aggregation, attempt, mbind, M_bind, SetPrice, mbind, M_bind, lift, ensure.
  set (q := applyMarkSmoothing _ _ _). assert (op_MarketIndex q = ag_marketIndex a /\ op_IndexPrice q = ag_indexPrice a) as [Hi Hx]
    by (unfold q, applyMarkSmoothing; by repeat case_match).
  destruct (negb _); [|intros [= <-]; by left]. intros [= <-]. unfold GetStoredPrice. cbn. rewrite Hi.
  destruct (decide (ag_marketIndex a = i)) as [<-|Hne].
  - rewrite lookup_insert_eq. intros [= <-]. right. exists a. split; [apply list_elem_of_here|done].
  - rewrite lookup_insert_ne by done. by left.
Qed.

(** C20: no minority of the weight moves a price far. The weight of a market
    is the power of the committed votes, counted once for every non-zero
    entry a vote lists for it: a vote that repeats the market weighs several
    times, since the pre-blocker does not verify votes again. With powers and
    prices of their wire types (no negative power), a 32-bit deviation
    threshold and a weight within 63 bits, when more than half of the weight quotes an index price in
    [lo, hi], the pre-blocker runs without an error and leaves the stored
    index price of the market as it was or within the deviation band of a
    price in [lo, hi], whatever the other entries say. *)
Theorem oracle_price_robust ext height m lo hi c :
  let votes := filter (fun v => vi_Commit v = true) (ec_Votes ext) in
  let dev := orp_DeviationThresholdBps (xst_OracleParams (misc c)) in
  (forall v, v ∈ votes -> wire_typed v) -> 0 <= dev < 2 ^ 32 ->
  lsum (quoted_weight m anything) votes < 2 ^ 63 ->
  lsum (quoted_weight m anything) votes < 2 * lsum (quoted_weight m (within lo hi)) votes ->
  exists c', PreBlocker true height (Some (Some ext)) c = (Ok tt, c') /\
    forall p, GetStoredPrice m c' = Ok p ->
      GetStoredPrice m c = Ok p \/
      exists r, lo <= r <= hi /\ Z.abs (op_IndexPrice p - r) * 10000 <= r * dev.
Proof.
  intros votes dev Hv Hd Hs Hgood. unfold PreBlocker. cbn [negb]. set (params := xst_OracleParams (misc c)) in *.
  destruct (forM_aggregations_run height params (aggregateFromExtInfo ext params) c) as (c' & Hr & _).
  exists c'. split; [done|]. intros p Hp.
  destruct (forM_aggregations_stored _ _ _ _ _ _ _ Hr Hp) as [H0|(a & Ha & <- & ->)]; [by left|]. right.
  destruct (aggregations_samples _ _ _ Ha) as (total & Hagg). fold votes in Hagg.
  pose proof (votes_weight (ag_marketIndex a) anything votes Hv) as Hw. rewrite filter_id in Hw by done.
  eapply aggregate_market_band; [|..|exact Hagg]; [by intros; eapply vote_samples_typed|lia|done|].
  rewrite Hw. exact (eq_ind_r (fun x => _ < 2 * x) Hgood (votes_weight (ag_marketIndex a) (within lo hi) votes Hv)).
Qed.

(** ** Examples *)

(** Three validators; the one with the least power makes a price up. *)
Definition demo_vote (power price : Z) : VoteInfo :=
  mkVoteInfo [power] power true true (Some (mkOracleVote [mkMarketPrice 0 price price] 6)) true.
Definition demo_commit : ExtendedCommit := mkExtendedCommit 0 [demo_vote 40 6000; demo_vote 35 6010; demo_vote 25 999999].

Lemma demo_vote_typed power price : 0 <= power < 2 ^ 63 -> 0 < price < 2 ^ 32 -> wire_typed (demo_vote power price).
Proof.
  intros Hp Hq. split; [done|]. intros ov mp [= <-] ->%list_elem_of_singleton. cbn. lia.
Qed.

Lemma oracle_price_robust_witness :
  exists c', PreBlocker true 7 (Some (Some demo_commit)) empty_chain = (Ok tt, c') /\
    forall p, GetStoredPrice 0 c' = Ok p ->
      GetStoredPrice 0 empty_chain = Ok p \/
      exists r, 6000 <= r <= 6010 /\ Z.abs (op_IndexPrice p - r) * 10000 <= r * 500.
Proof.
  apply (oracle_price_robust demo_commit 7 0 6000 6010 empty_chain).
  - intros v Hv. assert (v ∈ [demo_vote 40 6000; demo_vote 35 6010; demo_vote 25 999999]) as H by exact Hv. clear Hv.
    repeat (apply elem_of_cons in H as [->|H]; [apply demo_vote_typed; lia|]). by apply not_elem_of_nil in H.
  - cbn. lia.
  - vm_compute. reflexivity.
  - vm_compute. reflexivity.
Defined.

Example demo_commit_price : op_IndexPrice <$> (xst_OraclePrices (misc (PreBlocker true 7 (Some (Some demo_commit)) empty_chain).2) !! 0) = Some 6000.
Proof. by_compute. Qed.

(** The pre-blocker does not verify votes again: a quarter of the power that
    lists a market four times outweighs the rest, with a vote its peers would
    have rejected. *)
Definition repeated_vote : VoteInfo :=
  mkVoteInfo [25] 25 true true (Some (mkOracleVote (replicate 4 (mkMarketPrice 0 999999 999999)) 6)) true.
Theorem repeated_market_outweighs :
  let bundle := mkExtendedCommit 0 [demo_vote 40 6000; demo_vote 35 6010; repeated_vote] in
  VerifyVoteExtension true 6 (Some (vi_Vote repeated_vote)) = false /\
  ValidateExtendedCommit bundle = true /\
  op_IndexPrice <$> (xst_OraclePrices (misc (PreBlocker true 7 (Some (Some bundle)) empty_chain).2) !! 0) = Some 999999.
Proof. split_and!; by_compute. Qed.

(** The pre-blocker does not check the supermajority of the bundle. *)
Definition minority_commit : ExtendedCommit :=
  mkExtendedCommit 0 [demo_vote 1 6000; mkVoteInfo [2] 99 false false None false].
Theorem minority_bundle_stored :
  ValidateExtendedCommit minority_commit = false /\
  op_IndexPrice <$> (xst_OraclePrices (misc (PreBlocker true 7 (Some (Some minority_commit)) empty_chain).2) !! 0) = Some 6000.
Proof. split; by_compute. Qed.

(** Codecs of the simplest kind: a message is one number. *)
#[local] Instance number_proto {A} `{Countable A} (z : A) : Proto A := {|
  Marshal a := Some (if decide (a = z) then [] else [Zpos (encode a)]);
  Unmarshal bz := match bz with [] => Some z | [Zpos p] => decode p | _ => None end;
  zero := z |}.
Lemma number_proto_ok {A} `{Countable A} (z : A) : @ProtoOk A (number_proto z).
Proof. split; [|done]. intros a bz [= <-]. cbn. case_decide; [by subst|]. apply decode_encode. Qed.

#[local] Instance framed : Zstd := {|
  EncodeAll bz := match bz with [] => [] | _ => 40 :: bz end;
  DecodeAll bz := match bz with 40 :: bz => Some bz | _ => None end |}.
#[local] Instance framed_ok : ZstdOk.
Proof. by split; intros []. Qed.

#[local] Instance flag_eq : EqDecision BlockIDFlag.
Proof. solve_decision. Defined.
#[local] Instance flag_countable : Countable BlockIDFlag.
Proof.
  apply (inj_countable' (fun f => match f with BlockIDFlagUnknown => 0 | BlockIDFlagAbsent => 1 | BlockIDFlagCommit => 2 | BlockIDFlagNil => 3 end)
    (fun n => if decide (n = 0) then BlockIDFlagUnknown else if decide (n = 1) then BlockIDFlagAbsent
              else if decide (n = 2) then BlockIDFlagCommit else BlockIDFlagNil)). by intros [].
Defined.
#[local] Instance vote_info_eq : EqDecision ExtendedVoteInfo.
Proof. solve_decision. Defined.
#[local] Instance vote_info_countable : Countable ExtendedVoteInfo.
Proof.
  apply (inj_countable' (fun v => (ev_Address v, ev_Power v, ev_BlockIdFlag v, ev_VoteExtension v, ev_ExtensionSignature v))
    (fun '(a, p, f, e, s) => mkExtendedVoteInfo a p f e s)). by intros [].
Defined.
#[local] Instance commit_info_eq : EqDecision ExtendedCommitInfo.
Proof. solve_decision. Defined.
#[local] Instance commit_info_countable : Countable ExtendedCommitInfo.
Proof. apply (inj_countable' (fun e => (eci_Round e, eci_Votes e)) (fun '(r, v) => mkExtendedCommitInfo r v)). by intros []. Defined.
#[local] Instance market_price_eq : EqDecision MarketPrice.
Proof. solve_decision. Defined.
#[local] Instance market_price_countable : Countable MarketPrice.
Proof.
  apply (inj_countable' (fun p => (mpr_MarketIndex p, mpr_IndexPrice p, mpr_MarkPrice p)) (fun '(m, i, k) => mkMarketPrice m i k)). by intros [].
Defined.
#[local] Instance oracle_vote_eq : EqDecision OracleVote.
Proof. solve_decision. Defined.
#[local] Instance oracle_vote_countable : Countable OracleVote.
Proof. apply (inj_countable' (fun v => (ov_Prices v, ov_SubmittedAtHeight v)) (fun '(p, h) => mkOracleVote p h)). by intros []. Defined.

#[local] Instance votes_proto : Proto OracleVote := number_proto (mkOracleVote [] 0).
#[local] Instance votes_proto_ok : ProtoOk OracleVote := number_proto_ok _.
#[local] Instance commits_proto : Proto ExtendedCommitInfo := number_proto (mkExtendedCommitInfo 0 []).
#[local] Instance commits_proto_ok : ProtoOk ExtendedCommitInfo := number_proto_ok _.

(** The codecs the application chooses. *)
Definition demo_ve : Codec OracleVote := RawCodec.
Definition demo_ec : Codec ExtendedCommitInfo := ZstdCodec RawCodec.
#[local] Instance demo_ve_ok : CodecOk demo_ve.
Proof. unfold demo_ve. apply _. Qed.
#[local] Instance demo_ec_ok : CodecOk demo_ec.
Proof. unfold demo_ec. apply _. Qed.

Definition demo_bundle : ExtendedCommitInfo :=
  mkExtendedCommitInfo 0 [mkExtendedVoteInfo [1] 70 BlockIDFlagCommit (ExtendVote_bytes demo_ve (Some 1) 6 (Some [mkMarketPrice 0 6000 6000]) empty_chain) [9];
    mkExtendedVoteInfo [2] 30 BlockIDFlagAbsent [] []].

Lemma honest_proposal_delivers_witness :
  exists txs rest, PrepareProposal demo_ec (fun _ => Some [[1; 2]; [3]]) (Some 1) 7 100 demo_bundle empty_chain = Some txs /\
    total_size txs <= 100 /\ ([[1; 2]; [3]] = rest \/ [[1; 2]; [3]] = default [] (Encode demo_ec demo_bundle) :: rest) /\
    ProcessProposal_bytes demo_ve demo_ec (fun _ => Some true) (Some 1) 7 txs empty_chain = default false (Some true) /\
    PreBlocker_bytes demo_ve demo_ec (Some 1) 7 txs empty_chain =
      PreBlocker true 7 (Some (Some (view_commit demo_ve demo_bundle))) empty_chain.
Proof.
  apply (honest_proposal_delivers demo_ve demo_ec (fun _ => Some [[1; 2]; [3]]) (fun _ => Some true)); try (vm_compute; reflexivity).
  - done.
  - vm_compute. discriminate.
Defined.

Example demo_bundle_price : op_IndexPrice <$> (xst_OraclePrices (misc (PreBlocker true 7 (Some (Some (view_commit demo_ve demo_bundle))) empty_chain).2) !! 0) = Some 6000.
Proof. by_compute. Qed.
