(* ===== verification/PriceFeed.v ===== *)
(** * The price feed

    The processes that produce the prices of a validator's vote extension:
    the sidecar ([services/oracle]), which keeps the latest sample of every
    provider and publishes the median per currency pair, and the daemon of
    the node ([x/oracle/daemon]), which polls it, resolves the pairs to
    markets, scales the prices and caches them for [ExtendVote].

    Text is ASCII, times are integers in nanoseconds, and a [*big.Int] that
    may be nil is an [option Z]. Go iterates over a map in any order; the
    theorems do not depend on the order [map_to_list] picks. *)

From Stdlib Require Import Strings.Ascii Numbers.DecimalString Numbers.DecimalZ.
From S2P Require Import Prelude Constants Types PositionMath Account Market Asset Oracle.

(** ** Text ([strings]) *)

Definition is_space (a : ascii) : bool :=
  let n := nat_of_ascii a in ((9 <=? n) && (n <=? 13) || (n =? 32))%nat.

Fixpoint drop_space (l : list ascii) : list ascii :=
  match l with
  | [] => []
  | a :: l => if is_space a then drop_space l else a :: l
  end.

Definition TrimSpace (s : string) : string :=
  String.string_of_list_ascii (reverse (drop_space (reverse (drop_space (String.list_ascii_of_string s))))).

Definition upper (a : ascii) : ascii :=
  let n := nat_of_ascii a in if ((97 <=? n) && (n <=? 122))%nat then ascii_of_nat (n - 32) else a.

Definition ToUpper (s : string) : string := String.string_of_list_ascii (upper <$> String.list_ascii_of_string s).

(** [strings.SplitN(s, "/", 2)]: the parts around the first slash. *)
Fixpoint split_slash (s : string) : option (string * string) :=
  match s with
  | EmptyString => None
  | String a s' =>
      if Ascii.eqb a "/" then Some (EmptyString, s')
      else '(x, y) ← split_slash s'; Some (String a x, y)
  end.

(** ** The sidecar *)

Module sidecar.

(** [providers/types/types.go] *)
Record CurrencyPair := mkCurrencyPair { cp_Base : string; cp_Quote : string }.

#[global] Instance CurrencyPair_eq : EqDecision CurrencyPair.
Proof. solve_decision. Defined.

Definition pair_String (p : CurrencyPair) : string := cp_Base p +:+ "/" +:+ cp_Quote p.

Definition ParseCurrencyPair (s : string) : option CurrencyPair :=
  '(x, y) ← split_slash (TrimSpace s);
  let base := ToUpper (TrimSpace x) in
  let quote := ToUpper (TrimSpace y) in
  if bool_decide (base = EmptyString) || bool_decide (quote = EmptyString) then None
  else Some (mkCurrencyPair base quote).

Record Price := mkPrice {
  pr_Pair : CurrencyPair;
  pr_Value : option Z;
  pr_Timestamp : Z;
  pr_Provider : string
}.

(** [oracle/aggregator.go] *)
Definition Median (values : list Z) : option Z :=
  merge_sort Z.le values !! ((length values - 1) / 2)%nat.

Record AggregateConfig := mkAggregateConfig { cfg_MaxAge : Z; cfg_MinSources : Z }.

(** The value of a sample that is neither stale nor missing nor negative. *)
Definition fresh_value (cfg : AggregateConfig) (now : Z) (s : Price) : option Z :=
  if (0 <? cfg_MaxAge cfg) && (cfg_MaxAge cfg <? now - pr_Timestamp s) then None
  else match pr_Value s with
       | None => None
       | Some v => if v <=? 0 then None else Some v
       end.

(** The price of one pair, or none when it is dropped. *)
Definition pair_price (cfg : AggregateConfig) (now : Z) (samples : list Price) : option Z :=
  let fresh := omap (fresh_value cfg now) samples in
  if (length fresh =? 0)%nat then None
  else if (0 <? cfg_MinSources cfg) && (Z.of_nat (length fresh) <? cfg_MinSources cfg) then None
  else Median fresh.

Definition aggregate_step (cfg : AggregateConfig) (now : Z) (out : gmap string Z) (inp : CurrencyPair * list Price)
  : gmap string Z :=
  match pair_price cfg now inp.2 with
  | Some v => <[pair_String inp.1 := v]> out
  | None => out
  end.

Definition Aggregate (inputs : list (CurrencyPair * list Price)) (cfg : AggregateConfig) (now : Z) : gmap string Z :=
  foldl (aggregate_step cfg now) ∅ inputs.

(** [oracle/oracle.go] *)
Record Orchestrator := mkOrchestrator {
  o_cfg : AggregateConfig;
  o_latest : gmap string Price;
  o_pairIndex : gmap string CurrencyPair;
  o_snapshot : gmap string Z;
  o_updatedAt : Z
}.

(** A provider: its name and the pairs it tracks. *)
Definition New (providers : list (string * list CurrencyPair)) (cfg : AggregateConfig) : Orchestrator :=
  mkOrchestrator cfg ∅
    (foldl (fun m p => foldl (fun m pr => <[pair_String pr := pr]> m) m p.2) ∅ providers) ∅ 0.

Definition sample_key (s : Price) : string := pair_String (pr_Pair s) +:+ "@" +:+ pr_Provider s.

Definition ingest (batch : list Price) (o : Orchestrator) : Orchestrator :=
  mkOrchestrator (o_cfg o) (foldl (fun m s => <[sample_key s := s]> m) (o_latest o) batch)
    (o_pairIndex o) (o_snapshot o) (o_updatedAt o).

(** The latest samples by pair. *)
Definition bucket_add (b : gmap string (list Price)) (s : Price) : gmap string (list Price) :=
  let k := pair_String (pr_Pair s) in <[k := default [] (b !! k) ++ [s]]> b.

Definition buckets (latest : gmap string Price) : gmap string (list Price) := foldl bucket_add ∅ (map_to_list latest).*2.

(** A bucket under the pair the index declares; a zero pair when none. *)
Definition declared (pairIndex : gmap string CurrencyPair) (kb : string * list Price) : CurrencyPair * list Price :=
  (default (mkCurrencyPair EmptyString EmptyString) (pairIndex !! kb.1), kb.2).

Definition recomputeSnapshot (now : Z) (o : Orchestrator) : Orchestrator :=
  let inputs := declared (o_pairIndex o) <$> map_to_list (buckets (o_latest o)) in
  mkOrchestrator (o_cfg o) (o_latest o) (o_pairIndex o) (Aggregate inputs (o_cfg o) now) now.

Definition Snapshot (o : Orchestrator) : gmap string Z := o_snapshot o.

(** [service/server.go]: decimal strings. *)
Definition big_String (z : Z) : string := NilZero.string_of_int (Z.to_int z).

Definition Prices (o : Orchestrator) : gmap string string := big_String <$> Snapshot o.

End sidecar.

(** ** The daemon *)

Module daemon.

(** [client.go]: [big.Int.SetString] in base ten. *)
Definition SetString (s : string) : option Z :=
  match s with
  | String "+" s' => Z.of_uint <$> NilZero.uint_of_string s'
  | _ => Z.of_int <$> NilZero.int_of_string s
  end.

Definition parse_quote (kv : string * string) : option (string * Z) :=
  let v := TrimSpace kv.2 in
  if bool_decide (v = EmptyString) then None
  else bi ← SetString v; if bi <=? 0 then None else Some (kv.1, bi).

Definition FetchPrices (resp : gmap string string) : list (string * Z) := omap parse_quote (map_to_list resp).

(** [cache.go] *)
Record CachedPrice := mkCachedPrice { ca_MarketIndex : Z; ca_Price : Z; ca_UpdatedAt : Z }.

Definition Cache := gmap Z CachedPrice.

Definition Cache_Set (marketIndex price updatedAt : Z) (c : Cache) : Cache :=
  if price =? 0 then c else <[marketIndex := mkCachedPrice marketIndex price updatedAt]> c.

Definition Cache_Get (marketIndex : Z) (c : Cache) : option CachedPrice := c !! marketIndex.

Definition cached_entry (now maxAge : Z) (v : CachedPrice) : option MarketPrice :=
  if (0 <? maxAge) && (maxAge <? now - ca_UpdatedAt v) then None
  else Some (mkMarketPrice (ca_MarketIndex v) (ca_Price v) (ca_Price v)).

Definition Cache_Snapshot (now maxAge : Z) (c : Cache) : list MarketPrice :=
  omap (cached_entry now maxAge) (map_to_list c).*2.

(** [resolver.go] *)
Definition PairFromAssets (base quote : string) : string :=
  let base := ToUpper (TrimSpace base) in
  let quote := ToUpper (TrimSpace quote) in
  let quote := if bool_decide (quote = "USDT") then "USD" else quote in
  base +:+ "/" +:+ quote.

Record MarketResolver := mkMarketResolver {
  rs_pairToIdx : gmap string Z;
  rs_idxToPair : gmap Z string;
  rs_decimals : gmap Z Z
}.

Definition NewMarketResolver : MarketResolver := mkMarketResolver ∅ ∅ ∅.

(** [adapter.go] *)
Definition defaultPriceDecimals : Z := 2.
Definition GetAssetByIndex (idx : Z) (c : Chain) : R string := a ← GetAsset idx c; mret (as_DisplayName a).

(** The pair of a market, when both assets resolve. *)
Definition market_pair (m : Market) (c : Chain) : option string :=
  match GetAssetByIndex (mkt_BaseAssetId m) c, GetAssetByIndex (mkt_QuoteAssetId m) c with
  | Ok baseSym, Ok quoteSym =>
      if bool_decide (baseSym = EmptyString) || bool_decide (quoteSym = EmptyString) then None
      else Some (PairFromAssets baseSym quoteSym)
  | _, _ => None
  end.

Definition resolve_market (c : Chain) (r : MarketResolver) (m : Market) : MarketResolver :=
  match market_pair m c with
  | None => r
  | Some pr => mkMarketResolver (<[pr := mkt_MarketIndex m]> (rs_pairToIdx r))
                   (<[mkt_MarketIndex m := pr]> (rs_idxToPair r))
                   (<[mkt_MarketIndex m := defaultPriceDecimals]> (rs_decimals r))
  end.

Definition Refresh (c : Chain) : MarketResolver := foldl (resolve_market c) NewMarketResolver (IterateMarkets c).

Definition MarketIndex (pr : string) (r : MarketResolver) : option Z := rs_pairToIdx r !! ToUpper pr.

Definition Decimals (idx : Z) (r : MarketResolver) : Z :=
  match rs_decimals r !! idx with
  | Some d => if d =? 0 then 8 else d
  | None => 8
  end.

(** [daemon.go] *)
Definition fits32 (v : Z) : option Z := if (0 <=? v) && (v <? 2 ^ 32) then Some v else None.

Definition scalePrice (raw srcDecimals dstDecimals : Z) : option Z :=
  if raw <=? 0 then None
  else if srcDecimals =? dstDecimals then fits32 raw
  else if srcDecimals <? dstDecimals then fits32 (raw * 10 ^ (dstDecimals - srcDecimals))
  else fits32 (Z.quot raw (10 ^ (srcDecimals - dstDecimals))).

Definition poll_quote (r : MarketResolver) (sidecarDecimals now : Z) (c : Cache) (q : string * Z) : Cache :=
  match MarketIndex q.1 r with
  | None => c
  | Some idx =>
      match scalePrice q.2 sidecarDecimals (Decimals idx r) with
      | None => c
      | Some scaled => Cache_Set idx scaled now c
      end
  end.

Definition poll (r : MarketResolver) (sidecarDecimals now : Z) (quotes : list (string * Z)) (c : Cache) : Cache :=
  foldl (poll_quote r sidecarDecimals now) c quotes.

(** [AsPriceFetcher]: what [ExtendVote] fetches. *)
Definition AsPriceFetcher (now maxAge : Z) (c : Cache) : list MarketPrice := Cache_Snapshot now maxAge c.

End daemon.

(** ** Lemmas *)

(** *** The median *)

Lemma sorted_lookup_le l i j x y :
  StronglySorted Z.le l -> l !! i = Some x -> l !! j = Some y -> (i <= j)%nat -> x <= y.
Proof.
  intros Hs. revert i j. induction Hs as [|a l Hs IH Ha]; intros i j Hi Hj Hij; [done|].
  destruct i as [|i], j as [|j]; cbn in *; simplify_eq; [done| |lia|].
  - rewrite Forall_forall in Ha. apply Ha. by eapply list_elem_of_lookup_2.
  - apply (IH i j); [done..|lia].
Qed.

(** A predicate that holds on a run of positions holds often. *)
Lemma filter_take (P : Z -> Prop) `{!forall x, Decision (P x)} (l : list Z) n :
  (n <= length l)%nat -> (forall i x, (i < n)%nat -> l !! i = Some x -> P x) -> (n <= length (filter P l))%nat.
Proof.
  intros Hn Hp. rewrite <- (take_drop n l), filter_app, length_app.
  rewrite filter_id; [rewrite length_take; lia|].
  intros x [i Hi]%list_elem_of_lookup. apply lookup_take_Some in Hi as [Hi Hlt]. eauto.
Qed.

Lemma filter_drop (P : Z -> Prop) `{!forall x, Decision (P x)} (l : list Z) n :
  (forall i x, (n <= i)%nat -> l !! i = Some x -> P x) -> (length l - n <= length (filter P l))%nat.
Proof.
  intros Hp. rewrite <- (take_drop n l) at 2. rewrite filter_app, length_app.
  rewrite (filter_id _ (drop n l)); [rewrite length_drop; lia|].
  intros x [i Hi]%list_elem_of_lookup. rewrite lookup_drop in Hi. eapply Hp; [|exact Hi]. lia.
Qed.

Module median.
Import sidecar.

Lemma Median_elem values v : Median values = Some v -> v ∈ values.
Proof. unfold Median. intros Hv%list_elem_of_lookup_2. by rewrite merge_sort_Permutation in Hv. Qed.

Lemma Median_total values : values <> [] -> is_Some (Median values).
Proof.
  intros Hne. unfold Median. apply lookup_lt_is_Some. rewrite merge_sort_Permutation.
  destruct values; [done|]. cbn [length]. apply Nat.Div0.div_lt_upper_bound. lia.
Qed.

Definition outside (lo hi x : Z) : Prop := ~ (lo <= x <= hi).
#[global] Instance outside_dec lo hi x : Decision (outside lo hi x).
Proof. unfold outside. apply _. Defined.

(** The median of samples fewer than half of which lie outside of a range
    lies in the range. *)
Lemma Median_in_range values v lo hi :
  Median values = Some v -> (2 * length (filter (outside lo hi) values) < length values)%nat -> lo <= v <= hi.
Proof.
  intros Hv Hout. unfold Median in Hv. set (n := length values) in *. set (k := ((n - 1) / 2)%nat) in *.
  assert (StronglySorted Z.le (merge_sort Z.le values)) as Hs by (apply StronglySorted_merge_sort; apply _).
  rewrite <- (merge_sort_Permutation Z.le values) in Hout.
  assert (length (merge_sort Z.le values) = n) as Hlen by (by rewrite merge_sort_Permutation).
  pose proof (lookup_lt_Some _ _ _ Hv) as Hk. rewrite Hlen in Hk.
  assert (2 * k <= n - 1 /\ n - 1 <= 2 * k + 1)%nat as [Hk1 Hk2].
  { unfold k. pose proof (Nat.div_mod_eq (n - 1) 2). pose proof (Nat.mod_upper_bound (n - 1) 2). lia. }
  split.
  - destruct (Z.le_gt_cases lo v) as [?|Hlt]; [done|]. exfalso.
    assert (S k <= length (filter (outside lo hi) (merge_sort Z.le values)))%nat; [|lia].
    apply filter_take; [lia|]. intros i x Hi Hx. assert (x <= v); [|unfold outside; lia]. eapply (sorted_lookup_le _ i k); [done..|lia].
  - destruct (Z.le_gt_cases v hi) as [?|Hlt]; [done|]. exfalso.
    pose proof (filter_drop (outside lo hi) (merge_sort Z.le values) k) as Hd. rewrite Hlen in Hd.
    assert (n - k <= length (filter (outside lo hi) (merge_sort Z.le values)))%nat; [|lia].
    apply Hd. intros i x Hi Hx. assert (v <= x); [|unfold outside; lia]. eapply (sorted_lookup_le _ k i); done.
Qed.
End median.

(** *** The snapshot *)

Module snapshots.
Import sidecar.

(** The latest samples of a pair. *)
Definition samples_of (k : string) (latest : gmap string Price) : list Price :=
  filter (fun s => pair_String (pr_Pair s) = k) (map_to_list latest).*2.

Lemma bucket_fold l b k :
  default [] (foldl bucket_add b l !! k) =
  default [] (b !! k) ++ filter (fun s => pair_String (pr_Pair s) = k) l.
Proof.
  revert b. induction l as [|s l IH]; intros b; [cbn; by rewrite app_nil_r|]. cbn [foldl]. rewrite IH. unfold bucket_add.
  destruct (decide (pair_String (pr_Pair s) = k)) as [<-|Hne].
  - rewrite lookup_insert_eq, filter_cons_True by done. cbn. by rewrite <- (assoc_L (++)).
  - by rewrite lookup_insert_ne, filter_cons_False.
Qed.

Lemma buckets_samples latest k : default [] (buckets latest !! k) = samples_of k latest.
Proof. unfold buckets, samples_of. by rewrite bucket_fold, lookup_empty. Qed.

Lemma buckets_nonempty latest : map_Forall (fun _ l => l <> []) (buckets latest).
Proof.
  unfold buckets. assert (map_Forall (fun _ l => l <> []) (∅ : gmap string (list Price))) as H0 by apply map_Forall_empty.
  revert H0. generalize (∅ : gmap string (list Price)). induction (map_to_list latest).*2 as [|s l IH]; intros b Hb; [done|].
  apply IH. apply map_Forall_insert_2; [|done]. by destruct (default [] _).
Qed.

(** Inputs under distinct pair strings do not hide one another. *)
Lemma Aggregate_lookup inputs cfg now k v :
  NoDup (pair_String <$> inputs.*1) ->
  Aggregate inputs cfg now !! k = Some v <->
  exists inp, inp ∈ inputs /\ pair_String inp.1 = k /\ pair_price cfg now inp.2 = Some v.
Proof.
  unfold Aggregate.
  assert (forall m, NoDup (pair_String <$> inputs.*1) -> (forall inp, inp ∈ inputs -> m !! pair_String inp.1 = None) ->
    foldl (aggregate_step cfg now) m inputs !! k = Some v <-> m !! k = Some v \/ exists inp, inp ∈ inputs /\ pair_String inp.1 = k /\ pair_price cfg now inp.2 = Some v) as Hf.
  { induction inputs as [|a l IH]; intros m Hnd Hm; cbn; [set_solver|]. apply NoDup_cons in Hnd as [Ha Hnd].
    assert (forall inp, inp ∈ l -> pair_String a.1 <> pair_String inp.1) as Hne.
    { intros inp Hin E. apply Ha. cbn. rewrite E. by apply list_elem_of_fmap_2, list_elem_of_fmap_2. }
    rewrite IH; [|done|]; unfold aggregate_step at 1.
    - setoid_rewrite elem_of_cons. destruct (pair_price cfg now a.2) as [w|] eqn:Ew; [|naive_solver congruence].
      rewrite lookup_insert_Some. specialize (Hm a (list_elem_of_here _ _)). naive_solver congruence.
    - intros inp Hin. specialize (Hm inp (list_elem_of_further _ _ _ Hin)).
      destruct (pair_price cfg now a.2); [|done]. by rewrite lookup_insert_ne by by apply Hne. }
  intros Hnd. rewrite Hf by (done || (intros; apply lookup_empty)). rewrite lookup_empty. naive_solver.
Qed.

(** What holds of an orchestrator that has run: one slot per pair and
    provider, and a declared pair behind every sample. *)
Record running (o : Orchestrator) : Prop := {
  rn_slot k s : o_latest o !! k = Some s -> k = sample_key s;
  rn_pair k s : o_latest o !! k = Some s ->
    exists p, o_pairIndex o !! pair_String (pr_Pair s) = Some p /\ pair_String p = pair_String (pr_Pair s)
}.

Lemma elem_of_samples k o s : running o ->
  s ∈ samples_of k (o_latest o) <-> o_latest o !! sample_key s = Some s /\ pair_String (pr_Pair s) = k.
Proof.
  intros Hr. unfold samples_of. rewrite list_elem_of_filter, list_elem_of_fmap. split.
  - intros [Hk ([k' s'] & -> & Hin%elem_of_map_to_list)]. split; [|done]. cbn. by rewrite <- (rn_slot _ Hr _ _ Hin).
  - intros [Hs Hk]. split; [done|]. exists (sample_key s, s). split; [done|]. by apply elem_of_map_to_list.
Qed.

(** The snapshot has the price of the pair's latest samples. *)
Lemma snapshot_price o now k v :
  running o ->
  Snapshot (recomputeSnapshot now o) !! k = Some v <-> pair_price (o_cfg o) now (samples_of k (o_latest o)) = Some v.
Proof.
  intros Hr. unfold recomputeSnapshot, Snapshot. cbn [o_snapshot].
  assert (forall k l, buckets (o_latest o) !! k = Some l -> l = samples_of k (o_latest o)) as Hb.
  { intros k' l Hl. rewrite <- buckets_samples. by rewrite Hl. }
  assert (forall k l, buckets (o_latest o) !! k = Some l -> pair_String (declared (o_pairIndex o) (k, l)).1 = k) as Hp.
  { intros k' l Hl. pose proof (buckets_nonempty _ _ _ Hl) as Hne. apply Hb in Hl. destruct l as [|s l]; [done|].
    assert (s ∈ samples_of k' (o_latest o)) as [Hs <-]%(elem_of_samples k' o s Hr) by (rewrite <- Hl; apply list_elem_of_here).
    destruct (rn_pair _ Hr _ _ Hs) as (p & Hp & Heq). unfold declared. cbn. by rewrite Hp. }
  rewrite Aggregate_lookup.
  - split.
    + intros (inp & ([k' l] & -> & Hin%elem_of_map_to_list)%list_elem_of_fmap & Hk & Hv). rewrite (Hp _ _ Hin) in Hk. subst k'.
      cbn in Hv. by rewrite <- (Hb _ _ Hin).
    + intros Hv. destruct (buckets (o_latest o) !! k) as [l|] eqn:Hl.
      * exists (declared (o_pairIndex o) (k, l)). split; [apply list_elem_of_fmap_2; by apply elem_of_map_to_list|].
        split; [by apply Hp|]. cbn. by rewrite (Hb _ _ Hl).
      * pose proof (buckets_samples (o_latest o) k) as Hs. rewrite Hl in Hs. cbn in Hs. by rewrite <- Hs in Hv.
  - rewrite <- !list_fmap_compose.
    assert ((pair_String ∘ fst) ∘ declared (o_pairIndex o) <$> map_to_list (buckets (o_latest o)) = (map_to_list (buckets (o_latest o))).*1) as ->.
    { apply list_fmap_ext. intros i [k' l] Hi. cbn. apply (Hp k' l). by apply elem_of_map_to_list, (list_elem_of_lookup_2 _ i). }
    apply NoDup_fst_map_to_list.
Qed.
End snapshots.

(** *** Runs of the sidecar *)

Module runs.
Import sidecar median snapshots.

(** A provider reports samples under its own name and for the pairs it was
    configured with; the values and timestamps are whatever its upstream
    said. The aggregation ticks in between. *)
Definition reported (providers : list (string * list CurrencyPair)) (s : Price) : Prop :=
  exists pairs, (pr_Provider s, pairs) ∈ providers /\ pr_Pair s ∈ pairs.

Inductive feed_step (providers : list (string * list CurrencyPair)) (o : Orchestrator) : Orchestrator -> Prop :=
| step_ingest batch : Forall (reported providers) batch -> feed_step providers o (ingest batch o)
| step_tick now : feed_step providers o (recomputeSnapshot now o).

Definition indexes_pairs (providers : list (string * list CurrencyPair)) (m : gmap string CurrencyPair) : Prop :=
  (forall k p, m !! k = Some p -> pair_String p = k) /\
  forall name pairs p, (name, pairs) ∈ providers -> p ∈ pairs -> is_Some (m !! pair_String p).

Lemma index_all (pairs : list CurrencyPair) (m : gmap string CurrencyPair) :
  (forall k p, m !! k = Some p -> pair_String p = k) ->
  let m' := foldl (fun m pr => <[pair_String pr := pr]> m) m pairs in
  (forall k p, m' !! k = Some p -> pair_String p = k) /\ (forall k, is_Some (m !! k) -> is_Some (m' !! k)) /\
  forall p, p ∈ pairs -> is_Some (m' !! pair_String p).
Proof.
  revert m. induction pairs as [|q l IH]; intros m Hm; cbn; [split_and!; [done..|]; intros p Hp; by apply not_elem_of_nil in Hp|].
  destruct (IH (<[pair_String q := q]> m)) as (K1 & K2 & K3).
  { intros k p. rewrite lookup_insert_Some. naive_solver. }
  split_and!; [done| |].
  - intros k Hk. apply K2. rewrite lookup_insert_is_Some. by destruct (decide (pair_String q = k)); [left|right].
  - intros p [->|Hp]%elem_of_cons; [|by apply K3]. apply K2. rewrite lookup_insert_eq. eauto.
Qed.

Lemma New_indexes providers cfg : indexes_pairs providers (o_pairIndex (New providers cfg)).
Proof.
  unfold New. cbn [o_pairIndex].
  assert (forall m : gmap string CurrencyPair, (forall k p, m !! k = Some p -> pair_String p = k) ->
    let m' := foldl (fun m p => foldl (fun m pr => <[pair_String pr := pr]> m) m p.2) m providers in
    (forall k, is_Some (m !! k) -> is_Some (m' !! k)) /\ indexes_pairs providers m') as Hf; [|by apply Hf].
  induction providers as [|[n pairs] l IH]; intros m Hm; cbn.
  { split; [done|]. split; [done|]. intros ? ? ? Hin. by apply not_elem_of_nil in Hin. }
  destruct (index_all pairs m Hm) as (K1 & K2 & K3). destruct (IH _ K1) as (L1 & L2 & L3).
  split; [auto|]. split; [done|]. intros name ps p [[= -> ->]|Hin]%elem_of_cons Hp; [auto|eauto].
Qed.

Definition feed_inv (providers : list (string * list CurrencyPair)) (o : Orchestrator) : Prop :=
  (forall k s, o_latest o !! k = Some s -> k = sample_key s /\ reported providers s) /\
  indexes_pairs providers (o_pairIndex o).

Lemma feed_step_inv providers o o' : feed_step providers o o' -> feed_inv providers o -> feed_inv providers o'.
Proof.
  intros [batch Hb|now] [H1 H2]; [|done]. split; [|done]. unfold ingest. cbn [o_latest]. clear H2.
  revert H1. generalize (o_latest o). induction Hb as [|s l Hs Hl IH]; intros m Hm; [done|]. apply IH.
  intros k s'. rewrite lookup_insert_Some. naive_solver.
Qed.

Lemma feed_running providers cfg o : rtc (feed_step providers) (New providers cfg) o -> running o.
Proof.
  intros Hr. assert (feed_inv providers o) as [H1 [H2 H3]].
  { assert (feed_inv providers (New providers cfg)) as H0 by (split; [done|apply New_indexes]).
    induction Hr; eauto using feed_step_inv. }
  split.
  - intros k s Hs. by apply H1.
  - intros k s Hs. destruct (H1 _ _ Hs) as [_ (pairs & Hp & Hin)]. destruct (H3 _ _ _ Hp Hin) as [p Hp']. eauto.
Qed.

(** A provider has at most one slot per pair, however often it reports. *)
Lemma samples_providers o k : running o -> NoDup (pr_Provider <$> samples_of k (o_latest o)).
Proof.
  intros Hr. apply NoDup_fmap_2_strong.
  - intros s s' [Hs Hk]%(elem_of_samples k o s Hr) [Hs' Hk']%(elem_of_samples k o s' Hr) E.
    unfold sample_key in *. rewrite Hk, Hk', E in *. congruence.
  - unfold samples_of. apply NoDup_filter. apply NoDup_fmap_2_strong; [|apply NoDup_map_to_list].
    intros [k1 s1] [k2 s2] Hi1%elem_of_map_to_list Hi2%elem_of_map_to_list E. cbn in E. subst s2.
    by rewrite (rn_slot _ Hr _ _ Hi1), (rn_slot _ Hr _ _ Hi2).
Qed.

(** The fresh values outside of the range of the honest providers come from
    the faulty ones, one slot each. *)
Lemma faulty_slots o k now lo hi (faulty : list string) :
  running o ->
  (forall s x, s ∈ samples_of k (o_latest o) -> pr_Provider s ∉ faulty -> fresh_value (o_cfg o) now s = Some x -> lo <= x <= hi) ->
  (length (filter (outside lo hi) (omap (fresh_value (o_cfg o) now) (samples_of k (o_latest o)))) <= length faulty)%nat.
Proof.
  intros Hr Hhon. pose proof (samples_providers o k Hr) as Hnd. revert Hhon Hnd.
  generalize (samples_of k (o_latest o)). intros l Hhon Hnd.
  transitivity (length (filter (fun s => pr_Provider s ∈ faulty) l)).
  - clear Hnd. induction l as [|s l IH]; [done|].
    assert (length (filter (outside lo hi) (omap (fresh_value (o_cfg o) now) l)) <= length (filter (fun s => pr_Provider s ∈ faulty) l))%nat as IH'
      by (apply IH; intros; eapply Hhon; eauto using list_elem_of_further).
    cbn [omap list_omap]. destruct (decide (pr_Provider s ∈ faulty)) as [Hf|Hf].
    + rewrite (filter_cons_True _ s l) by done. destruct (fresh_value (o_cfg o) now s) as [x|] eqn:Ex; cbn [length]; [|lia].
      destruct (decide (outside lo hi x)); [rewrite filter_cons_True by done|rewrite filter_cons_False by done]; cbn [length]; lia.
    + rewrite (filter_cons_False _ s l) by done. destruct (fresh_value (o_cfg o) now s) as [x|] eqn:Ex; [|done].
      rewrite filter_cons_False; [done|]. unfold outside. intros Hout. apply Hout.
      eapply Hhon; [apply list_elem_of_here|done|done].
  - rewrite <- (length_fmap pr_Provider). apply submseteq_length, NoDup_submseteq.
    + eapply sublist_NoDup; [exact Hnd|]. apply fmap_sublist, sublist_filter.
    + intros x (s & -> & [Hs _]%list_elem_of_filter)%list_elem_of_fmap. done.
Qed.

(** C22: the price the sidecar publishes for a pair lies in the range of the
    honest providers' fresh samples whenever fewer than half of the fresh
    samples can come from faulty providers: after any history of reports,
    however often the faulty ones report, each has one slot. *)
Theorem feed_survives_faulty_providers providers cfg o now k v lo hi faulty :
  rtc (feed_step providers) (New providers cfg) o ->
  Snapshot (recomputeSnapshot now o) !! k = Some v ->
  (forall s x, s ∈ samples_of k (o_latest o) -> pr_Provider s ∉ faulty -> fresh_value (o_cfg o) now s = Some x -> lo <= x <= hi) ->
  (2 * length faulty < length (omap (fresh_value (o_cfg o) now) (samples_of k (o_latest o))))%nat ->
  lo <= v <= hi.
Proof.
  intros Hrun%feed_running Hv Hhon Hlen. pose proof (faulty_slots o k now lo hi faulty Hrun Hhon) as Hf.
  apply (snapshot_price o now k v Hrun) in Hv. unfold pair_price in Hv. repeat (case_match; [done|]).
  eapply Median_in_range; [exact Hv|]. lia.
Qed.

(** Three providers; one reports a price a thousand times too high, often. *)
Definition btc : CurrencyPair := mkCurrencyPair "BTC" "USD".
Definition demo_providers : list (string * list CurrencyPair) := [("binance", [btc]); ("okx", [btc]); ("gecko", [btc])].
Definition demo_sample (n : string) (v t : Z) : Price := mkPrice btc (Some v) t n.
Definition feed_demo0 : Orchestrator := New demo_providers (mkAggregateConfig 10 2).
Definition feed_demo1 : Orchestrator := ingest [demo_sample "binance" 60000 1; demo_sample "okx" 60010 1] feed_demo0.
Definition feed_demo : Orchestrator := ingest [demo_sample "gecko" 60000000 2; demo_sample "gecko" 61000000 3] feed_demo1.

Lemma feed_demo_run : rtc (feed_step demo_providers) feed_demo0 feed_demo.
Proof.
  apply (rtc_l _ _ feed_demo1); [|apply (rtc_l _ _ feed_demo); [|apply rtc_refl]]; apply step_ingest;
    repeat (apply Forall_cons; split); try apply Forall_nil_2; exists [btc]; split; by_decide.
Qed.

Lemma feed_survives_faulty_providers_witness :
  exists v, Snapshot (recomputeSnapshot 5 feed_demo) !! "BTC/USD"%string = Some v /\ 60000 <= v <= 60010.
Proof.
  destruct (Snapshot (recomputeSnapshot 5 feed_demo) !! "BTC/USD"%string) as [v|] eqn:Ev; [|vm_compute in Ev; discriminate].
  exists v. split; [reflexivity|].
  apply (feed_survives_faulty_providers demo_providers (mkAggregateConfig 10 2) feed_demo 5 "BTC/USD" v 60000 60010 ["gecko"%string]).
  - exact feed_demo_run.
  - exact Ev.
  - intros s x Hs Hn Hx.
    assert (forallb (fun s => bool_decide (pr_Provider s ∈ ["gecko"%string]) ||
      match fresh_value (o_cfg feed_demo) 5 s with Some x => (60000 <=? x) && (x <=? 60010) | None => true end)
      (samples_of "BTC/USD" (o_latest feed_demo)) = true) as HF by (vm_compute; reflexivity).
    rewrite List.forallb_forall in HF. apply list_elem_of_In in Hs. specialize (HF s Hs). rewrite Hx in HF.
    rewrite bool_decide_eq_false_2 in HF by done. cbn [orb] in HF. breflect. lia.
  - vm_compute. lia.
Defined.
End runs.

(** *** From the sidecar to the vote *)

Module votes.
Import sidecar daemon.

(** **** Decimal strings survive the connection *)

Lemma drop_space_id l : Forall (fun a => is_space a = false) l -> drop_space l = l.
Proof. intros [|a l' Ha _]; cbn; [done|]. by rewrite Ha. Qed.

Lemma TrimSpace_id s : Forall (fun a => is_space a = false) (String.list_ascii_of_string s) -> TrimSpace s = s.
Proof.
  intros Hs. unfold TrimSpace. rewrite (drop_space_id _ Hs), drop_space_id by by apply Forall_reverse.
  rewrite reverse_involutive. apply String.string_of_list_ascii_of_string.
Qed.

Lemma digits_no_space u : Forall (fun a => is_space a = false) (String.list_ascii_of_string (NilEmpty.string_of_uint u)).
Proof. induction u; cbn; constructor; done. Qed.

(** A positive price is printed and parsed back. *)
Lemma price_roundtrip k v : 0 < v -> parse_quote (k, big_String v) = Some (k, v).
Proof.
  intros Hv. destruct v as [|p|p]; [lia| |lia]. unfold parse_quote, big_String. cbn [snd fst Z.to_int NilZero.string_of_int].
  pose proof (DecimalPos.Unsigned.to_uint_nonnil p) as Hnn.
  assert (NilZero.string_of_uint (Pos.to_uint p) = NilEmpty.string_of_uint (Pos.to_uint p)) as -> by by destruct (Pos.to_uint p).
  rewrite TrimSpace_id by apply digits_no_space.
  assert (SetString (NilEmpty.string_of_uint (Pos.to_uint p)) = Some (Z.pos p)) as ->.
  { pose proof (NilZero.isi (Z.to_int (Z.pos p))) as Hisi. cbn [Z.to_int NilZero.string_of_int] in Hisi.
    assert (NilZero.string_of_uint (Pos.to_uint p) = NilEmpty.string_of_uint (Pos.to_uint p)) as E by by destruct (Pos.to_uint p).
    rewrite E in Hisi. assert (NilZero.int_of_string (NilEmpty.string_of_uint (Pos.to_uint p)) = Some (Decimal.Pos (Pos.to_uint p))) as Hi
      by (apply Hisi; congruence).
    assert (Z.of_int (Decimal.Pos (Pos.to_uint p)) = Z.pos p) as Ho by exact (DecimalZ.of_to (Z.pos p)).
    unfold SetString. rewrite Hi. cbn [fmap option_fmap option_map]. rewrite Ho. destruct (Pos.to_uint p); done. }
  destruct (Pos.to_uint p); done.
Qed.

Lemma fetch_exact o k v :
  map_Forall (fun _ v => 0 < v) (o_snapshot o) -> (k, v) ∈ FetchPrices (Prices o) <-> Snapshot o !! k = Some v.
Proof.
  intros Hpos. unfold FetchPrices, Prices, Snapshot. rewrite list_elem_of_omap. split.
  - intros ([k' s] & Hin%elem_of_map_to_list & Hq). rewrite lookup_fmap_Some in Hin. destruct Hin as (w & <- & Hw).
    rewrite (price_roundtrip k' w (Hpos _ _ Hw)) in Hq. by injection Hq as -> ->.
  - intros Hv. exists (k, big_String v). split; [|by apply price_roundtrip, (Hpos _ _ Hv)].
    apply elem_of_map_to_list, lookup_fmap_Some. eauto.
Qed.

(** Only positive prices are published. *)
Lemma published_positive providers cfg o :
  rtc (runs.feed_step providers) (New providers cfg) o -> map_Forall (fun _ v => 0 < v) (o_snapshot o).
Proof.
  revert o. apply (rtc_ind_r (fun o => map_Forall (fun _ v => 0 < v) (o_snapshot o))); [apply map_Forall_empty|].
  intros o1 o2 Hr1 Hst IH. destruct Hst as [batch _|now]; [done|]. intros k v Hv.
  apply (snapshots.snapshot_price _ _ _ _ (runs.feed_running _ _ _ Hr1)) in Hv. unfold pair_price in Hv.
  repeat (case_match; [done|]). apply median.Median_elem, list_elem_of_omap in Hv as (s & _ & Hs).
  unfold fresh_value in Hs. repeat (case_match; try done). simplify_eq. breflect. lia.
Qed.

(** **** Scaling *)

Lemma scalePrice_floor raw src dst p :
  0 <= src -> 0 <= dst -> scalePrice raw src dst = Some p -> p = raw * 10 ^ dst / 10 ^ src /\ 0 <= p < 2 ^ 32.
Proof.
  intros Hsrc Hdst. unfold scalePrice, fits32. intros Hp. case_match; [done|]. breflect.
  assert (0 < 10 ^ src /\ 0 < 10 ^ dst) as [? ?] by (split; apply Z.pow_pos_nonneg; lia).
  repeat case_match; try done; simplify_eq; breflect; (split; [|lia]).
  - subst. by rewrite Z.div_mul by lia.
  - replace dst with (src + (dst - src)) at 2 by lia. rewrite Z.pow_add_r by lia.
    rewrite (Z.mul_comm (10 ^ src)), Z.mul_assoc, Z.div_mul by lia. done.
  - replace src with (dst + (src - dst)) at 2 by lia. assert (0 < 10 ^ (src - dst)) by (apply Z.pow_pos_nonneg; lia).
    rewrite Z.pow_add_r, Z.quot_div_nonneg, (Z.mul_comm (10 ^ dst)), Z.div_mul_cancel_r by lia. done.
Qed.

(** **** The resolver *)

(** What a refresh stores comes from a market of the chain. *)
Definition from_markets (c : Chain) (l : list Market) (r : MarketResolver) : Prop :=
  (forall k i, rs_pairToIdx r !! k = Some i -> exists m, m ∈ l /\ mkt_MarketIndex m = i /\ market_pair m c = Some k) /\
  map_Forall (fun _ d => d = defaultPriceDecimals) (rs_decimals r).

Lemma Refresh_markets c : from_markets c (IterateMarkets c) (Refresh c).
Proof.
  unfold Refresh. generalize (IterateMarkets c). intros l. induction l as [|m l IH] using rev_ind; [done|].
  rewrite foldl_app. cbn. destruct IH as [I1 I2]. unfold resolve_market.
  destruct (market_pair m c) as [pr|] eqn:Hp; cbn; split; cbn.
  - intros k i [[<- <-]|[_ (m' & Hm & H)%I1]]%lookup_insert_Some; [exists m|exists m']; set_solver.
  - by apply map_Forall_insert_2.
  - intros k i (m' & Hm & H)%I1. exists m'. set_solver.
  - done.
Qed.

Lemma Decimals_Refresh i c : 0 <= Decimals i (Refresh c).
Proof.
  unfold Decimals. destruct (_ !! i) as [d|] eqn:Hd; [|lia]. apply (proj2 (Refresh_markets c)) in Hd. subst d. done.
Qed.

(** **** Runs of the daemon *)

Section daemon_runs.
Context (providers : list (string * list CurrencyPair)) (cfg : AggregateConfig) (src : Z).

(** A history of the validator's daemon beside its sidecar, with the polls it
    made, most recent first: what the sidecar was, how pairs resolved and
    when. The sidecar ingests and publishes, and may restart; the resolver is
    refreshed from a state of the chain; a poll that fails changes nothing.
    A restart of the node empties the resolver and the cache. *)
Inductive daemon_run : list (Orchestrator * MarketResolver * Z) -> Orchestrator -> MarketResolver -> Cache -> Prop :=
| run_boot : daemon_run [] (New providers cfg) NewMarketResolver ∅
| run_feed polls o o' r c : daemon_run polls o r c -> runs.feed_step providers o o' -> daemon_run polls o' r c
| run_sidecar_restart polls o r c : daemon_run polls o r c -> daemon_run polls (New providers cfg) r c
| run_node_restart polls o r c : daemon_run polls o r c -> daemon_run [] o NewMarketResolver ∅
| run_refresh polls o r c ch : daemon_run polls o r c -> daemon_run polls o (Refresh ch) c
| run_poll polls o r c now : daemon_run polls o r c ->
    daemon_run ((o, r, now) :: polls) o r (poll r src now (FetchPrices (Prices o)) c).

Lemma daemon_run_sidecar polls o r c :
  daemon_run polls o r c -> rtc (runs.feed_step providers) (New providers cfg) o /\ forall i, 0 <= Decimals i r.
Proof.
  induction 1 as [|polls o o' r c _ [IH1 IH2] Hst|polls o r c _ [IH1 IH2]|polls o r c _ [IH1 IH2]|polls o r c ch _ [IH1 IH2]|polls o r c now _ [IH1 IH2]].
  - split; [apply rtc_refl|done].
  - split; [by eapply rtc_r|done].
  - split; [apply rtc_refl|done].
  - done.
  - split; [done|]. intros i. apply Decimals_Refresh.
  - done.
Qed.

(** A cached price is one that a poll of the history saw: the price the
    sidecar published then, for a pair that then resolved to the market,
    scaled to the market's decimals then. *)
Definition observed (polls : list (Orchestrator * MarketResolver * Z)) (i : Z) (v : CachedPrice) : Prop :=
  exists o r k raw, (o, r, ca_UpdatedAt v) ∈ polls /\ Snapshot o !! k = Some raw /\
    MarketIndex k r = Some i /\ ca_Price v = raw * 10 ^ Decimals i r / 10 ^ src.

Definition cache_ok (polls : list (Orchestrator * MarketResolver * Z)) (c : Cache) : Prop :=
  map_Forall (fun i v => ca_MarketIndex v = i /\ 0 < ca_Price v < 2 ^ 32 /\ observed polls i v) c.

Lemma poll_ok polls o r c now :
  0 <= src -> rtc (runs.feed_step providers) (New providers cfg) o -> (forall i, 0 <= Decimals i r) ->
  cache_ok polls c -> cache_ok ((o, r, now) :: polls) (poll r src now (FetchPrices (Prices o)) c).
Proof.
  intros Hsrc Ho Hdec Hc. unfold poll.
  assert (cache_ok ((o, r, now) :: polls) c) as Hc'.
  { intros i v Hv. destruct (Hc i v Hv) as (H1 & H2 & o' & r' & k & raw & Hin & H3). split_and!; [done|lia|lia|].
    exists o', r', k, raw. split; [by apply list_elem_of_further|done]. }
  clear Hc. assert (forall q, q ∈ FetchPrices (Prices o) -> Snapshot o !! q.1 = Some q.2) as Hq.
  { intros [k v] Hin. apply (fetch_exact o k v); [by eapply published_positive|done]. }
  revert c Hc' Hq. induction (FetchPrices (Prices o)) as [|q l IH]; intros c Hc Hq; [done|]. cbn [foldl].
  apply IH; [|intros q' Hq'; by apply Hq, list_elem_of_further]. unfold poll_quote.
  destruct (MarketIndex q.1 r) as [i|] eqn:Hi; [|done].
  destruct (scalePrice q.2 src (Decimals i r)) as [p|] eqn:Hp; [|done].
  destruct (scalePrice_floor _ _ _ _ Hsrc (Hdec i) Hp) as [Hfl Hrng].
  unfold Cache_Set. case_match eqn:Hz; [done|]. breflect. apply map_Forall_insert_2; [|done]. cbn. split_and!; [done|lia|lia|].
  exists o, r, q.1, q.2. split_and!; [apply list_elem_of_here| |done|done]. apply Hq, list_elem_of_here.
Qed.

Lemma daemon_run_ok polls o r c : 0 <= src -> daemon_run polls o r c -> cache_ok polls c.
Proof.
  intros Hsrc. induction 1 as [|polls o o' r c _ IH _|polls o r c _ IH|polls o r c _ IH|polls o r c ch _ IH|polls o r c now Hrun IH];
    [apply map_Forall_empty|done|done|apply map_Forall_empty|done|].
  destruct (daemon_run_sidecar _ _ _ _ Hrun). by apply poll_ok.
Qed.
End daemon_runs.

(** The checks of [VerifyVoteExtension] on distinct non-zero prices. *)
Lemma verify_prices_ok seen ps :
  Forall (fun p => mpr_IndexPrice p <> 0 /\ mpr_MarkPrice p <> 0 /\ mpr_MarketIndex p ∉ seen) ps ->
  NoDup (mpr_MarketIndex <$> ps) -> verify_prices seen ps = true.
Proof.
  revert seen. induction ps as [|p l IH]; intros seen Hf Hnd; [done|]. cbn.
  apply Forall_cons in Hf as [(H1 & H2 & H3) Hf]. apply NoDup_cons in Hnd as [Hp Hnd].
  rewrite (proj2 (Z.eqb_neq _ _) H1), (proj2 (Z.eqb_neq _ _) H2), bool_decide_eq_false_2 by done. cbn. apply IH; [|done].
  rewrite Forall_forall in Hf |- *. intros q Hq. destruct (Hf q Hq) as (? & ? & ?). split_and!; [done..|].
  intros [E|Hin]%elem_of_cons; [|done]. apply Hp. rewrite <- E. by apply list_elem_of_fmap_2.
Qed.

Lemma cache_snapshot_markets src polls now maxAge c :
  cache_ok src polls c -> NoDup (mpr_MarketIndex <$> Cache_Snapshot now maxAge c) /\
  forall p, p ∈ Cache_Snapshot now maxAge c -> exists v, c !! mpr_MarketIndex p = Some v /\
    mpr_IndexPrice p = ca_Price v /\ mpr_MarkPrice p = ca_Price v /\ (0 < maxAge -> now - ca_UpdatedAt v <= maxAge).
Proof.
  intros Hc. unfold Cache_Snapshot. split.
  - assert (NoDup ((map_to_list c).*1)) as Hnd by apply NoDup_fst_map_to_list.
    assert (forall kv, kv ∈ map_to_list c -> ca_MarketIndex kv.2 = kv.1) as Hk
      by (intros [i v] Hin%elem_of_map_to_list; apply (Hc i v Hin)).
    revert Hnd Hk. generalize (map_to_list c). intros l. induction l as [|[i v] l IH]; intros Hnd Hk; [constructor|].
    cbn [fmap list_fmap omap list_omap snd fst] in *. apply NoDup_cons in Hnd as [Hi Hnd].
    assert (NoDup (mpr_MarketIndex <$> omap (cached_entry now maxAge) l.*2)) as Hl by (apply IH; [done|]; intros; by apply Hk, list_elem_of_further).
    destruct (cached_entry now maxAge v) as [p|] eqn:Hp; [|done]. cbn. constructor; [|done].
    intros (q & Hq & (w & ([j w'] & -> & Hjw)%list_elem_of_fmap & Hw)%list_elem_of_omap)%list_elem_of_fmap.
    unfold cached_entry in Hp, Hw. case_match; [done|]. case_match; [done|]. simplify_eq. cbn in Hq.
    pose proof (Hk (i, v) (list_elem_of_here _ _)) as E1. pose proof (Hk (j, w') (list_elem_of_further _ _ _ Hjw)) as E2.
    cbn in E1, E2. apply Hi. rewrite <- E1, Hq, E2. apply (list_elem_of_fmap_2 fst l (j, w') Hjw).
  - intros p (v & ([i v'] & -> & Hin%elem_of_map_to_list)%list_elem_of_fmap & Hp)%list_elem_of_omap. cbn in Hp.
    unfold cached_entry in Hp. case_match eqn:Ht; [done|]. injection Hp as <-. cbn. exists v'.
    destruct (Hc _ _ Hin) as (-> & _). split_and!; [done..|]. intros Hpos. apply andb_false_iff in Ht as [Ht|Ht]; breflect; lia.
Qed.

(** C24: the vote extension an honest validator builds from its cache, after
    any history of its daemon and sidecar, is accepted by every other
    validator: it carries at most one price per market, none is zero, and
    each comes from a poll of this very history, the one whose time the cache
    records: the price the sidecar then published for a pair that then
    resolved to the market, scaled from the sidecar's decimals to the
    market's, rounded down, and no older than the maximal age where one is
    set. *)
Theorem honest_vote_accepted providers cfg src polls o r c enabled height now maxAge vote :
  0 <= src -> daemon_run providers cfg src polls o r c ->
  ExtendVote enabled height (Some (AsPriceFetcher now maxAge c)) = Some vote ->
  VerifyVoteExtension enabled height (Some (Some vote)) = true /\
  forall p, p ∈ ov_Prices vote -> 0 < mpr_IndexPrice p < 2 ^ 32 /\ mpr_MarkPrice p = mpr_IndexPrice p /\
    exists o' r' at' k raw, (o', r', at') ∈ polls /\ (0 < maxAge -> now - at' <= maxAge) /\
      Snapshot o' !! k = Some raw /\ MarketIndex k r' = Some (mpr_MarketIndex p) /\
      mpr_IndexPrice p = raw * 10 ^ Decimals (mpr_MarketIndex p) r' / 10 ^ src.
Proof.
  intros Hsrc Hc%daemon_run_ok Hv; [|done]. destruct (cache_snapshot_markets _ _ now maxAge c Hc) as [Hnd Hp].
  unfold ExtendVote in Hv. destruct enabled; [|done]. cbn in Hv. injection Hv as <-. unfold AsPriceFetcher. split.
  - cbn. rewrite Z.eqb_refl. cbn. apply verify_prices_ok.
    + apply Forall_forall. intros p [Hz _]%list_elem_of_filter. split_and!; [tauto..|set_solver].
    + eapply sublist_NoDup; [exact Hnd|]. apply fmap_sublist, sublist_filter.
  - cbn. intros p [_ Hin]%list_elem_of_filter. destruct (Hp p Hin) as (v & Hv & E1 & E2 & Hage).
    destruct (Hc _ _ Hv) as (_ & Hr & o' & r' & k & raw & Hpoll & Hs & Hi & Hprice). rewrite E1, E2.
    split_and!; [lia|lia|done|]. exists o', r', (ca_UpdatedAt v), k, raw. done.
Qed.
End votes.

(** *** Pairs and markets *)

Module pairs.
Import sidecar daemon votes.

Lemma ToUpper_app x y : ToUpper (x +:+ y) = ToUpper x +:+ ToUpper y.
Proof. unfold ToUpper. induction x as [|a x IH]; [done|]. exact (f_equal (String (upper a)) IH). Qed.

Lemma string_app_assoc (x y z : string) : x +:+ (y +:+ z) = (x +:+ y) +:+ z.
Proof. induction x as [|a x IH]; [done|]. exact (f_equal (String a) IH). Qed.

(** Strings that end in different characters differ. *)
Lemma last_char_ne x y a b : a <> b -> x +:+ String a EmptyString <> y +:+ String b EmptyString.
Proof.
  intros Hab. revert y. assert (forall d s t, String d s +:+ t = String d (s +:+ t)) as Hc by done.
  induction x as [|c x IH]; intros [|d y] E; rewrite ?Hc in E; [by injection E as ?|..].
  - injection E as _ E. by destruct y.
  - injection E as _ E. by destruct x.
  - injection E as _ E. by apply (IH y).
Qed.

(** A quote in USD is never stored for a market settled in USDC: the
    resolver maps USDT to USD and leaves USDC as it is. *)
Theorem usd_quotes_miss_usdc_markets c base i m :
  map_Forall (fun i m => mkt_MarketIndex m = i) (mst_Markets (market c)) ->
  (forall a, GetAsset USDCAssetIndex c = Ok a -> ToUpper (TrimSpace (as_DisplayName a)) = "USDC"%string) ->
  MarketIndex (base +:+ "/USD") (Refresh c) = Some i -> mst_Markets (market c) !! i = Some m ->
  mkt_QuoteAssetId m <> USDCAssetIndex.
Proof.
  intros Hkey Husdc Hi Hm Hq. unfold MarketIndex in Hi. apply (proj1 (Refresh_markets c)) in Hi as (m' & Hin & Hidx & Hp).
  apply elem_of_values in Hin as [j Hj]. assert (m' = m) as ->.
  { rewrite <- (Hkey _ _ Hj) in Hj. rewrite Hidx in Hj. congruence. }
  unfold market_pair, GetAssetByIndex in Hp. rewrite Hq in Hp.
  destruct (GetAsset (mkt_BaseAssetId m) c) as [b| | |]; try done. destruct (GetAsset USDCAssetIndex c) as [a| | |] eqn:Ha; try done.
  cbn in Hp. case_match; [done|]. injection Hp as Hp. unfold PairFromAssets in Hp. rewrite (Husdc a eq_refl) in Hp.
  rewrite bool_decide_eq_false_2 in Hp by done. rewrite ToUpper_app in Hp. symmetry in Hp. revert Hp.
  change (ToUpper "/USD") with ("/US" +:+ "D")%string. change ("/" +:+ "USDC")%string with ("/USD" +:+ "C")%string.
  rewrite !string_app_assoc. by apply last_char_ne.
Qed.

(** A chain with one market BTC/USDT and one BTC/USDC. *)
Definition named (i : Z) (n : string) : Asset := mkAsset i EmptyString n 6 1 1 1 0 true 0.
Definition pair_market (i base quote : Z) : Market :=
  demo_market <| mkt_MarketIndex := i |> <| mkt_BaseAssetId := base |> <| mkt_QuoteAssetId := quote |>.
Definition pairs_demo : Chain :=
  empty_chain
    <| misc := misc empty_chain <| xst_Assets := list_to_map [(USDCAssetIndex, named USDCAssetIndex "USDC"); (4, named 4 "btc"); (5, named 5 "USDT")] |> |>
    <| market := market empty_chain <| mst_Markets := list_to_map [(0, pair_market 0 4 USDCAssetIndex); (2048, pair_market 2048 4 5)] |> |>.

Lemma usd_quotes_miss_usdc_markets_witness :
  MarketIndex "BTC/USD" (Refresh pairs_demo) = Some 2048 /\ mkt_QuoteAssetId (pair_market 2048 4 5) <> USDCAssetIndex.
Proof.
  split; [vm_compute; reflexivity|]. apply (usd_quotes_miss_usdc_markets pairs_demo "BTC" 2048).
  - by_decide.
  - intros a Ha. vm_compute in Ha. injection Ha as <-. reflexivity.
  - vm_compute. reflexivity.
  - vm_compute. reflexivity.
Defined.

(** The vote of a validator whose sidecar is [runs.feed_demo]. *)
Definition cache_demo : Cache :=
  poll (Refresh pairs_demo) 2 7 (FetchPrices (Prices (recomputeSnapshot 5 runs.feed_demo))) ∅.

Lemma cache_demo_run :
  daemon_run runs.demo_providers (mkAggregateConfig 10 2) 2
    [(recomputeSnapshot 5 runs.feed_demo, Refresh pairs_demo, 7)] (recomputeSnapshot 5 runs.feed_demo) (Refresh pairs_demo) cache_demo.
Proof.
  apply run_poll. eapply run_refresh. eapply run_feed; [|apply runs.step_tick].
  assert (forall o o', rtc (runs.feed_step runs.demo_providers) o o' ->
    daemon_run runs.demo_providers (mkAggregateConfig 10 2) 2 [] o NewMarketResolver ∅ ->
    daemon_run runs.demo_providers (mkAggregateConfig 10 2) 2 [] o' NewMarketResolver ∅) as Hfeed.
  { induction 1 as [|o1 o2 o3 Hst _ IH]; [done|]. intros Hr. by eapply IH, run_feed. }
  apply (Hfeed runs.feed_demo0); [apply runs.feed_demo_run|apply run_boot].
Qed.

Lemma honest_vote_accepted_witness :
  exists vote, ExtendVote true 9 (Some (AsPriceFetcher 8 5 cache_demo)) = Some vote /\
    ov_Prices vote = [mkMarketPrice 2048 60010 60010] /\ VerifyVoteExtension true 9 (Some (Some vote)) = true.
Proof.
  eexists. split; [reflexivity|]. split; [vm_compute; reflexivity|].
  eapply (honest_vote_accepted _ _ 2 _ _ _ cache_demo true 9 8 5); [lia|exact cache_demo_run|reflexivity].
Defined.

(** *** Parsing of pairs *)

(** A canonical pair is printed and parsed back. *)
Lemma split_slash_app x y :
  Forall (fun a => a <> "/"%char) (String.list_ascii_of_string x) -> split_slash (x +:+ "/" +:+ y) = Some (x, y).
Proof.
  induction x as [|a x IH]; intros Hx; [done|]. cbn in Hx. apply Forall_cons in Hx as [Ha Hx].
  change (String a x +:+ "/" +:+ y) with (String a (x +:+ "/" +:+ y)). cbn [split_slash].
  rewrite (proj2 (Ascii.eqb_neq _ _) Ha), (IH Hx). done.
Qed.

Lemma ascii_app x y :
  String.list_ascii_of_string (x +:+ y) = String.list_ascii_of_string x ++ String.list_ascii_of_string y.
Proof. induction x as [|a x IH]; [done|]. exact (f_equal (cons a) IH). Qed.

Definition plain (s : string) : Prop :=
  s <> EmptyString /\ ToUpper s = s /\ Forall (fun a => is_space a = false) (String.list_ascii_of_string s).

Theorem pair_roundtrip p :
  plain (cp_Base p) -> plain (cp_Quote p) -> Forall (fun a => a <> "/"%char) (String.list_ascii_of_string (cp_Base p)) ->
  ParseCurrencyPair (pair_String p) = Some p.
Proof.
  destruct p as [b q]. intros (B1 & B2 & B3) (Q1 & Q2 & Q3) Hb. cbn [cp_Base cp_Quote] in *. unfold ParseCurrencyPair, pair_String. cbn [cp_Base cp_Quote].
  rewrite TrimSpace_id by (rewrite !ascii_app; apply Forall_app; split; [done|]; apply Forall_app; split; [by repeat constructor|done]).
  rewrite split_slash_app by done. cbn [mbind option_bind]. rewrite !TrimSpace_id, B2, Q2, !bool_decide_eq_false_2 by done. done.
Qed.

(** Of two markets on the same pair the resolver keeps the one with the
    higher index: a perpetual market loses its feed when a spot market on
    its assets is registered. *)
Lemma later_market_takes_pair :
  let c := pairs_demo <| market := market pairs_demo
    <| mst_Markets := list_to_map [(0, pair_market 0 4 USDCAssetIndex); (2048, pair_market 2048 4 USDCAssetIndex)] |> |> in
  MarketIndex "BTC/USDC" (Refresh c) = Some 2048 /\ map_Forall (fun _ i => i <> 0) (rs_pairToIdx (Refresh c)).
Proof. split; [by vm_compute|by_decide]. Qed.

(** [ParseCurrencyPair] accepts more than one slash. *)
Lemma two_slashes_parse : ParseCurrencyPair "a/b/c" = Some (mkCurrencyPair "A" "B/C").
Proof. by vm_compute. Qed.
End pairs.
