(* ===== verification/Providers.v ===== *)
(** * Price providers

    What the sidecar does with the answers of the exchanges
    ([services/oracle/providers]) and how it is configured
    ([services/oracle/config], [cmd/oracle-sidecar]). The HTTP requests are
    not modelled: an answer is an arbitrary decoded response, and the theorems
    hold for all of them.

    Prices arrive as decimal text and pass through [math/big.Float]: a
    finite positive float is its rational value, and each operation rounds to
    the precision of its result. The exponent of a float is not limited to 32
    bits. *)

From Stdlib Require Import Strings.Ascii QArith Qround Qabs Qpower Lqa.
From S2P Require Import Prelude Constants Types PositionMath Account Market Asset Oracle PriceFeed.
Import PriceFeed.sidecar.
#[local] Open Scope Z_scope.

(** ** Floats ([math/big]) *)

(** The nearest integer, ties to even. *)
Definition round_half_even (q : Q) : Z :=
  let n := Qnum q in let d := Zpos (Qden q) in
  let f := n / d in let r := n mod d in
  match 2 * r ?= d with
  | Lt => f
  | Gt => f + 1
  | Eq => if Z.even f then f else f + 1
  end.

(** A positive rational rounded to [prec] significant bits. *)
Definition round_to (prec : Z) (q : Q) : Q :=
  let k := (Z.log2 (Qnum q) - Z.log2 (Zpos (Qden q)) - prec)%Z in
  let k := if Qle_bool (inject_Z (2 ^ prec)) (q * 2 ^ (- k))%Q then (k + 1)%Z else k in
  (inject_Z (round_half_even (q * 2 ^ (- k))) * 2 ^ k)%Q.

Definition Float_Mul (prec : Z) (x y : Q) : Q := round_to prec (x * y).
Definition Float_Quo (prec : Z) (x y : Q) : Q := round_to prec (x / y).

(** [Float.pow5]: exact up to 5^27, then by squaring at 64 more bits. *)
Fixpoint pow5_loop (prec : Z) (z f : Q) (n : positive) : Q :=
  match n with
  | xH => Float_Mul prec z f
  | xO n => pow5_loop prec z (Float_Mul (prec + 64)%Z f f) n
  | xI n => pow5_loop prec (Float_Mul prec z f) (Float_Mul (prec + 64)%Z f f) n
  end.

Definition pow5 (prec n : Z) : Q :=
  if (n <=? 27)%Z then inject_Z (5 ^ n)
  else match (n - 27)%Z with
       | Zpos m => pow5_loop prec (inject_Z (5 ^ 27)) (inject_Z 5) m
       | _ => inject_Z (5 ^ n)
       end.

(** *** Decimal text *)

Definition digit (a : ascii) : option Z :=
  let n := Z.of_nat (nat_of_ascii a) in if (48 <=? n) && (n <=? 57) then Some (n - 48) else None.

(** The digits of a mantissa: value, count, position of the point, rest. *)
Fixpoint scan_digits (acc count : Z) (dp : option Z) (s : string) : Z * Z * option Z * string :=
  match s with
  | EmptyString => (acc, count, dp, s)
  | String a s' =>
      match dp, Ascii.eqb a "." with
      | None, true => scan_digits acc count (Some count) s'
      | _, _ => match digit a with
                | Some d => scan_digits (acc * 10 + d) (count + 1) dp s'
                | None => (acc, count, dp, s)
                end
      end
  end.

Fixpoint all_digits (acc : Z) (s : string) : option Z :=
  match s with
  | EmptyString => Some acc
  | String a s' => d ← digit a; all_digits (acc * 10 + d) s'
  end.

Definition scan_sign (s : string) : bool * string :=
  match s with
  | String "-" s' => (true, s')
  | String "+" s' => (false, s')
  | _ => (false, s)
  end.

(** An exponent and whether its base is ten; all of the text is used. *)
Definition scan_exponent (s : string) : option (Z * bool) :=
  match s with
  | EmptyString => Some (0, true)
  | String a s' =>
      let base := if Ascii.eqb a "e" || Ascii.eqb a "E" then Some true
                  else if Ascii.eqb a "p" || Ascii.eqb a "P" then Some false else None in
      ten ← base;
      let '(neg, s') := scan_sign s' in
      if bool_decide (s' = EmptyString) then None
      else e ← all_digits 0 s'; if 2 ^ 63 <=? e then None else Some (if neg then - e else e, ten)
  end.

Record decimal := mkDecimal {
  dc_neg : bool;
  dc_mant : Z;
  dc_fcount : Z;
  dc_exp : Z;
  dc_ten : bool
}.

Definition scan (s : string) : option decimal :=
  let '(neg, s) := scan_sign s in
  let '(mant, count, dp, rest) := scan_digits 0 0 None s in
  if count =? 0 then None
  else
    '(exp, ten) ← scan_exponent rest;
    Some (mkDecimal neg mant (match dp with Some p => p - count | None => 0 end) exp ten).

(** [big.ParseFloat(s, 10, 256, big.ToNearestEven)] of a positive number. *)
Definition float_of (prec : Z) (d : decimal) : Q :=
  let exp5 := (dc_fcount d + (if dc_ten d then dc_exp d else 0))%Z in
  let exp2 := (dc_fcount d + dc_exp d)%Z in
  let z := (inject_Z (dc_mant d) * 2 ^ exp2)%Q in
  if (exp5 =? 0)%Z then round_to prec z
  else if (exp5 <? 0)%Z then Float_Quo prec z (pow5 (prec + 64) (- exp5))
  else Float_Mul prec z (pow5 (prec + 64) exp5).

(** [strconv.ParseFloat(s, 64)] returns no error: decimal text whose value
    does not round past the largest float64. *)
Definition strconv_accepts (s : string) : bool :=
  match scan s with
  | None => false
  | Some d => dc_ten d &&
      negb (Qle_bool (inject_Z (2 ^ 1024 - 2 ^ 970)) (inject_Z (dc_mant d) * 10 ^ (dc_fcount d + dc_exp d))%Q)
  end.

(** ** Samples *)

(** [scale] of [providers/types/types.go]. *)
Fixpoint scale_loop (out : Z) (n : nat) : Z := match n with O => out | S n => scale_loop (out * 10) n end.
Definition scale (decimals : Z) : Z := scale_loop 1 (Z.to_nat decimals).

Definition PriceFromString (s : string) (decimals : Z) : option Z :=
  let s := TrimSpace s in
  if bool_decide (s = EmptyString) then None
  else
    d ← scan s;
    if dc_neg d || (dc_mant d =? 0) then None
    else Some (Qfloor (Float_Mul 256 (float_of 256 d) (inject_Z (scale decimals)))).

Definition DefaultDecimals : Z := 8.
Definition or_default (decimals : Z) : Z := if decimals =? 0 then DefaultDecimals else decimals.

(** The sample of one quoted price, when its symbol is known and it parses. *)
Definition quoted (name : string) (symbols : gmap string CurrencyPair) (decimals now : Z) (e : string * string)
  : option Price :=
  cp ← symbols !! e.1;
  val ← PriceFromString e.2 decimals;
  Some (mkPrice cp (Some val) now name).

Definition usdt (quote : string) : string := if bool_decide (quote = "USD") then "USDT" else quote.

(** *** Binance *)

Record BinanceProvider := mkBinanceProvider { binance_pairs : list CurrencyPair; binance_decimals : Z; binance_symbols : gmap string CurrencyPair }.

Definition binanceSymbol (cp : CurrencyPair) : string := ToUpper (cp_Base cp +:+ usdt (cp_Quote cp)).

Definition binance_New (pairs : list CurrencyPair) (decimals : Z) : BinanceProvider :=
  mkBinanceProvider pairs (or_default decimals) (foldl (fun m cp => <[binanceSymbol cp := cp]> m) ∅ pairs).

Definition binance_Name : string := "binance".

(** The decoded answer: symbol and price. *)
Definition binance_fetchAndPush (p : BinanceProvider) (entries : list (string * string)) (now : Z) : list Price :=
  omap (quoted binance_Name (binance_symbols p) (binance_decimals p) now) entries.

(** *** OKX *)

Record OkxProvider := mkOkxProvider { okx_pairs : list CurrencyPair; okx_decimals : Z; okx_symbols : gmap string CurrencyPair }.

Definition okxSymbol (cp : CurrencyPair) : string := ToUpper (cp_Base cp) +:+ "-" +:+ ToUpper (usdt (cp_Quote cp)).

Definition okx_New (pairs : list CurrencyPair) (decimals : Z) : OkxProvider :=
  mkOkxProvider pairs (or_default decimals) (foldl (fun m cp => <[okxSymbol cp := cp]> m) ∅ pairs).

Definition okx_Name : string := "okx".

(** The decoded answer: a code, and instrument and last price. *)
Definition okx_fetchAndPush (p : OkxProvider) (code : string) (data : list (string * string)) (now : Z) : option (list Price) :=
  if negb (bool_decide (code = "0")) then None else Some (omap (quoted okx_Name (okx_symbols p) (okx_decimals p) now) data).

(** *** CoinGecko *)

Definition lower (a : ascii) : ascii :=
  let n := nat_of_ascii a in if ((65 <=? n) && (n <=? 90))%nat then ascii_of_nat (n + 32) else a.
Definition ToLower (s : string) : string := String.string_of_list_ascii (lower <$> String.list_ascii_of_string s).

(** [strings.Trim] of the double quotes. *)
Fixpoint drop_quotes (l : list ascii) : list ascii :=
  match l with
  | [] => []
  | a :: l => if Ascii.eqb a (ascii_of_nat 34) then drop_quotes l else a :: l
  end.
Definition trim_quotes (s : string) : string :=
  String.string_of_list_ascii (reverse (drop_quotes (reverse (drop_quotes (String.list_ascii_of_string s))))).

Record CoingeckoProvider := mkCoingeckoProvider { coingecko_pairs : list CurrencyPair; coingecko_decimals : Z; coingecko_idToCP : gmap string CurrencyPair; coingecko_vsCCY : string }.

Definition vs_of (cp : CurrencyPair) : string :=
  let quote := ToLower (cp_Quote cp) in if bool_decide (quote = "usdt") then "usd" else quote.

(** One pair of the constructor's loop. *)
Definition add_pair (slugs : gmap string string) (st : gmap string CurrencyPair * string) (cp : CurrencyPair)
  : option (gmap string CurrencyPair * string) :=
  let '(idToCP, vs) := st in
  id ← slugs !! cp_Base cp;
  let quote := vs_of cp in
  if bool_decide (vs = EmptyString) then Some (<[id := cp]> idToCP, quote)
  else if bool_decide (vs = quote) then Some (<[id := cp]> idToCP, vs) else None.

Fixpoint add_pairs (slugs : gmap string string) (st : gmap string CurrencyPair * string) (pairs : list CurrencyPair)
  : option (gmap string CurrencyPair * string) :=
  match pairs with
  | [] => Some st
  | cp :: pairs => st ← add_pair slugs st cp; add_pairs slugs st pairs
  end.

Definition coingecko_New (pairs : list CurrencyPair) (decimals : Z) (slugs : gmap string string) : option CoingeckoProvider :=
  if (size slugs =? 0)%nat then None
  else
    '(idToCP, vs) ← add_pairs slugs (∅, EmptyString) pairs;
    Some (mkCoingeckoProvider pairs (or_default decimals) idToCP (if bool_decide (vs = EmptyString) then "usd" else vs)).

Definition coingecko_Name : string := "coingecko".

(** One coin of the answer: its id and its raw values by currency. *)
Definition coin (p : CoingeckoProvider) (now : Z) (im : string * gmap string string) : option Price :=
  cp ← coingecko_idToCP p !! im.1;
  valBytes ← im.2 !! coingecko_vsCCY p;
  let valStr := trim_quotes valBytes in
  if negb (strconv_accepts valStr) then None
  else
    val ← PriceFromString valStr (coingecko_decimals p);
    Some (mkPrice cp (Some val) now coingecko_Name).

Definition coingecko_fetchAndPush (p : CoingeckoProvider) (raw : gmap string (gmap string string)) (now : Z) : list Price :=
  omap (coin p now) (map_to_list raw).

(** ** Configuration *)

Record ProviderConfig := mkProviderConfig { pc_Enabled : bool; pc_Decimals : Z; pc_Slugs : gmap string string }.

Record Config := mkConfig {
  sc_MaxAge : Z;
  sc_MinSources : Z;
  sc_Pairs : list string;
  sc_Providers : gmap string ProviderConfig
}.

Definition second : Z := 1000000000.

Definition applyDefaults (c : Config) : Config :=
  mkConfig (if sc_MaxAge c =? 0 then 5 * second else sc_MaxAge c) (if sc_MinSources c =? 0 then 1 else sc_MinSources c)
    (sc_Pairs c) (sc_Providers c).

Definition has_slash (s : string) : bool := match split_slash s with Some _ => true | None => false end.

Definition Config_Validate (c : Config) : bool :=
  negb (length (sc_Pairs c) =? 0)%nat
  && forallb has_slash (sc_Pairs c)
  && negb (length (filter (fun pc => pc_Enabled pc = true) (map_to_list (sc_Providers c)).*2) =? 0)%nat.

Definition Default_Config : Config := applyDefaults (mkConfig 0 0 ["BTC/USD"; "ETH/USD"; "SOL/USD"]
  (list_to_map [("binance", mkProviderConfig true 8 ∅); ("okx", mkProviderConfig true 8 ∅);
    ("coingecko", mkProviderConfig true 8 (list_to_map [("BTC", "bitcoin"); ("ETH", "ethereum"); ("SOL", "solana")]))])).

(** [json.Unmarshal] has happened. *)
Definition Load (cfg : Config) : option Config :=
  let cfg := applyDefaults cfg in if Config_Validate cfg then Some cfg else None.

Fixpoint parsePairs (raw : list string) : option (list CurrencyPair) :=
  match raw with
  | [] => Some []
  | s :: raw => p ← ParseCurrencyPair s; out ← parsePairs raw; Some (p :: out)
  end.

Inductive Provider :=
| Binance (p : BinanceProvider)
| Okx (p : OkxProvider)
| Coingecko (p : CoingeckoProvider).

Definition Name (p : Provider) : string :=
  match p with Binance _ => binance_Name | Okx _ => okx_Name | Coingecko _ => coingecko_Name end.
Definition Pairs (p : Provider) : list CurrencyPair :=
  match p with Binance p => binance_pairs p | Okx p => okx_pairs p | Coingecko p => coingecko_pairs p end.

(** [pc, ok := cfg.Providers[name]; ok && pc.Enabled] *)
Definition enabled (cfg : Config) (name : string) : option ProviderConfig :=
  pc ← sc_Providers cfg !! name; if pc_Enabled pc then Some pc else None.

Definition buildProviders (cfg : Config) (pairs : list CurrencyPair) : option (list Provider) :=
  let bs := match enabled cfg "binance" with Some pc => [Binance (binance_New pairs (pc_Decimals pc))] | None => [] end in
  let os := match enabled cfg "okx" with Some pc => [Okx (okx_New pairs (pc_Decimals pc))] | None => [] end in
  match enabled cfg "coingecko" with
  | None => Some (bs ++ os)
  | Some pc => cg ← coingecko_New pairs (pc_Decimals pc) (pc_Slugs pc); Some (bs ++ os ++ [Coingecko cg])
  end.

(** What an exchange answered. *)
Inductive Response :=
| Tickers (entries : list (string * string))
| Envelope (code : string) (data : list (string * string))
| Coins (raw : gmap string (gmap string string)).

(** A fetch that fails pushes nothing. *)
Definition fetchAndPush (p : Provider) (r : Response) (now : Z) : option (list Price) :=
  match p, r with
  | Binance p, Tickers entries => Some (binance_fetchAndPush p entries now)
  | Okx p, Envelope code data => okx_fetchAndPush p code data now
  | Coingecko p, Coins raw => Some (coingecko_fetchAndPush p raw now)
  | _, _ => None
  end.

(** The sidecar's [main]: its providers, and the orchestrator over them. *)
Definition start (cfg : Config) : option (list Provider * Orchestrator) :=
  pairs ← parsePairs (sc_Pairs cfg);
  providers ← buildProviders cfg pairs;
  if (length providers =? 0)%nat then None
  else Some (providers, sidecar.New ((fun p => (Name p, Pairs p)) <$> providers) (mkAggregateConfig (sc_MaxAge cfg) (sc_MinSources cfg))).

Inductive sidecar_step (providers : list Provider) (o : Orchestrator) : Orchestrator -> Prop :=
| step_fetch p r now batch : p ∈ providers -> fetchAndPush p r now = Some batch -> sidecar_step providers o (ingest batch o)
| step_aggregate now : sidecar_step providers o (recomputeSnapshot now o).


(** ** The providers keep to their pairs *)

Definition keeps (pairs : list CurrencyPair) (m : gmap string CurrencyPair) : Prop := map_Forall (fun _ cp => cp ∈ pairs) m.

Lemma foldl_keeps {A} (f : A -> string) (g : A -> CurrencyPair) all l m :
  (forall a, a ∈ l -> g a ∈ all) -> keeps all m -> keeps all (foldl (fun m a => <[f a := g a]> m) m l).
Proof.
  revert m. induction l as [|a l IH]; intros m Hl Hm; [done|]. cbn. apply IH; [intros; by apply Hl, list_elem_of_further|].
  apply map_Forall_insert_2; [apply Hl, list_elem_of_here|done].
Qed.

Lemma add_pairs_keeps slugs all pairs st st' :
  add_pairs slugs st pairs = Some st' -> (forall p, p ∈ pairs -> p ∈ all) -> keeps all st.1 -> keeps all st'.1.
Proof.
  revert st. induction pairs as [|cp pairs IH]; intros [m vs] Hr Hl Hm; [by injection Hr as <-|]. cbn in Hr.
  destruct (slugs !! cp_Base cp) as [id|]; [|done]. cbn in Hr.
  assert (keeps all (<[id:=cp]> m)) as Hk by (apply map_Forall_insert_2; [apply Hl, list_elem_of_here|done]).
  assert (forall p, p ∈ pairs -> p ∈ all) as Hl' by (intros; by apply Hl, list_elem_of_further).
  do 2 (case_bool_decide; cbn in Hr; [by eapply (IH (_, _))|]). done.
Qed.

(** The names and pairs of a provider, and what its constructor ensures. *)
Definition declares (p : Provider) : string * list CurrencyPair := (Name p, Pairs p).

Definition built (p : Provider) : Prop :=
  match p with
  | Binance p => keeps (binance_pairs p) (binance_symbols p)
  | Okx p => keeps (okx_pairs p) (okx_symbols p)
  | Coingecko p => keeps (coingecko_pairs p) (coingecko_idToCP p)
  end.

Lemma binance_New_built pairs d : built (Binance (binance_New pairs d)).
Proof. cbn. apply (foldl_keeps binanceSymbol (fun p => p)); [done|apply map_Forall_empty]. Qed.
Lemma okx_New_built pairs d : built (Okx (okx_New pairs d)).
Proof. cbn. apply (foldl_keeps okxSymbol (fun p => p)); [done|apply map_Forall_empty]. Qed.
Lemma coingecko_New_built pairs d slugs p : coingecko_New pairs d slugs = Some p -> built (Coingecko p).
Proof.
  unfold coingecko_New. case_match; [done|]. destruct (add_pairs _ _ pairs) as [[m vs]|] eqn:Ha; [|done]. cbn.
  intros [= <-]. cbn. apply (add_pairs_keeps _ pairs _ _ _ Ha); [done|apply map_Forall_empty].
Qed.

Lemma coingecko_New_pairs pairs d slugs p : coingecko_New pairs d slugs = Some p -> coingecko_pairs p = pairs.
Proof.
  unfold coingecko_New. case_match; [done|]. destruct (add_pairs _ _ pairs) as [[m vs]|]; [|done]. by intros [= <-].
Qed.

#[local] Hint Resolve binance_New_built okx_New_built coingecko_New_built : built.
Ltac solve_built := cbn in *; repeat match goal with
  | H : _ ∈ _ :: _ |- _ => apply elem_of_cons in H as [->|H]; [solve [eauto with built]|]
  | H : _ ∈ [] |- _ => by apply not_elem_of_nil in H
  end.

Lemma buildProviders_built cfg pairs ps p : buildProviders cfg pairs = Some ps -> p ∈ ps -> built p.
Proof.
  unfold buildProviders. intros Hb Hp. destruct (enabled cfg "coingecko") as [pc|].
  - destruct (coingecko_New _ _ _) as [cg|] eqn:Hn; [|done]. cbn in Hb. injection Hb as <-.
    destruct (enabled cfg "binance"), (enabled cfg "okx"); solve_built.
  - injection Hb as <-. destruct (enabled cfg "binance"), (enabled cfg "okx"); solve_built.
Qed.

Lemma quoted_sample name symbols d now e s pairs :
  quoted name symbols d now e = Some s -> keeps pairs symbols -> pr_Provider s = name /\ pr_Pair s ∈ pairs.
Proof.
  unfold quoted. destruct (symbols !! e.1) as [cp|] eqn:Hs; [|done]. cbn. destruct (PriceFromString _ _); [|done]. cbn.
  intros [= <-] Hk. cbn. split; [done|]. by apply (Hk _ _ Hs).
Qed.

(** Whatever an exchange answers, a provider reports under its own name and
    for its own pairs. *)
Lemma fetch_reported p r now batch :
  built p -> fetchAndPush p r now = Some batch ->
  Forall (fun s => pr_Provider s = Name p /\ pr_Pair s ∈ Pairs p) batch.
Proof.
  intros Hb Hf. apply Forall_forall. intros s Hs. destruct p as [p|p|p], r as [es|code es|raw]; try done; cbn in Hb, Hf.
  - injection Hf as <-. apply list_elem_of_omap in Hs as (e & _ & He). by eapply quoted_sample.
  - unfold okx_fetchAndPush in Hf. case_match; [done|]. injection Hf as <-.
    apply list_elem_of_omap in Hs as (e & _ & He). by eapply quoted_sample.
  - injection Hf as <-. apply list_elem_of_omap in Hs as ([id m] & _ & He). unfold coin in He. cbn in He.
    destruct (coingecko_idToCP p !! id) as [cp|] eqn:Hi; [|done]. cbn in He.
    destruct (m !! coingecko_vsCCY p); [|done]. cbn in He. case_match; [done|]. destruct (PriceFromString _ _); [|done].
    injection He as <-. cbn. split; [done|]. by apply (Hb _ _ Hi).
Qed.

(** C23: every run of a configured sidecar, whatever the exchanges answer, is a
    run of the abstract feed: the providers it builds have distinct names,
    they report under their own name and for the configured pairs only, and
    the rest is ingestion and aggregation. *)
Theorem sidecar_refines_feed cfg pairs ps o0 o :
  parsePairs (sc_Pairs cfg) = Some pairs -> start cfg = Some (ps, o0) -> rtc (sidecar_step ps) o0 o ->
  NoDup (Name <$> ps) /\ (forall p, p ∈ ps -> Pairs p = pairs) /\
  o0 = sidecar.New (declares <$> ps) (mkAggregateConfig (sc_MaxAge cfg) (sc_MinSources cfg)) /\
  rtc (runs.feed_step (declares <$> ps)) o0 o.
Proof.
  intros Hp Hs Hr. unfold start in Hs. rewrite Hp in Hs. cbn in Hs. destruct (buildProviders cfg pairs) as [ps'|] eqn:Hb; [|done].
  cbn in Hs. case_match; [done|]. injection Hs as -> <-. assert (NoDup (Name <$> ps) /\ forall p, p ∈ ps -> Pairs p = pairs) as [Hn Hpairs].
  { revert Hb. unfold buildProviders. destruct (enabled cfg "coingecko") as [pc|].
    - destruct (coingecko_New _ _ _) as [cg|] eqn:Hn; [|done]. apply coingecko_New_pairs in Hn. intros [= <-].
      destruct (enabled cfg "binance"), (enabled cfg "okx"); (split; [by_decide|set_solver]).
    - intros [= <-]. destruct (enabled cfg "binance"), (enabled cfg "okx"); (split; [by_decide|set_solver]). }
  split_and!; [done..|]. clear Hp. induction Hr as [o|o o1 o2 Hstep Hr IH]; [apply rtc_refl|]. eapply rtc_l; [|exact IH].
  destruct Hstep as [p r now batch Hin Hf|now]; [|apply runs.step_tick]. apply runs.step_ingest.
  eapply Forall_impl; [eapply fetch_reported; [by eapply buildProviders_built|exact Hf]|]. cbn. intros s [Hn1 Hn2].
  exists (Pairs p). rewrite Hn1. split; [|done]. change (Name p, Pairs p) with (declares p). by apply list_elem_of_fmap_2.
Qed.

(** ** The rounding of a price *)










(** ** Examples *)

Example default_config_valid : Load Default_Config = Some Default_Config.
Proof. by_compute. Qed.

(** A price of a thousandth of a cent loses its last unit. *)
Theorem small_price_truncated : PriceFromString "0.00001" 8 = Some 999.
Proof. by_compute. Qed.

Example price_text : PriceFromString "60123.45" 6 = Some 60123450000 /\ PriceFromString "1.5e-3" 8 = Some 150000.
Proof. split; by_compute. Qed.


(** The symbol of the exchange is the same for both dollars: of two such
    pairs only the later one is priced. *)
Definition btc_usdt : CurrencyPair := mkCurrencyPair "BTC" "USDT".
Theorem usdt_hides_usd :
  pr_Pair <$> binance_fetchAndPush (binance_New [runs.btc; btc_usdt] 8) [("BTCUSDT"%string, "60000"%string)] 1 = [btc_usdt].
Proof. by_compute. Qed.

(** A run of the default configuration. *)
Definition default_start : list Provider * Orchestrator := default ([], sidecar.New [] (mkAggregateConfig 0 0)) (start Default_Config).
Definition default_run1 : Orchestrator :=
  ingest (default [] (p ← head default_start.1; fetchAndPush p (Tickers [("BTCUSDT"%string, "60123.45"%string); ("XYZ"%string, "1"%string)]) 7)) default_start.2.
Definition default_run : Orchestrator := recomputeSnapshot 8 default_run1.

Lemma sidecar_refines_feed_witness :
  NoDup (Name <$> default_start.1) /\ (forall p, p ∈ default_start.1 -> Pairs p = default [] (parsePairs (sc_Pairs Default_Config))) /\
  default_start.2 = sidecar.New (declares <$> default_start.1) (mkAggregateConfig (sc_MaxAge Default_Config) (sc_MinSources Default_Config)) /\
  rtc (runs.feed_step (declares <$> default_start.1)) default_start.2 default_run.
Proof.
  apply (sidecar_refines_feed Default_Config); [vm_compute; reflexivity..|].
  apply (rtc_l _ _ default_run1); [|apply (rtc_l _ _ default_run); [apply step_aggregate|apply rtc_refl]].
  destruct (head default_start.1) as [p|] eqn:Hp; [|vm_compute in Hp; discriminate].
  apply (step_fetch _ _ p (Tickers [("BTCUSDT"%string, "60123.45"%string); ("XYZ"%string, "1"%string)]) 7).
  - vm_compute in Hp. injection Hp as <-. vm_compute. constructor.
  - vm_compute in Hp. injection Hp as <-. vm_compute. reflexivity.
Defined.

Example default_run_price : Snapshot default_run !! "BTC/USD"%string = Some 6012345000000.
Proof. by_compute. Qed.
