(* ===== verification/Funding.v ===== *)
(** * Funding and mark price

    [x/funding/keeper]: the begin-blocker pipeline (premium sampling, the
    mark-price median with its smoothed premium, the hourly funding round)
    and the settlement of one position against the prefix sum. *)

From S2P Require Import Prelude Constants Types PositionMath Account Market Oracle.

(** What x/funding needs of the order book: the impact price of one side
    ([x/funding/types/expected_keepers.go]). *)
Class ImpactSource := {
  ImpactPrice : Z -> bool -> Chain -> R Z
}.

(** ** Helpers ([helpers.go]) *)

(** [clampInt64] and [clampInt] *)
Definition clampInt (v lo hi : Z) : Z :=
  if v <? lo then lo else if hi <? v then hi else v.

Definition clampUint32 (v : Z) : Z :=
  if v <? 0 then 0 else if 2 ^ 32 - 1 <? v then 2 ^ 32 - 1 else v.

Definition median3Uint32 (a b c : Z) : Z :=
  match merge_sort Z.le [a; b; c] with
  | _ :: m :: _ => m
  | _ => 0
  end.

(** ** Funding round ([settle.go]) *)

(** The per-round rate of a market with at least one sample. *)
Definition funding_rate (d : MarketDetails) (params : FundingParams) : Z :=
  let avg := Z.quot (md_AggregatePremiumSum d) (md_TotalPremiumSamples d) in
  let ir := md_InterestRate d in
  let smallClampMag := md_FundingClampSmall d in
  let bigClampMag := md_FundingClampBig d in
  let correction := clampInt (ir - avg) (- smallClampMag) smallClampMag in
  let smallClamped := avg + correction in
  let bigClamped := clampInt smallClamped (- bigClampMag) bigClampMag in
  let divisor := if fp_FundingPeriodDivisor params <=? 0 then 1 else fp_FundingPeriodDivisor params in
  Z.quot bigClamped divisor.

Definition settleMarket (marketIdx : Z) (params : FundingParams) : K unit := fun c =>
  match GetMarketDetails marketIdx c with
  | Ok d =>
      if md_TotalPremiumSamples d =? 0 then (Ok tt, c)
      else
        let rate := funding_rate d params in
        let inc := md_MarkPrice d * rate in
        SetMarketDetails
          (d <| md_FundingRatePrefixSum := md_FundingRatePrefixSum d + inc |>
             <| md_AggregatePremiumSum := 0 |>
             <| md_TotalPremiumSamples := 0 |>) c
  | _ => (Ok tt, c)
  end.

Definition is_live_perps (m : Market) : bool :=
  negb (negb (mkt_MarketType m =? MarketTypePerps) || negb (mkt_Status m =? MarketStatusActive)).

Definition SettleAllMarkets (params : FundingParams) : K unit := fun c =>
  forM (fun m => if is_live_perps m then settleMarket (mkt_MarketIndex m) params else mret tt)
    (IterateMarkets c) c.

(** ** Position settlement ([keeper.go]) *)

Definition SettlePositionFunding (accountIndex marketIndex : Z) : K unit :=
  d ← reads (GetMarketDetails marketIndex);
  UpdatePosition accountIndex marketIndex (fun pos =>
    if pos_BaseSize pos =? 0 then
      mret (pos <| pos_LastFundingRatePrefixSum := md_FundingRatePrefixSum d |>, tt)
    else
      let delta := md_FundingRatePrefixSum d - pos_LastFundingRatePrefixSum pos in
      if delta =? 0 then
        mret (pos <| pos_LastFundingRatePrefixSum := md_FundingRatePrefixSum d |>, tt)
      else
        let pay := Z.quot (pos_BaseSize pos * delta) FundingRateTick in
        mret (pos <| pos_EntryQuote := pos_EntryQuote pos + pay |>
                  <| pos_LastFundingRatePrefixSum := md_FundingRatePrefixSum d |>, tt));;
  mret tt.

(** ** Mark price ([mark_price.go]) *)

Definition emaStep (prev raw dt tau : Z) (reset : bool) : Z :=
  if (tau <=? 0) || reset || (tau <=? dt) then raw
  else if dt <=? 0 then prev
  else
    let delta := Z.quot (wrapi64 (raw - prev) * dt) tau in
    if delta =? 0 then prev else wrapi64 (prev + delta).

(** The premium of this block and its clamped average. *)
Definition raw_premium (idx impact : Z) : Z :=
  if negb (impact =? 0) && (0 <? idx) then
    let bound := Z.quot idx MarkPremiumClampDivisor in
    clampInt (impact - idx) (- bound) bound
  else 0.

Definition premium_ema (d : MarketDetails) (now : Z) : Z :=
  let idx := md_IndexPrice d in
  let rawPremium := raw_premium idx (md_ImpactPrice d) in
  let dt := now - md_LastMarkPriceRefreshTimestamp d in
  let ema := emaStep (md_MarkPremiumEma d) rawPremium dt MarkPremiumEmaTauMs
               (md_LastMarkPriceRefreshTimestamp d =? 0) in
  if 0 <? idx then
    let b := Z.quot idx MarkPremiumClampDivisor in clampInt ema (- b) b
  else ema.

(** The [switch] over the non-zero inputs; [None] keeps the old mark. *)
Definition mark_of_inputs (impact price1 price2 : Z) : option Z :=
  let i := negb (impact =? 0) in
  let p1 := negb (price1 =? 0) in
  let p2 := negb (price2 =? 0) in
  if i && p1 && p2 then Some (median3Uint32 impact price1 price2)
  else if i && p1 then Some ((impact + price1) / 2)
  else if i && p2 then Some ((impact + price2) / 2)
  else if p1 && p2 then Some ((price1 + price2) / 2)
  else if i then Some impact
  else if p1 then Some price1
  else if p2 then Some price2
  else None.

Definition refreshMarkPrice (marketIdx now : Z) : K unit := fun c =>
  match GetMarketDetails marketIdx c with
  | Ok d =>
      match GetPrice marketIdx c with
      | Ok px =>
          let d := if negb (op_IndexPrice px =? 0) then d <| md_IndexPrice := op_IndexPrice px |> else d in
          let ema := premium_ema d now in
          let price1 := clampUint32 (wrapi64 (md_IndexPrice d + ema)) in
          let price2 := op_MarkPrice px in
          match mark_of_inputs (md_ImpactPrice d) price1 price2 with
          | None => (Ok tt, c)
          | Some markPrice =>
              SetMarketDetails
                (d <| md_MarkPrice := markPrice |> <| md_MarkPremiumEma := ema |>
                   <| md_LastMarkPriceRefreshTimestamp := now |>) c
          end
      | _ => (Ok tt, c)
      end
  | _ => (Ok tt, c)
  end.

(** ** Premium samples ([sample.go]) *)

Definition premiumSampleIntervalMs : Z := MinuteInMs.

Definition premium_sample (bidImp askImp idx : Z) : Z :=
  let posPart := if idx <? bidImp then bidImp - idx else 0 in
  let negPart := if askImp <? idx then idx - askImp else 0 in
  Z.quot ((posPart - negPart) * FundingRateTick) idx.

Definition FundingParams_Validate (p : FundingParams) : bool :=
  negb (fp_FundingPeriodMs p <=? 0) && negb (fp_FundingPeriodDivisor p <=? 0)
  && negb (fp_MaxPremiumSampleCount p =? 0) && negb (fp_FundingPeriodMs p <? MinuteInMs).

Section sampling.
Context `{ImpactSource}.

(** The sample of a market whose two impact prices were read. *)
Definition store_sample (marketIdx now : Z) (params : FundingParams) (d : MarketDetails) (bidImp askImp : Z)
  : K unit := fun c =>
  let d := d <| md_ImpactBidPrice := bidImp |> <| md_ImpactAskPrice := askImp |>
             <| md_ImpactPrice :=
                 if negb (bidImp =? 0) && negb (askImp =? 0)
                 then (bidImp + askImp) / 2 else 0 |> in
  match GetPrice marketIdx c with
  | Ok px =>
      let d := d <| md_IndexPrice := op_IndexPrice px |> in
      if (bidImp =? 0) || (askImp =? 0) || (md_IndexPrice d =? 0) then
        SetMarketDetails (d <| md_LastPremiumSampleTimestamp := now |>) c
      else
        let premium := premium_sample bidImp askImp (md_IndexPrice d) in
        let d :=
          if (fp_MaxPremiumSampleCount params =? 0)
             || (md_TotalPremiumSamples d <? fp_MaxPremiumSampleCount params)
          then d <| md_AggregatePremiumSum := md_AggregatePremiumSum d + premium |>
                 <| md_TotalPremiumSamples := wrap32 (md_TotalPremiumSamples d + 1) |>
          else d in
        SetMarketDetails (d <| md_LastPremiumSampleTimestamp := now |>) c
  | _ => SetMarketDetails d c
  end.

Definition processMarketSample (marketIdx now : Z) (params : FundingParams) : K unit := fun c =>
  match GetMarketDetails marketIdx c with
  | Ok d =>
      if negb (md_LastPremiumSampleTimestamp d =? 0)
         && (now - md_LastPremiumSampleTimestamp d <? premiumSampleIntervalMs)
      then (Ok tt, c)
      else
        (bidImp ← attempt (reads (ImpactPrice marketIdx false));
         match bidImp with
         | None => mret tt
         | Some bidImp =>
             askImp ← attempt (reads (ImpactPrice marketIdx true));
             match askImp with
             | None => mret tt
             | Some askImp => store_sample marketIdx now params d bidImp askImp
             end
         end) c
  | _ => (Ok tt, c)
  end.

Definition Funding_BeginBlocker : K unit := fun c =>
  let now := BlockTime c in
  let params := xst_FundingParams (misc c) in
  let last := xst_LastFundingRoundTimestamp (misc c) in
  (forM (fun m =>
     if is_live_perps m then
       processMarketSample (mkt_MarketIndex m) now params;;
       refreshMarkPrice (mkt_MarketIndex m) now
     else mret tt) (IterateMarkets c);;
   let settleEvery := fp_FundingPeriodMs params in
   if (0 <? settleEvery) && ((last =? 0) || (settleEvery <=? now - last)) then
     SettleAllMarkets params;;
     modify (fun c => c <| misc := misc c <| xst_LastFundingRoundTimestamp := now |> |>)
   else mret tt) c.

End sampling.

(** ** Lemmas *)

Lemma clampInt_bounds v lo hi : lo <= hi -> lo <= clampInt v lo hi <= hi.
Proof. intros. unfold clampInt. case_ifs; lia. Qed.

Lemma clampInt_id v lo hi : lo <= v <= hi -> clampInt v lo hi = v.
Proof. intros. unfold clampInt. case_ifs; lia. Qed.

Lemma median3_spec a b c :
  let m := median3Uint32 a b c in
  Z.min a (Z.min b c) <= m <= Z.max a (Z.max b c) /\
  Z.min a b <= Z.max m c /\ m = Z.max (Z.min a b) (Z.min (Z.max a b) c).
Proof.
  unfold median3Uint32. cbn. repeat case_decide; cbn; repeat case_decide; lia.
Qed.

(** What the settlement adds to the entry quote of a position. *)
Definition funding_pay (prefix : Z) (p : AccountPosition) : Z :=
  if pos_BaseSize p =? 0 then 0
  else Z.quot (pos_BaseSize p * (prefix - pos_LastFundingRatePrefixSum p)) FundingRateTick.

Definition settled (prefix : Z) (p : AccountPosition) : AccountPosition :=
  p <| pos_EntryQuote := pos_EntryQuote p + funding_pay prefix p |>
    <| pos_LastFundingRatePrefixSum := prefix |>.

Lemma SettlePositionFunding_run a m c d :
  keyed c -> GetMarketDetails m c = Ok d ->
  SettlePositionFunding a m c =
    (Ok tt, with_position (settled (md_FundingRatePrefixSum d) (GetPosition a m c)) c).
Proof.
  intros Hk Hd. unfold SettlePositionFunding.
  rewrite (run_bind _ _ _ d c) by (unfold reads; by rewrite Hd).
  rewrite (run_bind _ _ _ (settled (md_FundingRatePrefixSum d) (GetPosition a m c), tt)
    (with_position (settled (md_FundingRatePrefixSum d) (GetPosition a m c)) c)); [done|].
  apply UpdatePosition_ok; [done|]. split; [|done]. unfold settled, funding_pay. destruct (GetPosition a m c) as [? ? s e l]. cbn.
  destruct (Z.eqb_spec s 0); [by rewrite Z.add_0_r|].
  destruct (Z.eqb_spec (md_FundingRatePrefixSum d - l) 0) as [E|]; [|done].
  rewrite E, Z.mul_0_r. cbn. by rewrite Z.add_0_r.
Qed.

Lemma SettlePositionFunding_inv a m c u c' :
  keyed c -> SettlePositionFunding a m c = (Ok u, c') ->
  exists d, GetMarketDetails m c = Ok d /\
    c' = with_position (settled (md_FundingRatePrefixSum d) (GetPosition a m c)) c.
Proof.
  intros Hk H. assert (exists d, GetMarketDetails m c = Ok d) as [d Hd].
  { unfold SettlePositionFunding in H. inv_ok. eauto. }
  rewrite (SettlePositionFunding_run a m c d Hk Hd) in H. injection H as _ <-. eauto.
Qed.

Lemma settled_settled prefix p : settled prefix (settled prefix p) = settled prefix p.
Proof.
  unfold settled, funding_pay. destruct p as [? ? s e l]. cbn.
  rewrite Z.sub_diag, Z.mul_0_r. cbn. destruct (s =? 0); by rewrite ?Z.add_0_r.
Qed.

Lemma settled_frame prefix p :
  pos_AccountIndex (settled prefix p) = pos_AccountIndex p /\
  pos_MarketIndex (settled prefix p) = pos_MarketIndex p /\
  pos_BaseSize (settled prefix p) = pos_BaseSize p /\
  pos_AllocatedMargin (settled prefix p) = pos_AllocatedMargin p /\
  pos_MarginMode (settled prefix p) = pos_MarginMode p.
Proof. done. Qed.

(** Truncated shares of a net-zero quantity: each loses less than a unit. *)
Lemma funding_shares_bound (ps : list AccountPosition) delta :
  Z.abs (lsum (fun p => Z.quot (pos_BaseSize p * delta) FundingRateTick) ps * FundingRateTick
         - lsum pos_BaseSize ps * delta)
  <= Z.of_nat (length ps) * (FundingRateTick - 1).
Proof.
  induction ps as [|p ps IH]; [done|]. cbn [lsum length].
  pose proof (Z.quot_rem' (pos_BaseSize p * delta) FundingRateTick) as E.
  pose proof (Z.rem_bound_abs (pos_BaseSize p * delta) FundingRateTick ltac:(done)) as B.
  set (q := Z.quot _ _) in *. set (r := Z.rem _ _) in *.
  unfold FundingRateTick in *. lia.
Qed.

(** Closing a funding round moves the prefix sum by mark price times a
    rate bounded by the market's big clamp over the period divisor, resets
    the premium accumulators, and touches nothing else. *)
Theorem settle_market_bounded i params c d :
  GetMarketDetails i c = Ok d -> md_TotalPremiumSamples d <> 0 -> 0 <= md_FundingClampBig d ->
  exists rate,
    Z.abs rate <= Z.quot (md_FundingClampBig d) (Z.max 1 (fp_FundingPeriodDivisor params)) /\
    settleMarket i params c =
      (Ok tt, with_details
        (d <| md_FundingRatePrefixSum := md_FundingRatePrefixSum d + md_MarkPrice d * rate |>
           <| md_AggregatePremiumSum := 0 |> <| md_TotalPremiumSamples := 0 |>) c).
Proof.
  intros Hd Hs Hb. exists (funding_rate d params). split.
  - unfold funding_rate. set (v := md_AggregatePremiumSum d ÷ _ + _).
    pose proof (clampInt_bounds v (- md_FundingClampBig d) (md_FundingClampBig d) ltac:(lia)) as Hc.
    set (x := clampInt _ _ _) in *.
    replace (if fp_FundingPeriodDivisor params <=? 0 then 1 else fp_FundingPeriodDivisor params)
      with (Z.max 1 (fp_FundingPeriodDivisor params)) by (case_match; breflect; lia).
    set (dv := Z.max 1 _). rewrite <- Z.quot_abs by lia. rewrite (Z.abs_eq dv) by lia.
    apply quot_mono; lia.
  - unfold settleMarket. rewrite Hd. rewrite (proj2 (Z.eqb_neq _ _) Hs). done.
Qed.

(** Settling a position charges its size times the prefix-sum increase
    since its last settlement, changes no other field and no other row, and
    is idempotent: a second settlement in the same block changes nothing. *)
Theorem settle_position_once a m c d :
  keyed c -> GetMarketDetails m c = Ok d ->
  exists c1, SettlePositionFunding a m c = (Ok tt, c1) /\
    SettlePositionFunding a m c1 = (Ok tt, c1) /\
    let p := GetPosition a m c in
    let pay := Z.quot (pos_BaseSize p * (md_FundingRatePrefixSum d - pos_LastFundingRatePrefixSum p))
                 FundingRateTick in
    GetPosition a m c1 =
      p <| pos_EntryQuote := pos_EntryQuote p + pay |>
        <| pos_LastFundingRatePrefixSum := md_FundingRatePrefixSum d |> /\
    (forall b n, (b, n) <> (a, m) -> GetPosition b n c1 = GetPosition b n c).
Proof.
  intros Hk Hd. destruct (get_position_key c a m Hk) as [Ha Hm].
  set (p1 := settled (md_FundingRatePrefixSum d) (GetPosition a m c)).
  assert (forall b n, GetPosition b n (with_position p1 c)
            = if decide ((a, m) = (b, n)) then p1 else GetPosition b n c) as Hg.
  { intros b n. rewrite get_position_with. subst p1. cbn. by rewrite Ha, Hm. }
  exists (with_position p1 c). cbv zeta. split_and!.
  - by apply SettlePositionFunding_run.
  - rewrite (SettlePositionFunding_run a m _ d); [|auto|done].
    rewrite Hg, decide_True by done. subst p1. rewrite settled_settled.
    f_equal. unfold with_position; cbn. by rewrite insert_insert_eq.
  - rewrite Hg, decide_True by done. subst p1. unfold settled, funding_pay.
    destruct (Z.eqb_spec (pos_BaseSize (GetPosition a m c)) 0) as [->|]; [|done].
    by rewrite Z.mul_0_l.
  - intros b n Hne. rewrite Hg. by rewrite decide_False by congruence.
Qed.

Lemma settle_group_entry m d accs c :
  keyed c -> GetMarketDetails m c = Ok d -> NoDup accs ->
  exists c', forM (fun a => SettlePositionFunding a m) accs c = (Ok tt, c') /\
    total_entry_quote c' = total_entry_quote c
      + lsum (fun a => funding_pay (md_FundingRatePrefixSum d) (GetPosition a m c)) accs.
Proof.
  revert c. induction accs as [|a accs IH]; intros c Hk Hd Hnd.
  { exists c. cbn. split; [done|lia]. }
  apply NoDup_cons in Hnd as [Hni Hnd].
  set (p1 := settled (md_FundingRatePrefixSum d) (GetPosition a m c)).
  destruct (get_position_key c a m Hk) as [Ha Hm].
  destruct (IH (with_position p1 c)) as (c' & Hr & Ht); [auto|done|done|].
  exists c'. cbn [forM lsum]. rewrite (run_bind _ _ _ tt (with_position p1 c));
    [|by apply SettlePositionFunding_run]. split; [done|].
  rewrite Ht. unfold total_entry_quote at 1.
  rewrite (psum_with_position pos_EntryQuote c p1 a m) by first [done | exact Ha | exact Hm].
  rewrite (lsum_ext _ (fun a => funding_pay (md_FundingRatePrefixSum d) (GetPosition a m c)) accs).
  - subst p1. cbn. fold (total_entry_quote c). lia.
  - intros b Hb. rewrite get_position_with. subst p1. cbn. rewrite Ha, Hm.
    rewrite decide_False; [done|]. intros [= ->]. done.
Qed.

(** C25: funding is zero-sum. When a group of accounts with no net position
    in a market (all of its holders, for instance) settles from the same
    prefix sum, the entry quotes gained and lost cancel up to less than one
    unit of truncation per account: funding neither mints nor burns quote. *)
Theorem funding_zero_sum m d accs c last :
  keyed c -> GetMarketDetails m c = Ok d -> NoDup accs ->
  (forall a, a ∈ accs -> pos_LastFundingRatePrefixSum (GetPosition a m c) = last) ->
  lsum (fun a => pos_BaseSize (GetPosition a m c)) accs = 0 ->
  exists c', forM (fun a => SettlePositionFunding a m) accs c = (Ok tt, c') /\
    Z.abs (total_entry_quote c' - total_entry_quote c) <= Z.of_nat (length accs).
Proof.
  intros Hk Hd Hnd Hlast Hnet.
  destruct (settle_group_entry m d accs c Hk Hd Hnd) as (c' & Hr & Ht).
  exists c'. split; [done|]. rewrite Ht.
  set (delta := md_FundingRatePrefixSum d - last).
  rewrite (lsum_ext _ (fun a => Z.quot (pos_BaseSize (GetPosition a m c) * delta) FundingRateTick)).
  - pose proof (funding_shares_bound ((fun a => GetPosition a m c) <$> accs) delta) as Hb.
    rewrite length_fmap, !lsum_fmap in Hb. rewrite Hnet in Hb.
    set (q := lsum _ accs) in *. unfold FundingRateTick in *. lia.
  - intros a Hin. unfold funding_pay, delta. rewrite (Hlast a Hin).
    destruct (Z.eqb_spec (pos_BaseSize (GetPosition a m c)) 0) as [->|]; [|done].
    by rewrite Z.mul_0_l.
Qed.

(** ** Mark price *)

Lemma emaStep_between prev raw dt tau reset :
  - 2 ^ 62 <= prev < 2 ^ 62 -> - 2 ^ 62 <= raw < 2 ^ 62 ->
  Z.min prev raw <= emaStep prev raw dt tau reset <= Z.max prev raw.
Proof.
  intros Hp Hr. unfold emaStep.
  destruct ((tau <=? 0) || reset || (tau <=? dt)) eqn:E1; [lia|].
  destruct (dt <=? 0) eqn:E2; [lia|]. breflect.
  rewrite (wrapi64_id (raw - prev)) by lia.
  pose proof (quot_scale (raw - prev) dt tau ltac:(lia) ltac:(lia)) as Hd.
  case_match; [lia|]. rewrite wrapi64_id; lia.
Qed.

Lemma premium_ema_band d now :
  0 < md_IndexPrice d ->
  Z.abs (premium_ema d now) <= Z.quot (md_IndexPrice d) MarkPremiumClampDivisor.
Proof.
  intros Hi. unfold premium_ema. rewrite (proj2 (Z.ltb_lt _ _) Hi).
  pose proof (quot_nonneg (md_IndexPrice d) MarkPremiumClampDivisor ltac:(lia) ltac:(done)) as H.
  match goal with |- Z.abs (clampInt ?v ?lo ?hi) <= _ =>
    pose proof (clampInt_bounds v lo hi ltac:(lia)) end. lia.
Qed.

Definition inputs_hull (lo hi : Z) (l : list Z) : Prop :=
  forall x, x ∈ l -> x <> 0 -> lo <= x <= hi.

Lemma mark_of_inputs_hull impact p1 p2 m lo hi :
  mark_of_inputs impact p1 p2 = Some m -> inputs_hull lo hi [impact; p1; p2] -> lo <= m <= hi.
Proof.
  intros Hm Hh. unfold mark_of_inputs in Hm.
  pose proof (Hh impact ltac:(set_solver)). pose proof (Hh p1 ltac:(set_solver)).
  pose proof (Hh p2 ltac:(set_solver)).
  pose proof (median3_spec impact p1 p2) as (Hmed & _).
  destruct (Z.eqb_spec impact 0), (Z.eqb_spec p1 0), (Z.eqb_spec p2 0); cbn in Hm; simplify_eq;
    try lia; (split; [apply Z.div_le_lower_bound | apply Z.div_le_upper_bound]; lia).
Qed.

(** A refreshed mark price stays within the range of its non-zero
    sources, and the index-based source stays within half a percent of the
    index, so a thin book alone cannot drag the mark away from the oracle:
    when the impact price is missing the mark is at most half a percent
    from the index or on the side of the oracle mark. *)
Theorem mark_price_within_sources i now c c' d px lo hi :
  refreshMarkPrice i now c = (Ok tt, c') -> c' <> c -> market_keyed c ->
  GetMarketDetails i c = Ok d -> GetPrice i c = Ok px ->
  0 < op_IndexPrice px < 2 ^ 32 ->
  let band := Z.quot (op_IndexPrice px) MarkPremiumClampDivisor in
  lo <= op_IndexPrice px - band -> op_IndexPrice px + band <= hi -> hi < 2 ^ 32 -> 0 <= lo ->
  inputs_hull lo hi [md_ImpactPrice d; op_MarkPrice px] ->
  exists d', GetMarketDetails i c' = Ok d' /\ lo <= md_MarkPrice d' <= hi /\
    Z.abs (md_MarkPremiumEma d') <= band /\
    md_LastMarkPriceRefreshTimestamp d' = now /\ md_IndexPrice d' = op_IndexPrice px.
Proof.
  intros Hr Hne Hk Hd Hpx Hidx band Hlo Hhi Hmax Hl0 Hh.
  unfold refreshMarkPrice in Hr. rewrite Hd, Hpx in Hr.
  rewrite (proj2 (Z.eqb_neq (op_IndexPrice px) 0)) in Hr by lia. cbn [negb] in Hr.
  set (d1 := d <| md_IndexPrice := op_IndexPrice px |>) in *.
  pose proof (premium_ema_band d1 now ltac:(cbn; lia)) as Hema.
  change (md_IndexPrice d1) with (op_IndexPrice px) in *.
  change (md_ImpactPrice d1) with (md_ImpactPrice d) in *. fold band in Hema.
  set (ema := premium_ema d1 now) in *.
  assert (clampUint32 (wrapi64 (op_IndexPrice px + ema)) = op_IndexPrice px + ema) as Hp1.
  { rewrite wrapi64_id by lia. unfold clampUint32. case_ifs; lia. }
  rewrite Hp1 in Hr.
  destruct (mark_of_inputs _ _ _) as [mark|] eqn:Hm; [|by injection Hr as <-].
  injection Hr as <-.
  assert (lo <= mark <= hi).
  { eapply mark_of_inputs_hull; [exact Hm|]. intros x Hx Hx0.
    apply elem_of_cons in Hx as [->|Hx]; [apply Hh; [set_solver|done]|].
    apply elem_of_cons in Hx as [->|Hx]; [lia|]. apply Hh; [set_solver|done]. }
  eexists. split; [|split; [|split; [|split]]]; cycle 1.
  1: instantiate (1 := d1 <| md_MarkPrice := mark |> <| md_MarkPremiumEma := ema |>
                   <| md_LastMarkPriceRefreshTimestamp := now |>). all: try done.
  unfold GetMarketDetails. cbn. apply get_details_key in Hd as <-; [|done].
  by rewrite lookup_insert_eq.
Qed.

(** ** Nonces over the life of a market

    Besides the market module's own handlers and methods only the funding
    begin-blocker writes a market's runtime record. *)

Section funding_counters.
Context (i : Z) (x : option (Z * Z)).

Lemma settleMarket_counters j params : stable (counters i x) (settleMarket j params).
Proof.
  intros c Hc. unfold settleMarket. destruct (GetMarketDetails j c) as [d|e|e|] eqn:Hd; [|exact Hc..].
  destruct (_ =? 0); [exact Hc|]. cbv zeta.
  match goal with |- counters _ _ (?m c).2 => destruct (m c) as [r c'] eqn:Hr end. by eapply set_details_counters.
Qed.

Lemma refreshMarkPrice_counters j now : stable (counters i x) (refreshMarkPrice j now).
Proof.
  intros c Hc. unfold refreshMarkPrice. destruct (GetMarketDetails j c) as [d|e|e|] eqn:Hd; [|exact Hc..].
  destruct (GetPrice j c) as [px|e|e|]; [|exact Hc..]. cbv zeta.
  destruct (mark_of_inputs _ _ _) as [mark|]; [|exact Hc].
  match goal with |- counters _ _ (?m c).2 => destruct (m c) as [r c'] eqn:Hr end.
  destruct (negb _); by eapply set_details_counters.
Qed.

Lemma store_sample_counters j now params d b a c :
  counters i x c -> GetMarketDetails j c = Ok d -> counters i x (store_sample j now params d b a c).2.
Proof.
  intros Hc Hd. destruct (store_sample j now params d b a c) as [r c'] eqn:Hr. unfold store_sample in Hr.
  destruct (GetPrice j c) as [px|e|e|]; [|by eapply set_details_counters..].
  repeat case_match; by eapply set_details_counters.
Qed.

Context `{ImpactSource}.

Lemma processMarketSample_counters j now params : stable (counters i x) (processMarketSample j now params).
Proof.
  intros c Hc. unfold processMarketSample. destruct (GetMarketDetails j c) as [d|e|e|] eqn:Hd; [|exact Hc..].
  destruct (_ && _); [exact Hc|]. unfold attempt, reads, mbind, M_bind.
  destruct (ImpactPrice j false c); try exact Hc. destruct (ImpactPrice j true c); try exact Hc.
  by apply store_sample_counters.
Qed.

Lemma Funding_BeginBlocker_counters : stable (counters i x) Funding_BeginBlocker.
Proof.
  intros c0 Hc0. unfold Funding_BeginBlocker. cbv zeta. refine (stable_bind (counters i x) _ _ _ _ c0 Hc0).
  - apply stable_forM. intros m. destruct (is_live_perps m); [|apply stable_ret].
    apply stable_bind; [apply processMarketSample_counters|]. intros _. apply refreshMarkPrice_counters.
  - intros _. destruct (_ && _); [|apply stable_ret]. apply stable_bind.
    + intros c Hc. unfold SettleAllMarkets. apply (stable_forM (counters i x)); [|exact Hc].
      intros m. destruct (is_live_perps m); [apply settleMarket_counters|apply stable_ret].
    + intros _ c Hc. by apply (counters_market i x c).
Qed.
End funding_counters.

Section nonce_history.
Context `{Env, LiquidationKeeper, !ExitHookKeepsNonces, ImpactSource}.

(** A history of one market, with the nonces handed out for it, most recent
    first. Between two allocations the messages, methods and block hooks
    that write market records run in any order, with any outcome, and
    anything runs that leaves the market store alone. *)
Inductive nonce_run (i : Z) (c0 : Chain) : list (bool * Z) -> Chain -> Prop :=
| run_start : nonce_run i c0 [] c0
| run_alloc tr c isAsk n c' :
    nonce_run i c0 tr c -> AllocateNonce i isAsk c = (Ok n, c') -> nonce_run i c0 ((isAsk, n) :: tr) c'
| run_alloc_other tr c j isAsk r c' :
    nonce_run i c0 tr c -> AllocateNonce j isAsk c = (r, c') -> (j = i -> forall n, r <> Ok n) -> nonce_run i c0 tr c'
| run_create tr c msg r c' : nonce_run i c0 tr c -> CreateMarket msg c = (r, c') -> nonce_run i c0 tr c'
| run_update tr c msg r c' : nonce_run i c0 tr c -> UpdateMarket msg c = (r, c') -> nonce_run i c0 tr c'
| run_details tr c msg r c' : nonce_run i c0 tr c -> UpdateMarketDetails msg c = (r, c') -> nonce_run i c0 tr c'
| run_params tr c auth p r c' : nonce_run i c0 tr c -> Market_UpdateParams auth p c = (r, c') -> nonce_run i c0 tr c'
| run_interest tr c j delta r c' : nonce_run i c0 tr c -> UpdateOpenInterest j delta c = (r, c') -> nonce_run i c0 tr c'
| run_end tr c r c' : nonce_run i c0 tr c -> Market_EndBlocker c = (r, c') -> nonce_run i c0 tr c'
| run_begin tr c r c' : nonce_run i c0 tr c -> Funding_BeginBlocker c = (r, c') -> nonce_run i c0 tr c'
| run_elsewhere tr c c' : nonce_run i c0 tr c -> market c' = market c -> nonce_run i c0 tr c'.

(** Where the counters stand after a trace: asks below, bids above. *)
Definition nonce_inv (i : Z) (tr : list (bool * Z)) (c : Chain) : Prop :=
  exists a b, counters i (Some (a, b)) c /\
    (forall s n, (s, n) ∈ tr -> if s : bool then n < a /\ n < b else b < n /\ a < n) /\
    Sorted.StronglySorted nonce_before tr.

Lemma nonce_inv_alloc i tr c isAsk n c' :
  nonce_inv i tr c -> AllocateNonce i isAsk c = (Ok n, c') -> nonce_inv i ((isAsk, n) :: tr) c'.
Proof.
  intros (a & b & (Hk & Hm & Hab) & Hinv & Hs) Hal.
  apply AllocateNonce_ok in Hal as (d & Hd & -> & Hlt & Hlt' & ->).
  assert (md_MarketIndex d = i) as Hi by by apply (get_details_key c).
  assert (a = md_AskNonce d /\ b = md_BidNonce d) as [-> ->].
  { apply of_option_ok in Hd. unfold nonces in Hab. rewrite Hd in Hab. cbn in Hab. by simplify_eq. }
  set (d' := if isAsk then _ else _) in *. exists (md_AskNonce d'), (md_BidNonce d'). split_and!.
  - split_and!; [by apply market_keyed_with_details|done|]. unfold nonces, with_details. cbn.
    replace (md_MarketIndex d') with i by (subst d'; by destruct isAsk). by rewrite lookup_insert_eq.
  - intros s n Hin. apply elem_of_cons in Hin as [[= -> ->]|Hin].
    + subst d'. destruct isAsk; cbn in *; lia.
    + specialize (Hinv s n Hin). subst d'. destruct isAsk, s; cbn in *; lia.
  - constructor; [done|]. apply Forall_forall. intros [s n] Hin.
    specialize (Hinv s n Hin). unfold nonce_before. destruct isAsk, s; cbn in *; lia.
Qed.

Lemma nonce_inv_counters i tr c c' :
  nonce_inv i tr c -> (forall x, counters i x c -> counters i x c') -> nonce_inv i tr c'.
Proof. intros (a & b & Hc & Hr) Hk. exists a, b. auto. Qed.

Lemma nonce_run_inv i c0 tr c x :
  nonce_run i c0 tr c -> counters i (Some x) c0 -> nonce_inv i tr c.
Proof.
  intros Hr Hinit. induction Hr as [|tr c isAsk n c' _ IH Hal|tr c j isAsk r c' _ IH Hal Hne|tr c msg r c' _ IH Hs
    |tr c msg r c' _ IH Hs|tr c msg r c' _ IH Hs|tr c auth p r c' _ IH Hs|tr c j delta r c' _ IH Hs
    |tr c r c' _ IH Hs|tr c r c' _ IH Hs|tr c c' _ IH Hs].
  - destruct x as [a b]. exists a, b. split_and!; [done| |constructor]. intros s n Hin. by apply not_elem_of_nil in Hin.
  - by eapply nonce_inv_alloc.
  - eapply nonce_inv_counters; [exact IH|]. intros y. by eapply AllocateNonce_counters.
  - eapply nonce_inv_counters; [exact IH|]. intros y. apply (stable_run _ _ _ _ _ (CreateMarket_counters i y msg) Hs).
  - eapply nonce_inv_counters; [exact IH|]. intros y. apply (stable_run _ _ _ _ _ (UpdateMarket_counters i y msg) Hs).
  - eapply nonce_inv_counters; [exact IH|]. intros y. apply (stable_run _ _ _ _ _ (UpdateMarketDetails_counters i y msg) Hs).
  - eapply nonce_inv_counters; [exact IH|]. intros y. apply (stable_run _ _ _ _ _ (Market_UpdateParams_counters i y auth p) Hs).
  - eapply nonce_inv_counters; [exact IH|]. intros y. apply (stable_run _ _ _ _ _ (UpdateOpenInterest_counters i y j delta) Hs).
  - eapply nonce_inv_counters; [exact IH|]. intros y. apply (stable_run _ _ _ _ _ (Market_EndBlocker_counters i y) Hs).
  - eapply nonce_inv_counters; [exact IH|]. intros y. apply (stable_run _ _ _ _ _ (Funding_BeginBlocker_counters i y) Hs).
  - eapply nonce_inv_counters; [exact IH|]. intros y. by apply counters_market.
Qed.

(** C27: the nonces a market hands out are unique and ordered from its
    creation on: an ask nonce is larger than every earlier ask nonce, a bid
    nonce smaller than every earlier bid nonce, and every ask nonce is below
    every bid nonce. This holds over every history, from any state in which
    the market exists, of market messages (creation, update and details of
    any market, parameters), nonce allocations and open-interest updates of
    any market, expiry end-blockers and funding begin-blockers, failed ones
    included, and of anything that leaves the market store alone. *)
Theorem nonces_ordered i c0 tr c x :
  nonce_run i c0 tr c -> counters i (Some x) c0 ->
  Sorted.StronglySorted nonce_before tr /\ NoDup tr.*2.
Proof.
  intros Hr Hinit. destruct (nonce_run_inv i c0 tr c x Hr Hinit) as (_ & _ & _ & _ & Hss).
  split; [done|]. clear Hr. induction Hss as [|[s n] tr' Hss IH Hall]; [constructor|].
  cbn. constructor; [|done].
  intros ([s' n'] & -> & Hin)%list_elem_of_fmap. rewrite Forall_forall in Hall.
  specialize (Hall _ Hin). unfold nonce_before in Hall. cbn in Hall. destruct s, s'; lia.
Qed.
End nonce_history.

(** ** Witnesses *)

(** Market 0 at mark 100 with two premium samples, and accounts 2 (long 10)
    and 3 (short 10) that have not settled the last round. *)
Definition demo_position (a size entry : Z) : AccountPosition :=
  empty_position a 0 <| pos_BaseSize := size |> <| pos_EntryQuote := entry |>.

Definition demo_perps : Chain :=
  demo_chain1 <| account := account demo_chain1
      <| ast_Accounts := list_to_map
           [(0, new_account 0 0 "treasury" 0 0 <| acc_Collateral := 50 |>);
            (2, new_account 2 0 "alice" 0 0 <| acc_Collateral := 1000 |>);
            (3, new_account 3 0 "bob" 0 0 <| acc_Collateral := 1000 |>)] |>
      <| ast_AccountPositions := list_to_map
           [((2, 0), demo_position 2 10 1000); ((3, 0), demo_position 3 (-10) (-1000))] |> |>
    <| market := market demo_chain1
      <| mst_MarketDetails := {[ 0 := demo_details
           <| md_MarkPrice := 100 |> <| md_IndexPrice := 100 |>
           <| md_LastMarkPriceRefreshTimestamp := 90 |> <| md_OpenInterest := 10 |>
           <| md_FundingRatePrefixSum := 150333 |>
           <| md_AggregatePremiumSum := 5000 |> <| md_TotalPremiumSamples := 2 |> ]} |> |>
    <| misc := misc demo_chain1
      <| xst_OraclePrices := {[ 0 := mkOraclePrice 0 200 202 99 1 1 1 ]} |> |>.

Definition demo_perps_details : MarketDetails :=
  default demo_details (mst_MarketDetails (market demo_perps) !! 0).

Lemma settle_market_bounded_witness :
  exists rate, Z.abs rate <= 5000 /\
    (settleMarket 0 (mkFundingParams 3600000 8 60) demo_perps).1 = Ok tt.
Proof.
  destruct (settle_market_bounded 0 (mkFundingParams 3600000 8 60) demo_perps demo_perps_details)
    as (rate & H1 & H2); [by_compute|vm_compute; discriminate|vm_compute; discriminate|].
  exists rate. split; [exact H1|]. by rewrite H2.
Defined.

Lemma settle_position_once_witness :
  exists c1, SettlePositionFunding 2 0 demo_perps = (Ok tt, c1) /\
    pos_EntryQuote (GetPosition 2 0 c1) = 1001.
Proof.
  destruct (settle_position_once 2 0 demo_perps demo_perps_details) as (c1 & H1 & _ & H2 & _);
    [by_decide|by_compute|].
  exists c1. split; [done|]. rewrite H2. by_compute.
Defined.

Lemma funding_zero_sum_witness :
  exists c', forM (fun a => SettlePositionFunding a 0) [2; 3] demo_perps = (Ok tt, c') /\
    Z.abs (total_entry_quote c' - total_entry_quote demo_perps) <= 2.
Proof.
  apply (funding_zero_sum 0 demo_perps_details [2; 3] demo_perps 0).
  - by_decide.
  - by_compute.
  - by_decide.
  - intros a Ha. apply elem_of_cons in Ha as [->|Ha]; [by_compute|].
    apply list_elem_of_singleton in Ha as ->. by_compute.
  - by_compute.
Defined.

Lemma mark_price_within_sources_witness :
  exists d', GetMarketDetails 0 (refreshMarkPrice 0 100 demo_perps).2 = Ok d' /\
    199 <= md_MarkPrice d' <= 202.
Proof.
  destruct (mark_price_within_sources 0 100 demo_perps (refreshMarkPrice 0 100 demo_perps).2
    demo_perps_details (mkOraclePrice 0 200 202 99 1 1 1) 199 202) as (d' & H1 & H2 & _).
  - by_compute.
  - intros E%(f_equal (fun c => mst_MarketDetails (market c) !! 0)). vm_compute in E. discriminate.
  - by_decide.
  - by_compute.
  - by_compute.
  - cbn; lia.
  - vm_compute. discriminate.
  - vm_compute. discriminate.
  - lia.
  - lia.
  - intros x Hx Hx0. apply elem_of_cons in Hx as [->|Hx]; [by vm_compute in Hx0|].
    apply list_elem_of_singleton in Hx as ->. cbn. lia.
  - eauto.
Defined.

(** Two asks; a second creation of the market is refused, its details change
    and the begin-blocker runs; then a bid. *)
Definition demo_impact : ImpactSource := {| ImpactPrice := fun _ _ _ => Ok 100 |}.
Definition demo_asks : Chain := (AllocateNonce 0 true (AllocateNonce 0 true demo_chain1).2).2.
Definition demo_recreated : Chain :=
  (@CreateMarket demo_env (mkMsgCreateMarket "gov" demo_market demo_details) demo_asks).2.
Definition demo_redetailed : Chain :=
  (@UpdateMarketDetails demo_env (mkMsgUpdateMarketDetails "gov" 0 1000 600 500 300 500 40000 100 7) demo_recreated).2.
Definition demo_begun : Chain := (@Funding_BeginBlocker demo_impact demo_redetailed).2.

Lemma nonces_ordered_witness :
  Sorted.StronglySorted nonce_before [(false, 281474976710655); (true, 2); (true, 1)].
Proof.
  apply (@nonces_ordered demo_env demo_hook demo_hook_nonces demo_impact 0 demo_chain1 _
    (AllocateNonce 0 false demo_begun).2 (FirstAskNonce, FirstBidNonce)).
  - apply (run_alloc 0 demo_chain1 _ demo_begun false); [|by_compute].
    apply (run_begin 0 demo_chain1 _ demo_redetailed) with (r := (@Funding_BeginBlocker demo_impact demo_redetailed).1);
      [|apply surjective_pairing].
    eapply (run_details 0 demo_chain1 _ demo_recreated); [|apply surjective_pairing].
    eapply (run_create 0 demo_chain1 _ demo_asks); [|apply surjective_pairing].
    apply (run_alloc 0 demo_chain1 _ (AllocateNonce 0 true demo_chain1).2 true); [|by_compute].
    apply (run_alloc 0 demo_chain1 _ demo_chain1 true); [apply run_start|by_compute].
  - by_decide.
Defined.

Example demo_redetailed_runs :
  (@UpdateMarketDetails demo_env (mkMsgUpdateMarketDetails "gov" 0 1000 600 500 300 500 40000 100 7) demo_recreated).1 = Ok tt /\
  (@CreateMarket demo_env (mkMsgCreateMarket "gov" demo_market demo_details) demo_asks).1 = Err (EMarket ErrMarketExists).
Proof. split; by_compute. Qed.
