(* ===== verification/Risk.v ===== *)
(** * The risk keeper

    [x/risk]: health classification, the cross and isolated margin
    aggregates, the pre/post comparison every state-changing handler goes
    through, the zero price of a position and the takeover simulation. *)

From S2P Require Import Prelude Constants Types PositionMath Account Market.

(** ** Risk parameters and health ([x/risk/types]) *)

Record RiskParameters := mkRiskParameters {
  rp_Collateral : Z;
  rp_CollateralWithFunding : Z;
  rp_TotalAccountValue : Z;
  rp_InitialMarginRequirement : Z;
  rp_MaintenanceMarginRequirement : Z;
  rp_CloseOutMarginRequirement : Z
}.
#[global] Instance RiskParameters_eta : Eta RiskParameters := {| eta r :=
  mkRiskParameters (rp_Collateral r) (rp_CollateralWithFunding r) (rp_TotalAccountValue r)
    (rp_InitialMarginRequirement r) (rp_MaintenanceMarginRequirement r)
    (rp_CloseOutMarginRequirement r) |}.
#[global] Instance set_rp_TotalAccountValue : Setter rp_TotalAccountValue. Proof. build_setter. Defined.
#[global] Instance set_rp_InitialMarginRequirement : Setter rp_InitialMarginRequirement. Proof. build_setter. Defined.
#[global] Instance set_rp_MaintenanceMarginRequirement : Setter rp_MaintenanceMarginRequirement. Proof. build_setter. Defined.
#[global] Instance set_rp_CloseOutMarginRequirement : Setter rp_CloseOutMarginRequirement. Proof. build_setter. Defined.

Definition HealthStatus (p : RiskParameters) : Z :=
  if rp_TotalAccountValue p <? 0 then HealthBankruptcy
  else if rp_TotalAccountValue p <? rp_CloseOutMarginRequirement p then HealthFullLiquidation
  else if rp_TotalAccountValue p <? rp_MaintenanceMarginRequirement p then HealthPartialLiquidation
  else if rp_TotalAccountValue p <? rp_InitialMarginRequirement p then HealthPreLiquidation
  else HealthHealthy.

Record PreRiskSnapshot := mkPreRiskSnapshot {
  prs_Cross : option RiskParameters;
  prs_Isolated : gmap Z RiskParameters
}.

Definition IsolatedFor (s : PreRiskSnapshot) (marketIdx : Z) : option RiskParameters :=
  prs_Isolated s !! marketIdx.

(** ** Cross margin ([cross.go]) *)

(** The callback of the position loop: the aggregate after one position. *)
Definition cross_step (c : Chain) (acc : RiskParameters) (pos : AccountPosition) : R RiskParameters :=
  if pos_BaseSize pos =? 0 then mret acc
  else if pos_MarginMode pos =? IsolatedMargin then mret acc
  else
    '(markPrice, md) ← GetMarkPriceAndDetails (pos_MarketIndex pos) c;
    mret (acc
      <| rp_InitialMarginRequirement := rp_InitialMarginRequirement acc + InitialMargin pos markPrice md |>
      <| rp_MaintenanceMarginRequirement :=
          rp_MaintenanceMarginRequirement acc + MaintenanceMargin pos markPrice md |>
      <| rp_CloseOutMarginRequirement := rp_CloseOutMarginRequirement acc + CloseOutMargin pos markPrice md |>
      <| rp_TotalAccountValue := rp_TotalAccountValue acc + UnrealizedPnL pos markPrice |>).

Definition ComputeCrossRisk (accountIdx : Z) (c : Chain) : R RiskParameters :=
  a ← GetAccount accountIdx c;
  let collateral := acc_Collateral a in
  foldM (cross_step c) (mkRiskParameters collateral collateral collateral 0 0 0)
    (IterateAccountPositions accountIdx c).

Definition GetHealthStatus (accountIdx : Z) (c : Chain) : R Z :=
  rp ← ComputeCrossRisk accountIdx c; mret (HealthStatus rp).

Definition GetTotalAccountValue (accountIdx : Z) (c : Chain) : R Z :=
  rp ← ComputeCrossRisk accountIdx c; mret (rp_TotalAccountValue rp).

Definition GetAvailableCollateral (accountIdx : Z) (c : Chain) : R Z :=
  rp ← ComputeCrossRisk accountIdx c;
  mret (rp_TotalAccountValue rp - rp_InitialMarginRequirement rp).

Definition GetAvailableUsdcCollateral (accountIdx : Z) (c : Chain) : R Z :=
  rp ← ComputeCrossRisk accountIdx c;
  if negb (HealthStatus rp =? HealthHealthy) then mret 0
  else
    let collateral := rp_CollateralWithFunding rp in
    if collateral <? 0 then mret 0
    else
      let avail := rp_TotalAccountValue rp - rp_InitialMarginRequirement rp in
      if avail <? 0 then mret 0
      else if collateral <? avail then mret collateral
      else mret avail.

(** ** Isolated margin ([isolated.go]) *)

Definition ComputeIsolatedRisk (accountIdx marketIdx : Z) (c : Chain) : R RiskParameters :=
  let pos := GetPosition accountIdx marketIdx c in
  ensure (pos_MarginMode pos =? IsolatedMargin) (EAccount ErrPositionNotIsolated);;
  '(markPrice, md) ← GetMarkPriceAndDetails marketIdx c;
  let uPnL := UnrealizedPnL pos markPrice in
  mret (mkRiskParameters (pos_AllocatedMargin pos) (pos_AllocatedMargin pos)
          (pos_AllocatedMargin pos + uPnL) (InitialMargin pos markPrice md)
          (MaintenanceMargin pos markPrice md) (CloseOutMargin pos markPrice md)).

Definition GetIsolatedHealthStatus (accountIdx marketIdx : Z) (c : Chain) : R Z :=
  let pos := GetPosition accountIdx marketIdx c in
  if (pos_BaseSize pos =? 0) || negb (pos_MarginMode pos =? IsolatedMargin) then mret HealthHealthy
  else rp ← ComputeIsolatedRisk accountIdx marketIdx c; mret (HealthStatus rp).

(** The positions the isolated loops consider. *)
Definition is_open_isolated (pos : AccountPosition) : bool :=
  negb ((pos_BaseSize pos =? 0) || negb (pos_MarginMode pos =? IsolatedMargin)).

(** [IterateIsolatedPositions] with a callback that folds over
    (market, status, parameters) and may stop. *)
Fixpoint iterate_isolated {X} (fn : X -> Z -> Z -> RiskParameters -> X * bool) (accountIdx : Z)
    (c : Chain) (x : X) (ps : list AccountPosition) : R X :=
  match ps with
  | [] => mret x
  | pos :: ps =>
      if is_open_isolated pos then
        rp ← ComputeIsolatedRisk accountIdx (pos_MarketIndex pos) c;
        let '(x', stop) := fn x (pos_MarketIndex pos) (HealthStatus rp) rp in
        if stop : bool then mret x' else iterate_isolated fn accountIdx c x' ps
      else iterate_isolated fn accountIdx c x ps
  end.

Definition IterateIsolatedPositions {X} (accountIdx : Z)
    (fn : X -> Z -> Z -> RiskParameters -> X * bool) (x : X) (c : Chain) : R X :=
  iterate_isolated fn accountIdx c x (IterateAccountPositions accountIdx c).

(** ** Risk changes ([risk_change.go]) *)

Definition classifyChange (pre : option RiskParameters) (post : RiskParameters) : bool :=
  let postClass := HealthStatus post in
  if postClass =? HealthHealthy then true
  else match pre with
  | None => false
  | Some pre =>
      let preClass := HealthStatus pre in
      if preClass <? postClass then false
      else if preClass =? HealthPreLiquidation then
        if rp_MaintenanceMarginRequirement pre <? rp_MaintenanceMarginRequirement post then false
        else if (rp_MaintenanceMarginRequirement pre =? 0)
             || (rp_MaintenanceMarginRequirement post =? 0) then true
        else
          let lhs := rp_TotalAccountValue post * rp_MaintenanceMarginRequirement pre in
          let rhs := rp_TotalAccountValue pre * rp_MaintenanceMarginRequirement post in
          negb (lhs <? rhs)
      else
        if (rp_InitialMarginRequirement post =? 0) || (rp_InitialMarginRequirement pre =? 0) then true
        else
          let lhs := rp_TotalAccountValue post * rp_InitialMarginRequirement pre in
          let rhs := rp_TotalAccountValue pre * rp_InitialMarginRequirement post in
          negb (lhs <? rhs)
  end.

Definition isCrossRiskChangeValid (accountIdx : Z) (pre : option RiskParameters) (c : Chain) : R bool :=
  post ← ComputeCrossRisk accountIdx c;
  mret (classifyChange pre post).

Definition isIsolatedRiskChangeValid (accountIdx marketIdx : Z) (pre : option RiskParameters)
    (c : Chain) : R bool :=
  postRP ← ComputeIsolatedRisk accountIdx marketIdx c;
  mret (classifyChange pre postRP).

Fixpoint isolated_changes_valid (accountIdx : Z) (pre : PreRiskSnapshot) (c : Chain)
    (ps : list AccountPosition) : R bool :=
  match ps with
  | [] => mret true
  | pos :: ps =>
      if is_open_isolated pos then
        valid ← isIsolatedRiskChangeValid accountIdx (pos_MarketIndex pos)
                  (IsolatedFor pre (pos_MarketIndex pos)) c;
        if valid : bool then isolated_changes_valid accountIdx pre c ps else mret false
      else isolated_changes_valid accountIdx pre c ps
  end.

Definition IsValidRiskChangeFrom (accountIdx : Z) (pre : PreRiskSnapshot) (c : Chain) : R bool :=
  ok ← isCrossRiskChangeValid accountIdx (prs_Cross pre) c;
  if ok : bool then isolated_changes_valid accountIdx pre c (IterateAccountPositions accountIdx c)
  else mret false.

Definition snapshot_step (accountIdx : Z) (c : Chain) (iso : gmap Z RiskParameters)
    (pos : AccountPosition) : R (gmap Z RiskParameters) :=
  if is_open_isolated pos then
    rp ← ComputeIsolatedRisk accountIdx (pos_MarketIndex pos) c;
    mret (<[pos_MarketIndex pos := rp]> iso)
  else mret iso.

Definition SnapshotRisk (accountIdx : Z) (c : Chain) : R PreRiskSnapshot :=
  cross ← ComputeCrossRisk accountIdx c;
  iso ← foldM (snapshot_step accountIdx c) ∅ (IterateAccountPositions accountIdx c);
  mret (mkPreRiskSnapshot (Some cross) iso).

(** ** Zero price ([liquidation.go]) *)

Definition quoTowardZero (num denom : Z) : Z :=
  if denom =? 0 then 0 else Z.quot num denom.

Definition pureComputeZeroPrice (pos : AccountPosition) (markPrice : Z) (md : MarketDetails)
    (tav mmr : Z) : Z :=
  if (pos_BaseSize pos =? 0) || (markPrice =? 0) then 0
  else if mmr =? 0 then markPrice
  else
    let mi := md_MaintenanceMarginFraction md in
    let num := markPrice * mi * tav in
    let denom := mmr * MarginTick in
    let adjustment := quoTowardZero num denom in
    let zp := if IsShort pos then markPrice + adjustment else markPrice - adjustment in
    if (zp <? 0) || (zp =? 0) then 1
    else if MaxOrderPrice <? zp then MaxOrderPrice
    else zp.

Record LiquidationRiskSnapshot := mkLiquidationRiskSnapshot {
  lrs_Position : AccountPosition;
  lrs_MarkPrice : Z;
  lrs_MarketDetails : option MarketDetails;
  lrs_Risk : option RiskParameters;
  lrs_CrossRisk : option RiskParameters;
  lrs_ZeroPrice : Z
}.

(** The zero-value fields of a closed position's snapshot are [None]. *)
Definition GetLiquidationRiskSnapshot (accountIdx marketIdx : Z) (c : Chain)
  : R LiquidationRiskSnapshot :=
  let pos := GetPosition accountIdx marketIdx c in
  if pos_BaseSize pos =? 0 then mret (mkLiquidationRiskSnapshot pos 0 None None None 0)
  else
    '(markPrice, md) ← GetMarkPriceAndDetails marketIdx c;
    crossRP ← ComputeCrossRisk accountIdx c;
    risk ← (if pos_MarginMode pos =? IsolatedMargin
            then ComputeIsolatedRisk accountIdx marketIdx c else mret crossRP);
    let zp := pureComputeZeroPrice pos markPrice md (rp_TotalAccountValue risk)
                (rp_MaintenanceMarginRequirement risk) in
    mret (mkLiquidationRiskSnapshot pos markPrice (Some md) (Some risk) (Some crossRP) zp).

Definition GetZeroPriceSnapshot (accountIdx marketIdx : Z) (c : Chain) : R (AccountPosition * Z) :=
  let pos := GetPosition accountIdx marketIdx c in
  if pos_BaseSize pos =? 0 then mret (pos, 0)
  else
    '(markPrice, md) ← GetMarkPriceAndDetails marketIdx c;
    risk ← (if pos_MarginMode pos =? IsolatedMargin
            then ComputeIsolatedRisk accountIdx marketIdx c
            else ComputeCrossRisk accountIdx c);
    let zp := pureComputeZeroPrice pos markPrice md (rp_TotalAccountValue risk)
                (rp_MaintenanceMarginRequirement risk) in
    mret (pos, zp).

Definition GetPositionZeroPrice (accountIdx marketIdx : Z) (c : Chain) : R Z :=
  snap ← GetZeroPriceSnapshot accountIdx marketIdx c; mret snap.2.

(** ** Takeover simulation ([liquidation.go]) *)

Definition sub_position (cur : RiskParameters) (pos : AccountPosition) (markPrice : Z)
    (md : MarketDetails) : RiskParameters :=
  if pos_BaseSize pos =? 0 then cur
  else cur
    <| rp_InitialMarginRequirement := rp_InitialMarginRequirement cur - InitialMargin pos markPrice md |>
    <| rp_MaintenanceMarginRequirement :=
        rp_MaintenanceMarginRequirement cur - MaintenanceMargin pos markPrice md |>
    <| rp_CloseOutMarginRequirement := rp_CloseOutMarginRequirement cur - CloseOutMargin pos markPrice md |>
    <| rp_TotalAccountValue := rp_TotalAccountValue cur - UnrealizedPnL pos markPrice |>.

Definition add_position (cur : RiskParameters) (pos : AccountPosition) (markPrice : Z)
    (md : MarketDetails) : RiskParameters :=
  if pos_BaseSize pos =? 0 then cur
  else cur
    <| rp_InitialMarginRequirement := rp_InitialMarginRequirement cur + InitialMargin pos markPrice md |>
    <| rp_MaintenanceMarginRequirement :=
        rp_MaintenanceMarginRequirement cur + MaintenanceMargin pos markPrice md |>
    <| rp_CloseOutMarginRequirement := rp_CloseOutMarginRequirement cur + CloseOutMargin pos markPrice md |>
    <| rp_TotalAccountValue := rp_TotalAccountValue cur + UnrealizedPnL pos markPrice |>.

Definition pureApplySimulatedTakeover (pos : AccountPosition) (current : RiskParameters)
    (markPrice : Z) (md : MarketDetails) (delta entryPrice : Z) : RiskParameters :=
  if delta =? 0 then current
  else
    let cur := sub_position current pos markPrice md in
    let newPos := fr_Position (ApplyFill pos delta entryPrice) in
    add_position cur newPos markPrice md.

Definition SimulateRiskAfterTakeover (accountIdx marketIdx delta entryPrice : Z) (c : Chain)
  : R RiskParameters :=
  cur ← ComputeCrossRisk accountIdx c;
  if delta =? 0 then mret cur
  else
    let pos := GetPosition accountIdx marketIdx c in
    ensure (negb (pos_MarginMode pos =? IsolatedMargin)) (EAccount ErrInvalidMarginMode);;
    '(markPrice, md) ← GetMarkPriceAndDetails marketIdx c;
    mret (pureApplySimulatedTakeover pos cur markPrice md delta entryPrice).

(** ** The cross aggregate as sums over positions *)

(** A position counts in the cross aggregate when it is open and cross. *)
Definition in_cross (pos : AccountPosition) : bool :=
  negb (pos_BaseSize pos =? 0) && negb (pos_MarginMode pos =? IsolatedMargin).

Definition contrib (f : AccountPosition -> Z -> MarketDetails -> Z) (c : Chain)
    (pos : AccountPosition) : Z :=
  if in_cross pos then
    match GetMarkPriceAndDetails (pos_MarketIndex pos) c with
    | Ok (p, md) => f pos p md
    | _ => 0
    end
  else 0.

Definition priced (c : Chain) (pos : AccountPosition) : Prop :=
  in_cross pos = true -> exists p md, GetMarkPriceAndDetails (pos_MarketIndex pos) c = Ok (p, md).

Definition uPnL_of (pos : AccountPosition) (p : Z) (_ : MarketDetails) : Z := UnrealizedPnL pos p.

Definition plus_contribs (c : Chain) (acc : RiskParameters) (ps : list AccountPosition)
  : RiskParameters :=
  mkRiskParameters (rp_Collateral acc) (rp_CollateralWithFunding acc)
    (rp_TotalAccountValue acc + lsum (contrib uPnL_of c) ps)
    (rp_InitialMarginRequirement acc + lsum (contrib InitialMargin c) ps)
    (rp_MaintenanceMarginRequirement acc + lsum (contrib MaintenanceMargin c) ps)
    (rp_CloseOutMarginRequirement acc + lsum (contrib CloseOutMargin c) ps).

Lemma RiskParameters_eq a1 a2 a3 a4 a5 a6 b1 b2 b3 b4 b5 b6 :
  a1 = b1 -> a2 = b2 -> a3 = b3 -> a4 = b4 -> a5 = b5 -> a6 = b6 ->
  mkRiskParameters a1 a2 a3 a4 a5 a6 = mkRiskParameters b1 b2 b3 b4 b5 b6.
Proof. congruence. Qed.

Lemma cross_step_spec c acc pos rp :
  cross_step c acc pos = Ok rp <-> priced c pos /\ rp = plus_contribs c acc [pos].
Proof.
  unfold cross_step, priced, plus_contribs. cbn [lsum]. unfold contrib, in_cross, uPnL_of.
  destruct (Z.eqb_spec (pos_BaseSize pos) 0); [|destruct (Z.eqb_spec (pos_MarginMode pos) IsolatedMargin)];
    cbn [negb andb lsum].
  1, 2: split; [intros <-%res_ret_ok; split; [done|]; destruct acc; apply RiskParameters_eq; cbn; lia
               | intros [_ ->]; destruct acc; cbn; by rewrite !Z.add_0_r].
  rewrite res_bind_ok. split.
  - intros ([p md] & Hm & <-%res_ret_ok). split; [eauto|]. rewrite Hm.
    apply RiskParameters_eq; cbn; lia.
  - intros [Hp ->]. destruct (Hp eq_refl) as (p & md & Hm). exists (p, md). split; [done|].
    rewrite Hm. apply res_ret_ok, RiskParameters_eq; cbn; lia.
Qed.

Lemma foldM_cross_spec c ps acc rp :
  foldM (cross_step c) acc ps = Ok rp <-> Forall (priced c) ps /\ rp = plus_contribs c acc ps.
Proof.
  revert acc. induction ps as [|pos ps IH]; intros acc.
  - cbn. split; [intros [= <-]|intros [_ ->]].
    + split; [constructor|]. destruct acc; apply RiskParameters_eq; cbn; lia.
    + f_equal. destruct acc; apply RiskParameters_eq; cbn; lia.
  - cbn [foldM]. rewrite res_bind_ok. rewrite Forall_cons. split.
    + intros (acc' & [Hp ->]%cross_step_spec & [Hps ->]%IH). split; [done|].
      apply RiskParameters_eq; cbn; lia.
    + intros [[Hp Hps] ->]. exists (plus_contribs c acc [pos]). rewrite cross_step_spec, IH.
      split; [done|]. split; [done|]. apply RiskParameters_eq; cbn; lia.
Qed.

Lemma ComputeCrossRisk_spec a c rp :
  ComputeCrossRisk a c = Ok rp <->
  exists acct, GetAccount a c = Ok acct /\ Forall (priced c) (IterateAccountPositions a c) /\
    let k := acc_Collateral acct in
    rp = plus_contribs c (mkRiskParameters k k k 0 0 0) (IterateAccountPositions a c).
Proof.
  unfold ComputeCrossRisk. rewrite res_bind_ok. split.
  - intros (acct & Ha & [Hp Hr]%foldM_cross_spec). eauto.
  - intros (acct & Ha & Hp & Hr). exists acct. split; [done|]. by apply foldM_cross_spec.
Qed.

Lemma elem_of_positions a c p :
  p ∈ IterateAccountPositions a c <-> exists m, ast_AccountPositions (account c) !! (a, m) = Some p.
Proof.
  unfold IterateAccountPositions. rewrite list_elem_of_fmap. split.
  - intros ([[a' m] p'] & -> & [Ha Hin]%list_elem_of_filter). cbn in *. subst.
    exists m. by apply elem_of_rows.
  - intros [m Hm]. exists ((a, m), p). split; [done|]. apply list_elem_of_filter. split; [done|].
    by apply elem_of_rows.
Qed.

Lemma lsum_filter {A} (f : A -> Z) (P : A -> Prop) `{!forall x, Decision (P x)} l :
  lsum f (filter P l) = lsum (fun x => if decide (P x) then f x else 0) l.
Proof.
  induction l as [|x l IH]; [done|]. rewrite filter_cons. cbn.
  destruct (decide (P x)); cbn; lia.
Qed.

(** A sum over an account's positions as a sum over the whole table. *)
Lemma positions_sum (f : AccountPosition -> Z) a c :
  keyed c ->
  lsum f (IterateAccountPositions a c) =
  msum (fun p => if pos_AccountIndex p =? a then f p else 0) (ast_AccountPositions (account c)).
Proof.
  intros (_ & Hk & _). unfold IterateAccountPositions, msum.
  rewrite lsum_fmap, lsum_filter. rewrite (lsum_perm _ _ _ (rows_perm _)).
  apply lsum_ext. intros [k p] Hin%elem_of_map_to_list. apply Hk in Hin. subst k. cbn.
  case_decide; [by rewrite (proj2 (Z.eqb_eq _ _))|by rewrite (proj2 (Z.eqb_neq _ _))].
Qed.

(** Writing one position changes the sums of its account by that row. *)
Lemma positions_sum_with (f : AccountPosition -> Z) a m p c :
  keyed c -> pos_AccountIndex p = a -> pos_MarketIndex p = m -> f (empty_position a m) = 0 ->
  lsum f (IterateAccountPositions a (with_position p c)) =
  lsum f (IterateAccountPositions a c) - f (GetPosition a m c) + f p.
Proof.
  intros Hk Ha Hm H0. rewrite !positions_sum by auto.
  rewrite (psum_with_position _ c p a m); [|done..|].
  - destruct (get_position_key c a m Hk) as [-> _]. rewrite Ha, Z.eqb_refl. done.
  - destruct (_ =? a); [done|done].
Qed.

Lemma contrib_with_position f c p : contrib f (with_position p c) = contrib f c.
Proof. done. Qed.

Lemma contrib_empty f c a m : contrib f c (empty_position a m) = 0.
Proof. done. Qed.

(** The simulated aggregate in terms of contributions. *)
Lemma takeover_contribs c pos cur p md delta price :
  pos_MarginMode pos <> IsolatedMargin -> delta <> 0 ->
  GetMarkPriceAndDetails (pos_MarketIndex pos) c = Ok (p, md) ->
  let new := fr_Position (ApplyFill pos delta price) in
  pureApplySimulatedTakeover pos cur p md delta price =
  mkRiskParameters (rp_Collateral cur) (rp_CollateralWithFunding cur)
    (rp_TotalAccountValue cur - contrib uPnL_of c pos + contrib uPnL_of c new)
    (rp_InitialMarginRequirement cur - contrib InitialMargin c pos + contrib InitialMargin c new)
    (rp_MaintenanceMarginRequirement cur - contrib MaintenanceMargin c pos + contrib MaintenanceMargin c new)
    (rp_CloseOutMarginRequirement cur - contrib CloseOutMargin c pos + contrib CloseOutMargin c new).
Proof.
  intros Hmode Hd Hm new. unfold pureApplySimulatedTakeover.
  rewrite (proj2 (Z.eqb_neq delta 0) Hd). fold new.
  assert (pos_MarginMode new = pos_MarginMode pos /\ pos_MarketIndex new = pos_MarketIndex pos) as [E1 E2] by done.
  clearbody new. unfold sub_position, add_position, contrib, in_cross, uPnL_of. rewrite E1, E2, Hm.
  rewrite (proj2 (Z.eqb_neq _ _) Hmode).
  destruct (pos_BaseSize pos =? 0), (pos_BaseSize new =? 0); cbn [negb andb];
    destruct cur; apply RiskParameters_eq; cbn; lia.
Qed.

(** C33: the takeover preview is exact: simulating a fill returns what a full
    recomputation of the account's cross risk returns once the filled
    position is stored, for increases, decreases, closes and flips alike
    (collateral movements of the fill apart). *)
Theorem takeover_simulation_exact a m delta price c rp :
  keyed c -> delta <> 0 ->
  SimulateRiskAfterTakeover a m delta price c = Ok rp ->
  ComputeCrossRisk a (with_position (fr_Position (ApplyFill (GetPosition a m c) delta price)) c) = Ok rp.
Proof.
  intros Hk Hd H. unfold SimulateRiskAfterTakeover in H.
  rewrite (proj2 (Z.eqb_neq delta 0) Hd) in H. inv_ok. destruct x1 as [p md]. inv_ok. breflect.
  match goal with H : ComputeCrossRisk a c = Ok _ |- _ =>
    apply ComputeCrossRisk_spec in H as (acct & Ha & Hps & Hcur) end.
  destruct (get_position_key c a m Hk) as [Hpa Hpm].
  set (pos := GetPosition a m c) in *. set (new := fr_Position (ApplyFill pos delta price)) in *.
  apply ComputeCrossRisk_spec. exists acct. split; [done|]. split.
  - apply Forall_forall. intros q Hq. apply elem_of_positions in Hq as [n Hq].
    cbn in Hq. change (priced c q). rewrite Hpa, Hpm in Hq.
    apply lookup_insert_Some in Hq as [[_ <-]|[_ Hq]].
    + intros _. exists p, md. by replace (pos_MarketIndex new) with m.
    + rewrite Forall_forall in Hps. apply Hps. apply elem_of_positions. eauto.
  - subst rp. rewrite <- Hpm in H2. rewrite (takeover_contribs c pos x p md delta price) by done.
    cbv zeta in Hcur. rewrite Hcur. fold new. unfold plus_contribs.
    rewrite !contrib_with_position, !(positions_sum_with _ a m new c) by done.
    fold pos. apply RiskParameters_eq; cbn; lia.
Qed.

(** ** Requirements are nested *)

(** What [validateMarketDetailsStatics] and the unsigned fields give. *)
Definition details_ok (d : MarketDetails) : Prop :=
  0 <= md_CloseOutMarginFraction d /\ 0 <= md_MarkPrice d /\
  validMarginChain (md_DefaultInitialMarginFraction d) (md_MinInitialMarginFraction d)
    (md_MaintenanceMarginFraction d) (md_CloseOutMarginFraction d) = true.

Definition markets_ok (c : Chain) : Prop :=
  map_Forall (fun _ d => details_ok d) (mst_MarketDetails (market c)).
#[global] Instance markets_ok_dec c : Decision (markets_ok c).
Proof. apply _. Defined.

Lemma validMarginChain_ok di mi mm co :
  validMarginChain di mi mm co = true <-> mi <= di /\ mm < di /\ co < mm.
Proof. unfold validMarginChain. case_ifs; split; (lia || done). Qed.

Lemma margin_requirements_nested pos p md :
  details_ok md -> 0 <= p ->
  0 <= CloseOutMargin pos p md <= MaintenanceMargin pos p md /\
  MaintenanceMargin pos p md <= InitialMargin pos p md.
Proof.
  intros (Hc & _ & (_ & Hmi & Hcm)%validMarginChain_ok) Hp.
  unfold CloseOutMargin, MaintenanceMargin, InitialMargin, MarginRequirement, MarketInitialMargin, Notional.
  destruct (Z.eqb_spec (pos_BaseSize pos) 0) as [E|]; [rewrite E|];
    [cbn; case_ifs; lia|].
  rewrite (proj2 (Z.eqb_neq (Z.abs (pos_BaseSize pos)) 0)) by lia.
  destruct (Z.eqb_spec p 0); [cbn; case_ifs; lia|]. cbn [orb].
  set (nt := Z.abs (pos_BaseSize pos) * p). assert (0 < nt) by (unfold nt; nia).
  rewrite (proj2 (Z.eqb_neq nt 0)) by lia.
  rewrite (proj2 (Z.eqb_neq (md_MaintenanceMarginFraction md) 0)) by lia.
  rewrite (proj2 (Z.eqb_neq (md_DefaultInitialMarginFraction md) 0)) by lia.
  assert (0 <= Z.quot (nt * md_CloseOutMarginFraction md) MarginTick) by (apply quot_nonneg; [nia|done]).
  assert (Z.quot (nt * md_CloseOutMarginFraction md) MarginTick
          <= Z.quot (nt * md_MaintenanceMarginFraction md) MarginTick) by (apply quot_mono; [done|nia]).
  assert (Z.quot (nt * md_MaintenanceMarginFraction md) MarginTick
          <= Z.quot (nt * md_DefaultInitialMarginFraction md) MarginTick) by (apply quot_mono; [done|nia]).
  case_match; lia.
Qed.

Lemma contribs_nested c ps :
  markets_ok c ->
  0 <= lsum (contrib CloseOutMargin c) ps <= lsum (contrib MaintenanceMargin c) ps /\
  lsum (contrib MaintenanceMargin c) ps <= lsum (contrib InitialMargin c) ps.
Proof.
  intros Hc. induction ps as [|pos ps IH]; [done|]. cbn [lsum].
  assert (0 <= contrib CloseOutMargin c pos <= contrib MaintenanceMargin c pos /\
          contrib MaintenanceMargin c pos <= contrib InitialMargin c pos); [|lia].
  unfold contrib. destruct (in_cross pos); [|lia].
  destruct (GetMarkPriceAndDetails _ c) as [[p md]|e| |] eqn:Hm; [|lia..].
  apply GetMarkPriceAndDetails_ok in Hm as (Hd & -> & _).
  apply margin_requirements_nested; [by apply (Hc _ _ Hd)|]. apply (Hc _ _ Hd).
Qed.

Lemma cross_requirements_nested a c rp :
  ComputeCrossRisk a c = Ok rp -> markets_ok c ->
  0 <= rp_CloseOutMarginRequirement rp <= rp_MaintenanceMarginRequirement rp /\
  rp_MaintenanceMarginRequirement rp <= rp_InitialMarginRequirement rp.
Proof.
  intros (acct & _ & _ & Hrp)%ComputeCrossRisk_spec Hc.
  pose proof (contribs_nested c (IterateAccountPositions a c) Hc) as Hn.
  cbv zeta in Hrp; subst rp; cbn; lia.
Qed.

(** C26: the requirements of an account are nested, close-out within
    maintenance within initial margin, so the health classes are ordered
    thresholds of the account value: an account is healthy exactly when its
    value covers the initial margin, liquidatable exactly below maintenance,
    fully liquidatable below close-out and bankrupt below zero. *)
Theorem health_thresholds a c rp :
  ComputeCrossRisk a c = Ok rp -> markets_ok c ->
  let tav := rp_TotalAccountValue rp in
  0 <= rp_CloseOutMarginRequirement rp <= rp_MaintenanceMarginRequirement rp /\
  rp_MaintenanceMarginRequirement rp <= rp_InitialMarginRequirement rp /\
  (HealthStatus rp = HealthHealthy <-> rp_InitialMarginRequirement rp <= tav) /\
  (HealthPartialLiquidation <= HealthStatus rp <-> tav < rp_MaintenanceMarginRequirement rp) /\
  (HealthFullLiquidation <= HealthStatus rp <-> tav < rp_CloseOutMarginRequirement rp) /\
  (HealthStatus rp = HealthBankruptcy <-> tav < 0).
Proof.
  intros Hrp Hc tav. destruct (cross_requirements_nested a c rp Hrp Hc) as [H1 H2].
  split_and!; [lia..| | | |]; unfold HealthStatus, tav, HealthHealthy, HealthPartialLiquidation,
    HealthFullLiquidation, HealthBankruptcy, HealthPreLiquidation; case_ifs; lia.
Qed.

(** ** Accepted changes *)

Lemma HealthStatus_range rp : HealthHealthy <= HealthStatus rp <= HealthBankruptcy.
Proof. unfold HealthStatus, HealthHealthy, HealthBankruptcy. case_ifs; done. Qed.

Lemma classifyChange_ok pre post :
  classifyChange (Some pre) post = true ->
  HealthStatus post = HealthHealthy \/ HealthStatus post <= HealthStatus pre.
Proof.
  unfold classifyChange. destruct (Z.eqb_spec (HealthStatus post) HealthHealthy); [auto|].
  destruct (Z.ltb_spec (HealthStatus pre) (HealthStatus post)); [done|]. right. lia.
Qed.

(** One accepted pre/post comparison. *)
Definition accepted (pre post : RiskParameters) : Prop := classifyChange (Some pre) post = true.

(** A sequence of accepted risk changes never moves an account to a
    worse health class; in particular an account that starts healthy can
    only become unhealthy through prices, never through its own actions. *)
Theorem accepted_never_degrades pre post :
  rtc accepted pre post ->
  HealthStatus post <= HealthStatus pre /\
  (HealthStatus pre = HealthHealthy -> HealthStatus post = HealthHealthy).
Proof.
  intros Hr. assert (HealthStatus post <= HealthStatus pre) as Hle.
  { induction Hr as [|x y z Hxy _ IH]; [lia|].
    pose proof (HealthStatus_range x). apply classifyChange_ok in Hxy. lia. }
  split; [done|]. intros Hp. pose proof (HealthStatus_range post). lia.
Qed.

(** The comparison is vacuous once an account holds no open position:
    with zero requirements any change of a bankrupt account is accepted, also
    one that makes its negative value worse. *)
Lemma bankrupt_flat_change_accepted pre post :
  rp_TotalAccountValue pre < 0 -> rp_TotalAccountValue post < 0 ->
  rp_InitialMarginRequirement post = 0 ->
  classifyChange (Some pre) post = true.
Proof.
  intros H1 H2 H3. unfold classifyChange, HealthStatus.
  rewrite (proj2 (Z.ltb_lt _ _) H1), (proj2 (Z.ltb_lt _ _) H2), H3. done.
Qed.

(** ** Collateral moves *)

Lemma ComputeCrossRisk_add_collateral a x c c' rp :
  AddCollateral a x c = (Ok tt, c') -> ComputeCrossRisk a c = Ok rp -> keyed c ->
  ComputeCrossRisk a c' = Ok (mkRiskParameters (rp_Collateral rp + x) (rp_CollateralWithFunding rp + x)
    (rp_TotalAccountValue rp + x) (rp_InitialMarginRequirement rp)
    (rp_MaintenanceMarginRequirement rp) (rp_CloseOutMarginRequirement rp)).
Proof.
  intros (acct & Ha & ->)%AddCollateral_ok (acct' & Ha' & Hp & Hrp)%ComputeCrossRisk_spec (Hk & _).
  assert (acct' = acct) as -> by congruence.
  apply ComputeCrossRisk_spec. eexists. split; [|split; [exact Hp|]].
  - rewrite get_account_with. cbn. apply of_option_ok in Ha. rewrite (Hk _ _ Ha).
    by rewrite decide_True.
  - cbv zeta in *. subst rp.
    match goal with |- _ = plus_contribs ?d ?k (IterateAccountPositions a ?d) =>
      change (plus_contribs d k (IterateAccountPositions a d))
        with (plus_contribs c k (IterateAccountPositions a c)) end.
    apply RiskParameters_eq; cbn; lia.
Qed.

(** C34: the headroom reported for funding an isolated allocation is safe:
    taking any part of it out of the cross collateral leaves the account
    healthy with non-negative collateral. *)
Theorem available_usdc_is_safe a x avail c c' :
  GetAvailableUsdcCollateral a c = Ok avail -> 0 < x <= avail -> keyed c -> markets_ok c ->
  AddCollateral a (- x) c = (Ok tt, c') ->
  GetHealthStatus a c' = Ok HealthHealthy /\
  exists rp', ComputeCrossRisk a c' = Ok rp' /\ 0 <= rp_Collateral rp'.
Proof.
  intros Hav Hx Hk Hm Hadd. unfold GetAvailableUsdcCollateral in Hav. inv_ok.
  pose proof (ComputeCrossRisk_add_collateral _ _ _ _ _ Hadd H Hk) as Hp.
  assert (rp_Collateral x0 = rp_CollateralWithFunding x0) as Hcol.
  { apply ComputeCrossRisk_spec in H as (? & _ & _ & ->). done. }
  apply cross_requirements_nested in H; [|done].
  unfold GetHealthStatus. rewrite Hp. cbn [mbind res_bind].
  repeat (case_match; inv_ok; breflect; try lia).
  all: split; [|eexists; split; [done|cbn; lia]].
  all: apply res_ret_ok; unfold HealthStatus; cbn; case_ifs; (done || lia).
Qed.

(** ** Zero price *)

(** The zero price of an open position is a valid order price; for a
    solvent account it is at or below the mark for a long and at or above it
    for a short, so closing there is never better for the account than
    closing at the mark. *)
Theorem zero_price_range pos mark md tav mmr :
  pos_BaseSize pos <> 0 -> 0 < mark <= MaxOrderPrice ->
  let zp := pureComputeZeroPrice pos mark md tav mmr in
  1 <= zp <= MaxOrderPrice /\
  (0 <= tav -> 0 <= mmr -> 0 <= md_MaintenanceMarginFraction md ->
   if IsShort pos then mark <= zp else zp <= mark).
Proof.
  intros Hs Hm. unfold pureComputeZeroPrice.
  rewrite (proj2 (Z.eqb_neq _ _) Hs), (proj2 (Z.eqb_neq mark 0)) by lia. cbn [orb].
  destruct (Z.eqb_spec mmr 0) as [->|Hmmr]; [cbn; destruct (IsShort pos); lia|].
  set (adj := quoTowardZero _ _).
  assert (0 <= tav -> 0 <= mmr -> 0 <= md_MaintenanceMarginFraction md -> 0 <= adj) as Hadj.
  { intros. unfold adj, quoTowardZero. case_match; [lia|].
    apply quot_nonneg; [|unfold MarginTick; lia]. apply Z.mul_nonneg_nonneg; nia. }
  clearbody adj. cbn. destruct (IsShort pos); case_ifs; lia.
Qed.

(** ** Witnesses *)

Definition risk_demo : Chain :=
  demo_chain1 <| account := account demo_chain1
      <| ast_Accounts := list_to_map
           [(2, new_account 2 0 "alice" 0 0 <| acc_Collateral := 1000 |>)] |>
      <| ast_AccountPositions := list_to_map
           [((2, 0), empty_position 2 0 <| pos_BaseSize := 10 |> <| pos_EntryQuote := 900 |>)] |> |>
    <| market := market demo_chain1
      <| mst_MarketDetails := {[ 0 := demo_details
           <| md_MarkPrice := 100 |> <| md_LastMarkPriceRefreshTimestamp := 90 |> ]} |> |>.

Definition risk_demo_rp : RiskParameters := mkRiskParameters 1000 1000 1100 100 50 30.

Lemma takeover_simulation_exact_witness :
  ComputeCrossRisk 2 (with_position
    (fr_Position (ApplyFill (GetPosition 2 0 risk_demo) (-15) 110)) risk_demo)
  = Ok (mkRiskParameters 1000 1000 1050 50 25 15).
Proof.
  apply (takeover_simulation_exact 2 0 (-15) 110 risk_demo); [by_decide|lia|by_compute].
Defined.

Lemma health_thresholds_witness : HealthStatus risk_demo_rp = HealthHealthy.
Proof.
  apply (health_thresholds 2 risk_demo risk_demo_rp); [by_compute|by_decide|cbn; lia].
Defined.

Lemma accepted_never_degrades_witness :
  HealthStatus (mkRiskParameters 0 0 45 80 40 30) <= HealthStatus (mkRiskParameters 0 0 45 100 50 30).
Proof.
  apply (accepted_never_degrades (mkRiskParameters 0 0 45 100 50 30)). apply rtc_once. by_compute.
Defined.

Lemma available_usdc_is_safe_witness :
  GetHealthStatus 2 (AddCollateral 2 (-400) risk_demo).2 = Ok HealthHealthy.
Proof.
  apply (available_usdc_is_safe 2 400 1000 risk_demo);
    [by_compute|lia|by_decide|by_decide|by_compute].
Defined.

Lemma zero_price_range_witness :
  1 <= pureComputeZeroPrice (GetPosition 2 0 risk_demo) 100 demo_details 40 50 <= MaxOrderPrice.
Proof.
  apply (zero_price_range (GetPosition 2 0 risk_demo) 100 demo_details 40 50);
    [vm_compute; discriminate|unfold MaxOrderPrice; lia].
Defined.
