(* ===== verification/Trade.v ===== *)
(** * The trade engine

    [x/trade]: the perp pipeline ([keeper/perp/engine.go], [position.go],
    [cross.go], [isolated.go], [math.go]) that applies one fill to a maker
    and a taker, and the spot settlement ([keeper/spot.go]). *)

From S2P Require Import Prelude Constants Types PositionMath Account Market Oracle Funding Risk.

(** ** Fills *)

Record Fill := mkFill {
  f_MakerAccountIndex : Z;
  f_TakerAccountIndex : Z;
  f_MarketIndex : Z;
  f_Price : Z;
  f_BaseAmount : Z;
  f_IsTakerAsk : bool;
  f_TakerFee : Z;
  f_MakerFee : Z;
  f_NoFee : bool;
  f_NoRiskCheck : bool;
  f_SkipMakerRiskCheck : bool;
  f_SkipTakerRiskCheck : bool;
  f_ZeroPrice : Z;
  f_LiquidationFeeBps : Z;
  f_LiquidationFeeRecipient : Z
}.

(** ** Position change ([position.go]) *)

Record positionChangeResult := mkPositionChangeResult {
  pcr_AccountIdx : Z;
  pcr_MarketIdx : Z;
  pcr_Old : AccountPosition;
  pcr_New : AccountPosition;
  pcr_OIDelta : Z;
  pcr_SideFlipped : bool;
  pcr_RealizedPnL : Z
}.
#[global] Instance positionChangeResult_eta : Eta positionChangeResult := {| eta r :=
  mkPositionChangeResult (pcr_AccountIdx r) (pcr_MarketIdx r) (pcr_Old r) (pcr_New r)
    (pcr_OIDelta r) (pcr_SideFlipped r) (pcr_RealizedPnL r) |}.
#[global] Instance set_pcr_New : Setter pcr_New. Proof. build_setter. Defined.

Definition isWithinPositionBounds (position entryQuote : Z) : bool :=
  if MaxPositionSize <? Z.abs position then false
  else if MaxEntryQuote <? Z.abs entryQuote then false
  else true.

(** The mutation of [applyPositionChange]'s callback. *)
Definition fill_mut (price baseAmount sign : Z) (pos : AccountPosition)
  : R (AccountPosition * (AccountPosition * FillResult)) :=
  let delta := baseAmount * sign in
  let fill := ApplyFill pos delta price in
  let pos' := pos <| pos_BaseSize := pos_BaseSize (fr_Position fill) |>
                  <| pos_EntryQuote := pos_EntryQuote (fr_Position fill) |> in
  ensure (isWithinPositionBounds (pos_BaseSize pos') (pos_EntryQuote pos'))
    (ETrade errPositionOutOfBounds);;
  mret (pos', (pos, fill)).

Definition applyPositionChange (accountIdx marketIdx price baseAmount sign : Z)
  : K positionChangeResult :=
  '(updated, (old, fill)) ← UpdatePosition accountIdx marketIdx (fill_mut price baseAmount sign);
  oiDelta ← lift (to_int64 (Z.abs (pos_BaseSize updated) - Z.abs (pos_BaseSize old)));
  mret (mkPositionChangeResult accountIdx marketIdx old updated oiDelta
          (fr_SideFlipped fill) (fr_RealizedPnL fill)).

(** ** Cross margin ([cross.go]) *)

Definition crossAddCollateral (accountIdx delta : Z) : K unit := AddCollateral accountIdx delta.

Definition crossDebit (accountIdx amount : Z) : K unit :=
  if amount =? 0 then mret tt else AddCollateral accountIdx (- amount).

Definition applyCrossAccount (res : positionChangeResult) (fee : Z) (isMaker : bool) (liqFee : Z)
  : K unit :=
  let delta := if negb (fee =? 0) then pcr_RealizedPnL res - fee else pcr_RealizedPnL res in
  (if negb (delta =? 0) then crossAddCollateral (pcr_AccountIdx res) delta else mret tt);;
  if isMaker && (0 <? liqFee) then crossDebit (pcr_AccountIdx res) liqFee else mret tt.

(** ** Isolated margin ([isolated.go], [math.go]) *)

Definition ceilDivPositive (num den : Z) : Z :=
  if den =? 0 then 0
  else
    let q := Z.quot num den in
    let r := num mod den in
    if r =? 0 then q else q + 1.

(** The read-modify-write of [allocated_margin] and the refreshed [res]. *)
Definition add_allocated (res : positionChangeResult) (delta : Z) : K positionChangeResult :=
  updated ← UpdatePosition (pcr_AccountIdx res) (pcr_MarketIdx res) (fun p =>
    mret (p <| pos_AllocatedMargin := pos_AllocatedMargin p + delta |>, tt));
  mret (res <| pcr_New := updated.1 |>).

Definition isolatedAddAllocatedMargin (res : positionChangeResult) (delta : Z)
  : K positionChangeResult :=
  if delta =? 0 then mret res else add_allocated res delta.

Definition isolatedDebit (res : positionChangeResult) (amount : Z) : K positionChangeResult :=
  if amount =? 0 then mret res else add_allocated res (- amount).

(** Case 4 of the margin delta: the size shrank on the same side. *)
Definition isolated_release (oldPos newPos : AccountPosition) (markPrice posReq : Z) : Z :=
  let allocated := pos_AllocatedMargin newPos in
  let oldMV := MarketValue oldPos markPrice in
  let newMV := MarketValue newPos markPrice in
  let oldAbs := Z.abs (pos_BaseSize oldPos) in
  let newAbs := Z.abs (pos_BaseSize newPos) in
  let targetValue :=
    if (0 <? oldMV) && negb (oldAbs =? 0) then
      let t := ceilDivPositive (oldMV * newAbs) oldAbs in
      if t <? posReq then posReq else t
    else posReq in
  let excess := newMV - targetValue in
  let excess := if excess <? 0 then 0 else excess in
  let toMoveOut := if allocated <? 0 then 0 else allocated in
  let excess := if toMoveOut <? excess then toMoveOut else excess in
  if excess =? 0 then 0 else - excess.

Definition calculateIsolatedMarginDelta (res : positionChangeResult) (fee : Z) (c : Chain) : R Z :=
  let newPos := pcr_New res in
  let oldPos := pcr_Old res in
  let allocated := pos_AllocatedMargin newPos in
  if pos_BaseSize newPos =? 0 then
    mret (if 0 <? allocated then - allocated else 0)
  else
    '(markPrice, md) ← GetMarkPriceAndDetails (pcr_MarketIdx res) c;
    let posReq := MarketInitialMargin md (Z.abs (pos_BaseSize newPos)) markPrice in
    if pcr_SideFlipped res then
      mret (posReq - (allocated + UnrealizedPnL newPos markPrice))
    else if pcr_OIDelta res <? 0 then
      mret (isolated_release oldPos newPos markPrice posReq)
    else
      let oiAbs := Z.abs (pcr_OIDelta res) in
      if oiAbs =? 0 then mret 0
      else
        let oiReq := MarketInitialMargin md oiAbs markPrice in
        let tradePnL := UnrealizedPnL newPos markPrice - UnrealizedPnL oldPos markPrice - fee in
        let delta := oiReq - tradePnL in
        mret (if delta <? 0 then 0 else delta).

Definition rebalanceIsolatedMargin (res : positionChangeResult) (fee : Z) (isMaker : bool) (f : Fill)
  : K unit :=
  delta ← reads (calculateIsolatedMarginDelta res fee);
  if delta =? 0 then mret tt
  else
    (if 0 <? delta then
       let skip := f_NoRiskCheck f || (isMaker && f_SkipMakerRiskCheck f) in
       if negb skip then
         avail ← reads (GetAvailableUsdcCollateral (pcr_AccountIdx res));
         lift (ensure (negb (avail <? delta))
                 (ETrade (if isMaker then ErrMakerInsufficientCollateral
                          else ErrTakerInsufficientCollateral)))
       else mret tt
     else mret tt);;
    add_allocated res delta;;
    AddCollateral (pcr_AccountIdx res) (- delta).

Definition applyIsolatedAccount (res : positionChangeResult) (fee : Z) (isMaker : bool) (liqFee : Z)
    (f : Fill) : K unit :=
  let delta := if negb (fee =? 0) then pcr_RealizedPnL res - fee else pcr_RealizedPnL res in
  res ← (if negb (delta =? 0) then isolatedAddAllocatedMargin res delta else mret res);
  res ← (if isMaker && (0 <? liqFee) then isolatedDebit res liqFee else mret res);
  rebalanceIsolatedMargin res fee isMaker f.

(** ** The pipeline ([engine.go]) *)

Definition applyAccount (res : positionChangeResult) (fee : Z) (isMaker : bool) (liqFee : Z)
    (f : Fill) : K unit :=
  if pos_MarginMode (pcr_Old res) =? IsolatedMargin
  then applyIsolatedAccount res fee isMaker liqFee f
  else applyCrossAccount res fee isMaker liqFee.

Definition liquidationImprovementFee (f : Fill) (notional : Z) : Z :=
  if (f_LiquidationFeeBps f =? 0) || (f_BaseAmount f =? 0) || (f_Price f =? 0) then 0
  else
    let improvement := if f_IsTakerAsk f then f_Price f - f_ZeroPrice f
                       else f_ZeroPrice f - f_Price f in
    if negb (0 <? improvement) then 0
    else
      let priceDiffRate := Z.quot (improvement * FeeTick) (f_Price f) in
      let effectiveRate := if f_LiquidationFeeBps f <? priceDiffRate
                           then f_LiquidationFeeBps f else priceDiffRate in
      if negb (0 <? effectiveRate) then 0
      else Z.quot (notional * effectiveRate) FeeTick.

(** [errors.Is(err, errPositionOutOfBounds)] re-wrapped per side. *)
Definition as_invalid_position (e : TradeError) (err : Error) : Error :=
  match err with ETrade errPositionOutOfBounds => ETrade e | _ => err end.

Definition no_snapshot : PreRiskSnapshot := mkPreRiskSnapshot None ∅.

(** The post-state check of one side. *)
Definition check_side (f : Fill) (idx : Z) (pre : PreRiskSnapshot) : K unit :=
  if f_SkipMakerRiskCheck f && (idx =? f_MakerAccountIndex f) then mret tt
  else if f_SkipTakerRiskCheck f && (idx =? f_TakerAccountIndex f) then mret tt
  else
    ok ← reads (IsValidRiskChangeFrom idx pre);
    lift (ensure ok (ETrade (if idx =? f_MakerAccountIndex f
                             then ErrMakerRiskRegression else ErrTakerRiskRegression))).

(** Step 5's global credits. *)
Definition credit_fees (f : Fill) (takerFee makerFee liqFee : Z) : K unit :=
  if f_NoFee f then mret tt
  else
    let treasuryFee := takerFee + makerFee in
    (if negb (treasuryFee =? 0) then AddCollateral TreasuryAccountIndex treasuryFee else mret tt);;
    if 0 <? liqFee then
      let recipient := if f_LiquidationFeeRecipient f =? 0
                       then InsuranceFundOperatorAccountIdx else f_LiquidationFeeRecipient f in
      AddCollateral recipient liqFee
    else mret tt.

Definition Apply (f : Fill) : K unit :=
  let maker := f_MakerAccountIndex f in
  let taker := f_TakerAccountIndex f in
  SettlePositionFunding maker (f_MarketIndex f);;
  SettlePositionFunding taker (f_MarketIndex f);;
  makerPre ← (if negb (f_NoRiskCheck f) && negb (f_SkipMakerRiskCheck f)
              then reads (SnapshotRisk maker) else mret no_snapshot);
  takerPre ← (if negb (f_NoRiskCheck f) && negb (f_SkipTakerRiskCheck f)
              then reads (SnapshotRisk taker) else mret no_snapshot);
  let makerSign := if negb (f_IsTakerAsk f) then -1 else 1 in
  let takerSign := - makerSign in
  makerRes ← map_err (as_invalid_position ErrMakerInvalidPosition)
               (applyPositionChange maker (f_MarketIndex f) (f_Price f) (f_BaseAmount f) makerSign);
  takerRes ← map_err (as_invalid_position ErrTakerInvalidPosition)
               (applyPositionChange taker (f_MarketIndex f) (f_Price f) (f_BaseAmount f) takerSign);
  let notional := f_BaseAmount f * f_Price f in
  let takerFee := if f_NoFee f then 0 else FeeOf notional (f_TakerFee f) in
  let makerFee := if f_NoFee f then 0 else FeeOf notional (f_MakerFee f) in
  let liqFee := if negb (f_NoFee f) && (0 <? f_LiquidationFeeBps f)
                then liquidationImprovementFee f notional else 0 in
  applyAccount takerRes takerFee false 0 f;;
  applyAccount makerRes makerFee true liqFee f;;
  credit_fees f takerFee makerFee liqFee;;
  let oiDelta := Z.quot (wrapi64 (pcr_OIDelta makerRes + pcr_OIDelta takerRes)) 2 in
  UpdateOpenInterest (f_MarketIndex f) oiDelta;;
  if f_NoRiskCheck f then mret tt
  else
    check_side f taker takerPre;;
    check_side f maker makerPre.

(** [Keeper.ApplyPerpsMatching] *)
Definition ApplyPerpsMatching (f : Fill) : K unit := Apply f.

(** [errors.go] *)
Definition IsRecoverableMakerError (e : Error) : bool :=
  match e with
  | ETrade (ErrMakerRiskRegression | ErrMakerInsufficientBalance | ErrMakerInvalidPosition
           | ErrMakerInsufficientCollateral) => true
  | _ => false
  end.

Definition IsRecoverableTakerError (e : Error) : bool :=
  match e with
  | ETrade (ErrTakerRiskRegression | ErrTakerInsufficientBalance | ErrTakerInvalidPosition
           | ErrTakerInsufficientCollateral) => true
  | _ => false
  end.

(** ** Spot ([spot.go]) *)

Record SpotFill := mkSpotFill {
  sf_MakerAccountIndex : Z;
  sf_TakerAccountIndex : Z;
  sf_MarketIndex : Z;
  sf_Price : Z;
  sf_BaseAmount : Z;
  sf_IsTakerAsk : bool;
  sf_TakerFee : Z;
  sf_MakerFee : Z;
  sf_NoFee : bool
}.

Definition as_insufficient_balance (e : TradeError) (err : Error) : Error :=
  match err with EAccount ErrInsufficientFunds => ETrade e | _ => err end.

Definition spotMakerDebit (from to assetID amount : Z) : K unit :=
  if amount <? 0 then lift (Err (ETrade ErrInvalidTransferAmount))
  else map_err (as_insufficient_balance ErrMakerInsufficientBalance)
         (TransferAccountAssetBalance from to assetID amount true).

Definition spotTakerDebit (from to assetID amount : Z) : K unit :=
  if amount <? 0 then lift (Err (ETrade ErrInvalidTransferAmount))
  else map_err (as_insufficient_balance ErrTakerInsufficientBalance)
         (TransferAccountAssetBalance from to assetID amount false).

Definition ApplySpotMatching (f : SpotFill) (baseAssetID quoteAssetID : Z) : K unit :=
  let notional := sf_BaseAmount f * sf_Price f in
  let baseAmt := sf_BaseAmount f in
  let maker := sf_MakerAccountIndex f in
  let taker := sf_TakerAccountIndex f in
  (if sf_IsTakerAsk f then
     spotMakerDebit maker taker quoteAssetID notional;;
     spotTakerDebit taker maker baseAssetID baseAmt
   else
     spotMakerDebit maker taker baseAssetID baseAmt;;
     spotTakerDebit taker maker quoteAssetID notional);;
  if sf_NoFee f then mret tt
  else
    let takerFee := FeeOf notional (sf_TakerFee f) in
    let makerFee := FeeOf notional (sf_MakerFee f) in
    (if 0 <? takerFee then spotTakerDebit taker TreasuryAccountIndex quoteAssetID takerFee
     else mret tt);;
    (if 0 <? makerFee then spotMakerDebit maker TreasuryAccountIndex quoteAssetID makerFee
     else mret tt).

(** ** Effects of the pipeline's steps on the ledger *)

Section totals.
Context (c : Chain) (Hk : keyed c) (p : AccountPosition) (a m : Z)
  (Ha : pos_AccountIndex p = a) (Hm : pos_MarketIndex p = m).
Let old := GetPosition a m c.

Lemma net_base_with n :
  net_base n (with_position p c) =
  net_base n c + (if m =? n then pos_BaseSize p - pos_BaseSize old else 0).
Proof.
  unfold net_base. rewrite (psum_with_position _ c p a m) by (done || cbn; by destruct (_ =? _)).
  destruct (get_position_key c a m Hk) as [_ ->]. rewrite Hm. fold old. destruct (m =? n); lia.
Qed.

Lemma gross_base_with n :
  gross_base n (with_position p c) =
  gross_base n c + (if m =? n then Z.abs (pos_BaseSize p) - Z.abs (pos_BaseSize old) else 0).
Proof.
  unfold gross_base. rewrite (psum_with_position _ c p a m) by (done || cbn; by destruct (_ =? _)).
  destruct (get_position_key c a m Hk) as [_ ->]. rewrite Hm. fold old. destruct (m =? n); lia.
Qed.

Lemma entry_quote_with :
  total_entry_quote (with_position p c) = total_entry_quote c + (pos_EntryQuote p - pos_EntryQuote old).
Proof.
  unfold total_entry_quote. rewrite (psum_with_position _ c p a m) by done. fold old. lia.
Qed.

Lemma allocated_with :
  total_allocated (with_position p c) =
  total_allocated c + (pos_AllocatedMargin p - pos_AllocatedMargin old).
Proof.
  unfold total_allocated. rewrite (psum_with_position _ c p a m) by done. fold old. lia.
Qed.
End totals.

(** [c'] differs from [c] only by moving money: sizes and entry quotes are
    as they were, and collateral plus allocated margin grew by [dv]. *)
Record moves (dv : Z) (c c' : Chain) : Prop := {
  mv_keyed : keyed c';
  mv_market : market c' = market c;
  mv_time : BlockTime c' = BlockTime c;
  mv_size a m : pos_BaseSize (GetPosition a m c') = pos_BaseSize (GetPosition a m c);
  mv_entry a m : pos_EntryQuote (GetPosition a m c') = pos_EntryQuote (GetPosition a m c);
  mv_net n : net_base n c' = net_base n c;
  mv_gross n : gross_base n c' = gross_base n c;
  mv_total_entry : total_entry_quote c' = total_entry_quote c;
  mv_money : total_collateral c' + total_allocated c' = total_collateral c + total_allocated c + dv
}.

Lemma moves_refl c : keyed c -> moves 0 c c.
Proof. intros. split; done || lia. Qed.

Lemma moves_trans x y c1 c2 c3 : moves x c1 c2 -> moves y c2 c3 -> moves (x + y) c1 c3.
Proof. intros [] []. split; try congruence; try lia. Qed.

Lemma moves_eq x y c c' : moves x c c' -> x = y -> moves y c c'.
Proof. by intros ? ->. Qed.

Lemma AddCollateral_moves i d c u c' :
  AddCollateral i d c = (Ok u, c') -> keyed c -> moves d c c'.
Proof.
  intros (a & Ha & ->)%AddCollateral_ok Hk.
  assert (acc_AccountIndex a = i) as Hi.
  { apply of_option_ok in Ha. by apply (proj1 Hk). }
  split; try done; [by apply keyed_with_account|].
  rewrite (csum_with_account _ _ a) by (cbn; by rewrite Hi).
  unfold total_allocated. cbn. lia.
Qed.

Lemma add_allocated_moves res d c res' c' :
  add_allocated res d c = (Ok res', c') -> keyed c ->
  moves d c c' /\ pcr_AccountIdx res' = pcr_AccountIdx res /\ pcr_MarketIdx res' = pcr_MarketIdx res.
Proof.
  intros H Hk. unfold add_allocated in H. inv_ok. subst res'.
  apply UpdatePosition_ok in H0 as [Hf ->]; [|done]. inv_ok. subst x. cbn [fst].
  set (a := pcr_AccountIdx res) in *. set (m := pcr_MarketIdx res) in *.
  destruct (get_position_key c a m Hk) as [Ha Hm].
  set (p := GetPosition a m c <| pos_AllocatedMargin := _ |>).
  assert (forall b n, GetPosition b n (with_position p c) =
            if decide ((a, m) = (b, n)) then p else GetPosition b n c) as Hg.
  { intros b n. rewrite get_position_with. subst p. cbn. by rewrite Ha, Hm. }
  split; [|done]. split; try done.
  - auto.
  - intros b n. rewrite Hg. case_decide; [|done]. by simplify_eq.
  - intros b n. rewrite Hg. case_decide; [|done]. by simplify_eq.
  - intros n. rewrite (net_base_with c Hk p a m) by done.
    change (pos_BaseSize p) with (pos_BaseSize (GetPosition a m c)). destruct (m =? n); lia.
  - intros n. rewrite (gross_base_with c Hk p a m) by done.
    change (pos_BaseSize p) with (pos_BaseSize (GetPosition a m c)). destruct (m =? n); lia.
  - rewrite (entry_quote_with c Hk p a m) by done. subst p; cbn. lia.
  - rewrite (allocated_with c Hk p a m) by done.
    change (total_collateral (with_position p c)) with (total_collateral c).
    change (pos_AllocatedMargin p) with (pos_AllocatedMargin (GetPosition a m c) + d). lia.
Qed.

Lemma rebalance_moves res fee isMaker f c u c' :
  rebalanceIsolatedMargin res fee isMaker f c = (Ok u, c') -> keyed c -> moves 0 c c'.
Proof.
  intros H Hk. unfold rebalanceIsolatedMargin in H. inv_ok.
  case_match; inv_ok; [by apply moves_refl|].
  assert (x1 = c) as ->.
  { repeat (case_match; inv_ok; try done). }
  match goal with H : add_allocated _ _ c = _ |- _ =>
    apply add_allocated_moves in H as (Hm & _ & _); [|done] end.
  apply AddCollateral_moves in H; [|by eapply mv_keyed].
  eapply moves_eq; [by eapply moves_trans|lia].
Qed.

(** One side's dispatch moves its realized PnL net of fees. *)
Lemma applyAccount_moves res fee isMaker liqFee f c u c' :
  applyAccount res fee isMaker liqFee f c = (Ok u, c') -> keyed c ->
  moves (pcr_RealizedPnL res - fee - (if isMaker && (0 <? liqFee) then liqFee else 0)) c c'.
Proof.
  intros H Hk. unfold applyAccount in H. case_match.
  - unfold applyIsolatedAccount, isolatedAddAllocatedMargin, isolatedDebit in H. inv_ok.
    match goal with H : rebalanceIsolatedMargin _ _ _ _ _ = _ |- _ => rename H into Hreb end.
    assert (moves (pcr_RealizedPnL res - fee) c x0) as M1.
    { repeat (case_match; inv_ok; breflect; subst); try (eapply moves_eq; [by apply moves_refl|lia]);
        (eapply moves_eq; [by eapply add_allocated_moves|lia]). }
    assert (moves (- (if isMaker && (0 <? liqFee) then liqFee else 0)) x0 x2) as M2.
    { pose proof (mv_keyed _ _ _ M1).
      destruct (isMaker && (0 <? liqFee)); inv_ok; subst;
        [|eapply moves_eq; [by apply moves_refl|lia]].
      destruct (liqFee =? 0) eqn:?; inv_ok; breflect; subst;
        [eapply moves_eq; [by apply moves_refl|lia] | by eapply add_allocated_moves]. }
    apply rebalance_moves in Hreb; [|by eapply mv_keyed].
    eapply moves_eq; [eapply moves_trans; [eapply moves_trans; eassumption|eassumption]|lia].
  - unfold applyCrossAccount, crossAddCollateral, crossDebit in H. inv_ok.
    assert (moves (pcr_RealizedPnL res - fee) c x0) as M1.
    { repeat (case_match; inv_ok; breflect; subst); try (eapply moves_eq; [by apply moves_refl|lia]);
        (eapply moves_eq; [by eapply AddCollateral_moves|lia]). }
    assert (moves (- (if isMaker && (0 <? liqFee) then liqFee else 0)) x0 c') as M2.
    { pose proof (mv_keyed _ _ _ M1).
      destruct (isMaker && (0 <? liqFee)); inv_ok; subst;
        [|eapply moves_eq; [by apply moves_refl|lia]].
      destruct (liqFee =? 0) eqn:?; inv_ok; breflect; subst;
        [eapply moves_eq; [by apply moves_refl|lia] | by eapply AddCollateral_moves]. }
    eapply moves_eq; [eapply moves_trans; eassumption|lia].
Qed.

Lemma credit_fees_moves f takerFee makerFee liqFee c u c' :
  credit_fees f takerFee makerFee liqFee c = (Ok u, c') -> keyed c ->
  moves (if f_NoFee f then 0 else takerFee + makerFee + (if 0 <? liqFee then liqFee else 0)) c c'.
Proof.
  intros H Hk. unfold credit_fees in H. destruct (f_NoFee f); inv_ok; [by apply moves_refl|].
  assert (moves (takerFee + makerFee) c x0) as M1.
  { destruct (negb _) eqn:?; inv_ok; breflect; subst; [by eapply AddCollateral_moves|].
    eapply moves_eq; [by apply moves_refl|lia]. }
  eapply moves_trans; [exact M1|]. pose proof (mv_keyed _ _ _ M1).
  destruct (0 <? liqFee); inv_ok; subst; [by eapply AddCollateral_moves|by apply moves_refl].
Qed.

Lemma isWithinPositionBounds_ok s e :
  isWithinPositionBounds s e = true <-> Z.abs s <= MaxPositionSize /\ Z.abs e <= MaxEntryQuote.
Proof. unfold isWithinPositionBounds. case_ifs; split; (lia || done). Qed.

Lemma to_int64_ok {E} z n : (to_int64 z : res E Z) = Ok n <-> n = z /\ - 2 ^ 63 <= z < 2 ^ 63.
Proof.
  unfold to_int64. destruct (_ && _) eqn:Hb; breflect; split.
  - intros [= <-]. done.
  - by intros [-> _].
  - done.
  - intros [-> ?]. destruct Hb; breflect; lia.
Qed.

(** What a successful position change did. *)
Record changed (a m price delta : Z) (c : Chain) (res : positionChangeResult) (c' : Chain) : Prop := {
  ch_account : pcr_AccountIdx res = a;
  ch_market : pcr_MarketIdx res = m;
  ch_old : pcr_Old res = GetPosition a m c;
  ch_new : pcr_New res = fr_Position (ApplyFill (GetPosition a m c) delta price);
  ch_state : c' = with_position (pcr_New res) c;
  ch_bounds : Z.abs (pos_BaseSize (pcr_New res)) <= MaxPositionSize /\
              Z.abs (pos_EntryQuote (pcr_New res)) <= MaxEntryQuote;
  ch_oi : pcr_OIDelta res = Z.abs (pos_BaseSize (pcr_New res)) - Z.abs (pos_BaseSize (pcr_Old res));
  ch_flip : pcr_SideFlipped res = fr_SideFlipped (ApplyFill (GetPosition a m c) delta price);
  ch_pnl : pcr_RealizedPnL res = fr_RealizedPnL (ApplyFill (GetPosition a m c) delta price)
}.

Lemma applyPositionChange_inv a m price base sign c res c' :
  applyPositionChange a m price base sign c = (Ok res, c') -> keyed c ->
  changed a m price (base * sign) c res c'.
Proof.
  intros H Hk. unfold applyPositionChange in H. inv_ok.
  destruct x as [updated [old fill]].
  apply UpdatePosition_ok in H0 as [Hf ->]; [|done]. inv_ok. subst res.
  unfold fill_mut in Hf. inv_ok.
  match goal with H : isWithinPositionBounds _ _ = true |- _ =>
    apply isWithinPositionBounds_ok in H as [Hb1 Hb2] end.
  match goal with H : to_int64 _ = Ok _ |- _ => apply to_int64_ok in H as [-> Hr] end.
  injection Hf as <- <- <-. split; try done.
Qed.

(** ** The whole pipeline *)

(** Collateral, allocated margin and entry quotes together. *)
Definition ledger (c : Chain) : Z := total_collateral c + total_allocated c + total_entry_quote c.

(** The steps of a successful [Apply], with the states between them. *)
Record applied (f : Fill) (c c' : Chain) : Prop := {
  ap_witness : exists c1 c2 makerPre takerPre rm c3 rt c4 c5,
    SettlePositionFunding (f_MakerAccountIndex f) (f_MarketIndex f) c = (Ok tt, c1) /\
    SettlePositionFunding (f_TakerAccountIndex f) (f_MarketIndex f) c1 = (Ok tt, c2) /\
    (f_NoRiskCheck f = false -> f_SkipMakerRiskCheck f = false ->
       SnapshotRisk (f_MakerAccountIndex f) c2 = Ok makerPre) /\
    (f_NoRiskCheck f = false -> f_SkipTakerRiskCheck f = false ->
       SnapshotRisk (f_TakerAccountIndex f) c2 = Ok takerPre) /\
    changed (f_MakerAccountIndex f) (f_MarketIndex f) (f_Price f)
      (f_BaseAmount f * (if f_IsTakerAsk f then 1 else -1)) c2 rm c3 /\
    changed (f_TakerAccountIndex f) (f_MarketIndex f) (f_Price f)
      (- (f_BaseAmount f * (if f_IsTakerAsk f then 1 else -1))) c3 rt c4 /\
    moves (pcr_RealizedPnL rm + pcr_RealizedPnL rt) c4 c5 /\
    UpdateOpenInterest (f_MarketIndex f)
      (Z.quot (wrapi64 (pcr_OIDelta rm + pcr_OIDelta rt)) 2) c5 = (Ok tt, c') /\
    (f_NoRiskCheck f = false ->
       check_side f (f_TakerAccountIndex f) takerPre c' = (Ok tt, c') /\
       check_side f (f_MakerAccountIndex f) makerPre c' = (Ok tt, c'))
}.

Lemma check_side_ok f i pre c u c' :
  check_side f i pre c = (Ok u, c') -> c' = c /\ check_side f i pre c = (Ok tt, c).
Proof.
  intros H. assert (c' = c) as ->; [|by destruct u].
  unfold check_side in H. repeat (case_match; inv_ok; try done).
Qed.

Lemma keyed_settle a m c u c' : keyed c -> SettlePositionFunding a m c = (Ok u, c') -> keyed c'.
Proof. intros Hk (d & _ & ->)%SettlePositionFunding_inv; [|done]. auto. Qed.

Lemma keyed_changed a m p d c res c' : changed a m p d c res c' -> keyed c -> keyed c'.
Proof. intros [] Hk. subst c'. auto. Qed.

Lemma snapshot_if_ok (b : bool) i c s c' :
  (if b then reads (SnapshotRisk i) else mret no_snapshot) c = (Ok s, c') ->
  c' = c /\ (b = true -> SnapshotRisk i c = Ok s).
Proof. destruct b; intros; inv_ok; done. Qed.

Lemma Apply_inv f c u c' : Apply f c = (Ok u, c') -> keyed c -> applied f c c'.
Proof.
  intros H Hk. unfold Apply in H. inv_ok. split.
  repeat match goal with x : unit |- _ => destruct x end.
  apply snapshot_if_ok in H2 as [-> Hmp]. apply snapshot_if_ok in H3 as [-> Htp].
  pose proof (keyed_settle _ _ _ _ _ Hk H0) as Hk1.
  pose proof (keyed_settle _ _ _ _ _ Hk1 H1) as Hk2.
  apply applyPositionChange_inv in H4; [|done]. pose proof (keyed_changed _ _ _ _ _ _ _ H4 Hk2) as Hk3.
  apply applyPositionChange_inv in H5; [|done]. pose proof (keyed_changed _ _ _ _ _ _ _ H5 Hk3) as Hk4.
  apply applyAccount_moves in H6; [|done].
  apply applyAccount_moves in H7; [|by eapply mv_keyed].
  apply credit_fees_moves in H8; [|by eapply mv_keyed].
  pose proof (moves_trans _ _ _ _ _ (moves_trans _ _ _ _ _ H6 H7) H8) as Hmv.
  assert (x18 = c' /\ (f_NoRiskCheck f = false ->
       check_side f (f_TakerAccountIndex f) x5 c' = (Ok tt, c') /\
       check_side f (f_MakerAccountIndex f) x3 c' = (Ok tt, c'))) as [-> Hchk].
  { destruct (f_NoRiskCheck f); inv_ok; [done|].
    apply check_side_ok in H2 as [-> H2]. apply check_side_ok in H as [-> H]. done. }
  replace (if negb (f_IsTakerAsk f) then -1 else 1) with (if f_IsTakerAsk f then 1 else -1)
    in H4, H5 by by destruct (f_IsTakerAsk f).
  rewrite Z.mul_opp_r in H5.
  exists x0, x2, x3, x5, x7, x8, x9, x10, x16.
  split_and!; try done.
  - intros Hn Hs. apply Hmp. by rewrite Hn, Hs.
  - intros Hn Hs. apply Htp. by rewrite Hn, Hs.
  - eapply moves_eq; [exact Hmv|]. destruct (f_NoFee f); cbn; [lia|]. case_match; lia.
Qed.

(** Positions within the size bound, with no entry quote when flat. *)
Definition position_ok (p : AccountPosition) : Prop :=
  Z.abs (pos_BaseSize p) <= MaxPositionSize /\ flat_ok p.
#[global] Instance flat_ok_dec p : Decision (flat_ok p).
Proof.
  unfold flat_ok. destruct (decide (pos_BaseSize p = 0)), (decide (pos_EntryQuote p = 0));
    [left|right|left|left]; tauto.
Defined.
Definition positions_ok (c : Chain) : Prop :=
  map_Forall (fun _ p => position_ok p) (ast_AccountPositions (account c)).
#[global] Instance positions_ok_dec c : Decision (positions_ok c).
Proof. apply _. Defined.

Lemma get_position_ok a m c : positions_ok c -> position_ok (GetPosition a m c).
Proof.
  intros Hc. unfold GetPosition. destruct (_ !! _) eqn:E; [by apply (Hc _ _ E)|]. by split.
Qed.

Lemma positions_ok_with p c : positions_ok c -> position_ok p -> positions_ok (with_position p c).
Proof. intros. by apply map_Forall_insert_2. Qed.

Lemma settle_effects a m c u c' :
  SettlePositionFunding a m c = (Ok u, c') -> keyed c ->
  keyed c' /\ market c' = market c /\ (positions_ok c -> positions_ok c') /\
  (forall n, net_base n c' = net_base n c /\ gross_base n c' = gross_base n c).
Proof.
  intros Hs Hk. apply SettlePositionFunding_inv in Hs as (d & Hd & ->); [|done].
  destruct (get_position_key c a m Hk) as [Ha Hm].
  set (p := settled _ _). split_and!; [auto|done| |].
  - intros Hc. apply positions_ok_with; [done|].
    destruct (get_position_ok a m c Hc) as [H1 H2]. split; [done|].
    unfold flat_ok, p, settled, funding_pay. cbn. intros H0. specialize (H2 H0). rewrite H0, H2. done.
  - intros n. rewrite (net_base_with c Hk p a m), (gross_base_with c Hk p a m) by done.
    change (pos_BaseSize p) with (pos_BaseSize (GetPosition a m c)).
    destruct (m =? n); lia.
Qed.

Lemma changed_effects a m price d c res c' :
  changed a m price d c res c' -> keyed c ->
  market c' = market c /\ (positions_ok c -> positions_ok c') /\
  (forall n, net_base n c' = net_base n c + (if m =? n then d else 0)) /\
  (forall n, gross_base n c' = gross_base n c + (if m =? n then pcr_OIDelta res else 0)) /\
  (positions_ok c -> Z.abs (pcr_OIDelta res) <= MaxPositionSize) /\
  (positions_ok c ->
   let lost := ledger c + d * price - (ledger c' + pcr_RealizedPnL res) in
   lost = 0 \/ lost = Z.sgn (pos_EntryQuote (pcr_Old res))).
Proof.
  intros [Hca Hcm Hold Hnew -> Hb Hoi Hf Hpnl] Hk.
  destruct (get_position_key c a m Hk) as [Ha Hm].
  assert (pos_AccountIndex (pcr_New res) = a) as Ha' by (rewrite Hnew; done).
  assert (pos_MarketIndex (pcr_New res) = m) as Hm' by (rewrite Hnew; done).
  assert (pos_BaseSize (pcr_New res) = pos_BaseSize (GetPosition a m c) + d) as Hsz by (rewrite Hnew; done).
  split_and!; [done| | | | |].
  - intros Hc. apply positions_ok_with; [done|]. split; [exact (proj1 Hb)|].
    rewrite Hnew. apply apply_fill_flat_ok.
  - intros n. rewrite (net_base_with c Hk _ a m) by done. rewrite Hsz. destruct (m =? n); lia.
  - intros n. rewrite (gross_base_with c Hk _ a m) by done. rewrite Hoi, Hold. destruct (m =? n); lia.
  - intros Hc. destruct (get_position_ok a m c Hc) as [Hs _]. rewrite Hoi, Hold. lia.
  - intros Hc. destruct (get_position_ok a m c Hc) as [_ Hfl].
    unfold ledger. change (total_collateral (with_position _ c)) with (total_collateral c).
    rewrite (allocated_with c Hk _ a m), (entry_quote_with c Hk _ a m) by done.
    rewrite Hpnl, Hnew, Hold. set (pos := GetPosition a m c) in *.
    pose proof (fill_quote_conserved (pos_BaseSize pos) (pos_EntryQuote pos) d price Hfl) as Hq.
    change (pos_AllocatedMargin (fr_Position (ApplyFill pos d price))) with (pos_AllocatedMargin pos).
    change (pos_EntryQuote (fr_Position (ApplyFill pos d price)))
      with (fill_quote (pos_BaseSize pos) (pos_EntryQuote pos) d price).1.
    change (fr_RealizedPnL (ApplyFill pos d price))
      with (fill_quote (pos_BaseSize pos) (pos_EntryQuote pos) d price).2.
    cbv zeta in Hq |- *. lia.
Qed.

Lemma oi_market_frame i x c u c' n :
  UpdateOpenInterest i x c = (Ok u, c') ->
  account c' = account c /\ (positions_ok c -> positions_ok c') /\
  net_base n c' = net_base n c /\ gross_base n c' = gross_base n c /\ ledger c' = ledger c.
Proof. intros (d & _ & _ & _ & ->)%UpdateOpenInterest_ok. done. Qed.

(** The open interest a market records. *)
Definition open_interest (m : Z) (c : Chain) : Z :=
  match GetMarketDetails m c with Ok d => md_OpenInterest d | _ => 0 end.

Lemma open_interest_update i x c u c' :
  UpdateOpenInterest i x c = (Ok u, c') -> market_keyed c ->
  open_interest i c' = open_interest i c + x.
Proof.
  intros (d & Hd & _ & _ & ->)%UpdateOpenInterest_ok Hk.
  unfold open_interest. rewrite get_details_with. cbn.
  rewrite (get_details_key c i d Hk Hd), decide_True by done. by rewrite Hd.
Qed.

(** Signed deltas that cancel have absolute-size changes of even sum. *)
Lemma oi_deltas_even s1 s2 d :
  exists k, (Z.abs (s1 + d) - Z.abs s1) + (Z.abs (s2 - d) - Z.abs s2) = 2 * k.
Proof.
  exists (Z.max 0 (- (s1 + d)) - Z.max 0 (- s1) + Z.max 0 (- (s2 - d)) - Z.max 0 (- s2)). lia.
Qed.

Lemma applied_oi f c c' :
  applied f c c' -> keyed c -> market_keyed c -> positions_ok c ->
  let m := f_MarketIndex f in
  (forall n, net_base n c' = net_base n c) /\ positions_ok c' /\
  2 * open_interest m c' - gross_base m c' = 2 * open_interest m c - gross_base m c.
Proof.
  intros [(c1 & c2 & mp & tp & rm & c3 & rt & c4 & c5 & H1 & H2 & _ & _ & H3 & H4 & H5 & H6 & _)]
    Hk Hmk Hok m. subst m.
  destruct (settle_effects _ _ _ _ _ H1 Hk) as (K1 & M1 & P1 & N1).
  destruct (settle_effects _ _ _ _ _ H2 K1) as (K2 & M2 & P2 & N2).
  destruct (changed_effects _ _ _ _ _ _ _ H3 K2) as (M3 & P3 & N3 & G3 & B3 & _).
  pose proof (keyed_changed _ _ _ _ _ _ _ H3 K2) as K3.
  destruct (changed_effects _ _ _ _ _ _ _ H4 K3) as (M4 & P4 & N4 & G4 & B4 & _).
  assert (positions_ok c5) as P5.
  { pose proof (P4 (P3 (P2 (P1 Hok)))) as P.
    intros [a n] p Hp. assert (GetPosition a n c5 = p) as <- by (unfold GetPosition; by rewrite Hp).
    destruct (get_position_ok a n c4 P) as [Q1 Q2]. unfold position_ok, flat_ok in *.
    rewrite (mv_size _ _ _ H5), (mv_entry _ _ _ H5). done. }
  assert (market c5 = market c) as M5 by (rewrite (mv_market _ _ _ H5); congruence).
  assert (market_keyed c5) as Hmk5 by (unfold market_keyed; by rewrite M5).
  split_and!.
  - intros n. destruct (oi_market_frame _ _ _ _ _ n H6) as (_ & _ & -> & _).
    rewrite (mv_net _ _ _ H5), N4, N3, (proj1 (N2 n)), (proj1 (N1 n)). destruct (_ =? n); lia.
  - by apply (oi_market_frame _ _ _ _ _ (f_MarketIndex f) H6).
  - rewrite (open_interest_update _ _ _ _ _ H6 Hmk5).
    destruct (oi_market_frame _ _ _ _ _ (f_MarketIndex f) H6) as (_ & _ & _ & -> & _).
    assert (open_interest (f_MarketIndex f) c5 = open_interest (f_MarketIndex f) c) as ->
      by (unfold open_interest, GetMarketDetails; by rewrite M5).
    rewrite (mv_gross _ _ _ H5), G4, G3, (proj2 (N2 (f_MarketIndex f))), (proj2 (N1 (f_MarketIndex f))).
    rewrite Z.eqb_refl.
    specialize (B3 (P2 (P1 Hok))). specialize (B4 (P3 (P2 (P1 Hok)))).
    unfold MaxPositionSize in *. rewrite wrapi64_id by lia.
    assert (exists k, pcr_OIDelta rm + pcr_OIDelta rt = 2 * k) as [k Hev].
    { destruct H3 as [_ _ O3 W3 _ _ OI3 _ _], H4 as [_ _ O4 W4 _ _ OI4 _ _].
      rewrite OI3, OI4, O3, O4, W3, W4, !apply_fill_size. apply oi_deltas_even. }
    rewrite Hev, (Z.mul_comm 2 k), Z.quot_mul by lia. lia.
Qed.

(** A fill moves the sizes of its two positions and no other. *)
Lemma settle_sizes a m c u c' b n :
  SettlePositionFunding a m c = (Ok u, c') -> keyed c ->
  pos_BaseSize (GetPosition b n c') = pos_BaseSize (GetPosition b n c).
Proof.
  intros H Hk. apply SettlePositionFunding_inv in H as (d & _ & ->); [|done].
  destruct (get_position_key c a m Hk) as [Ha Hm]. rewrite get_position_with. cbn. rewrite Ha, Hm. case_decide; [by simplify_eq|done].
Qed.

Lemma changed_sizes a m price d c res c' b n :
  changed a m price d c res c' -> keyed c ->
  pos_BaseSize (GetPosition b n c') =
    pos_BaseSize (GetPosition b n c) + (if decide ((b, n) = (a, m)) then d else 0).
Proof.
  intros [_ _ _ Hnew -> _ _ _ _] Hk. destruct (get_position_key c a m Hk) as [Ha Hm].
  rewrite get_position_with, Hnew. cbn. rewrite Ha, Hm.
  repeat case_decide; simplify_eq; try done; lia.
Qed.

Definition sold (f : Fill) : Z := if f_IsTakerAsk f then f_BaseAmount f else - f_BaseAmount f.

Lemma applied_sizes f c c' a n :
  applied f c c' -> keyed c ->
  pos_BaseSize (GetPosition a n c') = pos_BaseSize (GetPosition a n c)
    + (if decide ((a, n) = (f_MakerAccountIndex f, f_MarketIndex f)) then sold f else 0)
    + (if decide ((a, n) = (f_TakerAccountIndex f, f_MarketIndex f)) then - sold f else 0).
Proof.
  intros [(c1 & c2 & mp & tp & rm & c3 & rt & c4 & c5 & H1 & H2 & _ & _ & H3 & H4 & H5 & H6 & _)] Hk.
  destruct (settle_effects _ _ _ _ _ H1 Hk) as (K1 & _). destruct (settle_effects _ _ _ _ _ H2 K1) as (K2 & _).
  pose proof (keyed_changed _ _ _ _ _ _ _ H3 K2) as K3.
  destruct (oi_market_frame _ _ _ _ _ n H6) as (HA & _). unfold GetPosition at 1. rewrite HA. fold (GetPosition a n c5).
  rewrite (mv_size _ _ _ H5), (changed_sizes _ _ _ _ _ _ _ a n H4 K3), (changed_sizes _ _ _ _ _ _ _ a n H3 K2),
    (settle_sizes _ _ _ _ _ a n H2 K1), (settle_sizes _ _ _ _ _ a n H1 Hk).
  unfold sold. destruct (f_IsTakerAsk f); repeat case_decide; lia.
Qed.

(** C1: a fill keeps the market balanced. A successful [Apply] leaves the
    net base size of every market unchanged (what one side gains the other
    loses) and changes the recorded open interest by exactly half of the
    change of the absolute sizes, so open interest keeps being half of the
    total absolute position. *)
Theorem apply_keeps_market_balanced f c c' :
  Apply f c = (Ok tt, c') -> keyed c -> market_keyed c -> positions_ok c ->
  net_base (f_MarketIndex f) c = 0 ->
  2 * open_interest (f_MarketIndex f) c = gross_base (f_MarketIndex f) c ->
  (forall n, net_base n c' = net_base n c) /\
  2 * open_interest (f_MarketIndex f) c' = gross_base (f_MarketIndex f) c'.
Proof.
  intros H Hk Hmk Hok Hnet Hoi. apply Apply_inv in H; [|done].
  destruct (applied_oi f c c' H Hk Hmk Hok) as (H1 & _ & H2). split; [done|]. lia.
Qed.

(** C2: a fill neither mints nor burns quote. With pending funding settled,
    the sum of all collateral, isolated margins and entry quotes (fees and
    the liquidation fee included, both being paid to accounts) changes by at
    most one unit of truncation per side. *)
Theorem apply_conserves_ledger f c c' :
  Apply f c = (Ok tt, c') -> keyed c -> positions_ok c ->
  exists c2, (SettlePositionFunding (f_MakerAccountIndex f) (f_MarketIndex f);;
              SettlePositionFunding (f_TakerAccountIndex f) (f_MarketIndex f)) c = (Ok tt, c2) /\
    Z.abs (ledger c' - ledger c2) <= 2.
Proof.
  intros H Hk Hok. apply Apply_inv in H; [|done].
  destruct H as [(c1 & c2 & mp & tp & rm & c3 & rt & c4 & c5 & H1 & H2 & _ & _ & H3 & H4 & H5 & H6 & _)].
  exists c2. split; [by rewrite (run_bind _ _ _ tt c1)|].
  destruct (settle_effects _ _ _ _ _ H1 Hk) as (K1 & _ & P1 & _).
  destruct (settle_effects _ _ _ _ _ H2 K1) as (K2 & _ & P2 & _).
  destruct (changed_effects _ _ _ _ _ _ _ H3 K2) as (_ & P3 & _ & _ & _ & L3).
  pose proof (keyed_changed _ _ _ _ _ _ _ H3 K2) as K3.
  destruct (changed_effects _ _ _ _ _ _ _ H4 K3) as (_ & _ & _ & _ & _ & L4).
  specialize (L3 (P2 (P1 Hok))). specialize (L4 (P3 (P2 (P1 Hok)))).
  destruct (oi_market_frame _ _ _ _ _ 0 H6) as (_ & _ & _ & _ & ->).
  pose proof (mv_money _ _ _ H5) as Hm. pose proof (mv_total_entry _ _ _ H5) as He.
  pose proof (Z.sgn_spec (pos_EntryQuote (pcr_Old rm))). pose proof (Z.sgn_spec (pos_EntryQuote (pcr_Old rt))).
  unfold ledger in *. cbv zeta in L3, L4. lia.
Qed.

(** C30: a successful fill stores both positions within the 56-bit bounds on
    size and entry quote, and it keeps every stored position of the chain
    within the size bound with no entry quote left on a flat one. *)
Theorem apply_respects_bounds f c c' :
  Apply f c = (Ok tt, c') -> keyed c -> market_keyed c -> positions_ok c ->
  positions_ok c' /\
  forall a, a = f_MakerAccountIndex f \/ a = f_TakerAccountIndex f ->
    let p := GetPosition a (f_MarketIndex f) c' in
    Z.abs (pos_BaseSize p) <= MaxPositionSize /\ Z.abs (pos_EntryQuote p) <= MaxEntryQuote.
Proof.
  intros H Hk Hmk Hok. apply Apply_inv in H; [|done].
  split; [by apply (applied_oi f c c' H)|].
  destruct H as [(c1 & c2 & mp & tp & rm & c3 & rt & c4 & c5 & H1 & H2 & _ & _ & H3 & H4 & H5 & H6 & _)].
  apply UpdateOpenInterest_ok in H6 as (d & _ & _ & _ & ->).
  destruct (settle_effects _ _ _ _ _ H1 Hk) as (K1 & _). destruct (settle_effects _ _ _ _ _ H2 K1) as (K2 & _).
  pose proof (keyed_changed _ _ _ _ _ _ _ H3 K2) as K3.
  destruct (get_position_key c2 (f_MakerAccountIndex f) (f_MarketIndex f) K2) as [A2 B2].
  destruct (get_position_key c3 (f_TakerAccountIndex f) (f_MarketIndex f) K3) as [A3 B3].
  destruct H3 as [_ _ _ W3 S3 Bd3 _ _ _], H4 as [_ _ _ W4 S4 Bd4 _ _ _].
  intros a Ha. cbv zeta.
  change (GetPosition a (f_MarketIndex f) (with_details _ c5)) with (GetPosition a (f_MarketIndex f) c5).
  rewrite (mv_size _ _ _ H5), (mv_entry _ _ _ H5), S4, get_position_with, S3, get_position_with.
  assert (pos_AccountIndex (pcr_New rt) = f_TakerAccountIndex f /\
          pos_MarketIndex (pcr_New rt) = f_MarketIndex f) as [-> ->] by (rewrite W4; done).
  assert (pos_AccountIndex (pcr_New rm) = f_MakerAccountIndex f /\
          pos_MarketIndex (pcr_New rm) = f_MarketIndex f) as [-> ->] by (rewrite W3; done).
  case_decide as E; [done|]. destruct Ha as [->| ->]; [|done]. by rewrite decide_True.
Qed.

(** A side is checked when the fill checks risk and does not skip that side's
    role; an account in both roles is skipped by either flag. *)
Definition risk_checked (f : Fill) (a : Z) : Prop :=
  f_NoRiskCheck f = false /\
  (a = f_MakerAccountIndex f -> f_SkipMakerRiskCheck f = false) /\
  (a = f_TakerAccountIndex f -> f_SkipTakerRiskCheck f = false).

Lemma check_side_checked f a pre c c' :
  check_side f a pre c = (Ok tt, c') -> risk_checked f a -> IsValidRiskChangeFrom a pre c = Ok true.
Proof.
  intros H (_ & Hm & Ht). unfold check_side in H.
  assert (f_SkipMakerRiskCheck f && (a =? f_MakerAccountIndex f) = false) as E1.
  { destruct (Z.eqb_spec a (f_MakerAccountIndex f)) as [E|]; [by rewrite Hm|apply andb_false_r]. }
  assert (f_SkipTakerRiskCheck f && (a =? f_TakerAccountIndex f) = false) as E2.
  { destruct (Z.eqb_spec a (f_TakerAccountIndex f)) as [E|]; [by rewrite Ht|apply andb_false_r]. }
  rewrite E1, E2 in H. inv_ok. by subst.
Qed.

(** A risk change the check accepts does not worsen the health class. *)
Lemma valid_change_health a pre c2 c' :
  SnapshotRisk a c2 = Ok pre -> IsValidRiskChangeFrom a pre c' = Ok true ->
  exists before after, GetHealthStatus a c2 = Ok before /\ GetHealthStatus a c' = Ok after /\
    after <= before /\ (before = HealthHealthy -> after = HealthHealthy).
Proof.
  intros Hs H. unfold SnapshotRisk in Hs. inv_ok. subst pre.
  unfold IsValidRiskChangeFrom, isCrossRiskChangeValid in H. inv_ok. cbn [prs_Cross] in *.
  match goal with H1 : ComputeCrossRisk a c2 = Ok ?r1, H2 : ComputeCrossRisk a c' = Ok ?r2 |- _ =>
    rename H1 into Hb, H2 into Ha; rename r1 into rpre, r2 into rpost end.
  exists (HealthStatus rpre), (HealthStatus rpost).
  unfold GetHealthStatus. rewrite Hb, Ha. split; [done|]. split; [done|].
  assert (HealthStatus rpost <= HealthStatus rpre) as Hle.
  { subst. destruct (classifyChange (Some rpre) rpost) eqn:Hcl; inv_ok; [|done].
    apply classifyChange_ok in Hcl. pose proof (HealthStatus_range rpre). lia. }
  split; [done|]. pose proof (HealthStatus_range rpost). lia.
Qed.

(** C10: a side whose risk check is on never ends a fill in a worse class of
    cross-margin health than it had once the funding of the two positions was
    settled; a healthy account stays healthy. Each side is judged on its own:
    skipping the maker's check leaves the taker's in force, and the other way
    round. *)
Theorem apply_checks_risk f c c' :
  Apply f c = (Ok tt, c') -> keyed c ->
  exists c2, (SettlePositionFunding (f_MakerAccountIndex f) (f_MarketIndex f);;
              SettlePositionFunding (f_TakerAccountIndex f) (f_MarketIndex f)) c = (Ok tt, c2) /\
  forall a, a = f_MakerAccountIndex f \/ a = f_TakerAccountIndex f -> risk_checked f a ->
    exists before after, GetHealthStatus a c2 = Ok before /\ GetHealthStatus a c' = Ok after /\
      after <= before /\ (before = HealthHealthy -> after = HealthHealthy).
Proof.
  intros H Hk. apply Apply_inv in H; [|done].
  destruct H as [(c1 & c2 & mp & tp & rm & c3 & rt & c4 & c5 & H1 & H2 & Hmp & Htp & _ & _ & _ & _ & Hc)].
  exists c2. split; [by rewrite (run_bind _ _ _ tt c1)|].
  intros a Ha Hr. destruct Hr as (Hn & Hm & Ht). destruct (Hc Hn) as [Ct Cm].
  destruct Ha as [->| ->]; (eapply valid_change_health; [eauto|]);
    (eapply check_side_checked; [eassumption|done]).
Qed.

(** ** Fees *)

(** The liquidation fee of a fill is bounded three ways: it is zero
    unless the fill improves on the zero price, it is at most the configured
    rate of the notional, and it never exceeds the improvement itself, so the
    price after the fee is still no worse than the zero price. *)
Theorem liquidation_fee_bounded f :
  0 < f_Price f -> 0 <= f_BaseAmount f -> 0 <= f_LiquidationFeeBps f ->
  let notional := f_BaseAmount f * f_Price f in
  let improvement := if f_IsTakerAsk f then f_Price f - f_ZeroPrice f
                     else f_ZeroPrice f - f_Price f in
  let fee := liquidationImprovementFee f notional in
  0 <= fee <= FeeOf notional (f_LiquidationFeeBps f) /\
  fee <= f_BaseAmount f * Z.max 0 improvement.
Proof.
  intros Hp Hb Hbps notional improvement fee.
  assert (0 <= notional) as Hn by (unfold notional; nia).
  unfold fee, liquidationImprovementFee. fold improvement.
  assert (0 <= FeeOf notional (f_LiquidationFeeBps f)) as Hfee.
  { unfold FeeOf. case_match; [lia|]. apply quot_nonneg; [nia|done]. }
  destruct (_ || _) eqn:E0; [cbn; nia|]. breflect.
  destruct (Z.ltb_spec 0 improvement) as [Hi|Hi]; cbn [negb]; [|nia].
  assert (0 <= Z.quot (improvement * FeeTick) (f_Price f)) as Hr
    by (apply quot_nonneg; [unfold FeeTick; lia|lia]).
  assert (f_Price f * Z.quot (improvement * FeeTick) (f_Price f) <= improvement * FeeTick) as Hr2.
  { rewrite quot_nonneg_div by (unfold FeeTick; lia). apply Z.mul_div_le. lia. }
  set (rate := Z.quot (improvement * FeeTick) (f_Price f)) in *.
  set (eff := if f_LiquidationFeeBps f <? rate then f_LiquidationFeeBps f else rate).
  assert (0 <= eff /\ eff <= f_LiquidationFeeBps f /\ eff <= rate) as (He0 & He1 & He2)
    by (unfold eff; case_match; breflect; lia).
  clearbody eff rate. destruct (Z.ltb_spec 0 eff); cbn [negb]; [|nia].
  assert (f_BaseAmount f <> 0) by done.
  assert (FeeOf notional (f_LiquidationFeeBps f) = Z.quot (notional * f_LiquidationFeeBps f) FeeTick) as ->.
  { unfold FeeOf. rewrite (proj2 (Z.eqb_neq (f_LiquidationFeeBps f) 0)) by lia.
    rewrite (proj2 (Z.eqb_neq notional 0)) by (unfold notional; nia). done. }
  split_and!.
  - apply quot_nonneg; [nia|done].
  - apply quot_mono; [done|nia].
  - rewrite quot_nonneg_div by (done || nia). apply Z.div_le_upper_bound; [done|].
    rewrite Z.max_r by lia. unfold notional.
    assert (f_Price f * eff <= improvement * FeeTick) by nia. nia.
Qed.

(** Collateral of an account, zero when it does not exist. *)
Definition coll (i : Z) (c : Chain) : Z :=
  match GetAccount i c with Ok a => acc_Collateral a | _ => 0 end.

Lemma coll_add i d c u c' j :
  AddCollateral i d c = (Ok u, c') -> keyed c ->
  keyed c' /\ account c' <| ast_Accounts := ∅ |> = account c <| ast_Accounts := ∅ |> /\
  coll j c' = coll j c + (if decide (i = j) then d else 0).
Proof.
  intros (a & Ha & ->)%AddCollateral_ok Hk.
  assert (acc_AccountIndex a = i) as Hi.
  { apply of_option_ok in Ha. by apply (proj1 Hk). }
  split_and!; [auto|done|]. unfold coll. rewrite get_account_with. cbn. rewrite Hi.
  case_decide; [subst; by rewrite Ha|lia].
Qed.

Lemma applyCrossAccount_coll res fee isMaker liqFee c u c' j :
  applyCrossAccount res fee isMaker liqFee c = (Ok u, c') -> keyed c ->
  keyed c' /\
  coll j c' = coll j c +
    (if decide (pcr_AccountIdx res = j)
     then pcr_RealizedPnL res - fee - (if isMaker && (0 <? liqFee) then liqFee else 0) else 0).
Proof.
  intros H Hk. unfold applyCrossAccount, crossAddCollateral, crossDebit in H. inv_ok.
  assert (keyed x0 /\ coll j x0 = coll j c +
    (if decide (pcr_AccountIdx res = j) then pcr_RealizedPnL res - fee else 0)) as [K1 C1].
  { destruct (fee =? 0) eqn:Hf; cbn [negb] in *; breflect; subst;
      (match goal with H : (if negb (?d =? 0) then _ else _) _ = _ |- _ =>
         destruct (d =? 0) eqn:Hd; cbn [negb] in H; breflect; inv_ok;
         [split; [done|case_decide; lia]
         | destruct (coll_add _ _ _ _ _ j H Hk) as (? & _ & ->); split; [done|case_decide; lia]] end). }
  destruct (isMaker && (0 <? liqFee)); inv_ok; subst; [|split; [done|case_decide; lia]].
  destruct (liqFee =? 0) eqn:Hl; inv_ok; breflect; subst; [split; [done|case_decide; lia]|].
  destruct (coll_add _ _ _ _ _ j H K1) as (? & _ & ->). split; [done|]. case_decide; lia.
Qed.

Lemma credit_fees_coll f tf mf lf c u c' j :
  credit_fees f tf mf lf c = (Ok u, c') -> keyed c ->
  (f_NoFee f = true -> tf = 0 /\ mf = 0 /\ lf = 0) ->
  let recipient := if f_LiquidationFeeRecipient f =? 0
                   then InsuranceFundOperatorAccountIdx else f_LiquidationFeeRecipient f in
  coll j c' = coll j c + (if decide (TreasuryAccountIndex = j) then tf + mf else 0)
              + (if decide (recipient = j) then (if 0 <? lf then lf else 0) else 0).
Proof.
  intros H Hk Hn recipient. unfold credit_fees in H.
  destruct (f_NoFee f); inv_ok; [destruct Hn as (-> & -> & ->); [done|]; repeat case_decide; subst; cbn; lia|].
  assert (keyed x0 /\ coll j x0 = coll j c + (if decide (TreasuryAccountIndex = j) then tf + mf else 0)) as [K1 C1].
  { destruct (negb _) eqn:Hz; inv_ok; breflect; subst;
      [destruct (coll_add _ _ _ _ _ j H0 Hk) as (? & _ & ->)|]; (split; [done|case_decide; lia]). }
  destruct (0 <? lf); inv_ok; subst.
  - destruct (coll_add _ _ _ _ _ j H K1) as (_ & _ & ->). fold recipient. lia.
  - repeat case_decide; lia.
Qed.

Lemma coll_frame j c c' :
  ast_Accounts (account c') = ast_Accounts (account c) -> coll j c' = coll j c.
Proof. unfold coll, GetAccount. by intros ->. Qed.

(** The first half of the pipeline touches no account and no margin mode. *)
Lemma settle_frame a m c u c' :
  SettlePositionFunding a m c = (Ok u, c') -> keyed c ->
  ast_Accounts (account c') = ast_Accounts (account c) /\
  (forall b n, pos_MarginMode (GetPosition b n c') = pos_MarginMode (GetPosition b n c)).
Proof.
  intros Hs Hk. apply SettlePositionFunding_inv in Hs as (d & _ & ->); [|done].
  destruct (get_position_key c a m Hk) as [Ha Hm]. split; [done|].
  intros b n. rewrite get_position_with. cbn. rewrite Ha, Hm. case_decide; [by simplify_eq|done].
Qed.

Lemma changed_frame a m price d c res c' :
  changed a m price d c res c' -> keyed c ->
  ast_Accounts (account c') = ast_Accounts (account c) /\
  (forall b n, pos_MarginMode (GetPosition b n c') = pos_MarginMode (GetPosition b n c)).
Proof.
  intros [_ _ _ Hnew -> _ _ _ _] Hk. destruct (get_position_key c a m Hk) as [Ha Hm].
  split; [done|]. intros b n. rewrite get_position_with, Hnew. cbn. rewrite Ha, Hm.
  case_decide; [by simplify_eq|done].
Qed.

Lemma changed_other a m price d c res c' b n :
  changed a m price d c res c' -> keyed c -> b <> a -> GetPosition b n c' = GetPosition b n c.
Proof.
  intros [_ _ _ Hnew -> _ _ _ _] Hk Hb. destruct (get_position_key c a m Hk) as [Ha Hm].
  rewrite get_position_with, Hnew. cbn. rewrite Ha, Hm. case_decide; [by simplify_eq|done].
Qed.

(** The liquidation fee that changes hands is the positive one. *)
Lemma liq_fee_paid f notional :
  let lf := if negb (f_NoFee f) && (0 <? f_LiquidationFeeBps f) then liquidationImprovementFee f notional else 0 in
  (if f_NoFee f then 0 else if 0 <? f_LiquidationFeeBps f
   then Z.max 0 (liquidationImprovementFee f notional) else 0) = if 0 <? lf then lf else 0.
Proof.
  destruct (f_NoFee f); [done|]. cbn [negb andb]. destruct (0 <? f_LiquidationFeeBps f); [|done]. cbv zeta.
  destruct (Z.ltb_spec 0 (liquidationImprovementFee f notional)); lia.
Qed.

(** C29: what a cross-margin fill pays whom, for every account. For a fill
    between two different accounts whose positions in the market are both on
    cross margin, liquidation fill or not, the collateral of any account
    changes by exactly the sum of the roles it has: the taker receives its
    realized PnL (what [ApplyFill] realizes on the position once its funding
    is settled) and pays the taker fee; the maker receives its realized PnL
    and pays the maker fee and the whole liquidation fee, whichever side is
    being liquidated; the treasury collects both trading fees and the
    recipient the liquidation fee; everyone else is untouched. All fees are
    zero on a fill without fees, and the liquidation fee is zero unless the
    fill carries a liquidation rate. *)
Theorem cross_fill_settlement f c c' :
  Apply f c = (Ok tt, c') -> keyed c ->
  let maker := f_MakerAccountIndex f in
  let taker := f_TakerAccountIndex f in
  let recipient := if f_LiquidationFeeRecipient f =? 0
                   then InsuranceFundOperatorAccountIdx else f_LiquidationFeeRecipient f in
  maker <> taker ->
  pos_MarginMode (GetPosition maker (f_MarketIndex f) c) <> IsolatedMargin ->
  pos_MarginMode (GetPosition taker (f_MarketIndex f) c) <> IsolatedMargin ->
  let notional := f_BaseAmount f * f_Price f in
  let takerFee := if f_NoFee f then 0 else FeeOf notional (f_TakerFee f) in
  let makerFee := if f_NoFee f then 0 else FeeOf notional (f_MakerFee f) in
  let liqFee := if f_NoFee f then 0 else if 0 <? f_LiquidationFeeBps f
                then Z.max 0 (liquidationImprovementFee f notional) else 0 in
  let bought := if f_IsTakerAsk f then - f_BaseAmount f else f_BaseAmount f in
  exists c2, (SettlePositionFunding maker (f_MarketIndex f);;
              SettlePositionFunding taker (f_MarketIndex f)) c = (Ok tt, c2) /\
    let pnl a delta := fr_RealizedPnL (ApplyFill (GetPosition a (f_MarketIndex f) c2) delta (f_Price f)) in
    forall j, coll j c' = coll j c
      + (if decide (taker = j) then pnl taker bought - takerFee else 0)
      + (if decide (maker = j) then pnl maker (- bought) - makerFee - liqFee else 0)
      + (if decide (TreasuryAccountIndex = j) then takerFee + makerFee else 0)
      + (if decide (recipient = j) then liqFee else 0).
Proof.
  intros H Hk maker taker recipient Hmt_ne Hmm Hmt notional takerFee makerFee liqFee bought.
  unfold Apply in H. fold notional takerFee makerFee in H.
  set (lf := if negb (f_NoFee f) && _ then _ else _) in H.
  pose proof (liq_fee_paid f notional) as Hlf. fold lf liqFee in Hlf.
  assert (f_NoFee f = true -> takerFee = 0 /\ makerFee = 0 /\ lf = 0) as Hfree
    by (intros E; unfold takerFee, makerFee, lf; by rewrite E).
  clearbody lf liqFee takerFee makerFee. inv_ok.
  repeat match goal with x : unit |- _ => destruct x end.
  subst maker taker notional.
  apply snapshot_if_ok in H2 as [-> _]. apply snapshot_if_ok in H3 as [-> _].
  pose proof (keyed_settle _ _ _ _ _ Hk H0) as Hk1. pose proof (keyed_settle _ _ _ _ _ Hk1 H1) as Hk2.
  apply applyPositionChange_inv in H4; [|done]. pose proof (keyed_changed _ _ _ _ _ _ _ H4 Hk2) as Hk3.
  apply applyPositionChange_inv in H5; [|done]. pose proof (keyed_changed _ _ _ _ _ _ _ H5 Hk3) as Hk4.
  destruct (settle_frame _ _ _ _ _ H0 Hk) as [A1 G1]. destruct (settle_frame _ _ _ _ _ H1 Hk1) as [A2 G2].
  destruct (changed_frame _ _ _ _ _ _ _ H4 Hk2) as [A3 G3].
  destruct (changed_frame _ _ _ _ _ _ _ H5 Hk3) as [A4 G4].
  unfold applyAccount in H6, H7.
  rewrite (ch_old _ _ _ _ _ _ _ H5), G3, G2, G1, (proj2 (Z.eqb_neq _ _) Hmt) in H6.
  rewrite (ch_old _ _ _ _ _ _ _ H4), G2, G1, (proj2 (Z.eqb_neq _ _) Hmm) in H7.
  assert (forall j, coll j c' = coll j x16) as Cend.
  { intros j. apply UpdateOpenInterest_ok in H9 as (d & _ & _ & _ & ->).
    apply coll_frame. destruct (f_NoRiskCheck f); inv_ok; subst; [done|].
    apply check_side_ok in H2 as [-> _]. by apply check_side_ok in H as [-> _]. }
  assert (forall j, coll j x10 = coll j c) as Cbeg by (intros j; apply coll_frame; congruence).
  assert (keyed x12) as K12 by by apply (applyCrossAccount_coll _ _ _ _ _ _ _ 0 H6).
  assert (keyed x14) as K14 by by apply (applyCrossAccount_coll _ _ _ _ _ _ _ 0 H7).
  exists x2. split; [by rewrite (run_bind _ _ _ _ _ H0)|]. intros pnl.
  assert (forall x : Z, x * (if negb (f_IsTakerAsk f) then -1 else 1) = - (if f_IsTakerAsk f then - x else x)) as S1
    by (intros x; destruct (f_IsTakerAsk f); cbn; lia).
  pose proof (ch_pnl _ _ _ _ _ _ _ H4) as Pm. pose proof (ch_pnl _ _ _ _ _ _ _ H5) as Pt.
  rewrite (changed_other _ _ _ _ _ _ _ _ _ H4 Hk2) in Pt by done. rewrite S1 in Pm. rewrite Z.mul_opp_r, S1, Z.opp_involutive in Pt.
  unfold pnl, bought. rewrite <- Pm, <- Pt.
  intros j. rewrite Cend, <- Cbeg.
  rewrite (credit_fees_coll _ _ _ _ _ _ _ j H8 K14 Hfree).
  rewrite (proj2 (applyCrossAccount_coll _ _ _ _ _ _ _ j H7 K12)).
  rewrite (proj2 (applyCrossAccount_coll _ _ _ _ _ _ _ j H6 Hk4)).
  rewrite (ch_account _ _ _ _ _ _ _ H4), (ch_account _ _ _ _ _ _ _ H5). fold recipient.
  cbn [andb]. rewrite Hlf. destruct (0 <? lf); repeat case_decide; lia.
Qed.

(** ** Spot settlement *)

Lemma spot_debit_conserves from to x amt (b : bool) c c' :
  (if b then spotMakerDebit from to x amt else spotTakerDebit from to x amt) c = (Ok tt, c') ->
  keyed c -> from <> to ->
  keyed c' /\ forall y, total_balance y c' = total_balance y c.
Proof.
  intros H Hk Hne. unfold spotMakerDebit, spotTakerDebit in H.
  assert (exists l, TransferAccountAssetBalance from to x amt l c = (Ok tt, c')) as [l Ht]
    by (destruct b; case_match; inv_ok; eauto).
  destruct (get_asset_key c from x Hk) as [Hf1 Hf2]. destruct (get_asset_key c to x Hk) as [Ht1 Ht2].
  apply transfer_ok in Ht as [[-> ->]|(Hpos & lk & ->)]; [done|].
  split; [auto|]. intros y.
  rewrite (bsum_with_asset _ _ to x), (bsum_with_asset _ _ from x) by auto.
  rewrite get_asset_with; cbn. rewrite Hf1, Hf2, decide_False by congruence.
  destruct (x =? y); lia.
Qed.

(** C35: a spot fill between two accounts, neither of them the treasury,
    conserves the total balance of every asset, fees included. *)
Theorem spot_fill_conserves f base quote c c' :
  ApplySpotMatching f base quote c = (Ok tt, c') -> keyed c ->
  sf_MakerAccountIndex f <> sf_TakerAccountIndex f ->
  sf_MakerAccountIndex f <> TreasuryAccountIndex -> sf_TakerAccountIndex f <> TreasuryAccountIndex ->
  forall x, total_balance x c' = total_balance x c.
Proof.
  intros H Hk Hmt Hm Ht. unfold ApplySpotMatching in H. inv_ok.
  repeat match goal with x : unit |- _ => destruct x end.
  assert (keyed x0 /\ forall y, total_balance y x0 = total_balance y c) as [K1 B1].
  { destruct (sf_IsTakerAsk f); inv_ok; repeat match goal with x : unit |- _ => destruct x end;
    match goal with H1 : spotMakerDebit _ _ _ _ _ = _, H2 : spotTakerDebit _ _ _ _ _ = _ |- _ =>
      destruct (spot_debit_conserves _ _ _ _ true _ _ H1 Hk ltac:(done)) as [K1 B1];
      destruct (spot_debit_conserves _ _ _ _ false _ _ H2 K1 ltac:(done)) as [K2 B2] end;
    (split; [done|]; intros y; by rewrite B2, B1). }
  destruct (sf_NoFee f); inv_ok; [by subst|]. repeat match goal with x : unit |- _ => destruct x end.
  assert (keyed x1 /\ forall y, total_balance y x1 = total_balance y c) as [K2 B2].
  { destruct (0 <? FeeOf _ (sf_TakerFee f)); inv_ok; [|subst; split; assumption].
    destruct (spot_debit_conserves _ _ _ _ false _ _ H1 K1 ltac:(done)) as [? B].
    split; [done|]. intros y. by rewrite B, B1. }
  intros y. rewrite <- B2. case_match; inv_ok; [|by subst].
  by apply (spot_debit_conserves _ _ _ _ true _ _ H K2).
Qed.

(** ** Concrete runs *)

Definition trade_demo : Chain :=
  demo_perps <| account := account demo_perps
    <| ast_Accounts := <[1 := new_account 1 0 "insurance" 0 0]> (ast_Accounts (account demo_perps)) |> |>.

(** The same with the taker selling, ten above the zero price. *)
Definition trade_liq : Fill := mkFill 2 3 0 100 4 true 0 0 false false false false 90 10000 0.
Definition trade_liq_after : Chain := (Apply trade_liq trade_demo).2.

(** Account 3 buys 4 from account 2 at 100; the taker pays 5 bps. *)
Definition trade_fill : Fill := mkFill 2 3 0 100 4 false 500 200 false false false false 90 10000 0.
Definition trade_after : Chain := (Apply trade_fill trade_demo).2.

(** The same with the maker's risk check skipped. *)
Definition trade_skip : Fill := mkFill 2 3 0 100 4 false 500 200 false false true false 90 10000 0.
Definition trade_skip_after : Chain := (Apply trade_skip trade_demo).2.

Lemma apply_keeps_market_balanced_witness :
  2 * open_interest 0 trade_after = gross_base 0 trade_after.
Proof.
  apply (apply_keeps_market_balanced trade_fill trade_demo trade_after);
    [by_compute|by_decide..|by_compute|by_compute].
Defined.

Lemma apply_conserves_ledger_witness :
  exists c2, (SettlePositionFunding 2 0;; SettlePositionFunding 3 0) trade_demo = (Ok tt, c2) /\
    Z.abs (ledger trade_after - ledger c2) <= 2.
Proof.
  apply (apply_conserves_ledger trade_fill trade_demo trade_after); [by_compute|by_decide..].
Defined.

Lemma apply_respects_bounds_witness :
  Z.abs (pos_BaseSize (GetPosition 2 (f_MarketIndex trade_fill) trade_after)) <= MaxPositionSize.
Proof.
  destruct (apply_respects_bounds trade_fill trade_demo trade_after) as [_ H]; [by_compute|by_decide..|].
  exact (proj1 (H 2 (or_introl eq_refl))).
Defined.

Lemma apply_checks_risk_witness :
  exists after, GetHealthStatus 3 trade_skip_after = Ok after /\ after = HealthHealthy.
Proof.
  destruct (apply_checks_risk trade_skip trade_demo trade_skip_after) as (c2 & H & Hc);
    [by_compute|by_decide|].
  destruct (Hc 3) as (before & after & Hb & Ha & _ & Hh); [by right|by repeat split|].
  exists after. split; [done|]. apply Hh.
  vm_compute in H. injection H as <-. vm_compute in Hb. injection Hb as <-. done.
Defined.

Lemma liquidation_fee_bounded_witness :
  liquidationImprovementFee trade_liq 400 <= 4.
Proof.
  apply (liquidation_fee_bounded trade_liq); cbn; lia.
Defined.

Lemma cross_fill_settlement_witness :
  exists c2, coll 2 trade_liq_after =
    1000 + fr_RealizedPnL (ApplyFill (GetPosition 2 0 c2) 4 100) - 0 - 4 /\ coll 1 trade_liq_after = 4.
Proof.
  destruct (cross_fill_settlement trade_liq trade_demo trade_liq_after) as (c2 & _ & C).
  - by_compute.
  - by_decide.
  - by_decide.
  - by_decide.
  - by_decide.
  - exists c2. split; [|exact (C 1)].
    transitivity (1000 + 0 + (fr_RealizedPnL (ApplyFill (GetPosition 2 0 c2) 4 100) - 0 - 4) + 0 + 0);
      [exact (C 2)|lia].
Defined.

Definition spot_fill : SpotFill := mkSpotFill 2 3 2048 1 20 false 100000 50000 false.
Definition spot_chain : Chain :=
  empty_chain <| account := account empty_chain
    <| ast_AccountAssets := list_to_map
         [((2, 4), mkAccountAsset 2 4 100 30 0); ((2, 3), mkAccountAsset 2 3 10 0 0);
          ((3, 3), mkAccountAsset 3 3 500 0 0)] |> |>.

Lemma spot_fill_conserves_witness :
  total_balance 3 (ApplySpotMatching spot_fill 4 3 spot_chain).2 = 510.
Proof.
  rewrite (spot_fill_conserves spot_fill 4 3 spot_chain (ApplySpotMatching spot_fill 4 3 spot_chain).2);
    [by_compute|by_compute|by_decide|by_decide..].
Defined.
