(* ===== verification/OrderBook.v ===== *)
(** * The order book

    [x/orderbook]: the sortable key ([types/sortable_key.go]), the entry and
    price-level layer ([keeper/entries.go]), the order and index layer
    ([keeper/orders.go]), the lifecycle operations that compose the two
    ([keeper/lifecycle.go]), the expiry sweep ([keeper/abci.go]) and the
    genesis restore ([keeper/genesis.go]). *)

From S2P Require Import Prelude Constants Types Account Market Funding.

(** ** Sortable keys *)

Definition AskSideByte : Z := 0.
Definition BidSideByte : Z := 1.
Definition SortableKeyLen : Z := 13.

Definition SideByte (isAsk : bool) : Z := if isAsk then AskSideByte else BidSideByte.

(** [binary.BigEndian.PutUint32]/[PutUint64]: the [n] low bytes of [z]. *)
Fixpoint be_bytes (n : nat) (z : Z) : list Z :=
  match n with
  | O => []
  | S n => be_bytes n (z / 256) ++ [z mod 256]
  end.

(** [^x] on a [w]-bit unsigned integer. *)
Definition unot (w x : Z) : Z := 2 ^ w - 1 - x.

Definition SortableKey (price nonce : Z) (isAsk : bool) : list Z :=
  SideByte isAsk ::
  (if isAsk then be_bytes 4 price ++ be_bytes 8 (wrap64 nonce)
   else be_bytes 4 (unot 32 price) ++ be_bytes 8 (unot 64 (wrap64 nonce))).

(** ** Keeper ([keeper.go]) *)

Definition set_book (f : BookStore -> BookStore) : K unit :=
  modify (fun c => c <| book := f (book c) |>).

Definition AllocateOrderIndex : K Z := fun c =>
  let n := bst_NextOrderIndex (book c) in
  (Ok n, c <| book := book c <| bst_NextOrderIndex := wrap64 (n + 1) |> |>).

Definition GetOrder (idx : Z) (c : Chain) : R Order :=
  of_option (bst_Orders (book c) !! idx) (EBook ErrOrderNotFound).

Definition setOrder (o : Order) : K unit :=
  set_book (fun b => b <| bst_Orders := <[ord_OrderIndex o := o]> (bst_Orders b) |>).

Definition GetOrderByClientID (market account clientID : Z) (c : Chain) : R Order :=
  idx ← of_option (bst_UserOrderIndex (book c) !! (market, account, clientID)) (EBook ErrOrderNotFound);
  GetOrder idx c.

(** ** Entries and price levels ([entries.go]) *)

Definition CheckedQuote (base price : Z) : R Z :=
  if (base =? 0) || (price =? 0) then mret 0
  else
    let product := base * price in
    ensure (negb (MaxOrderQuoteAmount <? product)) (EBook ErrQuoteOverflow);;
    ensure ((- 2 ^ 63 <=? product) && (product <? 2 ^ 63)) (EBook ErrQuoteOverflow);;
    mret product.

Definition MaxUint64 : Z := 2 ^ 64 - 1.
Definition MaxUint32 : Z := 2 ^ 32 - 1.

Definition ApplyMagDelta (cur mag sign : Z) : R Z :=
  if sign =? 0 then mret cur
  else if sign =? 1 then
    ensure (negb (MaxUint64 - mag <? cur)) (EBook ErrPriceLevelOverflow);;
    mret (cur + mag)
  else if sign =? -1 then
    ensure (negb (cur <? mag)) (EBook ErrInvariantViolated);;
    mret (cur - mag)
  else Err (EBook ErrInvariantViolated).

Definition ApplyCountDelta (cur delta : Z) : R Z :=
  let next := cur + delta in
  ensure (negb (next <? 0)) (EBook ErrInvariantViolated);;
  ensure (negb (MaxUint32 <? next)) (EBook ErrPriceLevelOverflow);;
  mret (wrap32 next).

Definition empty_level (market price : Z) : PriceLevelAggregate :=
  mkPriceLevelAggregate market price 0 0 0 0 0 0.

(** The aggregate after the deltas, one side's three fields changed. *)
Definition bump_level (pl : PriceLevelAggregate) (isAsk : bool) (baseMag quoteMag sign countDelta : Z)
  : R PriceLevelAggregate :=
  if isAsk then
    next ← ApplyMagDelta (pl_AskBaseSum pl) baseMag sign;
    nextQuote ← ApplyMagDelta (pl_AskQuoteSum pl) quoteMag sign;
    nextCount ← ApplyCountDelta (pl_AskCount pl) countDelta;
    mret (pl <| pl_AskBaseSum := next |> <| pl_AskQuoteSum := nextQuote |> <| pl_AskCount := nextCount |>)
  else
    next ← ApplyMagDelta (pl_BidBaseSum pl) baseMag sign;
    nextQuote ← ApplyMagDelta (pl_BidQuoteSum pl) quoteMag sign;
    nextCount ← ApplyCountDelta (pl_BidCount pl) countDelta;
    mret (pl <| pl_BidBaseSum := next |> <| pl_BidQuoteSum := nextQuote |> <| pl_BidCount := nextCount |>).

Definition level_is_zero (pl : PriceLevelAggregate) : bool :=
  (pl_AskBaseSum pl =? 0) && (pl_BidBaseSum pl =? 0) &&
  (pl_AskQuoteSum pl =? 0) && (pl_BidQuoteSum pl =? 0) &&
  (pl_AskCount pl =? 0) && (pl_BidCount pl =? 0).

Definition adjustPriceLevel (market : Z) (isAsk : bool) (price baseMag quoteMag sign countDelta : Z)
  : K unit := fun c =>
  (lift (ensure (negb (negb (sign =? 1) && negb (sign =? -1) && negb (sign =? 0)))
           (EBook ErrInvariantViolated));;
   let key := (market, price) in
   let pl := default (empty_level market price) (bst_PriceLevels (book c) !! key) in
   pl ← lift (bump_level pl isAsk baseMag quoteMag sign countDelta);
   if level_is_zero pl
   then set_book (fun b => b <| bst_PriceLevels := delete key (bst_PriceLevels b) |>)
   else set_book (fun b => b <| bst_PriceLevels := <[key := pl]> (bst_PriceLevels b) |>)) c.

Definition Entries_Set (key : Z * list Z) (e : OrderBookEntry) : K unit :=
  set_book (fun b => b <| bst_OrderBookEntries := <[key := e]> (bst_OrderBookEntries b) |>).
Definition Entries_Remove (key : Z * list Z) : K unit :=
  set_book (fun b => b <| bst_OrderBookEntries := delete key (bst_OrderBookEntries b) |>).
Definition SortKey_Set (key : Z * Z) (sk : list Z) : K unit :=
  set_book (fun b => b <| bst_OrderToSortKey := <[key := sk]> (bst_OrderToSortKey b) |>).
Definition SortKey_Remove (key : Z * Z) : K unit :=
  set_book (fun b => b <| bst_OrderToSortKey := delete key (bst_OrderToSortKey b) |>).

Definition insertEntry (market : Z) (isAsk : bool) (o : OrderBookEntry) : K unit :=
  quote ← lift (CheckedQuote (ent_RemainingBaseAmount o) (ent_Price o));
  let sk := SortableKey (ent_Price o) (ent_Nonce o) isAsk in
  Entries_Set (market, sk) o;;
  SortKey_Set (market, ent_OrderIndex o) sk;;
  adjustPriceLevel market isAsk (ent_Price o) (ent_RemainingBaseAmount o) quote 1 1.

Definition removeEntry (market : Z) (isAsk : bool) (orderIndex : Z) : K unit := fun c =>
  match bst_OrderToSortKey (book c) !! (market, orderIndex) with
  | None => (Ok tt, c)
  | Some sk =>
      match bst_OrderBookEntries (book c) !! (market, sk) with
      | None => (Ok tt, c)
      | Some entry =>
          (Entries_Remove (market, sk);;
           SortKey_Remove (market, orderIndex);;
           quote ← lift (CheckedQuote (ent_RemainingBaseAmount entry) (ent_Price entry));
           adjustPriceLevel market isAsk (ent_Price entry) (ent_RemainingBaseAmount entry)
             quote (-1) (-1)) c
      end
  end.

(** Returns [entryRemoved] and [filledQuote]. *)
Definition shrinkEntryResidue (market : Z) (isAsk : bool) (orderIndex delta : Z) : K (bool * Z) :=
  sk ← reads (fun c => of_option (bst_OrderToSortKey (book c) !! (market, orderIndex)) ENotFound);
  entry ← reads (fun c => of_option (bst_OrderBookEntries (book c) !! (market, sk)) ENotFound);
  let delta := if ent_RemainingBaseAmount entry <? delta then ent_RemainingBaseAmount entry else delta in
  let entry := entry <| ent_RemainingBaseAmount := ent_RemainingBaseAmount entry - delta |> in
  filledQuote ← lift (CheckedQuote delta (ent_Price entry));
  adjustPriceLevel market isAsk (ent_Price entry) delta filledQuote (-1) 0;;
  if ent_RemainingBaseAmount entry =? 0 then
    Entries_Remove (market, sk);;
    SortKey_Remove (market, orderIndex);;
    adjustPriceLevel market isAsk (ent_Price entry) 0 0 0 (-1);;
    mret (true, filledQuote)
  else
    Entries_Set (market, sk) entry;;
    mret (false, filledQuote).

(** [sidePrefixedRange]: start inclusive, end exclusive. *)
Definition range_bound (side : Z) : list Z := side :: replicate 12 0.
Definition sidePrefixedRange (market : Z) (isAsk : bool) (key : Z * list Z) : Prop :=
  key_le (market, range_bound (SideByte isAsk)) key = true /\
  key_le (market, range_bound (SideByte isAsk + 1)) key = false.
#[global] Instance sidePrefixedRange_dec market isAsk key : Decision (sidePrefixedRange market isAsk key).
Proof. unfold sidePrefixedRange. apply _. Defined.

Definition PeekBest (market : Z) (isAsk : bool) (c : Chain) : option OrderBookEntry :=
  snd <$> head (filter (fun kv => sidePrefixedRange market isAsk kv.1)
                  (rows (bst_OrderBookEntries (book c)))).

Definition WouldCross (market : Z) (isAsk : bool) (price : Z) (c : Chain) : bool :=
  match PeekBest market (negb isAsk) c with
  | None => false
  | Some best => if isAsk then price <=? ent_Price best else ent_Price best <=? price
  end.

Definition BestBidAsk (market : Z) (c : Chain) : Z * Z :=
  (from_option ent_Price 0 (PeekBest market false c), from_option ent_Price 0 (PeekBest market true c)).

Definition MarketImpactNotional (market : Z) (c : Chain) : R Z :=
  d ← GetMarketDetails market c;
  if md_MinInitialMarginFraction d =? 0 then mret 0
  else
    let qm := if md_QuoteMultiplier d =? 0 then 1 else md_QuoteMultiplier d in
    let out := Z.quot (ImpactUSDCAmount * MarginTick) (md_MinInitialMarginFraction d * qm) in
    ensure ((0 <=? out) && (out <? U64)) (EBook ErrInvariantViolated);;
    mret out.

(** The walk over the levels of one side: [(accBase, accQuote)]. The
    integer division panics at a zero price. *)
Fixpoint impact_walk (isAsk : bool) (notional : Z) (levels : list PriceLevelAggregate)
    (accBase accQuote : Z) : R (Z * Z) :=
  match levels with
  | [] => mret (accBase, accQuote)
  | v :: levels =>
      let lvBase := if isAsk then pl_AskBaseSum v else pl_BidBaseSum v in
      let lvQuote := if isAsk then pl_AskQuoteSum v else pl_BidQuoteSum v in
      if lvBase =? 0 then impact_walk isAsk notional levels accBase accQuote
      else if notional <=? wrap64 (accQuote + lvQuote) then
        let needQuote := wrap64 (notional - accQuote) in
        let price := pl_Price v in
        if price =? 0 then Panic
        else
          let needBase := wrap64 (needQuote + price - 1) / price in
          let needBase := if needBase =? 0 then 1 else needBase in
          mret (wrap64 (accBase + needBase), wrap64 (accQuote + wrap64 (needBase * price)))
      else impact_walk isAsk notional levels (wrap64 (accBase + lvBase)) (wrap64 (accQuote + lvQuote))
  end.

(** The price levels of a market in ascending price order. *)
Definition market_levels (market : Z) (c : Chain) : list PriceLevelAggregate :=
  (filter (fun kv => kv.1.1 = market) (rows (bst_PriceLevels (book c)))).*2.

Definition ComputeImpactPrice (market : Z) (isAsk : bool) (c : Chain) : R Z :=
  notional ← MarketImpactNotional market c;
  if notional =? 0 then mret 0
  else
    let levels := if isAsk then market_levels market c else rev (market_levels market c) in
    '(accBase, accQuote) ← impact_walk isAsk notional levels 0 0;
    if (accQuote <? notional) || (accBase =? 0) then mret 0
    else if isAsk then mret (wrap32 (wrap64 (accQuote + accBase - 1) / accBase))
    else mret (wrap32 (accQuote / accBase)).

(** The order book discharges x/funding's interface. *)
#[global] Instance book_impact : ImpactSource := {| ImpactPrice := ComputeImpactPrice |}.

(** ** Orders and indexes ([orders.go]) *)

(** Returns the order and [drained]. *)
Definition applyOrderResidue (o : Order) (delta : Z) : Order * bool :=
  let delta := if ord_RemainingBaseAmount o <? delta then ord_RemainingBaseAmount o else delta in
  let o := o <| ord_RemainingBaseAmount := ord_RemainingBaseAmount o - delta |> in
  (o, ord_RemainingBaseAmount o =? 0).

Definition client_key (o : Order) : Z * Z * Z :=
  (ord_MarketIndex o, ord_OwnerAccountIndex o, ord_ClientOrderIndex o).

Definition indexClientOrder (o : Order) : K unit :=
  if ord_ClientOrderIndex o =? 0 then mret tt
  else set_book (fun b => b <| bst_UserOrderIndex :=
                   <[client_key o := ord_OrderIndex o]> (bst_UserOrderIndex b) |>).

Definition unindexClientOrder (o : Order) : K unit :=
  if ord_ClientOrderIndex o =? 0 then mret tt
  else set_book (fun b => b <| bst_UserOrderIndex := delete (client_key o) (bst_UserOrderIndex b) |>).

Definition unindexClientOrderIfMatches (o : Order) : K unit := fun c =>
  if ord_ClientOrderIndex o =? 0 then (Ok tt, c)
  else
    match bst_UserOrderIndex (book c) !! client_key o with
    | None => (Ok tt, c)
    | Some cur =>
        if negb (cur =? ord_OrderIndex o) then (Ok tt, c)
        else set_book (fun b => b <| bst_UserOrderIndex :=
                         delete (client_key o) (bst_UserOrderIndex b) |>) c
    end.

Definition is_open_status (s : Z) : bool :=
  (s =? OrderStatusOpen) || (s =? OrderStatusPartiallyFilled) || (s =? OrderStatusTriggeredPending).

Definition HasOpenClientOrder (market account clientID : Z) (c : Chain) : bool * Z :=
  if clientID =? 0 then (false, 0)
  else
    match bst_UserOrderIndex (book c) !! (market, account, clientID) with
    | None => (false, 0)
    | Some idx =>
        match GetOrder idx c with
        | Ok o => if is_open_status (ord_Status o) then (true, idx) else (false, 0)
        | _ => (false, 0)
        end
    end.

Definition accountOpenOrderKey (o : Order) : Z * Z * Z :=
  (ord_OwnerAccountIndex o, ord_MarketIndex o, ord_OrderIndex o).

Definition bumpAccountOpenOrderCount (accIdx marketIdx delta : Z) : K unit := fun c =>
  let key := (accIdx, marketIdx) in
  let cur := default 0 (bst_AccountOpenOrderCount (book c) !! key) in
  let next := cur + delta in
  (lift (ensure (negb (next <? 0)) (EBook ErrInvariantViolated));;
   lift (ensure (negb (MaxUint32 <? next)) (EBook ErrInvariantViolated));;
   if next =? 0 then
     if negb (cur =? 0) then
       set_book (fun b => b <| bst_AccountOpenOrderCount := delete key (bst_AccountOpenOrderCount b) |>)
     else mret tt
   else set_book (fun b => b <| bst_AccountOpenOrderCount :=
                    <[key := wrap32 next]> (bst_AccountOpenOrderCount b) |>)) c.

Definition indexAccountOpenOrder (o : Order) : K unit := fun c =>
  let key := accountOpenOrderKey o in
  let had := bool_decide (key ∈ bst_AccountOpenOrders (book c)) in
  (set_book (fun b => b <| bst_AccountOpenOrders := {[key]} ∪ bst_AccountOpenOrders b |>);;
   if had then mret tt
   else bumpAccountOpenOrderCount (ord_OwnerAccountIndex o) (ord_MarketIndex o) 1) c.

Definition unindexAccountOpenOrder (o : Order) : K unit := fun c =>
  let key := accountOpenOrderKey o in
  let had := bool_decide (key ∈ bst_AccountOpenOrders (book c)) in
  (set_book (fun b => b <| bst_AccountOpenOrders := bst_AccountOpenOrders b ∖ {[key]} |>);;
   if negb had then mret tt
   else bumpAccountOpenOrderCount (ord_OwnerAccountIndex o) (ord_MarketIndex o) (-1)) c.

Definition GetAccountOpenOrderCount (accIdx marketIdx : Z) (c : Chain) : Z :=
  default 0 (bst_AccountOpenOrderCount (book c) !! (accIdx, marketIdx)).

(** The orders the callback of [IterateAccountOpenOrders] is called on. *)
Definition IterateAccountOpenOrders (account marketFilter : Z) (c : Chain) : list Order :=
  omap (fun k : Z * Z * Z => bst_Orders (book c) !! k.2)
    (filter (fun k : Z * Z * Z =>
       k.1.1 = account /\ (marketFilter = 0 \/ k.1.2 = marketFilter))
       (keys (bst_AccountOpenOrders (book c)))).

Definition addTrigger (market triggerPrice orderIndex : Z) : K unit :=
  set_book (fun b => b <| bst_TriggerIndex := {[(market, triggerPrice, orderIndex)]} ∪ bst_TriggerIndex b |>).

Definition removeTrigger (market triggerPrice orderIndex : Z) : K unit :=
  set_book (fun b => b <| bst_TriggerIndex := bst_TriggerIndex b ∖ {[(market, triggerPrice, orderIndex)]} |>).

(** The orders the callback of [IterateTriggers] is called on. *)
Definition IterateTriggers (c : Chain) : list Order :=
  omap (fun k : Z * Z * Z => bst_Orders (book c) !! k.2) (keys (bst_TriggerIndex (book c))).

Definition indexExpiry (o : Order) : bool := (ord_TimeInForce o =? GTT) && (0 <? ord_Expiry o).

Definition addExpiryIndex (o : Order) : K unit :=
  if negb (indexExpiry o) then mret tt
  else set_book (fun b => b <| bst_ExpiryIndex := {[(ord_Expiry o, ord_OrderIndex o)]} ∪ bst_ExpiryIndex b |>).

Definition removeExpiryIndex (o : Order) : K unit :=
  if ord_Expiry o =? 0 then mret tt
  else set_book (fun b => b <| bst_ExpiryIndex := bst_ExpiryIndex b ∖ {[(ord_Expiry o, ord_OrderIndex o)]} |>).

Definition IsExpired (o : Order) (now : Z) : bool :=
  if negb (ord_TimeInForce o =? GTT) then false
  else (0 <? ord_Expiry o) && (ord_Expiry o <=? now).

Definition computeSpotLock (o : Order) (m : Market) : Z * Z :=
  if ord_IsAsk o then (mkt_BaseAssetId m, ord_RemainingBaseAmount o)
  else (mkt_QuoteAssetId m, ord_RemainingBaseAmount o * ord_Price o).

Definition applySpotLockOnOpen (o : Order) : K unit :=
  m ← reads (GetMarket (ord_MarketIndex o));
  if negb (mkt_MarketType m =? MarketTypeSpot) then mret tt
  else
    let '(assetID, amount) := computeSpotLock o m in
    IncreaseLockedBalance (ord_OwnerAccountIndex o) assetID amount.

Definition releaseSpotLockOnClose (o : Order) : K unit :=
  m ← reads (GetMarket (ord_MarketIndex o));
  if negb (mkt_MarketType m =? MarketTypeSpot) then mret tt
  else
    let '(assetID, amount) := computeSpotLock o m in
    DecreaseLockedBalance (ord_OwnerAccountIndex o) assetID amount.

(** ** Lifecycle ([lifecycle.go]) *)

Definition is_resting_status (s : Z) : bool :=
  (s =? OrderStatusOpen) || (s =? OrderStatusPartiallyFilled).

Definition entry_of (o : Order) : OrderBookEntry := {|
  ent_OrderIndex := ord_OrderIndex o;
  ent_OwnerAccountIndex := ord_OwnerAccountIndex o;
  ent_Price := ord_Price o;
  ent_Nonce := ord_Nonce o;
  ent_RemainingBaseAmount := ord_RemainingBaseAmount o;
  ent_Expiry := ord_Expiry o;
  ent_ReduceOnly := ord_ReduceOnly o;
  ent_OrderType := ord_OrderType o |}.

Definition OpenOrder (o : Order) : K unit :=
  (if is_resting_status (ord_Status o) then
     applySpotLockOnOpen o;;
     insertEntry (ord_MarketIndex o) (ord_IsAsk o) (entry_of o);;
     indexClientOrder o;;
     indexAccountOpenOrder o;;
     addExpiryIndex o
   else
     unindexClientOrderIfMatches o;;
     unindexAccountOpenOrder o;;
     removeExpiryIndex o);;
  setOrder o.

Definition OpenTriggerOrder (o : Order) : K unit :=
  addTrigger (ord_MarketIndex o) (ord_TriggerPrice o) (ord_OrderIndex o);;
  indexClientOrder o;;
  indexAccountOpenOrder o;;
  addExpiryIndex o;;
  setOrder o.

Definition ActivateTrigger (orderIndex : Z) : K Order :=
  o ← reads (GetOrder orderIndex);
  removeTrigger (ord_MarketIndex o) (ord_TriggerPrice o) (ord_OrderIndex o);;
  removeExpiryIndex o;;
  let o := o <| ord_Status := OrderStatusOpen |> in
  setOrder o;;
  mret o.

Definition FillMakerOrder (makerIndex filledBase : Z) : K Order :=
  maker ← reads (GetOrder makerIndex);
  let filledBase := if ord_RemainingBaseAmount maker <? filledBase
                    then ord_RemainingBaseAmount maker else filledBase in
  '(entryRemoved, _) ← shrinkEntryResidue (ord_MarketIndex maker) (ord_IsAsk maker) makerIndex filledBase;
  let '(maker, drained) := applyOrderResidue maker filledBase in
  lift (ensure (Bool.eqb entryRemoved drained) (EBook ErrInvariantViolated));;
  maker ← (if drained then
             let maker := maker <| ord_Status := OrderStatusFilled |> in
             unindexClientOrder maker;;
             unindexAccountOpenOrder maker;;
             removeExpiryIndex maker;;
             mret maker
           else mret (maker <| ord_Status := OrderStatusPartiallyFilled |>));
  setOrder maker;;
  mret maker.

(** The tail that every close shares: clear the indexes and store the order. *)
Definition close_order (o : Order) : K Order :=
  unindexClientOrderIfMatches o;;
  unindexAccountOpenOrder o;;
  removeExpiryIndex o;;
  setOrder o;;
  mret o.

Definition EvictMakerOrder (makerIndex terminalStatus : Z) : K Order :=
  maker ← reads (GetOrder makerIndex);
  removeEntry (ord_MarketIndex maker) (ord_IsAsk maker) makerIndex;;
  releaseSpotLockOnClose maker;;
  close_order (maker <| ord_Status := terminalStatus |>).

Definition CancelOrder (orderIndex : Z) : K Order :=
  o ← reads (GetOrder orderIndex);
  (if is_resting_status (ord_Status o) then
     lift (ensure (negb (ord_RemainingBaseAmount o =? 0)) (EBook ErrOrderNotCancelable));;
     removeEntry (ord_MarketIndex o) (ord_IsAsk o) (ord_OrderIndex o);;
     releaseSpotLockOnClose o
   else if ord_Status o =? OrderStatusTriggeredPending then
     removeTrigger (ord_MarketIndex o) (ord_TriggerPrice o) (ord_OrderIndex o)
   else lift (Err (EBook ErrOrderNotCancelable)));;
  close_order (o <| ord_Status := OrderStatusCancelled |>).

(** ** Expiry sweep ([abci.go]) *)

(** The scan stops at the first key past [now]. *)
Fixpoint take_due (now : Z) (l : list (Z * Z)) : list Z :=
  match l with
  | [] => []
  | (expiry, idx) :: l => if now <? expiry then [] else idx :: take_due now l
  end.

Definition collectExpiredOrders (now : Z) (c : Chain) : list Z :=
  take_due now (keys (bst_ExpiryIndex (book c))).

(** Every failure of a cancel is tolerated or logged; its writes stay. *)
Definition Book_EndBlocker : K unit := fun c =>
  forM (fun idx => attempt (CancelOrder idx);; mret tt) (collectExpiredOrders (BlockTime c) c) c.

(** ** Genesis ([genesis.go]) *)

Definition restoreGenesisOrderIndexes (o : Order) : K unit :=
  if is_resting_status (ord_Status o) then
    insertEntry (ord_MarketIndex o) (ord_IsAsk o) (entry_of o);;
    indexClientOrder o;;
    indexAccountOpenOrder o;;
    addExpiryIndex o
  else if ord_Status o =? OrderStatusTriggeredPending then
    addTrigger (ord_MarketIndex o) (ord_TriggerPrice o) (ord_OrderIndex o);;
    indexClientOrder o;;
    indexAccountOpenOrder o;;
    addExpiryIndex o
  else mret tt.

Definition Book_InitGenesis (nextOrderIndex : Z) (orders : list Order) : K unit :=
  let next := if nextOrderIndex <? 1 then 1 else nextOrderIndex in
  set_book (fun b => b <| bst_NextOrderIndex := next |>);;
  forM (fun o => restoreGenesisOrderIndexes o;; setOrder o) orders.

Definition Book_ExportGenesis (c : Chain) : Z * list Order :=
  (bst_NextOrderIndex (book c), (rows (bst_Orders (book c))).*2).

(** ** Price-time order of the keys *)

(** Byte order of big-endian encodings of the same width. *)
Lemma be_bytes_le n x y s t :
  0 <= x < 256 ^ Z.of_nat n -> 0 <= y < 256 ^ Z.of_nat n ->
  lex_le (be_bytes n x ++ s) (be_bytes n y ++ t) = if decide (x = y) then lex_le s t else x <=? y.
Proof.
  revert x y s t. induction n as [|n IH]; intros x y s t Hx Hy.
  - assert (x = y) by (cbn in *; lia). by rewrite decide_True.
  - rewrite Nat2Z.inj_succ, Z.pow_succ_r in Hx, Hy by lia.
    pose proof (Z.div_mod x 256 ltac:(lia)). pose proof (Z.div_mod y 256 ltac:(lia)).
    pose proof (Z.mod_pos_bound x 256 ltac:(lia)). pose proof (Z.mod_pos_bound y 256 ltac:(lia)).
    cbn [be_bytes]. rewrite <- !(assoc_L (++)), IH by lia. cbn [app lex_le].
    destruct (decide (x = y)) as [->|]; [by rewrite !decide_True|].
    repeat case_decide; cbn; try lia; apply eq_bool_prop_intro; rewrite ?Is_true_true, ?Z.leb_le; lia.
Qed.

Lemma be_bytes_le_end n x y :
  0 <= x < 256 ^ Z.of_nat n -> 0 <= y < 256 ^ Z.of_nat n ->
  lex_le (be_bytes n x) (be_bytes n y) = (x <=? y).
Proof.
  intros Hx Hy. pose proof (be_bytes_le n x y [] [] Hx Hy) as H. rewrite !app_nil_r in H.
  rewrite H. case_decide; [subst; cbn; symmetry; by apply Z.leb_le|done].
Qed.

(** [(p, n)] is matched before [(p', n')]: asks by ascending price and
    nonce, bids by descending price and nonce. Bid nonces are handed out in
    descending order, so on both sides the earlier order comes first. *)
Definition matched_before (isAsk : bool) (p n p' n' : Z) : Prop :=
  if isAsk then p < p' \/ (p = p' /\ n <= n') else p' < p \/ (p = p' /\ n' <= n).

Lemma sortable_key_le isAsk p n p' n' :
  0 <= p < 2 ^ 32 -> 0 <= p' < 2 ^ 32 -> 0 <= n < 2 ^ 63 -> 0 <= n' < 2 ^ 63 ->
  key_le (SortableKey p n isAsk) (SortableKey p' n' isAsk) = true <-> matched_before isAsk p n p' n'.
Proof.
  intros Hp Hp' Hn Hn'. cbn [key_le list_key]. unfold SortableKey, matched_before, unot.
  rewrite !wrap64_id by (unfold U64; lia).
  cbn [lex_le]. rewrite decide_True by done.
  destruct isAsk; rewrite be_bytes_le by lia;
    rewrite be_bytes_le_end by lia; case_decide; rewrite ?Z.leb_le; lia.
Qed.

(** ** The book invariant *)

Definition order_key (o : Order) : list Z := SortableKey (ord_Price o) (ord_Nonce o) (ord_IsAsk o).

(** An order that rests on the book. *)
Definition resting (o : Order) : Prop :=
  is_resting_status (ord_Status o) = true /\ 0 < ord_RemainingBaseAmount o /\
  0 <= ord_Price o < 2 ^ 32 /\ 0 <= ord_Nonce o < 2 ^ 63 /\
  ord_RemainingBaseAmount o * ord_Price o <= MaxOrderQuoteAmount.
#[global] Instance resting_dec o : Decision (resting o).
Proof. unfold resting. apply _. Defined.

Definition entry_contrib (isAsk : bool) (m p : Z) (f : OrderBookEntry -> Z)
    (kv : (Z * list Z) * OrderBookEntry) : Z :=
  if decide (kv.1.1 = m /\ head kv.1.2 = Some (SideByte isAsk) /\ ent_Price kv.2 = p) then f kv.2 else 0.

Definition side_sum (isAsk : bool) (m p : Z) (f : OrderBookEntry -> Z)
    (E : gmap (Z * list Z) OrderBookEntry) : Z := ksum (entry_contrib isAsk m p f) E.

Definition entry_quote (e : OrderBookEntry) : Z := ent_RemainingBaseAmount e * ent_Price e.

(** The aggregate of one price level recomputed from the entries. *)
Definition exact_level (m p : Z) (E : gmap (Z * list Z) OrderBookEntry) : PriceLevelAggregate :=
  mkPriceLevelAggregate m p
    (side_sum true m p ent_RemainingBaseAmount E) (side_sum true m p entry_quote E)
    (side_sum false m p ent_RemainingBaseAmount E) (side_sum false m p entry_quote E)
    (side_sum true m p (fun _ => 1) E) (side_sum false m p (fun _ => 1) E).

Definition level_of (m p : Z) (L : gmap (Z * Z) PriceLevelAggregate) : PriceLevelAggregate :=
  default (empty_level m p) (L !! (m, p)).

(** Every entry is the entry of one resting order under that order's key,
    the reverse index points back at it, and the price levels are the sums
    of the entries. *)
Record Inv (O : gmap Z Order) (E : gmap (Z * list Z) OrderBookEntry)
    (SK : gmap (Z * Z) (list Z)) (L : gmap (Z * Z) PriceLevelAggregate) : Prop := {
  bi_orders : forall i o, O !! i = Some o -> ord_OrderIndex o = i;
  bi_entry : forall m sk e, E !! (m, sk) = Some e -> exists o,
    O !! ent_OrderIndex e = Some o /\ resting o /\ ord_MarketIndex o = m /\
    sk = order_key o /\ e = entry_of o /\ SK !! (m, ent_OrderIndex e) = Some sk;
  bi_key : forall m i sk, SK !! (m, i) = Some sk -> exists e,
    E !! (m, sk) = Some e /\ ent_OrderIndex e = i;
  bi_levels : forall m p, level_of m p L = exact_level m p E;
  bi_counts : forall m p, pl_AskCount (level_of m p L) <= MaxUint32 /\
                          pl_BidCount (level_of m p L) <= MaxUint32
}.

Definition book_inv (c : Chain) : Prop :=
  Inv (bst_Orders (book c)) (bst_OrderBookEntries (book c)) (bst_OrderToSortKey (book c))
    (bst_PriceLevels (book c)).

Definition off_book (i : Z) (c : Chain) : Prop :=
  forall m, bst_OrderToSortKey (book c) !! (m, i) = None.

Definition core (c : Chain) :=
  (bst_Orders (book c), bst_OrderBookEntries (book c), bst_OrderToSortKey (book c),
   bst_PriceLevels (book c)).

Lemma book_inv_core c c' : core c' = core c -> book_inv c -> book_inv c'.
Proof. unfold core, book_inv. by intros [= -> -> -> ->]. Qed.

Lemma off_book_core i c c' : core c' = core c -> off_book i c -> off_book i c'.
Proof. unfold core, off_book. by intros [= _ _ -> _]. Qed.

(** *** Sums under an update of the entries *)

Definition bumped (isAsk : bool) (db dq dc : Z) (pl : PriceLevelAggregate) : PriceLevelAggregate :=
  if isAsk then
    pl <| pl_AskBaseSum := pl_AskBaseSum pl + db |> <| pl_AskQuoteSum := pl_AskQuoteSum pl + dq |>
       <| pl_AskCount := pl_AskCount pl + dc |>
  else
    pl <| pl_BidBaseSum := pl_BidBaseSum pl + db |> <| pl_BidQuoteSum := pl_BidQuoteSum pl + dq |>
       <| pl_BidCount := pl_BidCount pl + dc |>.

Lemma entry_contrib_at isAsk a m sk e m' p' f :
  head sk = Some (SideByte isAsk) ->
  entry_contrib a m' p' f ((m, sk), e) =
  if decide (m' = m /\ p' = ent_Price e) then (if Bool.eqb a isAsk then f e else 0) else 0.
Proof.
  intros Hsk. unfold entry_contrib; cbn. rewrite Hsk.
  destruct a, isAsk; cbn; repeat case_decide; naive_solver.
Qed.

Section exact.
Context (E : gmap (Z * list Z) OrderBookEntry) (m : Z) (sk : list Z) (isAsk : bool)
  (Hsk : head sk = Some (SideByte isAsk)).

Lemma exact_insert e m' p' :
  E !! (m, sk) = None ->
  exact_level m' p' (<[(m, sk) := e]> E) =
  if decide (m' = m /\ p' = ent_Price e)
  then bumped isAsk (ent_RemainingBaseAmount e) (entry_quote e) 1 (exact_level m' p' E)
  else exact_level m' p' E.
Proof.
  intros Hn. unfold exact_level, side_sum. rewrite !ksum_insert_new by done.
  rewrite !(entry_contrib_at isAsk) by done. case_decide; destruct isAsk; cbn; f_equal; lia.
Qed.

Lemma exact_delete e m' p' :
  E !! (m, sk) = Some e ->
  exact_level m' p' (delete (m, sk) E) =
  if decide (m' = m /\ p' = ent_Price e)
  then bumped isAsk (- ent_RemainingBaseAmount e) (- entry_quote e) (-1) (exact_level m' p' E)
  else exact_level m' p' E.
Proof.
  intros He. unfold exact_level, side_sum. rewrite !(ksum_delete _ E _ _ He).
  rewrite !(entry_contrib_at isAsk) by done. case_decide; destruct isAsk; cbn; f_equal; lia.
Qed.

Lemma exact_update e e' m' p' :
  E !! (m, sk) = Some e -> ent_Price e' = ent_Price e ->
  exact_level m' p' (<[(m, sk) := e']> E) =
  if decide (m' = m /\ p' = ent_Price e)
  then bumped isAsk (ent_RemainingBaseAmount e' - ent_RemainingBaseAmount e)
         (entry_quote e' - entry_quote e) 0 (exact_level m' p' E)
  else exact_level m' p' E.
Proof.
  intros He Hp. unfold exact_level, side_sum. rewrite !(ksum_update _ E _ _ e' He).
  rewrite !(entry_contrib_at isAsk), Hp by done. case_decide; destruct isAsk; cbn; f_equal; lia.
Qed.
End exact.

(** *** Price-level adjustments *)

Lemma ApplyMagDelta_ok cur mag sign n :
  ApplyMagDelta cur mag sign = Ok n -> n = cur + sign * mag.
Proof. unfold ApplyMagDelta. intros HR. case_ifs; inv_ok; subst; lia. Qed.

Lemma ApplyCountDelta_ok cur d n :
  ApplyCountDelta cur d = Ok n <-> n = cur + d /\ 0 <= cur + d <= MaxUint32.
Proof.
  unfold ApplyCountDelta, MaxUint32. split.
  - intros H. inv_ok. breflect. rewrite wrap32_id in H by lia. lia.
  - intros [-> H]. rewrite (proj2 (Z.ltb_ge _ _)), (proj2 (Z.ltb_ge _ _)) by lia. cbn.
    by rewrite wrap32_id by lia.
Qed.

Lemma bump_level_ok pl isAsk bm qm sign cd pl' :
  bump_level pl isAsk bm qm sign cd = Ok pl' ->
  pl' = bumped isAsk (sign * bm) (sign * qm) cd pl /\
  (pl_AskCount pl <= MaxUint32 /\ pl_BidCount pl <= MaxUint32 ->
   pl_AskCount pl' <= MaxUint32 /\ pl_BidCount pl' <= MaxUint32).
Proof.
  unfold bump_level. destruct isAsk; intros H; inv_ok;
    repeat match goal with
    | H : ApplyMagDelta _ _ _ = _ |- _ => apply ApplyMagDelta_ok in H
    | H : ApplyCountDelta _ _ = _ |- _ => apply ApplyCountDelta_ok in H as [? ?]
    end; subst; cbn; (split; [done|lia]).
Qed.

Lemma level_is_zero_spec m p pl :
  level_is_zero pl = true -> pl_MarketIndex pl = m -> pl_Price pl = p -> pl = empty_level m p.
Proof. destruct pl; unfold level_is_zero; cbn. intros; breflect; by subst. Qed.

(** A successful adjustment changes one level of the price map. *)
Lemma adjustPriceLevel_ok m isAsk price bm qm sign cd c u c' :
  adjustPriceLevel m isAsk price bm qm sign cd c = (Ok u, c') ->
  let L := bst_PriceLevels (book c) in
  pl_MarketIndex (level_of m price L) = m -> pl_Price (level_of m price L) = price ->
  exists L', c' = c <| book := book c <| bst_PriceLevels := L' |> |> /\
    (forall m' p', level_of m' p' L' =
       if decide (m' = m /\ p' = price)
       then bumped isAsk (sign * bm) (sign * qm) cd (level_of m' p' L) else level_of m' p' L) /\
    (forall m' p', (pl_AskCount (level_of m' p' L) <= MaxUint32 /\ pl_BidCount (level_of m' p' L) <= MaxUint32) ->
       pl_AskCount (level_of m' p' L') <= MaxUint32 /\ pl_BidCount (level_of m' p' L') <= MaxUint32).
Proof.
  intros H L Hm Hp. unfold adjustPriceLevel in H. inv_ok. fold L in H1. fold (level_of m price L) in H1.
  apply bump_level_ok in H1 as [Hpl Hc].
  assert (exists L', c' = c <| book := book c <| bst_PriceLevels := L' |> |> /\
    forall m' p', level_of m' p' L' = if decide (m' = m /\ p' = price) then x1 else level_of m' p' L)
    as (L' & HL & Hlev).
  { destruct (level_is_zero x1) eqn:Hz; unfold set_book in H; inv_ok; subst c'; eexists; (split; [done|]); intros m' p';
      unfold level_of; fold L; case_decide as Hd.
    - destruct Hd as [-> ->]. rewrite lookup_delete_eq. cbn. symmetry.
      apply level_is_zero_spec; [done|subst x1; by destruct isAsk..].
    - rewrite lookup_delete_ne by naive_solver. done.
    - destruct Hd as [-> ->]. by rewrite lookup_insert_eq.
    - rewrite lookup_insert_ne by naive_solver. done. }
  exists L'. split; [done|]. split; intros m' p'.
  - rewrite Hlev. case_decide as Hd; [|done]. by destruct Hd as [-> ->].
  - rewrite Hlev. case_decide as Hd; [|done]. by destruct Hd as [-> ->].
Qed.

(** *** The invariant under the map updates of the lifecycle *)

Lemma head_order_key o : head (order_key o) = Some (SideByte (ord_IsAsk o)).
Proof. done. Qed.

Section inv.
Context (O : gmap Z Order) (E : gmap (Z * list Z) OrderBookEntry)
  (SK : gmap (Z * Z) (list Z)) (L : gmap (Z * Z) PriceLevelAggregate) (HI : Inv O E SK L).

Lemma Inv_level_key m p : pl_MarketIndex (level_of m p L) = m /\ pl_Price (level_of m p L) = p.
Proof. by rewrite (bi_levels _ _ _ _ HI). Qed.

(** The entry that the reverse index of an order points at is its own. *)
Lemma Inv_lookup m i sk :
  SK !! (m, i) = Some sk -> exists o, O !! i = Some o /\ ord_OrderIndex o = i /\ resting o /\
    ord_MarketIndex o = m /\ sk = order_key o /\ E !! (m, sk) = Some (entry_of o).
Proof.
  intros Hs. destruct (bi_key _ _ _ _ HI _ _ _ Hs) as (e & He & <-).
  destruct (bi_entry _ _ _ _ HI _ _ _ He) as (o & Ho & Hr & Hm & Hk & -> & _).
  exists o. by rewrite Ho.
Qed.

Lemma Inv_market m m' i sk sk' : SK !! (m, i) = Some sk -> SK !! (m', i) = Some sk' -> m = m'.
Proof.
  intros (o & Ho & _ & _ & <- & _)%Inv_lookup (o' & Ho' & _ & _ & <- & _)%Inv_lookup. congruence.
Qed.

Lemma Inv_set i o : ord_OrderIndex o = i -> (forall m, SK !! (m, i) = None) -> Inv (<[i := o]> O) E SK L.
Proof.
  intros Hi Hoff. destruct HI as [H1 H2 H3 H4 H5]. split; [|..|done|done|done].
  - intros j o'. rewrite lookup_insert_Some. naive_solver.
  - intros m sk e He. destruct (H2 m sk e He) as (o' & Ho' & Hr & Hm & Hk & -> & Hs).
    exists o'. rewrite lookup_insert_ne; [done|]. intros ->. by rewrite Hoff in Hs.
Qed.

Lemma Inv_insert o L' :
  (forall m, SK !! (m, ord_OrderIndex o) = None) -> E !! (ord_MarketIndex o, order_key o) = None ->
  resting o ->
  (forall m p, level_of m p L' =
     if decide (m = ord_MarketIndex o /\ p = ord_Price o)
     then bumped (ord_IsAsk o) (ord_RemainingBaseAmount o) (entry_quote (entry_of o)) 1 (level_of m p L)
     else level_of m p L) ->
  (forall m p, pl_AskCount (level_of m p L') <= MaxUint32 /\ pl_BidCount (level_of m p L') <= MaxUint32) ->
  Inv (<[ord_OrderIndex o := o]> O) (<[(ord_MarketIndex o, order_key o) := entry_of o]> E)
    (<[(ord_MarketIndex o, ord_OrderIndex o) := order_key o]> SK) L'.
Proof.
  intros Hoff Hfree Hr HL Hc. destruct HI as [H1 H2 H3 H4 H5]. split; [..|done].
  - intros j o'. rewrite lookup_insert_Some. naive_solver.
  - intros m sk e. rewrite lookup_insert_Some. intros [[[= <- <-] <-]|[Hne He]].
    + exists o. cbn. rewrite !lookup_insert_eq. done.
    + destruct (H2 m sk e He) as (o' & Ho' & Hr' & Hm & Hk & -> & Hs). exists o'.
      assert (ord_OrderIndex o <> ent_OrderIndex (entry_of o')) by (intros Heq; by rewrite <- Heq, Hoff in Hs).
      rewrite !lookup_insert_ne by naive_solver. done.
  - intros m i sk. rewrite lookup_insert_Some. intros [[[= <- <-] <-]|[Hne Hs]].
    + exists (entry_of o). by rewrite lookup_insert_eq.
    + destruct (H3 m i sk Hs) as (e & He & <-). exists e. split; [|done].
      rewrite lookup_insert_ne; [done|]. intros [= <- <-]. congruence.
  - intros m p. rewrite HL, (exact_insert E _ _ (ord_IsAsk o)) by done. cbn. by rewrite H4.
Qed.

Lemma Inv_remove o L' :
  O !! ord_OrderIndex o = Some o ->
  SK !! (ord_MarketIndex o, ord_OrderIndex o) = Some (order_key o) ->
  (forall m p, level_of m p L' =
     if decide (m = ord_MarketIndex o /\ p = ord_Price o)
     then bumped (ord_IsAsk o) (- ord_RemainingBaseAmount o) (- entry_quote (entry_of o)) (-1) (level_of m p L)
     else level_of m p L) ->
  (forall m p, pl_AskCount (level_of m p L') <= MaxUint32 /\ pl_BidCount (level_of m p L') <= MaxUint32) ->
  Inv O (delete (ord_MarketIndex o, order_key o) E)
    (delete (ord_MarketIndex o, ord_OrderIndex o) SK) L' /\
  (forall m, delete (ord_MarketIndex o, ord_OrderIndex o) SK !! (m, ord_OrderIndex o) = None).
Proof.
  intros Ho Hs HL Hc. pose proof (Inv_market (ord_MarketIndex o)) as Hmk.
  destruct (Inv_lookup _ _ _ Hs) as (o' & Ho' & _ & _ & _ & _ & He). simplify_eq.
  destruct HI as [H1 H2 H3 H4 H5]. split; [split; [done|..|done]|].
  - intros m sk e. rewrite lookup_delete_Some. intros [Hne He'].
    destruct (H2 m sk e He') as (o' & Ho2 & Hr' & Hm & Hk & -> & Hs'). exists o'.
    rewrite lookup_delete_ne; [done|]. intros [= Hm1 Hi]. cbn in *. rewrite <- Hi in Ho2.
    simplify_eq.
  - intros m i sk. rewrite lookup_delete_Some. intros [Hne Hs'].
    destruct (H3 m i sk Hs') as (e & He' & <-). exists e. split; [|done].
    rewrite lookup_delete_ne; [done|]. intros [= <- <-]. by simplify_eq.
  - intros m p. rewrite HL, (exact_delete E (ord_MarketIndex o) (order_key o) (ord_IsAsk o) (head_order_key o) (entry_of o)) by done.
    cbn. by rewrite H4.
  - intros m. destruct (decide (m = ord_MarketIndex o)) as [->|Hne]; [by rewrite lookup_delete_eq|].
    rewrite lookup_delete_ne by congruence. destruct (SK !! (m, ord_OrderIndex o)) eqn:Hs'; [|done].
    exfalso. apply Hne. symmetry. eauto.
Qed.

Lemma Inv_update o o' L' :
  O !! ord_OrderIndex o = Some o ->
  SK !! (ord_MarketIndex o, ord_OrderIndex o) = Some (order_key o) ->
  ord_OrderIndex o' = ord_OrderIndex o -> ord_MarketIndex o' = ord_MarketIndex o ->
  order_key o' = order_key o -> ord_Price o' = ord_Price o -> resting o' ->
  (forall m p, level_of m p L' =
     if decide (m = ord_MarketIndex o /\ p = ord_Price o)
     then bumped (ord_IsAsk o) (ord_RemainingBaseAmount o' - ord_RemainingBaseAmount o)
            (entry_quote (entry_of o') - entry_quote (entry_of o)) 0 (level_of m p L)
     else level_of m p L) ->
  (forall m p, pl_AskCount (level_of m p L') <= MaxUint32 /\ pl_BidCount (level_of m p L') <= MaxUint32) ->
  Inv (<[ord_OrderIndex o := o']> O) (<[(ord_MarketIndex o, order_key o) := entry_of o']> E) SK L'.
Proof.
  intros Ho Hs Hi Hm Hk Hp Hr HL Hc.
  destruct (Inv_lookup _ _ _ Hs) as (o2 & Ho' & _ & _ & _ & _ & He). assert (o2 = o) as -> by congruence.
  destruct HI as [H1 H2 H3 H4 H5]. split; [..|done].
  - intros j o''. rewrite lookup_insert_Some. naive_solver.
  - intros m sk e. rewrite lookup_insert_Some. intros [[[= <- <-] <-]|[Hne He']].
    + exists o'. cbn. rewrite Hi, lookup_insert_eq, Hs. by rewrite Hk.
    + destruct (H2 m sk e He') as (o3 & Ho3 & Hr' & Hm' & Hk' & -> & Hs'). exists o3.
      rewrite lookup_insert_ne; [done|]. intros Heq. rewrite <- Heq in Ho3. naive_solver.
  - intros m i sk Hs'. destruct (H3 m i sk Hs') as (e & He' & <-).
    destruct (decide ((ord_MarketIndex o, order_key o) = (m, sk))) as [[= <- <-]|Hne].
    + exists (entry_of o'). rewrite lookup_insert_eq. split; [done|]. by simplify_eq.
    + exists e. by rewrite lookup_insert_ne.
  - intros m p. rewrite HL, (exact_update E (ord_MarketIndex o) (order_key o) (ord_IsAsk o) (head_order_key o) (entry_of o)) by done.
    cbn. by rewrite H4.
Qed.
End inv.

(** *** What the index layer leaves alone *)

Lemma frames_book_core {A} (m : K A) : frames book m -> frames core m.
Proof. intros Hm c. unfold core. by rewrite Hm. Qed.

Ltac frame_op := unfold frames; intros; cbn; repeat case_match; reflexivity.

Lemma frames_set_asset aa : frames book (setAccountAsset aa).
Proof. frame_op. Qed.

Lemma frames_lock a x n : frames book (IncreaseLockedBalance a x n).
Proof.
  intros c. unfold IncreaseLockedBalance. case_match; [done|].
  rewrite !run_ensure. repeat case_match; done.
Qed.

Lemma frames_unlock a x n : frames book (DecreaseLockedBalance a x n).
Proof.
  intros c. unfold DecreaseLockedBalance. case_match; [done|].
  rewrite !run_ensure. repeat case_match; done.
Qed.

Lemma frames_release o : frames book (releaseSpotLockOnClose o).
Proof.
  unfold releaseSpotLockOnClose. apply frames_bind; [done|]. intros m.
  case_match; [done|]. destruct (computeSpotLock o m). apply frames_unlock.
Qed.

Lemma frames_spot_lock o : frames book (applySpotLockOnOpen o).
Proof.
  unfold applySpotLockOnOpen. apply frames_bind; [done|]. intros m.
  case_match; [done|]. destruct (computeSpotLock o m). apply frames_lock.
Qed.

Lemma frames_bump_count a m d : frames core (bumpAccountOpenOrderCount a m d).
Proof.
  intros c. unfold bumpAccountOpenOrderCount. rewrite !run_ensure. repeat case_match; done.
Qed.

Lemma frames_index_open o : frames core (indexAccountOpenOrder o).
Proof.
  intros c. unfold indexAccountOpenOrder, set_book. rewrite run_modify.
  case_match; [done|]. by rewrite frames_bump_count.
Qed.

Lemma frames_unindex_open o : frames core (unindexAccountOpenOrder o).
Proof.
  intros c. unfold unindexAccountOpenOrder, set_book. rewrite run_modify.
  case_match; [done|]. by rewrite frames_bump_count.
Qed.

Lemma frames_index_client o : frames core (indexClientOrder o).
Proof. unfold indexClientOrder. by case_match. Qed.
Lemma frames_unindex_client o : frames core (unindexClientOrder o).
Proof. unfold unindexClientOrder. by case_match. Qed.
Lemma frames_unindex_client_if o : frames core (unindexClientOrderIfMatches o).
Proof. intros c. unfold unindexClientOrderIfMatches. by repeat case_match. Qed.
Lemma frames_add_expiry o : frames core (addExpiryIndex o).
Proof. unfold addExpiryIndex. by case_match. Qed.
Lemma frames_remove_expiry o : frames core (removeExpiryIndex o).
Proof. unfold removeExpiryIndex. by case_match. Qed.
Lemma frames_add_trigger m p i : frames core (addTrigger m p i).
Proof. done. Qed.
Lemma frames_remove_trigger m p i : frames core (removeTrigger m p i).
Proof. done. Qed.
#[export] Hint Resolve frames_book_core frames_release frames_spot_lock frames_index_open
  frames_unindex_open frames_index_client frames_unindex_client frames_unindex_client_if
  frames_add_expiry frames_remove_expiry frames_add_trigger frames_remove_trigger : frames.

(** *** The lifecycle operations *)

(** The state of a chain whose order [i] is off the book. *)
Definition inv_off (i : Z) (c : Chain) : Prop := book_inv c /\ off_book i c.

Lemma stable_core {A} i (m : K A) : frames core m -> stable (inv_off i) m.
Proof.
  intros Hm. apply (stable_frames core); [done|]. intros c c' Hc [H1 H2].
  split; [by apply (book_inv_core c)|by apply (off_book_core i c)].
Qed.

Lemma stable_set i o : ord_OrderIndex o = i -> stable (inv_off i) (setOrder o).
Proof. intros Hi c [H1 H2]. subst. split; [by apply Inv_set|exact H2]. Qed.

Lemma stable_close i o : ord_OrderIndex o = i -> stable (inv_off i) (close_order o).
Proof.
  intros Hi. unfold close_order.
  apply stable_bind; [by apply stable_core; auto with frames|intros _].
  apply stable_bind; [by apply stable_core; auto with frames|intros _].
  apply stable_bind; [by apply stable_core; auto with frames|intros _].
  apply stable_bind; [by apply stable_set|]. by intros _ c.
Qed.

Lemma CheckedQuote_ok b p q : CheckedQuote b p = Ok q -> q = b * p.
Proof. unfold CheckedQuote. intros HR. case_ifs; inv_ok; subst; breflect; [|done]. destruct H; breflect; lia. Qed.

Lemma CheckedQuote_run b p :
  0 <= b * p <= MaxOrderQuoteAmount -> CheckedQuote b p = Ok (b * p).
Proof.
  intros H. unfold CheckedQuote, MaxOrderQuoteAmount in *. destruct (_ || _) eqn:Hz.
  - breflect. destruct Hz; breflect; subst; f_equal; lia.
  - destruct (Z.ltb_spec 281474976710655 (b * p)); [lia|].
    destruct (Z.leb_spec (- 2 ^ 63) (b * p)); [|lia].
    by destruct (Z.ltb_spec (b * p) (2 ^ 63)); [|lia].
Qed.

(** A removal from a consistent book succeeds and takes the order off it. *)
Lemma adjust_down_run m (isAsk : bool) price bm qm c :
  let pl := level_of m price (bst_PriceLevels (book c)) in
  bm <= (if isAsk then pl_AskBaseSum pl else pl_BidBaseSum pl) ->
  qm <= (if isAsk then pl_AskQuoteSum pl else pl_BidQuoteSum pl) ->
  1 <= (if isAsk then pl_AskCount pl else pl_BidCount pl) <= MaxUint32 ->
  exists c', adjustPriceLevel m isAsk price bm qm (-1) (-1) c = (Ok tt, c').
Proof.
  intros pl Hb Hq Hc. unfold adjustPriceLevel. rewrite run_ensure. cbn [negb andb Z.eqb].
  fold (level_of m price (bst_PriceLevels (book c))). fold pl.
  assert (exists pl', bump_level pl isAsk bm qm (-1) (-1) = Ok pl') as [pl' ->].
  { unfold bump_level, ApplyMagDelta. cbn [Z.eqb].
    destruct isAsk; rewrite (proj2 (Z.ltb_ge _ _) Hb), (proj2 (Z.ltb_ge _ _) Hq); cbn;
      rewrite (proj2 (ApplyCountDelta_ok _ _ _)) by (split; [done|lia]); cbn; eauto. }
  rewrite run_lift_ok. cbn [negb andb Pos.eqb]. destruct (level_is_zero pl'); eexists; reflexivity.
Qed.

Lemma removeEntry_run m i o c :
  book_inv c -> bst_Orders (book c) !! i = Some o -> m = ord_MarketIndex o ->
  exists c', removeEntry m (ord_IsAsk o) i c = (Ok tt, c') /\ inv_off i c' /\
    bst_Orders (book c') = bst_Orders (book c) /\
    (bst_OrderBookEntries (book c') = bst_OrderBookEntries (book c) /\
       (forall e, bst_OrderBookEntries (book c) !! (m, order_key o) = Some e -> ent_OrderIndex e <> i) \/
     bst_OrderBookEntries (book c) !! (m, order_key o) = Some (entry_of o) /\
     bst_OrderBookEntries (book c') = delete (m, order_key o) (bst_OrderBookEntries (book c))).
Proof.
  intros HI Ho ->. pose proof (bi_orders _ _ _ _ HI _ _ Ho) as Hi. unfold removeEntry.
  destruct (bst_OrderToSortKey (book c) !! (ord_MarketIndex o, i)) as [sk|] eqn:Hs.
  2:{ exists c. split_and!; [done| |done|].
      - split; [done|]. intros m. destruct (bst_OrderToSortKey (book c) !! (m, i)) eqn:Hs'; [|done].
        destruct (Inv_lookup _ _ _ _ HI _ _ _ Hs') as (o' & Ho' & _ & _ & <- & _). congruence.
      - left. split; [done|]. intros e He Heq.
        destruct (bi_entry _ _ _ _ HI _ _ _ He) as (? & _ & _ & _ & _ & _ & Hk). congruence. }
  destruct (Inv_lookup _ _ _ _ HI _ _ _ Hs) as (o' & Ho' & _ & Hr & _ & -> & He).
  assert (o' = o) as -> by congruence. subst i. rewrite He.
  destruct Hr as (_ & Hrem & Hp & Hn & Hcap).
  unfold Entries_Remove, SortKey_Remove, set_book.
  rewrite !run_modify, CheckedQuote_run by (cbn; nia). rewrite run_lift_ok. cbn [ent_Price ent_RemainingBaseAmount entry_of].
  set (c1 := _ <| book := _ |>).
  assert (bst_PriceLevels (book c1) = bst_PriceLevels (book c)) as HL by done.
  assert (forall f, (forall m sk e, bst_OrderBookEntries (book c) !! (m, sk) = Some e -> 0 <= f e) ->
    f (entry_of o) <= side_sum (ord_IsAsk o) (ord_MarketIndex o) (ord_Price o) f (bst_OrderBookEntries (book c))) as Hge.
  { intros f Hf. unfold side_sum.
    assert (f (entry_of o) = entry_contrib (ord_IsAsk o) (ord_MarketIndex o) (ord_Price o) f
      ((ord_MarketIndex o, order_key o), entry_of o)) as ->.
    { rewrite (entry_contrib_at (ord_IsAsk o)) by done. cbn. rewrite decide_True by done. by destruct (ord_IsAsk o). }
    apply ksum_ge; [|done]. intros [m sk] e He'. unfold entry_contrib. case_decide; [|lia]. eauto. }
  assert (forall m sk e, bst_OrderBookEntries (book c) !! (m, sk) = Some e ->
    0 <= ent_RemainingBaseAmount e /\ 0 <= entry_quote e) as Hpos.
  { intros m sk e He'. destruct (bi_entry _ _ _ _ HI _ _ _ He') as (o' & _ & (_ & ? & ? & _) & _ & _ & -> & _).
    unfold entry_quote. cbn. nia. }
  pose proof (bi_levels _ _ _ _ HI (ord_MarketIndex o) (ord_Price o)) as Hlev.
  pose proof (bi_counts _ _ _ _ HI (ord_MarketIndex o) (ord_Price o)) as Hcnt.
  destruct (adjust_down_run (ord_MarketIndex o) (ord_IsAsk o) (ord_Price o) (ord_RemainingBaseAmount o)
    (ord_RemainingBaseAmount o * ord_Price o) c1) as [c' Hrun].
  1-3: rewrite HL, Hlev in *; cbn in *;
    pose proof (Hge ent_RemainingBaseAmount ltac:(naive_solver));
    pose proof (Hge entry_quote ltac:(naive_solver));
    pose proof (Hge (fun _ => 1) ltac:(lia)); unfold entry_quote in *; cbn in *; destruct (ord_IsAsk o); lia.
  rewrite Hrun. exists c'.
  destruct (Inv_level_key _ _ _ _ HI (ord_MarketIndex o) (ord_Price o)) as [Hk1 Hk2].
  apply adjustPriceLevel_ok in Hrun as (L' & -> & HL' & HC'); [|by rewrite HL..].
  destruct (Inv_remove _ _ _ _ HI o L' Ho Hs) as [H1 H2].
  { intros m p. rewrite HL', HL. case_decide; [|done]. f_equal; unfold entry_quote; cbn; lia. }
  { intros m p. apply HC'. rewrite HL. apply (bi_counts _ _ _ _ HI). }
  split_and!; [done|by split|done|]. by right.
Qed.

(** Evictions and cancels keep the book consistent on every outcome. *)
Lemma EvictMakerOrder_inv i st : stable book_inv (EvictMakerOrder i st).
Proof.
  intros c HI. unfold EvictMakerOrder. apply bind_state; [done|].
  intros o c0 H. inv_ok. unfold GetOrder in H. inv_ok.
  destruct (removeEntry_run _ i o c HI H eq_refl) as (c1 & Hrun & Hoff & _).
  rewrite (run_bind _ _ _ _ _ Hrun).
  assert (inv_off i ((releaseSpotLockOnClose o;; close_order (o <| ord_Status := st |>)) c1).2) as [? _]; [|done].
  apply stable_bind; [by apply stable_core; auto with frames| |done].
  intros _. apply stable_close. apply (bi_orders _ _ _ _ HI _ _ H).
Qed.

Lemma CancelOrder_inv i : stable book_inv (CancelOrder i).
Proof.
  intros c HI. unfold CancelOrder. apply bind_state; [done|].
  intros o c0 H. inv_ok. unfold GetOrder in H. inv_ok.
  pose proof (bi_orders _ _ _ _ HI _ _ H) as Hi. subst i.
  destruct (is_resting_status (ord_Status o)) eqn:Hst.
  - rewrite run_assoc, run_ensure. case_match; [|done].
    destruct (removeEntry_run _ _ o c HI H eq_refl) as (c1 & Hrun & Hoff & _).
    rewrite run_assoc, (run_bind _ _ _ _ _ Hrun).
    assert (inv_off (ord_OrderIndex o) ((releaseSpotLockOnClose o;;
      close_order (o <| ord_Status := OrderStatusCancelled |>)) c1).2) as [? _]; [|done].
    apply stable_bind; [by apply stable_core; auto with frames| |done].
    intros _. by apply stable_close.
  - destruct (ord_Status o =? OrderStatusTriggeredPending) eqn:Ht; [|done].
    assert (off_book (ord_OrderIndex o) c) as Hoff.
    { intros m. destruct (bst_OrderToSortKey (book c) !! (m, ord_OrderIndex o)) eqn:Hs; [|done].
      destruct (Inv_lookup _ _ _ _ HI _ _ _ Hs) as (o' & Ho' & _ & (Hr & _) & _). congruence. }
    assert (inv_off (ord_OrderIndex o) ((removeTrigger (ord_MarketIndex o) (ord_TriggerPrice o) (ord_OrderIndex o);;
      close_order (o <| ord_Status := OrderStatusCancelled |>)) c).2) as [? _]; [|done].
    apply stable_bind; [by apply stable_core; auto with frames| |done].
    intros _. by apply stable_close.
Qed.

Lemma Book_EndBlocker_inv : stable book_inv Book_EndBlocker.
Proof.
  intros c HI. unfold Book_EndBlocker. apply stable_forM; [|done].
  intros i. apply stable_bind; [apply stable_attempt, CancelOrder_inv|by intros ? ?].
Qed.

(** *** Opening and filling *)

(** What the caller of [OpenOrder] guarantees: an order index that is not on
    the book and, for a resting order, a free key and fields in range. *)
Definition fresh_order (o : Order) (c : Chain) : Prop :=
  off_book (ord_OrderIndex o) c /\
  (is_resting_status (ord_Status o) = true ->
   bst_OrderBookEntries (book c) !! (ord_MarketIndex o, order_key o) = None /\
   0 < ord_RemainingBaseAmount o /\ 0 <= ord_Price o < 2 ^ 32 /\ 0 <= ord_Nonce o < 2 ^ 63).

Lemma CheckedQuote_cap b p q : CheckedQuote b p = Ok q -> b * p <= MaxOrderQuoteAmount.
Proof.
  unfold CheckedQuote, MaxOrderQuoteAmount. intros HR. case_ifs; inv_ok; breflect; [|lia].
  destruct H; breflect; subst; lia.
Qed.

Lemma insertEntry_ok o c u c' :
  insertEntry (ord_MarketIndex o) (ord_IsAsk o) (entry_of o) c = (Ok u, c') ->
  book_inv c -> fresh_order o c -> is_resting_status (ord_Status o) = true ->
  Inv (<[ord_OrderIndex o := o]> (bst_Orders (book c))) (bst_OrderBookEntries (book c'))
    (bst_OrderToSortKey (book c')) (bst_PriceLevels (book c')) /\
  bst_Orders (book c') = bst_Orders (book c) /\
  bst_OrderBookEntries (book c') =
    <[(ord_MarketIndex o, order_key o) := entry_of o]> (bst_OrderBookEntries (book c)).
Proof.
  intros H HI [Hoff Hf] Hst. destruct (Hf Hst) as (Hfree & Hrem & Hp & Hn).
  unfold insertEntry, Entries_Set, SortKey_Set, set_book in H. inv_ok. subst.
  cbn [ent_Price ent_RemainingBaseAmount ent_OrderIndex ent_Nonce entry_of] in *.
  pose proof (CheckedQuote_cap _ _ _ H0) as Hcap. apply CheckedQuote_ok in H0 as ->.
  destruct (Inv_level_key _ _ _ _ HI (ord_MarketIndex o) (ord_Price o)) as [Hk1 Hk2].
  apply adjustPriceLevel_ok in H as (L' & -> & HL' & HC'); [|done..].
  split; [|done]. apply (Inv_insert _ _ _ _ HI); [done..| |].
  - intros m p. rewrite HL'. cbn. case_decide; [|done]. f_equal; unfold entry_quote; cbn; lia.
  - intros m p. apply HC', (bi_counts _ _ _ _ HI).
Qed.

Lemma OpenOrder_inv o c u c' :
  OpenOrder o c = (Ok u, c') -> book_inv c -> fresh_order o c -> book_inv c'.
Proof.
  intros H HI Hf. unfold OpenOrder in H. inv_ok. destruct (is_resting_status (ord_Status o)) eqn:Hst; inv_ok.
  - pose proof (frames_run _ _ _ _ _ (frames_spot_lock o) H1) as Hb.
    assert (book_inv x2) as HI2 by (by unfold book_inv; rewrite Hb).
    assert (fresh_order o x2) as Hf2 by (by unfold fresh_order, off_book in *; rewrite Hb).
    destruct (insertEntry_ok _ _ _ _ H2 HI2 Hf2 Hst) as (HI3 & HO & _).
    assert (core x0 = core x4) as Hc.
    { rewrite (frames_run _ _ _ _ _ (frames_add_expiry o) H0).
      rewrite (frames_run _ _ _ _ _ (frames_index_open o) H4).
      by rewrite (frames_run _ _ _ _ _ (frames_index_client o) H3). }
    unfold setOrder, set_book in H. inv_ok. subst c'. unfold core in Hc. injection Hc as E1 E2 E3 E4.
    unfold book_inv; cbn. rewrite E1, E2, E3, E4, HO. exact HI3.
  - assert (inv_off (ord_OrderIndex o) x0) as Hx0.
    { assert (core x0 = core c) as Hc.
      { rewrite (frames_run _ _ _ _ _ (frames_remove_expiry o) H0).
        rewrite (frames_run _ _ _ _ _ (frames_unindex_open o) H2).
        by rewrite (frames_run _ _ _ _ _ (frames_unindex_client_if o) H1). }
      split; [by apply (book_inv_core c)|apply (off_book_core _ c); [done|apply Hf]]. }
    pose proof (stable_set _ o eq_refl x0 Hx0) as Hs. rewrite H in Hs. apply Hs.
Qed.

Lemma OpenTriggerOrder_inv o c r c' :
  OpenTriggerOrder o c = (r, c') -> book_inv c -> off_book (ord_OrderIndex o) c -> book_inv c'.
Proof.
  intros H HI Hoff. assert (stable (inv_off (ord_OrderIndex o)) (OpenTriggerOrder o)) as Hs.
  { unfold OpenTriggerOrder. repeat (apply stable_bind; [apply stable_core; solve [auto with frames]|intros _]).
    by apply stable_set. }
  specialize (Hs c (conj HI Hoff)). rewrite H in Hs. apply Hs.
Qed.

Lemma ActivateTrigger_inv i c r c' :
  ActivateTrigger i c = (r, c') -> book_inv c -> off_book i c -> book_inv c'.
Proof.
  intros H HI Hoff. replace c' with (ActivateTrigger i c).2 by by rewrite H.
  unfold ActivateTrigger. apply bind_state; [done|]. intros o c0 Ho. inv_ok.
  unfold GetOrder in Ho. inv_ok. pose proof (bi_orders _ _ _ _ HI _ _ Ho) as Hi.
  match goal with |- book_inv (?m c).2 => assert (stable (inv_off i) m) as Hs end.
  { repeat (apply stable_bind; [apply stable_core; solve [auto with frames]|intros _]).
    apply stable_bind; [by apply stable_set|]. by intros _ ?. }
  apply (Hs c (conj HI Hoff)).
Qed.

(** The reduced entry of a partially filled order. *)
Definition reduced (o : Order) (delta status : Z) : Order :=
  o <| ord_RemainingBaseAmount := ord_RemainingBaseAmount o - delta |> <| ord_Status := status |>.

Lemma shrinkEntryResidue_ok o i delta c r c' :
  shrinkEntryResidue (ord_MarketIndex o) (ord_IsAsk o) i delta c = (Ok r, c') ->
  book_inv c -> bst_Orders (book c) !! i = Some o -> 0 <= delta <= ord_RemainingBaseAmount o ->
  let key := (ord_MarketIndex o, order_key o) in
  bst_OrderBookEntries (book c) !! key = Some (entry_of o) /\ resting o /\
  bst_Orders (book c') = bst_Orders (book c) /\
  r.1 = (ord_RemainingBaseAmount o - delta =? 0) /\
  (if r.1 then inv_off i c' /\ bst_OrderBookEntries (book c') = delete key (bst_OrderBookEntries (book c))
   else let o' := reduced o delta OrderStatusPartiallyFilled in
     Inv (<[i := o']> (bst_Orders (book c))) (bst_OrderBookEntries (book c'))
       (bst_OrderToSortKey (book c')) (bst_PriceLevels (book c')) /\
     bst_OrderBookEntries (book c') = <[key := entry_of o']> (bst_OrderBookEntries (book c))).
Proof.
  intros H HI Ho Hd key. unfold shrinkEntryResidue in H. inv_ok.
  destruct (Inv_lookup _ _ _ _ HI _ _ _ H0) as (o1 & Ho1 & Hi & Hr & _ & -> & He).
  assert (o1 = o) as -> by congruence. rewrite He in H1. injection H1 as <-. subst i.
  cbn [ent_RemainingBaseAmount entry_of] in H, H2, H3. rewrite (proj2 (Z.ltb_ge _ _)) in H, H2, H3 by lia.
  cbn in H, H2, H3.
  apply CheckedQuote_ok in H2 as ->.
  destruct (Inv_level_key _ _ _ _ HI (ord_MarketIndex o) (ord_Price o)) as [Hk1 Hk2].
  apply adjustPriceLevel_ok in H3 as (L1 & -> & HL1 & HC1); [|done..].
  split; [done|]. split; [done|].
  destruct (ord_RemainingBaseAmount o - delta =? 0) eqn:Hz; unfold Entries_Remove, SortKey_Remove, Entries_Set, set_book in H;
    inv_ok; subst; breflect; cbn [fst].
  - apply adjustPriceLevel_ok in H3 as (L2 & -> & HL2 & HC2).
    2,3: cbn; rewrite HL1; rewrite decide_True by done; by destruct (ord_IsAsk o).
    split; [done|]. split; [done|]. cbn in HL2.
    destruct (Inv_remove _ _ _ _ HI o L2 Ho H0) as [H1 H2]; [| |done].
    + intros m p. rewrite HL2, HL1. repeat case_decide; [|done]. cbn.
      destruct (ord_IsAsk o), (level_of m p (bst_PriceLevels (book c))); unfold bumped, entry_quote; cbn;
        f_equal; nia.
    + intros m p. apply HC2. cbn. apply HC1, (bi_counts _ _ _ _ HI).
  - split; [done|]. split; [done|]. split; [|done].
    apply (Inv_update _ _ _ _ HI o); try done.
    + destruct Hr as (? & ? & ? & ? & ?). unfold resting, reduced; cbn. split_and!; try done; nia.
    + intros m p. rewrite HL1. case_decide; [|done]. cbn. f_equal; unfold entry_quote; cbn; nia.
    + intros m p. apply HC1, (bi_counts _ _ _ _ HI).
Qed.

Lemma FillMakerOrder_ok i q c o' c' :
  FillMakerOrder i q c = (Ok o', c') -> book_inv c -> 0 <= q ->
  book_inv c' /\ exists o, bst_Orders (book c) !! i = Some o /\ resting o /\
    ord_RemainingBaseAmount o' = ord_RemainingBaseAmount o - Z.min q (ord_RemainingBaseAmount o) /\
    let key := (ord_MarketIndex o, order_key o) in
    bst_OrderBookEntries (book c) !! key = Some (entry_of o) /\
    (bst_OrderBookEntries (book c') = delete key (bst_OrderBookEntries (book c)) \/
     bst_OrderBookEntries (book c') = <[key := entry_of o']> (bst_OrderBookEntries (book c))).
Proof.
  intros H HI Hq. unfold FillMakerOrder in H. inv_ok. unfold GetOrder in H0. inv_ok.
  rename x into o. pose proof (bi_orders _ _ _ _ HI _ _ H0) as Hi.
  set (delta := if ord_RemainingBaseAmount o <? q then ord_RemainingBaseAmount o else q) in *.
  destruct x1 as [entryRemoved quote].
  assert (0 <= ord_RemainingBaseAmount o) as Hrem.
  { unfold shrinkEntryResidue in H1. inv_ok.
    destruct (Inv_lookup _ _ _ _ HI _ _ _ H2) as (o1 & Ho1 & _ & (_ & ? & _) & _).
    assert (o1 = o) as -> by congruence. lia. }
  assert (delta = Z.min q (ord_RemainingBaseAmount o)) as Hmin.
  { unfold delta. destruct (Z.ltb_spec (ord_RemainingBaseAmount o) q); lia. }
  destruct (shrinkEntryResidue_ok o i delta c _ x2 H1 HI H0 ltac:(lia)) as (He & Hr & HO & Hrd & Hcase).
  cbn [fst] in *. unfold applyOrderResidue in H.
  rewrite (proj2 (Z.ltb_ge (ord_RemainingBaseAmount o) delta)) in H by lia. cbn in H. rewrite <- Hrd in H.
  inv_ok. destruct entryRemoved; cbn in H2; inv_ok.
  - destruct Hcase as [Hoff HE]. rewrite <- H. subst x1.
    assert (core x10 = core x2) as Hc.
    { rewrite (frames_run _ _ _ _ _ (frames_remove_expiry _) H7).
      rewrite (frames_run _ _ _ _ _ (frames_unindex_open _) H6).
      by rewrite (frames_run _ _ _ _ _ (frames_unindex_client _) H5). }
    assert (inv_off i x10) as Hoff3.
    { split; [by apply (book_inv_core x2), Hoff|by apply (off_book_core _ x2), Hoff]. }
    split; [replace x5 with (setOrder (reduced o delta OrderStatusFilled) x10).2 by exact (f_equal snd H4);
      by apply (stable_set i)|].
    exists o. rewrite <- Hmin. split_and!; [done..|]. left.
    unfold core in Hc. injection Hc as _ E2 _ _. unfold setOrder, set_book in H4. inv_ok. subst x5.
    cbn. by rewrite E2, HE.
  - destruct Hcase as [HI2 HE]. rewrite <- H. subst. unfold setOrder, set_book in H4. inv_ok. subst.
    split; [unfold book_inv; cbn; rewrite HO; exact HI2|].
    exists o. rewrite <- Hmin. split_and!; [done..|]. right. exact HE.
Qed.

(** ** Properties *)

Inductive book_step (c : Chain) : Chain -> Prop :=
| step_open o u c' : OpenOrder o c = (Ok u, c') -> fresh_order o c -> book_step c c'
| step_trigger o r c' : OpenTriggerOrder o c = (r, c') -> off_book (ord_OrderIndex o) c -> book_step c c'
| step_activate i r c' : ActivateTrigger i c = (r, c') -> off_book i c -> book_step c c'
| step_fill i q o c' : FillMakerOrder i q c = (Ok o, c') -> 0 <= q -> book_step c c'
| step_evict i st r c' : EvictMakerOrder i st c = (r, c') -> book_step c c'
| step_cancel i r c' : CancelOrder i c = (r, c') -> book_step c c'
| step_sweep r c' : Book_EndBlocker c = (r, c') -> book_step c c'.

Lemma book_step_inv c c' : book_step c c' -> book_inv c -> book_inv c'.
Proof.
  intros [o u c1 H Hf|o r c1 H Hoff|i r c1 H Hoff|i q o c1 H Hq|i st r c1 H|i r c1 H|r c1 H] HI.
  - by apply (OpenOrder_inv o c u).
  - by apply (OpenTriggerOrder_inv o c r).
  - by apply (ActivateTrigger_inv i c r).
  - by apply (FillMakerOrder_ok i q c o c1 H HI).
  - pose proof (EvictMakerOrder_inv i st c HI) as HI'. by rewrite H in HI'.
  - pose proof (CancelOrder_inv i c HI) as HI'. by rewrite H in HI'.
  - pose proof (Book_EndBlocker_inv c HI) as HI'. by rewrite H in HI'.
Qed.

Lemma book_steps_inv c c' : rtc book_step c c' -> book_inv c -> book_inv c'.
Proof. induction 1; eauto using book_step_inv. Qed.

(** An order resting on the book. *)
Definition on_book (o : Order) (c : Chain) : Prop :=
  bst_Orders (book c) !! ord_OrderIndex o = Some o /\
  bst_OrderBookEntries (book c) !! (ord_MarketIndex o, order_key o) = Some (entry_of o).

(** C5: across any sequence of order lifecycle operations (opening,
    parking and activating triggers, maker fills, evictions, cancels and the
    expiry sweep, failed cancels included) from a consistent book, every
    price level stays equal to the base, quote and entry count recomputed
    from the resting entries, and every entry stays the image of one resting
    order with the same residue. *)
Theorem book_stays_consistent c c' :
  rtc book_step c c' -> book_inv c ->
  (forall m p, level_of m p (bst_PriceLevels (book c')) = exact_level m p (bst_OrderBookEntries (book c'))) /\
  (forall m sk e, bst_OrderBookEntries (book c') !! (m, sk) = Some e ->
     exists o, on_book o c' /\ e = entry_of o /\ ord_MarketIndex o = m /\
       is_resting_status (ord_Status o) = true /\ 0 < ord_RemainingBaseAmount o).
Proof.
  intros Hs HI. apply book_steps_inv in Hs; [|done]. destruct Hs as [_ H2 _ H4 _]. split; [done|].
  intros m sk e He. destruct (H2 _ _ _ He) as (o & Ho & (Hst & Hrem & _) & Hm & -> & -> & _).
  exists o. subst m. done.
Qed.

Lemma zeros_le l : (forall x, x ∈ l -> 0 <= x) -> lex_le (replicate (length l) 0) l = true.
Proof.
  induction l as [|x l IH]; intros H; [done|]. cbn. case_decide.
  - apply IH. set_solver.
  - apply Z.leb_le, H. set_solver.
Qed.

Lemma be_bytes_length n z : length (be_bytes n z) = n.
Proof. revert z. induction n; intros z; cbn; [done|]. rewrite length_app, IHn. cbn. lia. Qed.

Lemma be_bytes_nonneg n z x : x ∈ be_bytes n z -> 0 <= x.
Proof.
  revert z. induction n as [|n IH]; intros z; cbn; [by intros ?%not_elem_of_nil|].
  rewrite elem_of_app, list_elem_of_singleton. intros [?| ->]; [eauto|]. apply Z.mod_pos_bound. lia.
Qed.

Lemma sortable_key_shape p n a :
  exists l, SortableKey p n a = SideByte a :: l /\ lex_le (replicate 12 0) l = true.
Proof.
  unfold SortableKey. eexists; split; [done|].
  assert (forall x y, lex_le (replicate 12 0) (be_bytes 4 x ++ be_bytes 8 y) = true) as Hz.
  { intros x y. assert (length (be_bytes 4 x ++ be_bytes 8 y) = 12%nat) as Hl
      by by rewrite length_app, !be_bytes_length.
    rewrite <- Hl. apply zeros_le. intros z. rewrite elem_of_app.
    intros []; eauto using be_bytes_nonneg. }
  by destruct a.
Qed.

Lemma side_range m isAsk m' o :
  sidePrefixedRange m isAsk (m', order_key o) <-> m' = m /\ ord_IsAsk o = isAsk.
Proof.
  destruct (sortable_key_shape (ord_Price o) (ord_Nonce o) (ord_IsAsk o)) as (l & Hk & Hz).
  assert (forall s s', lex_le (range_bound s) (s' :: l) =
    if decide (s = s') then true else s <=? s') as Hr.
  { intros s s'. rewrite <- Hz. done. }
  unfold sidePrefixedRange, order_key. rewrite Hk. cbn [key_le prod_key list_key fst snd].
  rewrite !Hr. destruct (decide (m = m')) as [->|Hne].
  - destruct (ord_IsAsk o), isAsk; unfold SideByte, AskSideByte, BidSideByte; repeat case_decide;
      cbn; naive_solver.
  - split; [|naive_solver]. destruct (Z_key.(key_le) m m'); naive_solver.
Qed.

(** What a peek returns is the entry of a resting order of that side. *)
Lemma peek_resting m isAsk c e :
  book_inv c -> PeekBest m isAsk c = Some e ->
  exists o, on_book o c /\ resting o /\ e = entry_of o /\ ord_MarketIndex o = m /\ ord_IsAsk o = isAsk /\
    forall k e', bst_OrderBookEntries (book c) !! k = Some e' -> sidePrefixedRange m isAsk k ->
      key_le (m, order_key o) k = true.
Proof.
  intros HI Hp. unfold PeekBest in Hp. apply fmap_Some in Hp as ([[m0 sk] e0] & Hh & ->).
  apply head_filter_rows in Hh as (He & Hin & Hmin). cbn in *.
  destruct (bi_entry _ _ _ _ HI _ _ _ He) as (o & Ho & Hr & Hm & -> & -> & _).
  apply side_range in Hin as [-> Hask]. exists o.
  split_and!; [split; [done|by rewrite Hm]|done..|]. eauto.
Qed.

(** C9: [PeekBest] returns the resting order of the side with the best
    price and, among orders at that price, the earliest nonce (asks count
    up, bids count down); it returns nothing exactly when the side is
    empty. *)
Theorem peek_best_price_time m isAsk c :
  book_inv c ->
  match PeekBest m isAsk c with
  | Some e => exists o, on_book o c /\ e = entry_of o /\ ord_MarketIndex o = m /\ ord_IsAsk o = isAsk /\
      forall o', on_book o' c -> ord_MarketIndex o' = m -> ord_IsAsk o' = isAsk ->
        matched_before isAsk (ord_Price o) (ord_Nonce o) (ord_Price o') (ord_Nonce o')
  | None => forall o', on_book o' c -> ord_MarketIndex o' = m -> ord_IsAsk o' <> isAsk
  end.
Proof.
  intros HI. destruct (PeekBest m isAsk c) as [e|] eqn:Hp.
  - apply peek_resting in Hp as (o & Hon & Hr & -> & Hm & Hask & Hmin); [|done]. exists o.
    split_and!; [done..|]. intros o' [Ho' He'] Hm' Hask'.
    destruct (bi_entry _ _ _ _ HI _ _ _ He') as (o2 & Ho2 & Hr' & _ & _ & _ & _).
    cbn in Ho2. assert (o2 = o') as -> by congruence.
    assert (key_le (m, order_key o) (m, order_key o') = true) as Hle.
    { apply (Hmin _ (entry_of o')); [by rewrite <- Hm'|]. by apply side_range. }
    cbn [key_le prod_key fst snd] in Hle. rewrite decide_True in Hle by done.
    destruct Hr as (_ & _ & Hp & Hn & _), Hr' as (_ & _ & Hp' & Hn' & _).
    rewrite <- Hask. apply sortable_key_le; [done..|]. unfold order_key in Hle. by rewrite Hask, <- Hask' in Hle |- *.
  - intros o' [Ho' He'] Hm' Hask'. unfold PeekBest in Hp. apply fmap_None in Hp.
    apply (head_filter_rows_none _ _ Hp (ord_MarketIndex o', order_key o') (entry_of o') He').
    by apply side_range.
Qed.

(** ** Concrete runs *)

Lemma Inv_empty : Inv ∅ ∅ ∅ ∅.
Proof.
  split; [by intros ?? ?%lookup_empty_Some|by intros ??? ?%lookup_empty_Some..| |];
    intros m p; [done|]. cbn. by unfold MaxUint32.
Qed.

Lemma off_book_check i c :
  map_Forall (fun k _ => k.2 <> i) (bst_OrderToSortKey (book c)) -> off_book i c.
Proof. intros H m. destruct (_ !! (m, i)) eqn:E; [|done]. by destruct (H _ _ E). Qed.

(** A limit order of [base] at [price] in market 0. *)
Definition demo_order (i acct : Z) (isAsk : bool) (price nonce base : Z) : Order :=
  mkOrder i 0 acct 0 isAsk LimitOrder GTT false price nonce base base 0 0 0 100 OrderStatusOpen.

Definition book_demo1 : Chain := (OpenOrder (demo_order 1 2 true 101 1 5) demo_perps).2.
Definition book_demo2 : Chain := (OpenOrder (demo_order 2 3 true 101 2 7) book_demo1).2.
Definition book_demo3 : Chain := (OpenOrder (demo_order 3 2 true 100 3 4) book_demo2).2.
Definition book_demo4 : Chain := (FillMakerOrder 3 1 book_demo3).2.
Definition book_demo : Chain := (CancelOrder 1 book_demo4).2.

Lemma book_demo_start : book_inv demo_perps.
Proof. exact Inv_empty. Qed.

Lemma book_demo_steps : rtc book_step demo_perps book_demo.
Proof.
  apply (rtc_l _ _ book_demo1).
  { apply (step_open _ (demo_order 1 2 true 101 1 5) tt); [by_compute|].
    split; [apply off_book_check; by_decide|intros _; by_decide]. }
  apply (rtc_l _ _ book_demo2).
  { apply (step_open _ (demo_order 2 3 true 101 2 7) tt); [by_compute|].
    split; [apply off_book_check; by_decide|intros _; by_decide]. }
  apply (rtc_l _ _ book_demo3).
  { apply (step_open _ (demo_order 3 2 true 100 3 4) tt); [by_compute|].
    split; [apply off_book_check; by_decide|intros _; by_decide]. }
  apply (rtc_l _ _ book_demo4).
  { apply (step_fill _ 3 1 (reduced (demo_order 3 2 true 100 3 4) 1 OrderStatusPartiallyFilled)); [by_compute|lia]. }
  apply rtc_once. apply (step_cancel _ 1 (Ok (reduced (demo_order 1 2 true 101 1 5) 0 OrderStatusCancelled))).
  by_compute.
Qed.

Lemma book_stays_consistent_witness :
  level_of 0 101 (bst_PriceLevels (book book_demo)) = mkPriceLevelAggregate 0 101 7 707 0 0 1 0.
Proof.
  rewrite (proj1 (book_stays_consistent demo_perps book_demo book_demo_steps book_demo_start)).
  by_compute.
Defined.

Lemma peek_best_price_time_witness :
  exists o, on_book o book_demo /\ ord_OrderIndex o = 3 /\ ord_RemainingBaseAmount o = 3.
Proof.
  pose proof (peek_best_price_time 0 true book_demo
    (book_steps_inv _ _ book_demo_steps book_demo_start)) as H.
  assert (PeekBest 0 true book_demo =
    Some (mkOrderBookEntry 3 2 100 3 3 0 false LimitOrder)) as HP by by_compute.
  rewrite HP in H. destruct H as (o & Ho & He & _). exists o. split; [done|].
  split; [exact (f_equal ent_OrderIndex (eq_sym He))|exact (f_equal ent_RemainingBaseAmount (eq_sym He))].
Defined.
