(* ===== verification/Effects.v ===== *)
(** * Effects of the trade engine

    What one component can rely on of the others without looking inside:
    settling a fill never touches the order book, and no method of the
    ledger, the risk engine, the trade engine or the order book runs out of
    fuel. The matching loop's termination rests on these facts. *)

From S2P Require Import Prelude Constants Types PositionMath Account Market Oracle Funding Risk Trade OrderBook.

(** ** Reads of the risk engine *)

Lemma GetMarkPriceAndDetails_total i c : GetMarkPriceAndDetails i c <> NoFuel.
Proof. unfold GetMarkPriceAndDetails, GetMarketDetails, gateMarkPrice. solve_total. Qed.
#[export] Hint Resolve GetMarkPriceAndDetails_total : total.

Lemma ComputeCrossRisk_total a c : ComputeCrossRisk a c <> NoFuel.
Proof. unfold ComputeCrossRisk, GetAccount, cross_step. solve_total. Qed.
Lemma ComputeIsolatedRisk_total a m c : ComputeIsolatedRisk a m c <> NoFuel.
Proof. unfold ComputeIsolatedRisk. solve_total. Qed.
#[export] Hint Resolve ComputeCrossRisk_total ComputeIsolatedRisk_total : total.

Lemma GetHealthStatus_total a c : GetHealthStatus a c <> NoFuel.
Proof. unfold GetHealthStatus. solve_total. Qed.
Lemma GetIsolatedHealthStatus_total a m c : GetIsolatedHealthStatus a m c <> NoFuel.
Proof. unfold GetIsolatedHealthStatus. solve_total. Qed.
Lemma GetAvailableUsdcCollateral_total a c : GetAvailableUsdcCollateral a c <> NoFuel.
Proof. unfold GetAvailableUsdcCollateral. solve_total. Qed.
Lemma SnapshotRisk_total a c : SnapshotRisk a c <> NoFuel.
Proof. unfold SnapshotRisk, snapshot_step. solve_total. Qed.
Lemma IsValidRiskChangeFrom_total a pre c : IsValidRiskChangeFrom a pre c <> NoFuel.
Proof.
  unfold IsValidRiskChangeFrom, isCrossRiskChangeValid. solve_total.
  induction (IterateAccountPositions a c); cbn [isolated_changes_valid]; [done|].
  unfold isIsolatedRiskChangeValid. solve_total.
Qed.
#[export] Hint Resolve GetHealthStatus_total GetIsolatedHealthStatus_total
  GetAvailableUsdcCollateral_total SnapshotRisk_total IsValidRiskChangeFrom_total : total.

(** ** Writes of the ledger *)

Lemma AddCollateral_total i d c : (AddCollateral i d c).1 <> NoFuel.
Proof. unfold AddCollateral, GetAccount, updateAccount, Accounts_Set, set_account_store. solve_total. Qed.
Lemma UpdatePosition_total {X} a m (f : AccountPosition -> R (AccountPosition * X)) c :
  (forall p, f p <> NoFuel) -> (UpdatePosition a m f c).1 <> NoFuel.
Proof. intros Hf. unfold UpdatePosition. solve_total; apply Hf || done. Qed.
Lemma UpdateOpenInterest_total m d c : (UpdateOpenInterest m d c).1 <> NoFuel.
Proof.
  unfold UpdateOpenInterest, GetMarketDetails, checkedAddInt64, SetMarketDetails, set_market_store. solve_total.
Qed.
Lemma TransferAccountAssetBalance_total a b x n l c : (TransferAccountAssetBalance a b x n l c).1 <> NoFuel.
Proof. unfold TransferAccountAssetBalance, setAccountAsset, set_account_store. solve_total. Qed.
#[export] Hint Resolve AddCollateral_total UpdateOpenInterest_total TransferAccountAssetBalance_total : total.

Lemma SettlePositionFunding_total a m c : (SettlePositionFunding a m c).1 <> NoFuel.
Proof.
  unfold SettlePositionFunding, GetMarketDetails. solve_total. apply UpdatePosition_total. solve_total.
Qed.
#[export] Hint Resolve SettlePositionFunding_total : total.

(** ** The trade engine *)

Lemma applyPositionChange_total a m p b s c : (applyPositionChange a m p b s c).1 <> NoFuel.
Proof.
  unfold applyPositionChange. solve_total. apply UpdatePosition_total. unfold fill_mut. solve_total.
Qed.
Lemma add_allocated_total r d c : (add_allocated r d c).1 <> NoFuel.
Proof. unfold add_allocated. solve_total. Qed.
#[export] Hint Resolve applyPositionChange_total add_allocated_total : total.

Lemma applyAccount_total r fee b l f c : (applyAccount r fee b l f c).1 <> NoFuel.
Proof.
  unfold applyAccount, applyIsolatedAccount, applyCrossAccount, isolatedAddAllocatedMargin, isolatedDebit,
    rebalanceIsolatedMargin, calculateIsolatedMarginDelta, crossAddCollateral, crossDebit. solve_total.
Qed.
Lemma credit_fees_total f a b l c : (credit_fees f a b l c).1 <> NoFuel.
Proof. unfold credit_fees. solve_total. Qed.
Lemma check_side_total f i pre c : (check_side f i pre c).1 <> NoFuel.
Proof. unfold check_side. solve_total. Qed.
#[export] Hint Resolve applyAccount_total credit_fees_total check_side_total : total.

Lemma Apply_total f c : (Apply f c).1 <> NoFuel.
Proof. unfold Apply. solve_total. Qed.
Lemma ApplySpotMatching_total f b q c : (ApplySpotMatching f b q c).1 <> NoFuel.
Proof. unfold ApplySpotMatching, spotMakerDebit, spotTakerDebit. solve_total. Qed.
#[export] Hint Resolve Apply_total ApplySpotMatching_total : total.

(** ** What the ledger and the trade engine leave alone

    They write the account store and the runtime details of a market, so any
    view of the chain that reads neither is untouched, on every outcome. *)

Section ledger_frames.
Context {T : Type} (f : Chain -> T).
Context (Hacc : forall c a, f (c <| account := a |>) = f c).
Context (Hdet : forall c d, f (c <| market := market c <| mst_MarketDetails := d |> |>) = f c).

Lemma set_account_store_frames g : frames f (set_account_store g).
Proof. intros c. apply Hacc. Qed.
Lemma SetMarketDetails_frames d : frames f (SetMarketDetails d).
Proof. intros c. apply Hdet. Qed.
#[local] Hint Resolve set_account_store_frames SetMarketDetails_frames : frames.

Lemma AddCollateral_frames i d : frames f (AddCollateral i d).
Proof. intros c. unfold AddCollateral, updateAccount, Accounts_Set. solve_frames. Qed.
Lemma UpdatePosition_frames {X} a m (g : AccountPosition -> R (AccountPosition * X)) :
  frames f (UpdatePosition a m g).
Proof. intros c. unfold UpdatePosition, setPosition. solve_frames. Qed.
Lemma UpdateOpenInterest_frames m d : frames f (UpdateOpenInterest m d).
Proof. intros c. unfold UpdateOpenInterest. solve_frames. Qed.
Lemma TransferAccountAssetBalance_frames a b x n l : frames f (TransferAccountAssetBalance a b x n l).
Proof. intros c. unfold TransferAccountAssetBalance, setAccountAsset. solve_frames. Qed.
#[local] Hint Resolve AddCollateral_frames UpdatePosition_frames UpdateOpenInterest_frames
  TransferAccountAssetBalance_frames : frames.

Lemma SettlePositionFunding_frames a m : frames f (SettlePositionFunding a m).
Proof. intros c. unfold SettlePositionFunding. solve_frames. Qed.
Lemma applyPositionChange_frames a m p b s : frames f (applyPositionChange a m p b s).
Proof. intros c. unfold applyPositionChange. solve_frames. Qed.
Lemma add_allocated_frames r d : frames f (add_allocated r d).
Proof. intros c. unfold add_allocated. solve_frames. Qed.
#[local] Hint Resolve SettlePositionFunding_frames applyPositionChange_frames add_allocated_frames : frames.

Lemma applyAccount_frames r fee b l fl : frames f (applyAccount r fee b l fl).
Proof.
  intros c. unfold applyAccount, applyIsolatedAccount, applyCrossAccount, isolatedAddAllocatedMargin,
    isolatedDebit, rebalanceIsolatedMargin, crossAddCollateral, crossDebit. solve_frames.
Qed.
Lemma credit_fees_frames fl a b l : frames f (credit_fees fl a b l).
Proof. intros c. unfold credit_fees. solve_frames. Qed.
Lemma check_side_frames fl i pre : frames f (check_side fl i pre).
Proof. intros c. unfold check_side. solve_frames. Qed.
#[local] Hint Resolve applyAccount_frames credit_fees_frames check_side_frames : frames.

Lemma Apply_frames fl : frames f (Apply fl).
Proof. intros c. unfold Apply. solve_frames. Qed.
Lemma ApplySpotMatching_frames fl b q : frames f (ApplySpotMatching fl b q).
Proof. intros c. unfold ApplySpotMatching, spotMakerDebit, spotTakerDebit. solve_frames. Qed.
End ledger_frames.

(** In particular the order book and the market records. *)
Definition market_records (c : Chain) := (mst_Markets (market c), mst_ExpiryIndex (market c)).

Lemma Apply_book f : frames book (Apply f).
Proof. by apply Apply_frames. Qed.
Lemma ApplySpotMatching_book f b q : frames book (ApplySpotMatching f b q).
Proof. by apply ApplySpotMatching_frames. Qed.
Lemma Apply_market_records f : frames market_records (Apply f).
Proof. by apply Apply_frames. Qed.
#[export] Hint Resolve Apply_book ApplySpotMatching_book Apply_market_records : frames.

(** A fill reaches the market store through the open interest only, so the
    nonce counters of every market are kept, whatever its outcome. *)
Lemma Apply_counters f i x : stable (counters i x) (Apply f).
Proof.
  assert (forall A (m : K A), frames market m -> stable (counters i x) m) as Hfr.
  { intros A m Hm. apply (stable_frames market); [done|]. intros c c'. apply counters_market. }
  assert (forall (b : bool) a, stable (counters i x) (if b then reads (SnapshotRisk a) else mret no_snapshot)) as Hsnap
    by (by intros [] a; apply Hfr).
  unfold Apply. cbv zeta.
  do 2 (apply stable_bind; [by apply Hfr, SettlePositionFunding_frames|intros _]).
  do 2 (apply stable_bind; [apply Hsnap|intros ?]).
  do 2 (apply stable_bind; [by apply Hfr, frames_map_err, applyPositionChange_frames|intros ?]).
  do 2 (apply stable_bind; [by apply Hfr, applyAccount_frames|intros _]).
  apply stable_bind; [by apply Hfr, credit_fees_frames|intros _].
  apply stable_bind; [apply UpdateOpenInterest_counters|intros _].
  destruct (f_NoRiskCheck f); [apply stable_ret|].
  apply stable_bind; [|intros _]; by apply Hfr, check_side_frames.
Qed.

(** ** Panics

    The only panic of the trade engine is the open-interest delta leaving
    the [int64] range, which the bound on stored position sizes excludes.
    The engine keeps that bound on every outcome: a size is checked before
    it is stored. *)

Definition sized (c : Chain) : Prop :=
  map_Forall (fun _ p => Z.abs (pos_BaseSize p) <= MaxPositionSize) (ast_AccountPositions (account c)).
#[global] Instance sized_dec c : Decision (sized c).
Proof. apply _. Defined.

Lemma sized_account c c' : account c' = account c -> sized c -> sized c'.
Proof. unfold sized. by intros ->. Qed.

Lemma positions_ok_sized c : positions_ok c -> sized c.
Proof. intros H k p Hp. apply (H k p Hp). Qed.

Lemma get_position_sized a m c : sized c -> Z.abs (pos_BaseSize (GetPosition a m c)) <= MaxPositionSize.
Proof. intros H. unfold GetPosition. destruct (_ !! _) eqn:E; [by apply (H _ _ E)|]. cbn. by vm_compute. Qed.

Lemma returned_mark i c : returned (GetMarkPriceAndDetails i c).
Proof. unfold GetMarkPriceAndDetails, GetMarketDetails, gateMarkPrice. solve_safe. Qed.
#[export] Hint Resolve returned_mark : safe.

Lemma returned_cross a c : returned (ComputeCrossRisk a c).
Proof. unfold ComputeCrossRisk, GetAccount, cross_step. solve_safe. Qed.
Lemma returned_isolated a m c : returned (ComputeIsolatedRisk a m c).
Proof. unfold ComputeIsolatedRisk. solve_safe. Qed.
#[export] Hint Resolve returned_cross returned_isolated : safe.

Lemma returned_snapshot a c : returned (SnapshotRisk a c).
Proof. unfold SnapshotRisk, snapshot_step. solve_safe. Qed.
Lemma returned_change a pre c : returned (IsValidRiskChangeFrom a pre c).
Proof.
  unfold IsValidRiskChangeFrom, isCrossRiskChangeValid. solve_safe.
  induction (IterateAccountPositions a c); cbn [isolated_changes_valid]; [done|].
  unfold isIsolatedRiskChangeValid. solve_safe.
Qed.
Lemma returned_available a c : returned (GetAvailableUsdcCollateral a c).
Proof. unfold GetAvailableUsdcCollateral. solve_safe. Qed.
Lemma returned_liq_snapshot a m c : returned (GetLiquidationRiskSnapshot a m c).
Proof. unfold GetLiquidationRiskSnapshot. solve_safe. Qed.
Lemma returned_zero_price a m c : returned (GetZeroPriceSnapshot a m c).
Proof. unfold GetZeroPriceSnapshot. solve_safe. Qed.
Lemma returned_health a c : returned (GetHealthStatus a c).
Proof. unfold GetHealthStatus. solve_safe. Qed.
Lemma returned_isolated_health a m c : returned (GetIsolatedHealthStatus a m c).
Proof. unfold GetIsolatedHealthStatus. solve_safe. Qed.
Lemma returned_takeover a m d p c : returned (SimulateRiskAfterTakeover a m d p c).
Proof. unfold SimulateRiskAfterTakeover. solve_safe. Qed.
#[export] Hint Resolve returned_snapshot returned_change returned_available returned_liq_snapshot returned_zero_price
  returned_health returned_isolated_health returned_takeover : safe.

Lemma AddCollateral_safe i d : safe sized (AddCollateral i d).
Proof. unfold AddCollateral, GetAccount, updateAccount, Accounts_Set, set_account_store. solve_safe. Qed.

Lemma UpdatePosition_safe {X} a m (g : AccountPosition -> R (AccountPosition * X)) :
  (forall p, Z.abs (pos_BaseSize p) <= MaxPositionSize -> returned (g p) /\
     forall px, g p = Ok px -> Z.abs (pos_BaseSize px.1) <= MaxPositionSize) ->
  safe sized (UpdatePosition a m g).
Proof.
  intros Hg c Hc. unfold UpdatePosition. set (p := GetPosition a m c <| pos_AccountIndex := a |> <| pos_MarketIndex := m |>).
  destruct (Hg p) as [Hs Hb]; [exact (get_position_sized a m c Hc)|].
  apply safe_at_bind; [by apply safe_at_lift|]. intros px c1 Hpx H1. inv_ok.
  apply safe_at_bind; [|by intros; apply safe_at_ret].
  split; [done|]. apply map_Forall_insert_2; [by apply Hb|exact H1].
Qed.

Lemma SettlePositionFunding_safe a m : safe sized (SettlePositionFunding a m).
Proof.
  unfold SettlePositionFunding, GetMarketDetails. solve_safe. apply UpdatePosition_safe; [|done].
  intros p Hp. split; [solve_safe|]. intros px Hpx. repeat case_match; by injection Hpx as <-.
Qed.

Lemma applyPositionChange_safe a m price b s : safe sized (applyPositionChange a m price b s).
Proof.
  intros c Hc. unfold applyPositionChange. apply safe_at_bind.
  - apply UpdatePosition_safe; [|done]. intros p _. unfold fill_mut. split; [solve_safe|].
    intros px H. inv_ok. apply isWithinPositionBounds_ok in H0 as [Hb _]. by subst px.
  - intros [p' [old fill]] c1 H H1. unfold UpdatePosition, setPosition, set_account_store in H. inv_ok.
    unfold fill_mut in H0. inv_ok.
    match goal with Hw : isWithinPositionBounds _ _ = true |- _ =>
      apply isWithinPositionBounds_ok in Hw as [Hb _] end.
    simplify_eq.
    pose proof (get_position_sized a m c Hc). apply safe_at_bind; [|by intros; apply safe_at_ret].
    apply safe_at_lift; [|done]. unfold to_int64. cbn in *. unfold MaxPositionSize in *.
    rewrite (proj2 (andb_true_iff _ _)); [done|]. rewrite Z.leb_le, Z.ltb_lt. lia.
Qed.

Lemma add_allocated_safe r d : safe sized (add_allocated r d).
Proof.
  unfold add_allocated. solve_safe. apply UpdatePosition_safe; [|done].
  intros p Hp. split; [done|]. by intros px [= <-].
Qed.
#[export] Hint Resolve AddCollateral_safe SettlePositionFunding_safe applyPositionChange_safe add_allocated_safe : safe.

Lemma applyAccount_safe r fee b l f : safe sized (applyAccount r fee b l f).
Proof.
  unfold applyAccount, applyIsolatedAccount, applyCrossAccount, isolatedAddAllocatedMargin, isolatedDebit,
    rebalanceIsolatedMargin, calculateIsolatedMarginDelta, crossAddCollateral, crossDebit. solve_safe.
Qed.
Lemma credit_fees_safe f a b l : safe sized (credit_fees f a b l).
Proof. unfold credit_fees. solve_safe. Qed.
Lemma check_side_safe f i pre : safe sized (check_side f i pre).
Proof. unfold check_side. solve_safe. Qed.
Lemma UpdateOpenInterest_safe m d : safe sized (UpdateOpenInterest m d).
Proof.
  unfold UpdateOpenInterest, GetMarketDetails, checkedAddInt64, SetMarketDetails, set_market_store. solve_safe.
Qed.
#[export] Hint Resolve applyAccount_safe credit_fees_safe check_side_safe UpdateOpenInterest_safe : safe.

(** A fill returns, whatever its outcome, and keeps every size in bounds. *)
Lemma Apply_safe f : safe sized (Apply f).
Proof. unfold Apply. solve_safe. Qed.
#[export] Hint Resolve Apply_safe : safe.

(** ** The order book *)

Lemma adjustPriceLevel_total m a p b q s d c : (adjustPriceLevel m a p b q s d c).1 <> NoFuel.
Proof.
  unfold adjustPriceLevel, bump_level, ApplyMagDelta, ApplyCountDelta, set_book. solve_total.
Qed.
Lemma CheckedQuote_total b p : CheckedQuote b p <> NoFuel.
Proof. unfold CheckedQuote. solve_total. Qed.
Lemma bumpAccountOpenOrderCount_total a m d c : (bumpAccountOpenOrderCount a m d c).1 <> NoFuel.
Proof. unfold bumpAccountOpenOrderCount, set_book. solve_total. Qed.
#[export] Hint Resolve adjustPriceLevel_total CheckedQuote_total bumpAccountOpenOrderCount_total : total.

Lemma index_total o c :
  (unindexClientOrder o c).1 <> NoFuel /\ (unindexClientOrderIfMatches o c).1 <> NoFuel /\
  (unindexAccountOpenOrder o c).1 <> NoFuel /\ (removeExpiryIndex o c).1 <> NoFuel.
Proof.
  unfold unindexClientOrder, unindexClientOrderIfMatches, unindexAccountOpenOrder, removeExpiryIndex, set_book.
  split_and!; solve_total.
Qed.

Lemma close_order_total o c : (close_order o c).1 <> NoFuel.
Proof.
  unfold close_order. repeat (apply M_bind_total; [first [apply index_total|done]|intros ? ?]). done.
Qed.
Lemma releaseSpotLockOnClose_total o c : (releaseSpotLockOnClose o c).1 <> NoFuel.
Proof.
  unfold releaseSpotLockOnClose, GetMarket, DecreaseLockedBalance, setAccountAsset, set_account_store. solve_total.
Qed.
Lemma removeEntry_total m a i c : (removeEntry m a i c).1 <> NoFuel.
Proof. unfold removeEntry, Entries_Remove, SortKey_Remove, set_book. solve_total. Qed.
#[export] Hint Resolve close_order_total releaseSpotLockOnClose_total removeEntry_total : total.

Lemma EvictMakerOrder_total i st c : (EvictMakerOrder i st c).1 <> NoFuel.
Proof. unfold EvictMakerOrder, GetOrder. solve_total. Qed.
Lemma FillMakerOrder_total i q c : (FillMakerOrder i q c).1 <> NoFuel.
Proof.
  unfold FillMakerOrder, GetOrder, shrinkEntryResidue, Entries_Remove, Entries_Set, SortKey_Remove, setOrder,
    set_book, applyOrderResidue.
  solve_total; apply index_total.
Qed.
#[export] Hint Resolve EvictMakerOrder_total FillMakerOrder_total : total.
