(* ===== verification/Matching.v ===== *)
(** * Matching

    [x/matching]: the matching kernel ([keeper/match_core.go]), the user and
    liquidation loops ([keeper/match_order.go], [match_liquidation.go]), the
    message handlers ([keeper/msg_server.go], [types/msgs.go]) and the
    trigger sweep ([keeper/abci.go]). *)

From S2P Require Import Prelude Constants Types PositionMath Account Market Oracle Funding Risk Trade OrderBook Effects.

(** ** The kernel ([match_core.go]) *)

(** The guards of [nextMaker] that stop the match: price out of reach, self
    trade. *)
Definition price_unreachable (taker : Order) (best : OrderBookEntry) : bool :=
  negb (ord_OrderType taker =? MarketOrder) &&
  ((ord_IsAsk taker && (ent_Price best <? ord_Price taker)) ||
   (negb (ord_IsAsk taker) && (ord_Price taker <? ent_Price best))).

(** The reduce-only taker holds nothing to reduce on this side. *)
Definition taker_cannot_reduce (taker : Order) (pos : AccountPosition) : bool :=
  (pos_BaseSize pos =? 0) ||
  (ord_IsAsk taker && negb (OpeningIsBid pos)) || (negb (ord_IsAsk taker) && negb (OpeningIsAsk pos)).

(** The reduce-only maker holds nothing to reduce against this taker. *)
Definition maker_cannot_reduce (taker : Order) (pos : AccountPosition) : bool :=
  (pos_BaseSize pos =? 0) ||
  (ord_IsAsk taker && OpeningIsBid pos) || (negb (ord_IsAsk taker) && OpeningIsAsk pos).

Fixpoint nextMaker_loop (fuel : nat) (taker : Order) (isPerp : bool) (now : Z)
  : K (option OrderBookEntry) := fun c =>
  match fuel with
  | O => (NoFuel, c)
  | S fuel =>
      match PeekBest (ord_MarketIndex taker) (negb (ord_IsAsk taker)) c with
      | None => (Ok None, c)
      | Some best =>
          if price_unreachable taker best then (Ok None, c)
          else if ent_OwnerAccountIndex best =? ord_OwnerAccountIndex taker then (Ok None, c)
          else if (0 <? ent_Expiry best) && (ent_Expiry best <=? now) then
            (EvictMakerOrder (ent_OrderIndex best) OrderStatusCancelled;;
             nextMaker_loop fuel taker isPerp now) c
          else if isPerp && ord_ReduceOnly taker &&
                  taker_cannot_reduce taker
                    (GetPosition (ord_OwnerAccountIndex taker) (ord_MarketIndex taker) c)
          then (Ok None, c)
          else if isPerp && ent_ReduceOnly best &&
                  maker_cannot_reduce taker
                    (GetPosition (ent_OwnerAccountIndex best) (ord_MarketIndex taker) c)
          then
            (EvictMakerOrder (ent_OrderIndex best) OrderStatusCancelled;;
             nextMaker_loop fuel taker isPerp now) c
          else (Ok (Some best), c)
      end
  end.

(** Each retry evicts an entry, so the number of entries bounds the loop. *)
Definition nextMaker (taker : Order) (isPerp : bool) (now : Z) : K (option OrderBookEntry) := fun c =>
  nextMaker_loop (S (size (bst_OrderBookEntries (book c)))) taker isPerp now c.

(** The reduce-only cap of one side: [None] stops the match. *)
Definition reduce_cap (account market base : Z) (c : Chain) : R (option Z) :=
  limit ← to_uint64 (Z.abs (pos_BaseSize (GetPosition account market c)));
  if limit =? 0 then mret None
  else mret (Some (if limit <? base then limit else base)).

Definition matchSize (taker : Order) (maker : OrderBookEntry) (isPerp : bool) (c : Chain)
  : R (option Z) :=
  let base := ord_RemainingBaseAmount taker in
  let base := if ent_RemainingBaseAmount maker <? base then ent_RemainingBaseAmount maker else base in
  base ← (if isPerp && ord_ReduceOnly taker
          then reduce_cap (ord_OwnerAccountIndex taker) (ord_MarketIndex taker) base c
          else mret (Some base));
  match base with
  | None => mret None
  | Some base =>
      base ← (if isPerp && ent_ReduceOnly maker && (0 <? base)
              then reduce_cap (ent_OwnerAccountIndex maker) (ord_MarketIndex taker) base c
              else mret (Some base));
      match base with
      | None => mret None
      | Some base => if base =? 0 then mret None else mret (Some base)
      end
  end.

Definition classifyApplyError (makerOrderIdx : Z) (applyErr : Error) : K bool :=
  if IsRecoverableMakerError applyErr then
    EvictMakerOrder makerOrderIdx OrderStatusCancelled;; mret false
  else if IsRecoverableTakerError applyErr then lift (Err (EMatching errTakerRejected))
  else lift (Err applyErr).

(** One fill in a cache context: [fill] and the maker update are written
    together, an error is classified on the outer context. *)
Definition apply_in_cache (makerOrderIdx base : Z) (fill : K unit) : K bool := fun c =>
  match (fill;; FillMakerOrder makerOrderIdx base) c with
  | (Ok _, c') => (Ok true, c')
  | (Err e, _) => classifyApplyError makerOrderIdx e c
  | (Panic, _) => (Panic, c)
  | (NoFuel, _) => (NoFuel, c)
  end.

Definition applyPerpFill (maker : OrderBookEntry) (fill : Fill) : K bool :=
  apply_in_cache (ent_OrderIndex maker) (f_BaseAmount fill) (ApplyPerpsMatching fill).

Definition applySpotFill (maker : OrderBookEntry) (fill : SpotFill) (baseAssetID quoteAssetID : Z)
  : K bool :=
  apply_in_cache (ent_OrderIndex maker) (sf_BaseAmount fill)
    (ApplySpotMatching fill baseAssetID quoteAssetID).

(** ** The matching loop *)

(** [errors.Is(err, errTakerRejected)] *)
Definition catch_rejected (m : K bool) : K (option bool) := fun c =>
  match m c with
  | (Ok b, c') => (Ok (Some b), c')
  | (Err (EMatching errTakerRejected), c') => (Ok None, c')
  | (Err e, c') => (Err e, c')
  | (Panic, c') => (Panic, c')
  | (NoFuel, c') => (NoFuel, c')
  end.

Section loop.
(** How a fill is applied and, after a committed one, whether to go on: the
    two points in which [MatchOrder] and [matchLiquidation] differ. *)
Context (apply : Order -> OrderBookEntry -> Z -> K bool) (go_on : Order -> Chain -> R bool).
Context (isPerp : bool) (now maxFills : Z).

(** Returns the taker, the filled base and whether the taker was rejected. *)
Fixpoint match_loop (fuel : nat) (taker : Order) (totalFilled fills : Z) : K (Order * Z * bool) := fun c =>
  match fuel with
  | O => (NoFuel, c)
  | S fuel =>
      if negb ((0 <? ord_RemainingBaseAmount taker) && (fills <? maxFills))
      then (Ok (taker, totalFilled, false), c)
      else
        (maker ← nextMaker taker isPerp now;
         match maker with
         | None => mret (taker, totalFilled, false)
         | Some maker =>
             base ← reads (matchSize taker maker isPerp);
             match base with
             | None => mret (taker, totalFilled, false)
             | Some base =>
                 committed ← catch_rejected (apply taker maker base);
                 match committed with
                 | None => mret (taker, totalFilled, true)
                 | Some false => match_loop fuel taker totalFilled fills
                 | Some true =>
                     let taker := taker <| ord_RemainingBaseAmount :=
                                    ord_RemainingBaseAmount taker - base |> in
                     more ← reads (go_on taker);
                     if negb more then mret (taker, totalFilled + base, false)
                     else match_loop fuel taker (totalFilled + base) (fills + 1)
                 end
             end
         end) c
  end.

(** Every iteration commits a fill or evicts an entry. *)
Definition match_run (taker : Order) : K (Order * Z * bool) := fun c =>
  match_loop (S (Z.to_nat maxFills + size (bst_OrderBookEntries (book c)))) taker 0 0 c.
End loop.

(** *** The user path ([match_order.go]) *)

Definition user_fill (m : Market) (taker : Order) (maker : OrderBookEntry) (base : Z) : Fill :=
  mkFill (ent_OwnerAccountIndex maker) (ord_OwnerAccountIndex taker) (ord_MarketIndex taker)
    (ent_Price maker) base (ord_IsAsk taker) (mkt_TakerFee m) (mkt_MakerFee m)
    false false false false 0 0 0.

Definition user_spot_fill (m : Market) (taker : Order) (maker : OrderBookEntry) (base : Z) : SpotFill :=
  mkSpotFill (ent_OwnerAccountIndex maker) (ord_OwnerAccountIndex taker) (ord_MarketIndex taker)
    (ent_Price maker) base (ord_IsAsk taker) (mkt_TakerFee m) (mkt_MakerFee m) false.

Definition applyUserFill (m : Market) (taker : Order) (maker : OrderBookEntry) (base : Z) : K bool :=
  if mkt_MarketType m =? MarketTypePerps
  then applyPerpFill maker (user_fill m taker maker base)
  else applySpotFill maker (user_spot_fill m taker maker base) (mkt_BaseAssetId m) (mkt_QuoteAssetId m).

Definition match_status (taker : Order) (totalFilled : Z) (rejected : bool) : Z :=
  if rejected then OrderStatusCancelled
  else if ord_RemainingBaseAmount taker =? 0 then OrderStatusFilled
  else if 0 <? totalFilled then OrderStatusPartiallyFilled
  else OrderStatusOpen.

(** The body of [MatchOrder] over a fill engine: returns the taker with its
    residue, the filled base and the status. *)
Definition MatchOrder_with (engine : Market -> Z -> Order -> OrderBookEntry -> Z -> K bool)
    (taker : Order) (maxFills : Z) : K (Order * Z * Z) := fun c =>
  let now := BlockTime c in
  (m ← reads (GetMarket (ord_MarketIndex taker));
   let isPerp := mkt_MarketType m =? MarketTypePerps in
   '(taker, totalFilled, rejected) ←
     match_run (engine m now) (fun _ _ => mret true) isPerp now maxFills taker;
   mret (taker, totalFilled, match_status taker totalFilled rejected)) c.

Definition MatchOrder : Order -> Z -> K (Order * Z * Z) := MatchOrder_with (fun m _ => applyUserFill m).

(** *** The liquidation path ([match_liquidation.go]) *)

Definition liquidation_fill (taker : Order) (maker : OrderBookEntry) (base zeroPrice feeBps recipient : Z)
  : Fill :=
  mkFill (ent_OwnerAccountIndex maker) (ord_OwnerAccountIndex taker) (ord_MarketIndex taker)
    (ent_Price maker) base (ord_IsAsk taker) 0 0 false false false false zeroPrice feeBps recipient.

Definition applyLiquidationFill (zeroPrice feeBps recipient : Z)
    (taker : Order) (maker : OrderBookEntry) (base : Z) : K bool :=
  applyPerpFill maker (liquidation_fill taker maker base zeroPrice feeBps recipient).

Definition needsLiquidation (victim marketIdx : Z) (c : Chain) : R bool :=
  let pos := GetPosition victim marketIdx c in
  s ← (if pos_MarginMode pos =? IsolatedMargin then GetIsolatedHealthStatus victim marketIdx c
       else GetHealthStatus victim c);
  mret ((s =? HealthPartialLiquidation) || (s =? HealthFullLiquidation) || (s =? HealthBankruptcy)).

(** The bodies of the two entry points over a fill engine, as for
    [MatchOrder_with]. *)
Definition matchLiquidation_with (engine : Z -> Order -> OrderBookEntry -> Z -> K bool)
    (taker : Order) (maxFills : Z) : K Z := fun c =>
  let now := BlockTime c in
  (m ← reads (GetMarket (ord_MarketIndex taker));
   lift (ensure (mkt_MarketType m =? MarketTypePerps) (EMatching ErrInvalidOrder));;
   '(_, totalFilled, _) ←
     match_run (engine now)
       (fun taker => needsLiquidation (ord_OwnerAccountIndex taker) (ord_MarketIndex taker))
       true now maxFills taker;
   mret totalFilled) c.

Definition matchLiquidation (taker : Order) (maxFills zeroPrice feeBps recipient : Z) : K Z :=
  matchLiquidation_with (fun _ => applyLiquidationFill zeroPrice feeBps recipient) taker maxFills.

(** The synthetic reduce-only IOC taker of a close-out. *)
Definition liquidation_taker (victim marketIdx zeroPrice base now : Z) (isAsk : bool) : Order :=
  mkOrder 0 0 victim marketIdx isAsk LiquidationOrder IOC true zeroPrice 0 base base 0 0 0 now
    OrderStatusOpen.

Definition MatchLiquidationOrder_with (engine : Z -> Order -> OrderBookEntry -> Z -> K bool)
    (victim marketIdx zeroPrice baseAmount : Z) : K Z := fun c =>
  (lift (ensure (negb (baseAmount =? 0)) (EMatching ErrInvalidOrder));;
   lift (ensure (negb (zeroPrice =? 0)) (EMatching ErrInvalidOrder));;
   let pos := GetPosition victim marketIdx c in
   lift (ensure (negb (pos_BaseSize pos =? 0)) (EMatching ErrInvalidOrder));;
   let isAsk := OpeningIsBid pos in
   abs ← lift (to_uint64 (Z.abs (pos_BaseSize pos)));
   let baseAmount := if abs <? baseAmount then abs else baseAmount in
   let maxFills := mtp_MaxFillsPerMsg (xst_MatchingParams (misc c)) in
   let maxFills := if maxFills =? 0 then 64 else maxFills in
   matchLiquidation_with engine
     (liquidation_taker victim marketIdx zeroPrice baseAmount (BlockTime c) isAsk) maxFills) c.

Definition MatchLiquidationOrder (victim marketIdx zeroPrice baseAmount feeBps recipient : Z) : K Z :=
  MatchLiquidationOrder_with (fun _ => applyLiquidationFill zeroPrice feeBps recipient)
    victim marketIdx zeroPrice baseAmount.

(** *** Cancelling an account's orders ([keeper.go]) *)

(** The orders one cancel-all message or one liquidation may cancel. *)
Definition cancel_targets (accountIdx marketFilter : Z) (c : Chain) : list Order :=
  let maxCancels := mtp_MaxCancelsPerMsg (xst_MatchingParams (misc c)) in
  let maxCancels := if maxCancels =? 0 then 128 else maxCancels in
  take (Z.to_nat maxCancels)
    (filter (fun o => is_open_status (ord_Status o) = true)
       (IterateAccountOpenOrders accountIdx marketFilter c)).

Definition cancel_each (targets : list Order) : K unit :=
  forM (fun o => CancelOrder (ord_OrderIndex o);; mret tt) targets.

Definition CancelAllOpenOrdersForAccount (accountIdx : Z) : K unit := fun c =>
  cancel_each (cancel_targets accountIdx 0 c) c.

(** ** Messages ([msgs.go], [msg_server.go]) *)

Record MsgCreateOrder := mkMsgCreateOrder {
  co_Sender : string;
  co_AccountIndex : Z;
  co_MarketIndex : Z;
  co_ClientOrderIndex : Z;
  co_IsAsk : bool;
  co_OrderType : Z;
  co_TimeInForce : Z;
  co_BaseAmount : Z;
  co_Price : Z;
  co_TriggerPrice : Z;
  co_Expiry : Z;
  co_ReduceOnly : bool
}.

Record CreateOrderResponse := mkCreateOrderResponse {
  cor_OrderIndex : Z;
  cor_Status : Z;
  cor_FilledBaseAmount : Z
}.

Definition validateOrderType (t : Z) : bool :=
  (t =? LimitOrder) || (t =? MarketOrder) || (t =? StopLossOrder) || (t =? StopLossLimitOrder) ||
  (t =? TakeProfitOrder) || (t =? TakeProfitLimitOrder) || (t =? TWAPOrder) || (t =? TWAPSubOrder) ||
  (t =? LiquidationOrder).

Definition IsTriggerOrder (t : Z) : bool :=
  (t =? StopLossOrder) || (t =? StopLossLimitOrder) || (t =? TakeProfitOrder) || (t =? TakeProfitLimitOrder).

Definition requiresLimitPrice (t : Z) : bool :=
  (t =? LimitOrder) || (t =? StopLossLimitOrder) || (t =? TakeProfitLimitOrder) ||
  (t =? TWAPSubOrder) || (t =? LiquidationOrder).

Definition validateTIF (t : Z) : bool := (t =? IOC) || (t =? GTT) || (t =? PostOnly).

Definition QuoteExceedsLimit (base price limit : Z) : bool :=
  if (limit <=? 0) || (base =? 0) || (price =? 0) then false else limit <? base * price.

Definition willConsumeOpenSlot (msg : MsgCreateOrder) : bool :=
  if IsTriggerOrder (co_OrderType msg) then true else negb (co_TimeInForce msg =? IOC).

Definition spotResidueLock (o : Order) (m : Market) : Z * Z :=
  if ord_IsAsk o then (mkt_BaseAssetId m, ord_RemainingBaseAmount o)
  else (mkt_QuoteAssetId m, ord_RemainingBaseAmount o * ord_Price o).

(** Ranges of the unsigned fields hold of any decoded message. *)
Definition MsgCreateOrder_typed (m : MsgCreateOrder) : Prop :=
  0 <= co_BaseAmount m < 2 ^ 64 /\ 0 <= co_Price m < 2 ^ 32 /\ 0 <= co_TriggerPrice m < 2 ^ 32.

Section handlers.
Context `{Env}.

Definition validAddr (s : string) : R unit := ensure (valid_bech32 s) EInvalidAddress.

Definition MsgCreateOrder_ValidateBasic (m : MsgCreateOrder) : R unit :=
  let bad := EMatching ErrInvalidOrder in
  validAddr (co_Sender m);;
  ensure (negb ((co_BaseAmount m =? 0) || (MaxOrderBaseAmount <? co_BaseAmount m))) bad;;
  ensure (validateOrderType (co_OrderType m)) bad;;
  ensure (validateTIF (co_TimeInForce m)) bad;;
  ensure (negb (negb (co_ClientOrderIndex m =? 0) &&
                ((co_ClientOrderIndex m <? MinClientOrderIndex) ||
                 (MaxClientOrderIndex <? co_ClientOrderIndex m)))) bad;;
  ensure (negb (requiresLimitPrice (co_OrderType m) && (co_Price m =? 0))) bad;;
  ensure (negb (IsTriggerOrder (co_OrderType m) && (co_TriggerPrice m =? 0))) bad;;
  ensure (negb ((co_TimeInForce m =? PostOnly) && negb (co_OrderType m =? LimitOrder))) bad;;
  ensure (negb ((co_TimeInForce m =? GTT) && (co_Expiry m <=? 0))) bad.

Definition CheckPreLiquidationGate (accIdx marketIdx : Z) (reduceOnly : bool) (c : Chain) : R unit :=
  cross ← GetHealthStatus accIdx c;
  iso ← GetIsolatedHealthStatus accIdx marketIdx c;
  let worst := if cross <? iso then iso else cross in
  if worst =? HealthHealthy then mret tt
  else if worst =? HealthPreLiquidation then
    ensure reduceOnly (EMatching ErrAccountUnderLiquidation)
  else Err (EMatching ErrAccountUnderLiquidation).

Definition reduceOnlyCompatible (accIdx marketIdx : Z) (isAsk : bool) (c : Chain) : bool :=
  let pos := GetPosition accIdx marketIdx c in
  if pos_BaseSize pos =? 0 then false
  else if isAsk then OpeningIsBid pos else OpeningIsAsk pos.

(** The guards of [CreateOrder]: everything before the first write. *)
Definition create_guards (msg : MsgCreateOrder) (c : Chain) : R Market :=
  let bad := EMatching ErrInvalidOrder in
  MsgCreateOrder_ValidateBasic msg;;
  ok ← IsAuthorized (co_Sender msg) (co_AccountIndex msg) c;
  ensure ok (EMatching ErrMatchUnauthorized);;
  ensure (match GetAccount (co_AccountIndex msg) c with Ok acc => negb (IsPoolType acc) | _ => true end)
    (EMatching ErrPoolCannotPlaceOrder);;
  m ← GetMarket (co_MarketIndex msg) c;
  ensure (mkt_Status m =? MarketStatusActive) bad;;
  CheckPreLiquidationGate (co_AccountIndex msg) (co_MarketIndex msg) (co_ReduceOnly msg) c;;
  ensure (negb ((0 <? mkt_MinBaseAmount m) && (co_BaseAmount msg <? mkt_MinBaseAmount m))) bad;;
  ensure (negb ((0 <? mkt_MinQuoteAmount m) && (0 <? co_Price msg) &&
                (wrap64 (co_Price msg * co_BaseAmount msg) <? mkt_MinQuoteAmount m))) bad;;
  ensure (negb (QuoteExceedsLimit (co_BaseAmount msg) (co_Price msg) (mkt_OrderQuoteLimit m)))
    (EMatching ErrQuoteLimitExceeded);;
  ensure (negb (negb (co_ClientOrderIndex msg =? 0) &&
                (HasOpenClientOrder (co_MarketIndex msg) (co_AccountIndex msg) (co_ClientOrderIndex msg) c).1))
    (EMatching ErrDuplicateClientOrder);;
  ensure (negb ((0 <? mkt_MaxOpenOrdersPerAccount m) && willConsumeOpenSlot msg &&
                (mkt_MaxOpenOrdersPerAccount m <=?
                 GetAccountOpenOrderCount (co_AccountIndex msg) (co_MarketIndex msg) c)))
    (EMatching ErrTooManyOpenOrders);;
  ensure (negb ((co_TimeInForce msg =? PostOnly) &&
                WouldCross (co_MarketIndex msg) (co_IsAsk msg) (co_Price msg) c))
    (EMatching ErrPostOnlyCross);;
  ensure (negb (co_ReduceOnly msg &&
                negb (reduceOnlyCompatible (co_AccountIndex msg) (co_MarketIndex msg) (co_IsAsk msg) c)))
    (EMatching ErrReduceOnlyViolated);;
  mret m.

Definition order_of_msg (msg : MsgCreateOrder) (idx nonce now : Z) : Order :=
  mkOrder idx (co_ClientOrderIndex msg) (co_AccountIndex msg) (co_MarketIndex msg) (co_IsAsk msg)
    (co_OrderType msg) (co_TimeInForce msg) (co_ReduceOnly msg) (co_Price msg) nonce
    (co_BaseAmount msg) (co_BaseAmount msg) (co_TriggerPrice msg) TriggerStatusNA (co_Expiry msg) now
    OrderStatusOpen.

(** The status the residue is opened with: IOC residues and spot residues
    that cannot be locked are cancelled. *)
Definition residue_status (m : Market) (msgTIF : Z) (order : Order) (c : Chain) : Z :=
  let status := if (msgTIF =? IOC) && (0 <? ord_RemainingBaseAmount order)
                then OrderStatusCancelled else ord_Status order in
  if is_resting_status status && (mkt_MarketType m =? MarketTypeSpot) &&
     (0 <? ord_RemainingBaseAmount order) then
    let '(assetID, lockAmt) := spotResidueLock order m in
    if AvailableBalance (ord_OwnerAccountIndex order) assetID c <? lockAmt
    then OrderStatusCancelled else status
  else status.

Definition CreateOrder (msg : MsgCreateOrder) : K CreateOrderResponse :=
  m ← reads (create_guards msg);
  idx ← AllocateOrderIndex;
  nonce ← AllocateNonce (co_MarketIndex msg) (co_IsAsk msg);
  now ← reads (fun c => mret (BlockTime c));
  let order := order_of_msg msg idx nonce now in
  if IsTriggerOrder (co_OrderType msg) then
    let order := order <| ord_Status := OrderStatusTriggeredPending |>
                       <| ord_TriggerStatus := TriggerStatusMarkPrice |> in
    OpenTriggerOrder order;;
    mret (mkCreateOrderResponse idx (ord_Status order) 0)
  else
    maxFills ← reads (fun c => mret (mtp_MaxFillsPerMsg (xst_MatchingParams (misc c))));
    '(order, filled, status) ← MatchOrder order maxFills;
    let order := order <| ord_Status := status |> in
    status ← reads (fun c => mret (residue_status m (co_TimeInForce msg) order c));
    let order := order <| ord_Status := status |> in
    OpenOrder order;;
    mret (mkCreateOrderResponse idx (ord_Status order) filled).

Definition MsgCancelOrder (sender : string) (orderIndex : Z) : K unit :=
  lift (validAddr sender);;
  o ← reads (GetOrder orderIndex);
  ok ← reads (IsAuthorized sender (ord_OwnerAccountIndex o));
  lift (ensure ok (EMatching ErrMatchUnauthorized));;
  CancelOrder (ord_OrderIndex o);;
  mret tt.

Definition MsgCancelAllOrders (sender : string) (accountIndex marketFilter mode : Z) : K unit := fun c =>
  (lift (validAddr sender);;
   lift (ensure ((mode =? ImmediateCancelAll) || (mode =? ScheduledCancelAll) ||
                 (mode =? AbortScheduledCancelAll)) (EMatching ErrInvalidOrder));;
   ok ← reads (IsAuthorized sender accountIndex);
   lift (ensure ok (EMatching ErrMatchUnauthorized));;
   lift (ensure (mode =? ImmediateCancelAll) (EMatching ErrUnimplemented));;
   cancel_each (cancel_targets accountIndex marketFilter c)) c.

Definition MsgModifyOrder (sender : string) (orderIndex newBaseAmount newPrice newTriggerPrice : Z) : K Z :=
  lift (validAddr sender);;
  lift (ensure (negb ((newBaseAmount =? 0) || (MaxOrderBaseAmount <? newBaseAmount))) (EMatching ErrInvalidOrder));;
  o ← reads (GetOrder orderIndex);
  ok ← reads (IsAuthorized sender (ord_OwnerAccountIndex o));
  lift (ensure ok (EMatching ErrMatchUnauthorized));;
  lift (ensure (is_resting_status (ord_Status o) && negb (ord_RemainingBaseAmount o =? 0))
          (EMatching ErrMatchOrderNotCancelable));;
  reads (CheckPreLiquidationGate (ord_OwnerAccountIndex o) (ord_MarketIndex o) (ord_ReduceOnly o));;
  CancelOrder (ord_OrderIndex o);;
  resp ← CreateOrder (mkMsgCreateOrder sender (ord_OwnerAccountIndex o) (ord_MarketIndex o)
           (ord_ClientOrderIndex o) (ord_IsAsk o) (ord_OrderType o) (ord_TimeInForce o)
           newBaseAmount newPrice newTriggerPrice (ord_Expiry o) (ord_ReduceOnly o));
  mret (cor_OrderIndex resp).

Definition Matching_UpdateParams (auth : string) (p : MatchingParams) : K unit :=
  lift (validAddr auth);;
  lift (ensure (negb (mtp_MaxFillsPerMsg p =? 0)) (EMatching ErrMatchInvalidParams));;
  lift (ensure (negb (mtp_MaxCancelsPerMsg p =? 0)) (EMatching ErrMatchInvalidParams));;
  lift (ensure (bool_decide (auth = authority)) (EMatching ErrMatchInvalidAuthority));;
  modify (fun c => c <| misc := misc c <| xst_MatchingParams := p |> |>).
End handlers.

(** ** Trigger sweep ([abci.go]) *)

Definition trigger_active (o : Order) (markPrice : Z) : bool :=
  if (ord_OrderType o =? StopLossOrder) || (ord_OrderType o =? StopLossLimitOrder) then
    if ord_IsAsk o then markPrice <=? ord_TriggerPrice o else ord_TriggerPrice o <=? markPrice
  else if (ord_OrderType o =? TakeProfitOrder) || (ord_OrderType o =? TakeProfitLimitOrder) then
    if ord_IsAsk o then ord_TriggerPrice o <=? markPrice else markPrice <=? ord_TriggerPrice o
  else false.

(** A trigger whose mark price is missing, stale or zero is skipped. *)
Definition trigger_due (c : Chain) (o : Order) : bool :=
  match GetMarkPriceAndDetails (ord_MarketIndex o) c with
  | Ok (markPrice, _) => if markPrice =? 0 then false else trigger_active o markPrice
  | _ => false
  end.

Definition due_triggers (c : Chain) : list Z :=
  ord_OrderIndex <$> filter (fun o => trigger_due c o = true) (IterateTriggers c).

(** The executable twin of an activated trigger. *)
Definition activated_twin (o : Order) : Order :=
  if (ord_OrderType o =? StopLossLimitOrder) || (ord_OrderType o =? TakeProfitLimitOrder)
  then o <| ord_OrderType := LimitOrder |>
  else o <| ord_OrderType := MarketOrder |> <| ord_TimeInForce := IOC |> <| ord_Price := 0 |>.

(** The match and the residue of an activated order; [None] is an error of
    one of the two steps. *)
Definition run_activated (o : Order) : K unit :=
  maxFills ← reads (fun c => mret (mtp_MaxFillsPerMsg (xst_MatchingParams (misc c))));
  '(o, _, status) ← MatchOrder o maxFills;
  let o := o <| ord_Status := if (ord_TimeInForce o =? IOC) && (0 <? ord_RemainingBaseAmount o)
                              then OrderStatusCancelled else status |> in
  OpenOrder o.

(** One due trigger: a failed activation is skipped, a failed match or
    opening cancels the order; the writes before the failure stay. *)
Definition fire_trigger (orderIndex : Z) : K unit :=
  activated ← attempt (ActivateTrigger orderIndex);
  match activated with
  | None => mret tt
  | Some o =>
      done ← attempt (run_activated (activated_twin o));
      match done with
      | Some _ => mret tt
      | None => attempt (CancelOrder (ord_OrderIndex o));; mret tt
      end
  end.

Definition Matching_EndBlocker : K unit := fun c => forM fire_trigger (due_triggers c) c.

(** ** The kernel on a consistent book *)

Definition entries (c : Chain) := bst_OrderBookEntries (book c).

Lemma frames_core_entries {A} (m : K A) : frames core m -> frames entries m.
Proof. intros Hm c. specialize (Hm c). unfold core in Hm. by injection Hm as _ ? _ _. Qed.

Lemma close_order_entries o : frames entries (close_order o).
Proof.
  intros c. unfold close_order.
  repeat (apply frames_bind_at; [first [done|apply frames_core_entries; solve [auto with frames]]|intros ? ?]).
  done.
Qed.

(** Evicting the head of a consistent book removes an entry. *)
Lemma EvictMakerOrder_shrinks m a e st c r c' :
  PeekBest m a c = Some e -> book_inv c -> EvictMakerOrder (ent_OrderIndex e) st c = (Ok r, c') ->
  book_inv c' /\ S (size (entries c')) = size (entries c).
Proof.
  intros Hp HI H. split.
  { pose proof (EvictMakerOrder_inv (ent_OrderIndex e) st c HI) as HI'. by rewrite H in HI'. }
  apply peek_resting in Hp as (o & [Ho He] & _ & -> & Hm & _ & _); [|done].
  unfold EvictMakerOrder in H. inv_ok. unfold GetOrder in H0. cbn in H0. rewrite Ho in H0. inv_ok. injection H0 as <-.
  destruct (removeEntry_run (ord_MarketIndex o) _ o c HI Ho eq_refl) as (c1 & Hrun & _ & _ & HE).
  cbn in H1. rewrite Hrun in H1. injection H1 as _ <-.
  assert (entries c' = entries c1) as ->.
  { rewrite (frames_run entries _ _ _ _ (close_order_entries _) H).
    by apply (frames_run entries _ _ _ _ (frames_core_entries _ (frames_book_core _ (frames_release o)))) in H2. }
  destruct HE as [[_ Hno]|[_ HE]]; [by destruct (Hno _ He)|].
  unfold entries. rewrite HE, map_size_delete, He.
  assert (size (bst_OrderBookEntries (book c)) <> 0%nat); [|lia].
  intros Hz%map_size_empty_iff. by rewrite Hz in He.
Qed.

(** What makes a fill of [base] between [taker] and the book's head
    admissible in the store it is applied to. *)
Definition reduces (pos : AccountPosition) (isAsk : bool) (base : Z) : Prop :=
  let delta := if isAsk then - base else base in
  Z.abs (pos_BaseSize pos + delta) = Z.abs (pos_BaseSize pos) - base.

Definition admissible (isPerp : bool) (now : Z) (taker : Order) (maker : OrderBookEntry) (base : Z)
    (c : Chain) : Prop :=
  (* the maker is the head of the opposite side *)
  PeekBest (ord_MarketIndex taker) (negb (ord_IsAsk taker)) c = Some maker /\
  (* the price is within the taker's limit *)
  (ord_OrderType taker <> MarketOrder ->
   if ord_IsAsk taker then ord_Price taker <= ent_Price maker else ent_Price maker <= ord_Price taker) /\
  (* no self trade, no expired maker *)
  ent_OwnerAccountIndex maker <> ord_OwnerAccountIndex taker /\
  ~ (0 < ent_Expiry maker <= now) /\
  (* the size is within both residues *)
  0 < base <= Z.min (ord_RemainingBaseAmount taker) (ent_RemainingBaseAmount maker) /\
  (* a reduce-only side shrinks and never flips *)
  (isPerp = true -> ord_ReduceOnly taker = true ->
   reduces (GetPosition (ord_OwnerAccountIndex taker) (ord_MarketIndex taker) c) (ord_IsAsk taker) base) /\
  (isPerp = true -> ent_ReduceOnly maker = true ->
   reduces (GetPosition (ent_OwnerAccountIndex maker) (ord_MarketIndex taker) c)
     (negb (ord_IsAsk taker)) base).

#[global] Instance OrderBookEntry_eq : EqDecision OrderBookEntry. Proof. solve_decision. Defined.
#[global] Instance admissible_dec isPerp now taker maker base c : Decision (admissible isPerp now taker maker base c).
Proof. unfold admissible, reduces. destruct (ord_IsAsk taker); apply _. Defined.

(** The checks of [nextMaker] that its answer passed. *)
Record usable (isPerp : bool) (now : Z) (taker : Order) (maker : OrderBookEntry) (c : Chain) : Prop := {
  us_head : PeekBest (ord_MarketIndex taker) (negb (ord_IsAsk taker)) c = Some maker;
  us_price : price_unreachable taker maker = false;
  us_other : ent_OwnerAccountIndex maker <> ord_OwnerAccountIndex taker;
  us_live : ~ (0 < ent_Expiry maker <= now);
  us_taker : isPerp && ord_ReduceOnly taker = true ->
    taker_cannot_reduce taker (GetPosition (ord_OwnerAccountIndex taker) (ord_MarketIndex taker) c) = false;
  us_maker : isPerp && ent_ReduceOnly maker = true ->
    maker_cannot_reduce taker (GetPosition (ent_OwnerAccountIndex maker) (ord_MarketIndex taker) c) = false
}.

Lemma nextMaker_loop_spec fuel taker isPerp now c :
  book_inv c -> (size (entries c) < fuel)%nat ->
  (nextMaker_loop fuel taker isPerp now c).1 <> NoFuel /\
  forall r c', nextMaker_loop fuel taker isPerp now c = (Ok r, c') ->
    book_inv c' /\ (size (entries c') <= size (entries c))%nat /\
    (forall maker, r = Some maker -> usable isPerp now taker maker c').
Proof.
  revert c. induction fuel as [|fuel IH]; intros c HI Hsz; [lia|]. cbn [nextMaker_loop].
  destruct (PeekBest _ _ c) as [best|] eqn:Hp; [|split; [done|intros r c' [= <- <-]; naive_solver]].
  destruct (price_unreachable taker best) eqn:Hpr; [split; [done|intros r c' [= <- <-]; naive_solver]|].
  destruct (ent_OwnerAccountIndex best =? _) eqn:Ho; [split; [done|intros r c' [= <- <-]; naive_solver]|].
  assert (forall r c', (EvictMakerOrder (ent_OrderIndex best) OrderStatusCancelled;;
      nextMaker_loop fuel taker isPerp now) c = (r, c') ->
    r <> NoFuel /\ forall x, r = Ok x -> book_inv c' /\ (size (entries c') <= size (entries c))%nat /\
      (forall maker, x = Some maker -> usable isPerp now taker maker c')) as Hev.
  { intros r c' H. unfold mbind, M_bind in H.
    pose proof (EvictMakerOrder_total (ent_OrderIndex best) OrderStatusCancelled c) as Hnf.
    destruct (EvictMakerOrder _ _ c) as [[o|e| |] c1] eqn:Hev; simplify_eq; [|done..].
    destruct (EvictMakerOrder_shrinks _ _ _ _ _ _ _ Hp HI Hev) as [HI1 Hs1].
    destruct (IH c1 HI1 ltac:(lia)) as [Hn1 Hok]. rewrite H in Hn1, Hok.
    split; [done|]. intros x ->. destruct (Hok x c' eq_refl) as (? & ? & ?). split_and!; [done|lia|done]. }
  breflect.
  destruct ((0 <? ent_Expiry best) && (ent_Expiry best <=? now)) eqn:Hex.
  { split; [|intros r c' H; by apply (Hev (Ok r) c')].
    destruct ((EvictMakerOrder _ _;; _) c) as [r c'] eqn:H. by apply (Hev r c'). }
  destruct (isPerp && ord_ReduceOnly taker && _) eqn:Hrt; [split; [done|intros r c' [= <- <-]; naive_solver]|].
  destruct (isPerp && ent_ReduceOnly best && _) eqn:Hrm.
  { split; [|intros r c' H; by apply (Hev (Ok r) c')].
    destruct ((EvictMakerOrder _ _;; _) c) as [r c'] eqn:H. by apply (Hev r c'). }
  split; [done|]. intros r c' [= <- <-]. split_and!; [done|lia|]. intros maker [= <-].
  split; try done.
  - intros [H1 H2]. rewrite (proj2 (Z.ltb_lt _ _) H1), (proj2 (Z.leb_le _ _) H2) in Hex. done.
  - intros Hb. by rewrite Hb in Hrt.
  - intros Hb. by rewrite Hb in Hrm.
Qed.

Lemma reduce_cap_ok a m base c b :
  reduce_cap a m base c = Ok (Some b) -> 0 < base ->
  0 < b <= base /\ b <= Z.abs (pos_BaseSize (GetPosition a m c)).
Proof.
  unfold reduce_cap, to_uint64. intros H Hb. inv_ok.
  destruct (_ && _) eqn:Hr; inv_ok; breflect; subst x.
  destruct (Z.abs _ =? 0) eqn:Hz; inv_ok; [done|]. breflect. injection H as <-.
  case_match; breflect; lia.
Qed.

Lemma reduces_intro pos (isAsk : bool) base :
  0 < base <= Z.abs (pos_BaseSize pos) ->
  (if isAsk then 0 < pos_BaseSize pos else pos_BaseSize pos < 0) -> reduces pos isAsk base.
Proof. unfold reduces. destruct isAsk; lia. Qed.

Lemma matchSize_ok taker maker isPerp now base c :
  matchSize taker maker isPerp c = Ok (Some base) -> usable isPerp now taker maker c ->
  0 < ord_RemainingBaseAmount taker -> 0 < ent_RemainingBaseAmount maker ->
  admissible isPerp now taker maker base c.
Proof.
  intros H [Hh Hp Ho Hl Ht Hm] Hrt Hrm. unfold matchSize in H.
  set (b0 := if ent_RemainingBaseAmount maker <? _ then _ else _) in H.
  assert (0 < b0 <= Z.min (ord_RemainingBaseAmount taker) (ent_RemainingBaseAmount maker)) as Hb0.
  { unfold b0. destruct (Z.ltb_spec (ent_RemainingBaseAmount maker) (ord_RemainingBaseAmount taker)); lia. }
  clearbody b0. inv_ok. destruct x as [b1|]; [|by inv_ok].
  assert (0 < b1 <= b0 /\ (isPerp && ord_ReduceOnly taker = true ->
    b1 <= Z.abs (pos_BaseSize (GetPosition (ord_OwnerAccountIndex taker) (ord_MarketIndex taker) c)))) as [Hb1 Hc1].
  { destruct (isPerp && ord_ReduceOnly taker); [apply reduce_cap_ok in H0; [|lia]; naive_solver|].
    inv_ok. injection H0 as ->. split; [lia|done]. }
  inv_ok. destruct x as [b2|]; [|by inv_ok].
  assert (0 < b2 <= b1 /\ (isPerp && ent_ReduceOnly maker = true ->
    b2 <= Z.abs (pos_BaseSize (GetPosition (ent_OwnerAccountIndex maker) (ord_MarketIndex taker) c)))) as [Hb2 Hc2].
  { rewrite (proj2 (Z.ltb_lt 0 b1)), andb_true_r in H1 by lia.
    destruct (isPerp && ent_ReduceOnly maker); [apply reduce_cap_ok in H1; [|lia]; naive_solver|].
    inv_ok. injection H1 as ->. split; [lia|done]. }
  destruct (b2 =? 0); inv_ok; [done|]. injection H as ->.
  unfold admissible. split_and!; [done| |done|done|lia|lia| |].
  - intros Hty. unfold price_unreachable in Hp. rewrite (proj2 (Z.eqb_neq _ _) Hty) in Hp.
    destruct (ord_IsAsk taker); cbn in Hp; rewrite ?orb_false_r in Hp; breflect; lia.
  - intros -> Hro. rewrite Hro in *. specialize (Ht eq_refl). specialize (Hc1 eq_refl).
    apply reduces_intro; [lia|]. unfold taker_cannot_reduce, OpeningIsBid, OpeningIsAsk, IsLong, IsShort in Ht.
    destruct (ord_IsAsk taker); cbn in Ht; rewrite ?orb_false_r in Ht; breflect; lia.
  - intros -> Hro. rewrite Hro in *. specialize (Hm eq_refl). specialize (Hc2 eq_refl).
    apply reduces_intro; [lia|]. unfold maker_cannot_reduce, OpeningIsBid, OpeningIsAsk, IsLong, IsShort in Hm.
    destruct (ord_IsAsk taker); cbn in Hm |- *; rewrite ?orb_false_r in Hm; breflect; lia.
Qed.

(** ** The loop *)

(** What the loop needs of a fill engine: an admissible fill leaves a
    consistent book with no more entries, one less when it is not
    committed. *)
Class EngineOk (isPerp : bool) (now : Z) (apply : Order -> OrderBookEntry -> Z -> K bool) : Prop := {
  engine_total : forall t m b c, admissible isPerp now t m b c -> (apply t m b c).1 <> NoFuel;
  engine_ok : forall t m b c committed c', admissible isPerp now t m b c -> book_inv c ->
    apply t m b c = (Ok committed, c') -> book_inv c' /\
    if committed : bool then (size (entries c') <= size (entries c))%nat
    else S (size (entries c')) = size (entries c);
  engine_rejected : forall t m b c c', admissible isPerp now t m b c -> book_inv c ->
    apply t m b c = (Err (EMatching errTakerRejected), c') -> book_inv c'
}.

Lemma apply_in_cache_ok isPerp now t m b c fill :
  (fill c).1 <> NoFuel -> frames book fill -> admissible isPerp now t m b c -> book_inv c ->
  (apply_in_cache (ent_OrderIndex m) b fill c).1 <> NoFuel /\
  (forall committed c', apply_in_cache (ent_OrderIndex m) b fill c = (Ok committed, c') ->
     book_inv c' /\ if committed : bool then (size (entries c') <= size (entries c))%nat
                    else S (size (entries c')) = size (entries c)) /\
  (forall c', apply_in_cache (ent_OrderIndex m) b fill c = (Err (EMatching errTakerRejected), c') -> c' = c \/
     book_inv c').
Proof.
  intros Hf Hb (Hh & _ & _ & _ & Hsz & _) HI. unfold apply_in_cache.
  assert (((fill;; FillMakerOrder (ent_OrderIndex m) b) c).1 <> NoFuel) as Hnf.
  { apply M_bind_total; [done|]. intros _ c1. apply FillMakerOrder_total. }
  destruct ((fill;; FillMakerOrder (ent_OrderIndex m) b) c) as [[o|e| |] c1] eqn:Hrun; cbn in Hnf; [|..|done|done].
  - split; [done|]. split; [|done]. intros committed c' [= <- <-]. inv_ok.
    pose proof (frames_run _ _ _ _ _ Hb H) as Hbk.
    assert (book_inv x0) as HI0 by (by unfold book_inv; rewrite Hbk).
    destruct (FillMakerOrder_ok _ _ _ _ _ Hrun HI0 ltac:(lia)) as (HI' & o' & _ & _ & _ & He & HE).
    split; [done|]. unfold entries. rewrite <- Hbk.
    destruct HE as [->| ->]; [rewrite map_size_delete, He; lia|rewrite map_size_insert, He; cbn; lia].
  - unfold classifyApplyError. destruct (IsRecoverableMakerError e).
    + pose proof (EvictMakerOrder_total (ent_OrderIndex m) OrderStatusCancelled c) as Hev.
      unfold mbind, M_bind. destruct (EvictMakerOrder _ _ c) as [[o|e'| |] c2] eqn:H2; cbn in *.
      * split; [done|]. split; [|done]. intros committed c' [= <- <-].
        exact (EvictMakerOrder_shrinks _ _ _ _ _ _ _ Hh HI H2).
      * split; [done|]. split; [done|]. intros c' [= _ <-]. right.
        pose proof (EvictMakerOrder_inv (ent_OrderIndex m) OrderStatusCancelled c HI) as HI'. by rewrite H2 in HI'.
      * done.
      * done.
    + destruct (IsRecoverableTakerError e); (split; [done|]); (split; [done|]); intros c' [= _ <-] || intros c' [= <-];
        by left.
Qed.

(** Any engine that settles a fill in a cache context will do. *)
Lemma fill_engine_ok isPerp now (apply : Order -> OrderBookEntry -> Z -> K bool) :
  (forall t m b c, exists fill, frames book fill /\ (fill c).1 <> NoFuel /\
     apply t m b c = apply_in_cache (ent_OrderIndex m) b fill c) ->
  EngineOk isPerp now apply.
Proof.
  intros Hfill. split.
  - intros t mk b c _. destruct (Hfill t mk b c) as (fill & Hb & Hn & ->).
    unfold apply_in_cache. assert (((fill;; FillMakerOrder (ent_OrderIndex mk) b) c).1 <> NoFuel) as Hnf.
    { apply M_bind_total; [done|]. intros _ c1. apply FillMakerOrder_total. }
    destruct ((fill;; FillMakerOrder (ent_OrderIndex mk) b) c) as [[o|e| |] c1]; try done.
    unfold classifyApplyError. solve_total.
  - intros t mk b c r c' Ha HI. destruct (Hfill t mk b c) as (fill & Hb & Hn & ->).
    apply (apply_in_cache_ok _ _ _ _ _ _ _ Hn Hb Ha HI).
  - intros t mk b c c' Ha HI. destruct (Hfill t mk b c) as (fill & Hb & Hn & ->). intros H.
    by apply (apply_in_cache_ok _ _ _ _ _ _ _ Hn Hb Ha HI) in H as [->|].
Qed.

#[global] Instance applyUserFill_ok m isPerp now : EngineOk isPerp now (applyUserFill m).
Proof.
  apply fill_engine_ok. intros t mk b c. unfold applyUserFill. destruct (mkt_MarketType m =? MarketTypePerps).
  - exists (ApplyPerpsMatching (user_fill m t mk b)). split_and!; [apply Apply_book|apply Apply_total|done].
  - exists (ApplySpotMatching (user_spot_fill m t mk b) (mkt_BaseAssetId m) (mkt_QuoteAssetId m)).
    split_and!; [apply ApplySpotMatching_book|apply ApplySpotMatching_total|done].
Qed.

#[global] Instance applyLiquidationFill_ok isPerp now zp bps rcp :
  EngineOk isPerp now (applyLiquidationFill zp bps rcp).
Proof.
  apply fill_engine_ok. intros t mk b c. exists (ApplyPerpsMatching (liquidation_fill t mk b zp bps rcp)).
  split_and!; [apply Apply_book|apply Apply_total|done].
Qed.

Section loop_spec.
Context (isPerp : bool) (now maxFills : Z) (apply : Order -> OrderBookEntry -> Z -> K bool)
  (go_on : Order -> Chain -> R bool) `{!EngineOk isPerp now apply}
  (Hgo : forall t c, go_on t c <> NoFuel).

Definition filled_by (taker taker' : Order) (filled : Z) : Prop :=
  taker' = taker <| ord_RemainingBaseAmount := ord_RemainingBaseAmount taker - filled |> /\
  0 <= filled <= ord_RemainingBaseAmount taker.

Lemma nextMaker_spec taker c :
  book_inv c ->
  (nextMaker taker isPerp now c).1 <> NoFuel /\
  forall r c', nextMaker taker isPerp now c = (Ok r, c') ->
    book_inv c' /\ (size (entries c') <= size (entries c))%nat /\
    (forall maker, r = Some maker -> usable isPerp now taker maker c' /\ 0 < ent_RemainingBaseAmount maker).
Proof.
  intros HI. destruct (nextMaker_loop_spec (S (size (entries c))) taker isPerp now c HI ltac:(lia)) as [H1 H2].
  split; [exact H1|]. intros r c' H. destruct (H2 r c' H) as (HI' & Hs & Hu). split_and!; [done..|].
  intros maker ->. specialize (Hu maker eq_refl). split; [done|].
  destruct (peek_resting _ _ _ _ HI' (us_head _ _ _ _ _ Hu)) as (o & _ & (_ & Hrem & _) & -> & _). done.
Qed.

Lemma matchSize_total taker maker c : matchSize taker maker isPerp c <> NoFuel.
Proof. unfold matchSize, reduce_cap. solve_total. Qed.

(** The loop terminates, keeps the book consistent and moves the filled base
    from the taker's residue to the total. *)
Definition loop_post (taker : Order) (tf : Z) (x : R (Order * Z * bool) * Chain) : Prop :=
  x.1 <> NoFuel /\ forall t' tf' rej c', x = (Ok (t', tf', rej), c') ->
    book_inv c' /\ filled_by taker t' (tf' - tf).

Lemma loop_post_stop taker tf rej c :
  0 <= ord_RemainingBaseAmount taker -> book_inv c -> loop_post taker tf (Ok (taker, tf, rej), c).
Proof.
  intros Hrem HI. split; [done|]. intros t' tf' r' c' [= <- <- <- <-]. split; [done|].
  rewrite Z.sub_diag. split; [|lia]. destruct taker; cbn. f_equal. lia.
Qed.

Lemma match_loop_spec fuel taker tf fills c :
  book_inv c -> (Z.to_nat (maxFills - fills) + size (entries c) < fuel)%nat ->
  0 <= ord_RemainingBaseAmount taker ->
  loop_post taker tf (match_loop apply go_on isPerp now maxFills fuel taker tf fills c).
Proof.
  revert taker tf fills c. induction fuel as [|fuel IH]; intros taker tf fills c HI Hf Hrem; [lia|].
  cbn [match_loop]. destruct (negb _) eqn:Hg; [by apply loop_post_stop|]. breflect.
  destruct (nextMaker_spec taker c HI) as [Hn1 Hn2]. apply bind_post.
  destruct (nextMaker taker isPerp now c) as [[maker|e| |] c1] eqn:Hnm; try done.
  destruct (Hn2 maker c1 eq_refl) as (HI1 & Hs1 & Hu). destruct maker as [maker|]; [|by apply loop_post_stop].
  destruct (Hu maker eq_refl) as [Hus Hmrem]. clear Hu. apply bind_post. unfold reads at 1.
  pose proof (matchSize_total taker maker c1) as Hmt.
  destruct (matchSize taker maker isPerp c1) as [[base|]|e| |] eqn:Hms; try done; [|by apply loop_post_stop].
  pose proof (matchSize_ok _ _ _ _ _ _ Hms Hus ltac:(lia) Hmrem) as Hadm.
  assert (0 < base <= ord_RemainingBaseAmount taker) as Hbase by (destruct Hadm as (_ & _ & _ & _ & ? & _); lia).
  apply bind_post. unfold catch_rejected. pose proof (engine_total taker maker base c1 Hadm) as Ht.
  destruct (apply taker maker base c1) as [[committed|e| |] c2] eqn:Hap; try done.
  2:{ destruct e as [| | | |[]| | | | | |]; try done. apply loop_post_stop; [done|].
      by apply (engine_rejected taker maker base c1). }
  destruct (engine_ok _ _ _ _ _ _ Hadm HI1 Hap) as [HI2 Hsz].
  destruct committed; [|apply IH; [done|lia|done]].
  set (taker2 := taker <| ord_RemainingBaseAmount := _ |>). apply bind_post. unfold reads at 1.
  pose proof (Hgo taker2 c2) as Hg2. destruct (go_on taker2 c2) as [more|e| |]; try done.
  destruct (negb more).
  { split; [done|]. intros t' tf' rej c' [= <- <- <- <-]. split; [done|].
    replace (tf + base - tf) with base by lia. split; [done|lia]. }
  destruct (IH taker2 (tf + base) (fills + 1) c2 HI2 ltac:(lia) ltac:(cbn; lia)) as [H1 H2].
  split; [done|]. intros t' tf' rej c' Hrun. destruct (H2 t' tf' rej c' Hrun) as [HI3 [-> Hrange]].
  split; [done|]. cbn in Hrange. split; [destruct taker; cbn; f_equal; lia|lia].
Qed.

(** The loop only sees what the engine does on admissible fills. *)
Lemma match_loop_ext (apply' : Order -> OrderBookEntry -> Z -> K bool) fuel taker tf fills c :
  (forall t m b c, admissible isPerp now t m b c -> apply' t m b c = apply t m b c) ->
  book_inv c -> 0 <= ord_RemainingBaseAmount taker ->
  match_loop apply' go_on isPerp now maxFills fuel taker tf fills c =
  match_loop apply go_on isPerp now maxFills fuel taker tf fills c.
Proof.
  intros Hext. revert taker tf fills c. induction fuel as [|fuel IH]; intros taker tf fills c HI Hrem; [done|].
  cbn [match_loop]. destruct (negb _) eqn:Hg; [done|]. breflect.
  apply bind_ext; [done|]. intros [maker|] c1 Hnm; [|done].
  destruct (proj2 (nextMaker_spec taker c HI) _ c1 Hnm) as (HI1 & _ & Hu).
  destruct (Hu maker eq_refl) as [Hus Hmrem].
  apply bind_ext; [done|]. intros [base|] c1' Hms; [|done]. inv_ok.
  pose proof (matchSize_ok _ _ _ _ _ _ Hms Hus ltac:(lia) Hmrem) as Hadm.
  assert (0 < base <= ord_RemainingBaseAmount taker) as Hbase by (destruct Hadm as (_ & _ & _ & _ & ? & _); lia).
  apply bind_ext; [unfold catch_rejected; by rewrite (Hext _ _ _ _ Hadm)|]. intros committed c2 Hap.
  destruct committed as [committed|]; [|done].
  assert (apply taker maker base c1 = (Ok committed, c2)) as Hap'.
  { unfold catch_rejected in Hap. destruct (apply taker maker base c1) as [[?|e| |] ?]; try congruence.
    destruct e as [| | | |[]| | | | | |]; congruence. }
  destruct (engine_ok _ _ _ _ _ _ Hadm HI1 Hap') as [HI2 _]. destruct committed; [|by apply IH].
  apply bind_ext; [done|]. intros more c3 Hmore. inv_ok. destruct (negb more); [done|].
  apply IH; [done|]. cbn. lia.
Qed.
End loop_spec.

(** *** The two loops *)

Lemma match_run_spec isPerp now maxFills apply go_on taker c `{!EngineOk isPerp now apply} :
  (forall t c, go_on t c <> NoFuel) -> book_inv c -> 0 <= ord_RemainingBaseAmount taker ->
  loop_post taker 0 (match_run apply go_on isPerp now maxFills taker c).
Proof. intros Hgo HI Hrem. apply match_loop_spec; try done. unfold entries. lia. Qed.

Lemma match_status_filled taker tf rej :
  match_status taker tf rej = OrderStatusFilled -> ord_RemainingBaseAmount taker = 0.
Proof. unfold match_status. case_ifs; by breflect. Qed.

Lemma match_status_open taker tf rej : match_status taker tf rej = OrderStatusOpen -> tf <= 0.
Proof. unfold match_status. case_ifs; by breflect. Qed.

(** A fill engine that refuses to run on a fill that is not admissible. *)
Definition checked (isPerp : bool) (now : Z) (engine : Order -> OrderBookEntry -> Z -> K bool)
    (taker : Order) (maker : OrderBookEntry) (base : Z) : K bool := fun c =>
  if decide (admissible isPerp now taker maker base c) then engine taker maker base c else (Panic, c).

Lemma checked_admissible isPerp now engine t m b c :
  admissible isPerp now t m b c -> checked isPerp now engine t m b c = engine t m b c.
Proof. intros H. unfold checked. by rewrite decide_True. Qed.

Lemma match_run_checked isPerp now maxFills apply go_on taker c `{!EngineOk isPerp now apply} :
  book_inv c -> 0 <= ord_RemainingBaseAmount taker ->
  match_run (checked isPerp now apply) go_on isPerp now maxFills taker c =
  match_run apply go_on isPerp now maxFills taker c.
Proof.
  intros HI Hrem. unfold match_run. apply match_loop_ext; [done| |done..]. apply checked_admissible.
Qed.

Lemma needsLiquidation_total v m c : needsLiquidation v m c <> NoFuel.
Proof. unfold needsLiquidation. solve_total. Qed.

(** C6: matching a user order against a consistent book always returns (the
    loop never runs out of iterations), and when it succeeds the book is
    consistent again, the filled base is exactly what the taker's residue
    lost, a status of Filled means an empty residue and a status of Open
    that nothing was filled. *)
Theorem match_order_settles taker maxFills c :
  book_inv c -> 0 <= ord_RemainingBaseAmount taker ->
  (MatchOrder taker maxFills c).1 <> NoFuel /\
  forall taker' filled status c', MatchOrder taker maxFills c = (Ok (taker', filled, status), c') ->
    book_inv c' /\ filled_by taker taker' filled /\
    (status = OrderStatusFilled -> ord_RemainingBaseAmount taker' = 0) /\
    (status = OrderStatusOpen -> filled = 0).
Proof.
  intros HI Hrem. unfold MatchOrder, MatchOrder_with, GetMarket.
  assert (forall m, loop_post taker 0 (match_run (applyUserFill m) (fun _ _ => mret true)
    (mkt_MarketType m =? MarketTypePerps) (BlockTime c) maxFills taker c)) as Hrun.
  { intros m. apply match_run_spec; [apply _|done..]. }
  split.
  - apply bind_total_at; [solve_total|]. intros m c1 Hm. inv_ok.
    apply bind_total_at; [apply (Hrun m)|]. by intros [[??]?].
  - intros taker' filled status c' H. inv_ok. destruct x1 as [[t tf] rej]. inv_ok. injection H as <- <- <-.
    destruct (proj2 (Hrun x) _ _ _ _ H1) as [HI' Hf]. rewrite Z.sub_0_r in Hf.
    split_and!; [done..|apply match_status_filled|].
    intros Hs%match_status_open. destruct Hf as [_ ?]. lia.
Qed.

Lemma matchLiquidation_spec engine taker maxFills c :
  (forall now, EngineOk true now (engine now)) -> book_inv c -> 0 <= ord_RemainingBaseAmount taker ->
  (matchLiquidation_with engine taker maxFills c).1 <> NoFuel /\
  forall filled c', matchLiquidation_with engine taker maxFills c = (Ok filled, c') ->
    book_inv c' /\ 0 <= filled <= ord_RemainingBaseAmount taker.
Proof.
  intros He HI Hrem. unfold matchLiquidation_with, GetMarket.
  pose proof (match_run_spec true (BlockTime c) maxFills (engine (BlockTime c))
    (fun t => needsLiquidation (ord_OwnerAccountIndex t) (ord_MarketIndex t)) taker c
    (fun _ _ => needsLiquidation_total _ _ _) HI Hrem) as Hrun.
  split.
  - apply bind_total_at; [solve_total|]. intros m c1 Hm. inv_ok.
    rewrite run_ensure. case_match; [|done]. apply bind_total_at; [apply Hrun|]. by intros [[??]?].
  - intros filled c' H. inv_ok. destruct x3 as [[t tf] rej]. inv_ok. subst.
    destruct (proj2 Hrun _ _ _ _ H2) as [HI' [_ Hf]]. rewrite Z.sub_0_r in Hf. done.
Qed.

Lemma matchLiquidation_checked engine taker maxFills c :
  (forall now, EngineOk true now (engine now)) -> book_inv c -> 0 <= ord_RemainingBaseAmount taker ->
  matchLiquidation_with (fun now => checked true now (engine now)) taker maxFills c =
  matchLiquidation_with engine taker maxFills c.
Proof.
  intros He HI Hrem. unfold matchLiquidation_with. apply bind_ext; [done|]. intros m c1 Hm. inv_ok.
  rewrite !run_ensure. case_match; [|done]. apply bind_ext; [|done]. by apply match_run_checked.
Qed.

(** C7: every fill the user loop asks the trade engine for is admissible in
    the store it is applied to: the maker is the head of the opposite side,
    its price is within the taker's limit, it is neither the taker's own
    order nor expired, the size is positive and within both residues, and a
    reduce-only side shrinks its position without flipping it. The loop is
    the same as with an engine that panics on any other fill. *)
Theorem only_admissible_fills taker maxFills c :
  book_inv c -> 0 <= ord_RemainingBaseAmount taker ->
  MatchOrder taker maxFills c =
  MatchOrder_with (fun m now => checked (mkt_MarketType m =? MarketTypePerps) now (applyUserFill m))
    taker maxFills c.
Proof.
  intros HI Hrem. unfold MatchOrder, MatchOrder_with. apply bind_ext; [done|]. intros m c1 Hm. inv_ok.
  apply bind_ext; [|done]. symmetry. apply match_run_checked; [apply _|done..].
Qed.


(** C16: closing out a victim on the book always returns; a successful
    close-out leaves a consistent book and fills at most the victim's
    position and at most the requested size; and every fill it asks for is
    admissible for a reduce-only order limited at the zero price, so it
    shrinks the victim's position at the zero price or better. *)
Theorem liquidation_close_out_bounded victim market zeroPrice base feeBps recipient c :
  book_inv c -> 0 <= base ->
  (MatchLiquidationOrder victim market zeroPrice base feeBps recipient c).1 <> NoFuel /\
  (forall filled c', MatchLiquidationOrder victim market zeroPrice base feeBps recipient c = (Ok filled, c') ->
    book_inv c' /\ 0 <= filled <= Z.min base (Z.abs (pos_BaseSize (GetPosition victim market c)))) /\
  MatchLiquidationOrder victim market zeroPrice base feeBps recipient c =
  MatchLiquidationOrder_with (fun now => checked true now (applyLiquidationFill zeroPrice feeBps recipient))
    victim market zeroPrice base c.
Proof.
  intros HI Hb. unfold MatchLiquidationOrder, MatchLiquidationOrder_with. set (pos := GetPosition victim market c).
  assert (forall now, EngineOk true now (applyLiquidationFill zeroPrice feeBps recipient)) as He by apply _.
  rewrite !run_ensure. repeat (case_match; [|done]). unfold to_uint64.
  destruct (_ && _) eqn:Hr; [|done]. breflect.
  assert (forall x y, (if x <? y then x else y) = Z.min y x) as Hmin.
  { intros x y. destruct (Z.ltb_spec x y); lia. }
  rewrite !run_lift_ok, !Hmin.
  destruct (matchLiquidation_spec _ (liquidation_taker victim market zeroPrice
    (Z.min base (Z.abs (pos_BaseSize pos))) (BlockTime c) (OpeningIsBid pos))
    (if mtp_MaxFillsPerMsg (xst_MatchingParams (misc c)) =? 0 then 64
     else mtp_MaxFillsPerMsg (xst_MatchingParams (misc c))) c He HI ltac:(cbn; lia)) as [Hs1 Hs2].
  split_and!; [done..|]. symmetry. apply matchLiquidation_checked; [done|done|cbn; lia].
Qed.

(** *** Post-only orders *)

(** A taker whose limit does not reach the head of the opposite side is not
    matched. *)
Lemma match_run_unreachable isPerp now maxFills apply go_on taker c :
  (forall best, PeekBest (ord_MarketIndex taker) (negb (ord_IsAsk taker)) c = Some best ->
     price_unreachable taker best = true) ->
  match_run apply go_on isPerp now maxFills taker c = (Ok (taker, 0, false), c).
Proof.
  intros Hp. unfold match_run. cbn [match_loop]. destruct (negb (_ && _)); [done|].
  assert (nextMaker taker isPerp now c = (Ok None, c)) as Hn.
  { unfold nextMaker. cbn [nextMaker_loop]. destruct (PeekBest _ _ c) as [best|]; [|done].
    by rewrite (Hp best eq_refl). }
  by rewrite (run_bind _ _ _ _ _ Hn).
Qed.

Lemma MatchOrder_unreachable taker maxFills c taker' filled status c' :
  MatchOrder taker maxFills c = (Ok (taker', filled, status), c') ->
  (forall best, PeekBest (ord_MarketIndex taker) (negb (ord_IsAsk taker)) c = Some best ->
     price_unreachable taker best = true) ->
  taker' = taker /\ filled = 0 /\ c' = c.
Proof.
  intros H Hp. unfold MatchOrder, MatchOrder_with in H. inv_ok.
  rewrite match_run_unreachable in H1 by done. injection H1 as <- <-. inv_ok. by injection H as <- <- _.
Qed.

Lemma no_cross_unreachable market isAsk price taker c best :
  WouldCross market isAsk price c = false ->
  ord_MarketIndex taker = market -> ord_IsAsk taker = isAsk -> ord_Price taker = price ->
  ord_OrderType taker <> MarketOrder ->
  PeekBest market (negb isAsk) c = Some best -> price_unreachable taker best = true.
Proof.
  intros Hw <- <- <- Hty Hb. unfold WouldCross in Hw. rewrite Hb in Hw. unfold price_unreachable.
  rewrite (proj2 (Z.eqb_neq _ _) Hty). destruct (ord_IsAsk taker); cbn; rewrite ?orb_false_r; breflect; lia.
Qed.

Lemma AllocateNonce_book m a : frames book (AllocateNonce m a).
Proof. intros c. unfold AllocateNonce, SetMarketDetails, set_market_store. solve_frames. Qed.

Lemma AllocateNonce_account m a : frames account (AllocateNonce m a).
Proof. intros c. unfold AllocateNonce, SetMarketDetails, set_market_store. solve_frames. Qed.

(** What a trade moves: collateral and positions. *)
Definition holdings (c : Chain) := (ast_Accounts (account c), ast_AccountPositions (account c)).

Lemma OpenOrder_holdings o : frames holdings (OpenOrder o).
Proof.
  intros c. unfold OpenOrder, applySpotLockOnOpen, computeSpotLock, IncreaseLockedBalance, insertEntry,
    adjustPriceLevel, bump_level, indexClientOrder, indexAccountOpenOrder, bumpAccountOpenOrderCount,
    addExpiryIndex, unindexClientOrderIfMatches, unindexAccountOpenOrder, removeExpiryIndex, setOrder,
    Entries_Set, SortKey_Set, setAccountAsset, set_account_store, set_book.
  solve_frames.
Qed.

Section post_only.
Context `{Env}.

Lemma create_guards_post_only msg c m :
  create_guards msg c = Ok m -> co_TimeInForce msg = PostOnly ->
  co_OrderType msg = LimitOrder /\ WouldCross (co_MarketIndex msg) (co_IsAsk msg) (co_Price msg) c = false.
Proof.
  intros Hg Htif. unfold create_guards, MsgCreateOrder_ValidateBasic in Hg. inv_ok. rewrite Htif in *.
  change (PostOnly =? PostOnly) with true in *. rewrite ?andb_true_l in *. breflect. done.
Qed.

(** C31: a post-only order never takes liquidity: whenever its creation
    succeeds nothing was filled, and nobody's collateral or positions have
    moved. *)
Theorem post_only_never_takes msg c resp c' :
  CreateOrder msg c = (Ok resp, c') -> co_TimeInForce msg = PostOnly ->
  cor_FilledBaseAmount resp = 0 /\ holdings c' = holdings c.
Proof.
  intros Hrun Htif. unfold CreateOrder in Hrun. inv_ok. rename x4 into c2, x1 into idx, x3 into nonce, x5 into now.
  destruct (create_guards_post_only _ _ _ H0 Htif) as [Hty Hw]. rewrite Hty in Hrun.
  change (IsTriggerOrder LimitOrder) with false in Hrun. cbv iota in Hrun. inv_ok.
  destruct x3 as [[order filled] status]. inv_ok. subst resp.
  assert (entries c2 = entries c) as He.
  { unfold entries. rewrite (frames_run _ _ _ _ _ (AllocateNonce_book _ _) H2). by injection H1 as _ <-. }
  assert (holdings c2 = holdings c) as Hh.
  { unfold holdings. rewrite (frames_run _ _ _ _ _ (AllocateNonce_account _ _) H2). by injection H1 as _ <-. }
  apply MatchOrder_unreachable in H5 as (-> & -> & ->).
  2:{ intros best Hp. eapply no_cross_unreachable; [exact Hw|done..| |].
      - cbn. by rewrite Hty.
      - unfold PeekBest in *. fold (entries c). by rewrite <- He. }
  split; [done|]. rewrite <- Hh. by apply (frames_run _ _ _ _ _ (OpenOrder_holdings _) H7).
Qed.
End post_only.

(** ** Concrete runs *)

(** Account 2 offers 5 at 100; account 3 bids 8 at 101. *)
Definition match_demo : Chain := (OpenOrder (demo_order 1 2 true 100 1 5) trade_demo).2.
Definition match_taker : Order := demo_order 2 3 false 101 9 8.

Lemma match_demo_inv : book_inv match_demo.
Proof.
  apply (OpenOrder_inv (demo_order 1 2 true 100 1 5) trade_demo tt); [by_compute|exact Inv_empty|].
  split; [apply off_book_check; by_decide|intros _; by_decide].
Qed.

Lemma match_order_settles_witness :
  (MatchOrder match_taker 64 match_demo).1 = Ok (match_taker <| ord_RemainingBaseAmount := 3 |>, 5, 1) /\
  book_inv (MatchOrder match_taker 64 match_demo).2.
Proof.
  destruct (match_order_settles match_taker 64 match_demo match_demo_inv ltac:(by_decide)) as [_ H].
  split; [by_compute|]. eapply H. by_compute.
Defined.

Lemma only_admissible_fills_witness :
  (MatchOrder_with (fun m now => checked (mkt_MarketType m =? MarketTypePerps) now (applyUserFill m))
     match_taker 64 match_demo).1 = Ok (match_taker <| ord_RemainingBaseAmount := 3 |>, 5, 1).
Proof.
  rewrite <- (only_admissible_fills match_taker 64 match_demo match_demo_inv ltac:(by_decide)). by_compute.
Defined.

Lemma liquidation_close_out_bounded_witness :
  (MatchLiquidationOrder 3 0 110 30 100 0 match_demo).1 = Ok 5 /\
  book_inv (MatchLiquidationOrder 3 0 110 30 100 0 match_demo).2.
Proof.
  destruct (liquidation_close_out_bounded 3 0 110 30 100 0 match_demo match_demo_inv ltac:(lia)) as (_ & H & _).
  split; [by_compute|]. eapply H. by_compute.
Defined.

Definition post_only_bid : MsgCreateOrder :=
  mkMsgCreateOrder "bob" 3 0 0 false LimitOrder PostOnly 8 99 0 0 false.

Lemma post_only_never_takes_witness :
  holdings (@CreateOrder demo_env post_only_bid match_demo).2 = holdings match_demo.
Proof.
  eapply (@post_only_never_takes demo_env post_only_bid match_demo); [by_compute|reflexivity].
Defined.
