(* ===== verification/Liquidation.v ===== *)
(** * Liquidation

    [x/liquidation/keeper]: partial liquidation through the book and
    deleveraging against one account ([liquidate.go]), takeover by the
    liquidity pool ([llp.go]), ranked auto-deleveraging ([adl.go]), the exit
    of an expired market ([exit.go]), the end-blocker ([abci.go]) and the
    messages ([msg_server.go], [types/msgs.go]). *)

From S2P Require Import Prelude Constants Types PositionMath Account Market Oracle Funding Risk Trade OrderBook Effects Matching.

(** [v, err := m] where the error becomes a value of the caller; writes
    made before it are kept. *)
Definition trap {A} (m : K A) : K (A + Error) := fun c =>
  match m c with
  | (Ok a, c') => (Ok (inl a), c')
  | (Err e, c') => (Ok (inr e), c')
  | (Panic, c') => (Panic, c')
  | (NoFuel, c') => (NoFuel, c')
  end.

(** ** Liquidate and Deleverage ([liquidate.go]) *)

Definition healthEnvelopeFor (accIdx marketIdx marginMode : Z) (c : Chain) : R Z :=
  if marginMode =? IsolatedMargin then GetIsolatedHealthStatus accIdx marketIdx c
  else GetHealthStatus accIdx c.

Definition in_full_liquidation (status : Z) : bool :=
  (status =? HealthFullLiquidation) || (status =? HealthBankruptcy).

Definition Liquidate (victim marketIdx baseAmount : Z) : K unit :=
  '(pos, zeroPrice) ← reads (GetZeroPriceSnapshot victim marketIdx);
  lift (ensure (negb (pos_BaseSize pos =? 0)) (ELiquidation ErrNotLiquidatable));;
  status ← reads (healthEnvelopeFor victim marketIdx (pos_MarginMode pos));
  lift (ensure (status =? HealthPartialLiquidation) (ELiquidation ErrNotLiquidatable));;
  lift (ensure (negb (baseAmount =? 0)) (ELiquidation ErrLiqInvalidParams));;
  lift (ensure (negb (Z.abs (pos_BaseSize pos) <? baseAmount)) (ELiquidation ErrLiqInvalidParams));;
  CancelAllOpenOrdersForAccount victim;;
  m ← reads (GetMarket marketIdx);
  MatchLiquidationOrder victim marketIdx zeroPrice baseAmount (mkt_LiquidationFee m)
    InsuranceFundOperatorAccountIdx;;
  mret tt.

Definition deleverage_fill (victim deleverager marketIdx price base : Z) (takerIsAsk : bool) : Fill :=
  mkFill victim deleverager marketIdx price base takerIsAsk 0 0 true false false true 0 0 0.

(** The guards on a counterparty picked by a user. *)
Definition counterparty_ok (pos dPos : AccountPosition) (baseAmount : Z) : R unit :=
  ensure (negb (pos_BaseSize dPos =? 0)) (ELiquidation ErrInvalidADLCounterparty);;
  ensure (negb (Bool.eqb (IsLong dPos) (IsLong pos))) (ELiquidation ErrInvalidADLCounterparty);;
  ensure (negb (Z.abs (pos_BaseSize dPos) <? baseAmount)) (ELiquidation ErrInvalidADLCounterparty).

Definition Deleverage (victim marketIdx deleverager baseAmount : Z) : K unit :=
  '(pos, zeroPrice) ← reads (GetZeroPriceSnapshot victim marketIdx);
  lift (ensure (negb (pos_BaseSize pos =? 0)) (ELiquidation ErrNotLiquidatable));;
  status ← reads (healthEnvelopeFor victim marketIdx (pos_MarginMode pos));
  lift (ensure (in_full_liquidation status) (ELiquidation ErrNotBankrupt));;
  lift (ensure (negb (deleverager =? victim)) (ELiquidation ErrInvalidADLCounterparty));;
  lift (ensure (negb (baseAmount =? 0)) (ELiquidation ErrLiqInvalidParams));;
  lift (ensure (negb (Z.abs (pos_BaseSize pos) <? baseAmount)) (ELiquidation ErrInvalidADLCounterparty));;
  dAcc ← reads (GetAccount deleverager);
  let isPoolDeleverager := IsPoolType dAcc in
  (if isPoolDeleverager
   then lift (match EnsureActive (acc_PublicPoolInfo dAcc) with
              | Ok _ => mret tt
              | _ => Err (EAccount ErrPoolFrozen)
              end)
   else mret tt);;
  let isInsuranceFund := deleverager =? InsuranceFundOperatorAccountIdx in
  let isUser := negb isInsuranceFund && negb isPoolDeleverager in
  (if isUser
   then reads (fun c => counterparty_ok pos (GetPosition deleverager marketIdx c) baseAmount)
   else mret tt);;
  ApplyPerpsMatching (deleverage_fill victim deleverager marketIdx zeroPrice baseAmount (OpeningIsAsk pos));;
  if isUser
  then postCross ← reads (ComputeCrossRisk deleverager);
       lift (ensure (HealthStatus postCross =? HealthHealthy) (ELiquidation ErrInvalidADLCounterparty))
  else mret tt.

(** ** Takeover by the liquidity pool ([llp.go]) *)

(** [true] is a full absorption; it consumes one attempt of the caller. *)
Definition tryLLPAbsorb (victim marketIdx attemptsLeft : Z) : K bool := fun c =>
  if attemptsLeft =? 0 then (Ok false, c)
  else
    match GetAccount InsuranceFundOperatorAccountIdx c with
    | Ok llp =>
        match EnsureActive (acc_PublicPoolInfo llp) with
        | Ok _ =>
            (snap ← reads (GetLiquidationRiskSnapshot victim marketIdx);
             let base := pos_BaseSize (lrs_Position snap) in
             if base =? 0 then mret false
             else
               postRP ← reads (SimulateRiskAfterTakeover InsuranceFundOperatorAccountIdx marketIdx
                                 (- base) (lrs_ZeroPrice snap));
               if rp_TotalAccountValue postRP <? rp_InitialMarginRequirement postRP then mret false
               else
                 size ← lift (to_uint64 (Z.abs base));
                 Deleverage victim marketIdx InsuranceFundOperatorAccountIdx size;;
                 mret true) c
        | _ => (Ok false, c)
        end
    | _ => (Ok false, c)
    end.

Record rankedPosition := mkRankedPosition {
  rk_MarketIndex : Z;
  rk_MarginMode : Z;
  rk_UnrealizedPnL : Z
}.

Definition rank_step (c : Chain) (out : list rankedPosition) (pos : AccountPosition) : R (list rankedPosition) :=
  if pos_BaseSize pos =? 0 then mret out
  else
    '(markPrice, _) ← GetMarkPriceAndDetails (pos_MarketIndex pos) c;
    mret (out ++ [mkRankedPosition (pos_MarketIndex pos) (pos_MarginMode pos) (UnrealizedPnL pos markPrice)]).

(** Worst unrealized PnL first, ties by market. *)
Definition rank_le (x y : rankedPosition) : Prop :=
  rk_UnrealizedPnL x < rk_UnrealizedPnL y \/
  (rk_UnrealizedPnL x = rk_UnrealizedPnL y /\ rk_MarketIndex x <= rk_MarketIndex y).
#[global] Instance rank_le_dec : RelDecision rank_le.
Proof. intros x y. unfold rank_le. apply _. Defined.

Definition rankVictimPositionsByUPnL (victim : Z) (c : Chain) : R (list rankedPosition) :=
  out ← foldM (rank_step c) [] (IterateAccountPositions victim c);
  mret (merge_sort rank_le out).

(** ** Auto-deleveraging ([adl.go]) *)

Record ADLCandidate := mkADLCandidate {
  cd_AccountIndex : Z;
  cd_PositionSize : Z;
  cd_UnrealizedPnL : Z;
  cd_ZeroPrice : Z;
  cd_Leverage : Z;
  cd_Score : Z
}.

Definition ComputeLeverage (rp : RiskParameters) : Z :=
  if rp_InitialMarginRequirement rp =? 0 then 1
  else
    let collateral := if 0 <? rp_Collateral rp then rp_Collateral rp else 1 in
    Z.quot (rp_InitialMarginRequirement rp * MarginTick) collateral.

(** The visitor of [BuildADLQueue]: [None] skips the account. The code would
    panic on an unset cross risk, which a snapshot of a position that is not
    flat never has ([snapshot_cross_set]). *)
Definition adl_candidate (marketIdx : Z) (oppositeIsLong : bool) (c : Chain) (a : Account)
  : option ADLCandidate :=
  if (acc_AccountIndex a =? TreasuryAccountIndex) ||
     (acc_AccountIndex a =? InsuranceFundOperatorAccountIdx) || IsPoolType a then None
  else
    match GetLiquidationRiskSnapshot (acc_AccountIndex a) marketIdx c with
    | Ok snap =>
        let pos := lrs_Position snap in
        if pos_BaseSize pos =? 0 then None
        else if negb (Bool.eqb (IsLong pos) oppositeIsLong) then None
        else
          let uPnL := UnrealizedPnL pos (lrs_MarkPrice snap) in
          if negb (0 <? uPnL) then None
          else
            leverage ← ComputeLeverage <$> lrs_CrossRisk snap;
            let entryAbs := Z.abs (pos_EntryQuote pos) in
            let entryAbs := if 0 <? entryAbs then entryAbs else 1 in
            let uPnLRatio := Z.quot (uPnL * MarginTick) entryAbs in
            Some (mkADLCandidate (acc_AccountIndex a) (pos_BaseSize pos) uPnL (lrs_ZeroPrice snap)
                    leverage (leverage * uPnLRatio))
    | _ => None
    end.

(** Highest score first, ties by account. *)
Definition score_le (x y : ADLCandidate) : Prop :=
  cd_Score y < cd_Score x \/ (cd_Score x = cd_Score y /\ cd_AccountIndex x <= cd_AccountIndex y).
#[global] Instance score_le_dec : RelDecision score_le.
Proof. intros x y. unfold score_le. apply _. Defined.

Definition BuildADLQueue (marketIdx : Z) (oppositeIsLong : bool) (limit : Z) (c : Chain) : list ADLCandidate :=
  if limit =? 0 then []
  else take (Z.to_nat limit)
         (merge_sort score_le (omap (adl_candidate marketIdx oppositeIsLong c) (IterateAccounts c))).

Definition ZeroPriceMid (a b : Z) (victimIsLong : bool) : Z :=
  let sum := a + b in
  if victimIsLong then wrap32 ((sum + 1) / 2) else wrap32 (sum / 2).

(** Price and size of the fill with one candidate; [None] skips it. *)
Definition adl_proposal (oppositeIsLong : bool) (victimZP remaining : Z) (cand : ADLCandidate) : option (Z * Z) :=
  if (if oppositeIsLong then victimZP <? cd_ZeroPrice cand else cd_ZeroPrice cand <? victimZP) then None
  else
    let settlePrice := ZeroPriceMid victimZP (cd_ZeroPrice cand) (negb oppositeIsLong) in
    let size := Z.abs (cd_PositionSize cand) in
    let size := if remaining <? size then remaining else size in
    if negb (0 <? size) then None else Some (settlePrice, size).

Definition adl_fill (victim counterparty marketIdx price base : Z) (takerIsAsk : bool) : Fill :=
  mkFill victim counterparty marketIdx price base takerIsAsk 0 0 true false false false 0 0 0.

(** The health of the victim's snapshot; the field is only unset for a
    closed position, which the code has already left on. *)
Definition snap_status (snap : LiquidationRiskSnapshot) : Z :=
  from_option HealthStatus HealthHealthy (lrs_Risk snap).

Section adl.
Context (victim marketIdx : Z) (oppositeIsLong takerIsAsk : bool).

(** Returns the attempts left and the error the loop stopped with. A failed
    fill is skipped, what it wrote before failing stays. *)
Fixpoint adl_loop (cands : list ADLCandidate) (victimZP remaining attemptsLeft : Z) : K (Z * option Error) :=
  match cands with
  | [] => mret (attemptsLeft, None)
  | cand :: cands =>
      if (attemptsLeft =? 0) || (remaining =? 0) then mret (attemptsLeft, None)
      else
        match adl_proposal oppositeIsLong victimZP remaining cand with
        | None => adl_loop cands victimZP remaining attemptsLeft
        | Some (settlePrice, size) =>
            base ← lift (to_uint64 size);
            done ← attempt (ApplyPerpsMatching
                     (adl_fill victim (cd_AccountIndex cand) marketIdx settlePrice base takerIsAsk));
            match done with
            | None => adl_loop cands victimZP remaining attemptsLeft
            | Some _ =>
                let attemptsLeft := attemptsLeft - 1 in
                snap ← trap (reads (GetLiquidationRiskSnapshot victim marketIdx));
                match snap with
                | inr e => mret (attemptsLeft, Some e)
                | inl snap =>
                    let base := pos_BaseSize (lrs_Position snap) in
                    if base =? 0 then mret (attemptsLeft, None)
                    else if negb (in_full_liquidation (snap_status snap)) then mret (attemptsLeft, None)
                    else adl_loop cands (lrs_ZeroPrice snap) (Z.abs base) attemptsLeft
                end
            end
        end
  end.
End adl.

Definition autoADL (victim marketIdx candCap attemptsLeft : Z) : K (Z * option Error) := fun c =>
  if attemptsLeft =? 0 then (Ok (attemptsLeft, None), c)
  else
    (snap ← trap (reads (GetLiquidationRiskSnapshot victim marketIdx));
     match snap with
     | inr e => mret (attemptsLeft, Some e)
     | inl snap =>
         let pos := lrs_Position snap in
         if pos_BaseSize pos =? 0 then mret (attemptsLeft, None)
         else if negb (in_full_liquidation (snap_status snap)) then mret (attemptsLeft, None)
         else
           let oppositeIsLong := IsShort pos in
           adl_loop victim marketIdx oppositeIsLong (OpeningIsAsk pos)
             (BuildADLQueue marketIdx oppositeIsLong candCap c)
             (lrs_ZeroPrice snap) (Z.abs (pos_BaseSize pos)) attemptsLeft
     end) c.

(** ** Exit of an expired market ([exit.go]) *)

Definition exit_fill (account marketIdx price base : Z) (takerIsAsk : bool) : Fill :=
  mkFill account InsuranceFundOperatorAccountIdx marketIdx price base takerIsAsk 0 0 true true false false 0 0 0.

(** The visitor: closes one account against the insurance fund; a failed
    close is logged and skipped. *)
Definition exit_account (marketIdx closePrice : Z) (a : Account) : K unit := fun c =>
  if acc_AccountIndex a =? InsuranceFundOperatorAccountIdx then (Ok tt, c)
  else
    let pos := GetPosition (acc_AccountIndex a) marketIdx c in
    if pos_BaseSize pos =? 0 then (Ok tt, c)
    else
      (baseAmount ← lift (to_uint64 (Z.abs (pos_BaseSize pos)));
       attempt (ApplyPerpsMatching
         (exit_fill (acc_AccountIndex a) marketIdx closePrice baseAmount (OpeningIsAsk pos)));;
       mret tt) c.

Definition ApplyExitPosition (marketIdx : Z) : K unit :=
  md ← reads (GetMarketDetails marketIdx);
  if md_MarkPrice md =? 0 then mret tt
  else fun c => forM (exit_account marketIdx (md_MarkPrice md)) (IterateAccounts c) c.

#[global] Instance liquidation_hook : LiquidationKeeper := {| ApplyExitPosition_hook := ApplyExitPosition |}.

(** ** The end-blocker ([abci.go]) *)

(** Returns the attempts left and the error the account stopped with. *)
Fixpoint process_ranked (acct candCap : Z) (ranked : list rankedPosition) (attemptsLeft : Z)
  : K (Z * option Error) :=
  match ranked with
  | [] => mret (attemptsLeft, None)
  | rp :: ranked =>
      if attemptsLeft =? 0 then mret (attemptsLeft, None)
      else
        status ← trap (reads (healthEnvelopeFor acct (rk_MarketIndex rp) (rk_MarginMode rp)));
        match status with
        | inr e => mret (attemptsLeft, Some e)
        | inl status =>
            if negb (in_full_liquidation status) then process_ranked acct candCap ranked attemptsLeft
            else
              absorbed ← attempt (tryLLPAbsorb acct (rk_MarketIndex rp) attemptsLeft);
              match absorbed with
              | Some true => process_ranked acct candCap ranked (attemptsLeft - 1)
              | _ =>
                  '(attemptsLeft, _) ← autoADL acct (rk_MarketIndex rp) candCap attemptsLeft;
                  process_ranked acct candCap ranked attemptsLeft
              end
        end
  end.

Definition processAccount (a : Account) (attemptsLeft candCap : Z) : K (Z * option Error) := fun c =>
  match rankVictimPositionsByUPnL (acc_AccountIndex a) c with
  | Ok ranked => process_ranked (acc_AccountIndex a) candCap ranked attemptsLeft c
  | Err e => (Ok (attemptsLeft, Some e), c)
  | Panic => (Panic, c)
  | NoFuel => (NoFuel, c)
  end.

Fixpoint liquidate_accounts (candCap : Z) (accts : list Account) (attemptsLeft : Z) : K unit :=
  match accts with
  | [] => mret tt
  | a :: accts =>
      if acc_AccountIndex a =? InsuranceFundOperatorAccountIdx
      then liquidate_accounts candCap accts attemptsLeft
      else
        '(attemptsLeft, _) ← processAccount a attemptsLeft candCap;
        liquidate_accounts candCap accts attemptsLeft
  end.

Definition DefaultMaxADLCandidatesPerVictim : Z := 16.

Definition Liquidation_EndBlocker : K unit := fun c =>
  let params := xst_LiquidationParams (misc c) in
  let candCap := lp_MaxAdlCandidatesPerVictim params in
  let candCap := if candCap =? 0 then DefaultMaxADLCandidatesPerVictim else candCap in
  liquidate_accounts candCap (IterateAccounts c) (lp_MaxAdlAttemptsPerBlock params) c.

(** ** Messages ([msg_server.go], [msgs.go]) *)

Section messages.
Context `{Env}.

Definition MsgLiquidate (sender : string) (victim marketIdx baseAmount : Z) : K unit :=
  lift (ensure (valid_bech32 sender) EInvalidAddress);;
  lift (ensure (negb (baseAmount =? 0)) (ELiquidation ErrLiqInvalidParams));;
  Liquidate victim marketIdx baseAmount.

Definition MsgDeleverage (sender : string) (victim marketIdx deleverager baseAmount : Z) : K unit :=
  lift (ensure (valid_bech32 sender) EInvalidAddress);;
  let base := if baseAmount =? 0 then 1 else baseAmount in
  acc ← reads (GetAccount deleverager);
  (if IsPoolType acc
   then lift (ensure (bool_decide (sender = authority)) (ELiquidation ErrLiqUnauthorized))
   else ok ← reads (IsAuthorized sender deleverager);
        lift (ensure ok (ELiquidation ErrLiqUnauthorized)));;
  Deleverage victim marketIdx deleverager base.
End messages.

(** ** The end-blocker always returns *)

Lemma succeeds_trap {A} P (m : K A) : safe P m -> succeeds P (trap m).
Proof.
  intros Hm c Hc. destruct (Hm c Hc) as [H1 H2]. unfold trap. destruct (m c) as [[a|e| |] c']; cbn in *; eauto; done.
Qed.

Lemma to_uint64_size {E} z : Z.abs z <= MaxPositionSize -> (to_uint64 (Z.abs z) : res E Z) = Ok (Z.abs z).
Proof.
  intros H. unfold to_uint64, U64. unfold MaxPositionSize in H.
  by rewrite (proj2 (Z.leb_le _ _)), (proj2 (Z.ltb_lt _ _)) by lia.
Qed.

Lemma reads_safe {A} (P : Chain -> Prop) (f : Chain -> R A) : (forall c, returned (f c)) -> safe P (reads f).
Proof. intros Hf c Hc. by apply safe_at_reads. Qed.

Lemma returned_envelope a m mode c : returned (healthEnvelopeFor a m mode c).
Proof. unfold healthEnvelopeFor. solve_safe. Qed.
Lemma returned_rank v c : returned (rankVictimPositionsByUPnL v c).
Proof. unfold rankVictimPositionsByUPnL, rank_step. solve_safe. Qed.
Lemma returned_counterparty p d b : returned (counterparty_ok p d b).
Proof. unfold counterparty_ok. solve_safe. Qed.
#[export] Hint Resolve returned_envelope returned_rank returned_counterparty : safe.

Lemma Deleverage_safe v m d b : safe sized (Deleverage v m d b).
Proof. unfold Deleverage, GetAccount, ApplyPerpsMatching. solve_safe. Qed.
#[export] Hint Resolve Deleverage_safe : safe.

Lemma snapshot_position v m c snap :
  GetLiquidationRiskSnapshot v m c = Ok snap -> lrs_Position snap = GetPosition v m c.
Proof.
  unfold GetLiquidationRiskSnapshot. intros H. case_match; [by injection H as <-|]. inv_ok. destruct x. inv_ok. by subst.
Qed.

Lemma snapshot_cross_set v m c snap :
  GetLiquidationRiskSnapshot v m c = Ok snap -> pos_BaseSize (lrs_Position snap) <> 0 -> is_Some (lrs_CrossRisk snap).
Proof.
  unfold GetLiquidationRiskSnapshot. intros H Hp. case_match; [injection H as <-; cbn in Hp; breflect; by rewrite H0 in Hp|].
  inv_ok. destruct x. inv_ok. subst. by eexists.
Qed.

Lemma tryLLPAbsorb_safe v m n : safe sized (tryLLPAbsorb v m n).
Proof.
  intros c Hc. unfold tryLLPAbsorb, safe_at.
  destruct (n =? 0); [by split|]. destruct (GetAccount _ c) as [llp|e| |]; [|by split..].
  destruct (EnsureActive _) as [u|e| |]; [|by split..].
  apply safe_at_bind; [apply safe_at_reads; auto with safe|]. intros snap c1 Hs H1. inv_ok.
  cbv zeta. case_match; [by split|]. apply safe_at_bind; [apply safe_at_reads; auto with safe|].
  intros rp c2 Hr H2. inv_ok. case_match; [by split|].
  rewrite (snapshot_position _ _ _ _ Hs), to_uint64_size by by apply get_position_sized. solve_safe.
Qed.
#[export] Hint Resolve tryLLPAbsorb_safe : safe.

Lemma read_snapshot_succeeds v m : succeeds sized (trap (reads (GetLiquidationRiskSnapshot v m))).
Proof. apply succeeds_trap, reads_safe. auto with safe. Qed.

(** The size of a proposed fill is at most the candidate's position. *)
Lemma adl_proposal_size opp zp remaining cand p n :
  adl_proposal opp zp remaining cand = Some (p, n) ->
  0 < n /\ n <= remaining /\ n <= Z.abs (cd_PositionSize cand).
Proof. unfold adl_proposal. intros H. repeat case_match; simplify_eq; breflect; lia. Qed.

Lemma to_uint64_ok {E} z : 0 <= z < U64 -> (to_uint64 z : res E Z) = Ok z.
Proof. intros H. unfold to_uint64. by rewrite (proj2 (Z.leb_le _ _)), (proj2 (Z.ltb_lt _ _)) by lia. Qed.

Lemma adl_loop_succeeds v m opp ask cands zp remaining n :
  remaining <= MaxPositionSize -> succeeds sized (adl_loop v m opp ask cands zp remaining n).
Proof.
  revert zp remaining n. induction cands as [|cand cands IH]; intros zp remaining n Hr; cbn; [apply succeeds_ret|].
  case_match; [apply succeeds_ret|]. destruct (adl_proposal _ _ _ _) as [[p sz]|] eqn:Hp; [|by apply IH].
  apply adl_proposal_size in Hp as (H1 & H2 & _).
  rewrite to_uint64_ok by (unfold U64, MaxPositionSize in *; lia).
  apply succeeds_bind; [apply succeeds_ret|]. intros base.
  apply succeeds_bind; [apply succeeds_attempt, Apply_safe|]. intros [u|]; [|by apply IH].
  intros c Hc. destruct (read_snapshot_succeeds v m c Hc) as (r & c1 & Hrun & H3). 
  rewrite (run_bind _ _ _ _ _ Hrun). destruct r as [snap|e]; [|by apply succeeds_ret].
  assert (Z.abs (pos_BaseSize (lrs_Position snap)) <= MaxPositionSize) as Hb.
  { unfold trap, reads in Hrun. destruct (GetLiquidationRiskSnapshot v m c) eqn:E; simplify_eq.
    rewrite (snapshot_position _ _ _ _ E). by apply get_position_sized. }
  cbv zeta. case_match; [by apply succeeds_ret|]. case_match; [by apply succeeds_ret|]. by apply IH.
Qed.

Lemma autoADL_succeeds v m k n : succeeds sized (autoADL v m k n).
Proof.
  intros c Hc. unfold autoADL. case_match; [by eauto|].
  destruct (read_snapshot_succeeds v m c Hc) as (r & c1 & Hrun & H3).
  rewrite (run_bind _ _ _ _ _ Hrun). destruct r as [snap|e]; [|by apply succeeds_ret].
  cbv zeta. case_match; [by apply succeeds_ret|]. case_match; [by apply succeeds_ret|].
  apply adl_loop_succeeds; [|done]. unfold trap, reads in Hrun.
  destruct (GetLiquidationRiskSnapshot v m c) eqn:E; simplify_eq.
  rewrite (snapshot_position _ _ _ _ E). by apply get_position_sized.
Qed.

Lemma process_ranked_succeeds a k ranked n : succeeds sized (process_ranked a k ranked n).
Proof.
  revert n. induction ranked as [|rp ranked IH]; intros n; cbn; [apply succeeds_ret|].
  case_match; [apply succeeds_ret|].
  apply succeeds_bind; [apply succeeds_trap, reads_safe; auto with safe|]. intros [status|e]; [|apply succeeds_ret].
  case_match; [apply IH|]. apply succeeds_bind; [apply succeeds_attempt; auto with safe|]. intros o.
  assert (succeeds sized (autoADL a (rk_MarketIndex rp) k n ≫= fun '(n', _) => process_ranked a k ranked n')) as Hadl.
  { apply succeeds_bind; [apply autoADL_succeeds|]. intros [n' ?]. apply IH. }
  by destruct o as [[]|]; [apply IH| |].
Qed.

Lemma processAccount_succeeds a n k : succeeds sized (processAccount a n k).
Proof.
  intros c Hc. unfold processAccount. pose proof (returned_rank (acc_AccountIndex a) c) as Hr.
  destruct (rankVictimPositionsByUPnL _ c); [by apply process_ranked_succeeds|by eauto|done..].
Qed.

Lemma liquidate_accounts_succeeds k accts n : succeeds sized (liquidate_accounts k accts n).
Proof.
  revert n. induction accts as [|a accts IH]; intros n; cbn; [apply succeeds_ret|].
  case_match; [apply IH|]. apply succeeds_bind; [apply processAccount_succeeds|]. intros [n' ?]. apply IH.
Qed.

(** The liquidation end-blocker always returns without an error: from any
    chain whose stored position sizes are within the bound, whatever errors
    the takeover by the pool and the ranked auto-deleveraging run into, the
    block is not halted by a panic or an error, and the sizes stay bounded. *)
Theorem liquidation_end_blocker_returns c :
  sized c -> exists c', Liquidation_EndBlocker c = (Ok tt, c') /\ sized c'.
Proof.
  intros Hc. unfold Liquidation_EndBlocker. cbv zeta.
  match goal with |- exists _, liquidate_accounts ?k ?l ?n c = _ /\ _ =>
    destruct (liquidate_accounts_succeeds k l n c Hc) as ([] & c' & ? & ?) end. eauto.
Qed.

(** ** The exit hook of the market module *)

Lemma exit_account_safe m price a : safe sized (exit_account m price a).
Proof.
  intros c Hc. unfold exit_account, safe_at. destruct (_ =? _); [by split|]. cbv zeta. destruct (_ =? 0); [by split|].
  apply safe_at_bind.
  { apply safe_at_lift; [|done]. by rewrite to_uint64_size by by apply get_position_sized. }
  intros b c1 _ H1. apply safe_at_bind; [|by intros; apply safe_at_ret].
  apply succeeds_safe; [|done]. apply succeeds_attempt, Apply_safe.
Qed.

Lemma ApplyExitPosition_safe i : safe sized (ApplyExitPosition i).
Proof.
  intros c Hc. unfold ApplyExitPosition. apply safe_at_bind.
  { apply safe_at_reads; [|done]. unfold GetMarketDetails. solve_safe. }
  intros d c1 _ H1. case_match; [by apply safe_at_ret|].
  exact (safe_at_forM sized _ _ c1 (fun a _ => exit_account_safe i _ a) H1).
Qed.

Lemma exit_account_market m price a : frames market_records (exit_account m price a).
Proof.
  intros c. unfold exit_account. destruct (_ =? _); [done|]. cbv zeta. destruct (_ =? 0); [done|].
  apply frames_bind_at; [done|]. intros b c1. apply frames_bind_at; [|done].
  apply frames_attempt, Apply_market_records.
Qed.
#[export] Hint Resolve exit_account_market : frames.

Lemma ApplyExitPosition_market i : frames market_records (ApplyExitPosition i).
Proof.
  intros c. unfold ApplyExitPosition. apply frames_bind_at; [done|]. intros d c1.
  case_match; [done|]. apply (frames_forM _ (exit_account i (md_MarkPrice d)) (IterateAccounts c1)).
  intros. apply exit_account_market.
Qed.

(** What the market end-blocker relies on of the hook holds of this one. *)
#[global] Instance liquidation_hook_ok : ExitHookOk.
Proof.
  refine {| exit_ok := sized |}.
  - intros c c' H. by apply sized_account.
  - intros i c. pose proof (ApplyExitPosition_market i c) as H. unfold market_records in H. cbn in *. by injection H.
  - intros i. apply ApplyExitPosition_safe.
Defined.

(** And so does what the nonce counters rely on. *)
Lemma exit_account_counters m price a i x : stable (counters i x) (exit_account m price a).
Proof.
  intros c Hc. unfold exit_account. destruct (_ =? _); [exact Hc|]. cbv zeta. destruct (_ =? 0); [exact Hc|].
  refine (stable_bind (counters i x) _ _ _ _ c Hc); [by intros c1 H1|]. intros b.
  apply stable_bind; [apply stable_attempt, Apply_counters|intros _; apply stable_ret].
Qed.

#[global] Instance liquidation_hook_nonces : ExitHookKeepsNonces.
Proof.
  intros j i x. apply stable_bind; [by intros c Hc|]. intros d. destruct (_ =? 0); [apply stable_ret|].
  intros c Hc. apply (stable_forM (counters i x)); [|exact Hc]. intros a. apply exit_account_counters.
Defined.

(** ** Deleveraging *)

(** A close of [base] moves the position towards zero by [base], never past
    it. *)
Definition shrunk (base : Z) (before after : AccountPosition) : Prop :=
  Z.abs (pos_BaseSize after) = Z.abs (pos_BaseSize before) - base /\
  0 <= pos_BaseSize before * pos_BaseSize after.

Lemma snapshot_zero_position v m c pos zp :
  GetZeroPriceSnapshot v m c = Ok (pos, zp) -> pos = GetPosition v m c.
Proof.
  unfold GetZeroPriceSnapshot. intros H. case_match; [by injection H|]. inv_ok. destruct x. inv_ok. by simplify_eq.
Qed.

(** A fill that closes the maker's position against an account on the other
    side, or on any side. *)
Lemma closing_fill f c c' :
  applied f c c' -> keyed c -> f_MakerAccountIndex f <> f_TakerAccountIndex f ->
  let pos := GetPosition (f_MakerAccountIndex f) (f_MarketIndex f) c in
  let dPos := GetPosition (f_TakerAccountIndex f) (f_MarketIndex f) c in
  f_IsTakerAsk f = OpeningIsAsk pos -> 0 < f_BaseAmount f <= Z.abs (pos_BaseSize pos) ->
  shrunk (f_BaseAmount f) pos (GetPosition (f_MakerAccountIndex f) (f_MarketIndex f) c') /\
  (IsLong dPos <> IsLong pos -> f_BaseAmount f <= Z.abs (pos_BaseSize dPos) ->
   shrunk (f_BaseAmount f) dPos (GetPosition (f_TakerAccountIndex f) (f_MarketIndex f) c')).
Proof.
  intros Hap Hk Hne pos dPos Hask Hb. unfold shrunk.
  rewrite !(applied_sizes f c c' _ _ Hap Hk).
  rewrite (decide_True (P := (f_MakerAccountIndex f, _) = _)) by done.
  rewrite (decide_False (P := (f_MakerAccountIndex f, _) = _)) by congruence.
  rewrite (decide_False (P := (f_TakerAccountIndex f, _) = _)) by congruence.
  rewrite (decide_True (P := (f_TakerAccountIndex f, _) = _)) by done.
  fold pos dPos. unfold sold, IsLong. rewrite Hask. unfold OpeningIsAsk, IsShort.
  destruct (Z.ltb_spec (pos_BaseSize pos) 0), (Z.ltb_spec (pos_BaseSize dPos) 0); cbn;
    (split; [split; [lia|nia]|]); intros Hs Hd; try done; (split; [lia|nia]).
Qed.

(** A successful deleveraging passed every guard and is one fill. *)
Record deleveraged (victim market counterparty base : Z) (c c' : Chain) : Prop := {
  dl_status : exists st,
    healthEnvelopeFor victim market (pos_MarginMode (GetPosition victim market c)) c = Ok st /\
    in_full_liquidation st = true;
  dl_other : counterparty <> victim;
  dl_base : base <> 0 /\ base <= Z.abs (pos_BaseSize (GetPosition victim market c));
  dl_fill : exists zp, Apply (deleverage_fill victim counterparty market zp base
    (OpeningIsAsk (GetPosition victim market c))) c = (Ok tt, c');
  dl_user acc : GetAccount counterparty c = Ok acc -> IsPoolType acc = false ->
    counterparty <> InsuranceFundOperatorAccountIdx ->
    IsLong (GetPosition counterparty market c) <> IsLong (GetPosition victim market c) /\
    base <= Z.abs (pos_BaseSize (GetPosition counterparty market c)) /\
    GetHealthStatus counterparty c' = Ok HealthHealthy
}.

Lemma Deleverage_inv victim market counterparty base c u c' :
  Deleverage victim market counterparty base c = (Ok u, c') -> deleveraged victim market counterparty base c c'.
Proof.
  intros H. unfold Deleverage, ApplyPerpsMatching in H. inv_ok. destruct x as [p zp].
  apply snapshot_zero_position in H0 as ->. inv_ok. breflect.
  assert (x14 = c) as -> by (destruct (IsPoolType x11); inv_ok; done).
  destruct (negb (counterparty =? InsuranceFundOperatorAccountIdx) && negb (IsPoolType x11)) eqn:Hu; cbn in H8, H.
  - inv_ok. unfold counterparty_ok in *. inv_ok. breflect. destruct x17. split; eauto.
    intros acc _ _ _. split; [|split; [lia|]].
    + intros E. by rewrite E, eqb_reflx in H12.
    + unfold GetHealthStatus. match goal with Hc : ComputeCrossRisk _ _ = Ok _ |- _ => rewrite Hc end. cbn. by f_equal.
  - inv_ok. destruct x17. split; eauto. intros acc Ha Hp Hi. rewrite Ha in H6. simplify_eq. rewrite Hp in Hu.
    apply Z.eqb_neq in Hi. by rewrite Hi in Hu.
Qed.

(** C14: a deleveraging that succeeds hits only a victim in full liquidation or
    bankruptcy, shrinks its position by exactly the amount and never flips
    it, leaves every other account's sizes and the market's net position as
    they were, and a user picked as the counterparty is on the other side,
    shrinks by the same amount and is healthy afterwards. *)
Theorem deleverage_closes_both victim market counterparty base c c' :
  Deleverage victim market counterparty base c = (Ok tt, c') ->
  keyed c -> market_keyed c -> positions_ok c -> 0 <= base ->
  let size a c := pos_BaseSize (GetPosition a market c) in
  let pos := GetPosition victim market c in
  (exists st, healthEnvelopeFor victim market (pos_MarginMode pos) c = Ok st /\ in_full_liquidation st = true) /\
  victim <> counterparty /\
  shrunk base pos (GetPosition victim market c') /\
  size counterparty c' - size counterparty c = size victim c - size victim c' /\
  (forall a, a <> victim -> a <> counterparty -> size a c' = size a c) /\
  net_base market c' = net_base market c /\
  (forall acc, GetAccount counterparty c = Ok acc -> IsPoolType acc = false ->
   counterparty <> InsuranceFundOperatorAccountIdx ->
   shrunk base (GetPosition counterparty market c) (GetPosition counterparty market c') /\
   GetHealthStatus counterparty c' = Ok HealthHealthy).
Proof.
  intros H Hk Hmk Hok Hb size pos. apply Deleverage_inv in H as [Hst Hne Hbase [zp Hf] Hu].
  apply Apply_inv in Hf; [|done]. pose proof (fun a => applied_sizes _ _ _ a market Hf Hk) as Hs.
  destruct (closing_fill _ _ _ Hf Hk) as [H1 H2]; [done|done|cbn; lia|].
  split_and!; [done|done|exact H1| | | |].
  - unfold size. rewrite !Hs. cbn. repeat case_decide; simplify_eq; try done; lia.
  - intros a Ha Hc. unfold size. rewrite Hs. cbn. repeat case_decide; simplify_eq; lia.
  - apply (applied_oi _ _ _ Hf Hk Hmk Hok).
  - intros acc Ha Hp Hi. destruct (Hu acc Ha Hp Hi) as (U1 & U2 & U3). split; [|done]. by apply H2.
Qed.

(** ** The auto-deleveraging queue *)

Section adl_queue.
Context (market : Z) (oppositeIsLong : bool) (c : Chain).

(** The accounts the queue may draw from, with their ranks. *)
Definition adl_pool : list ADLCandidate :=
  omap (adl_candidate market oppositeIsLong c) (IterateAccounts c).

Lemma adl_candidate_ok a cand :
  adl_candidate market oppositeIsLong c a = Some cand ->
  cd_AccountIndex cand = acc_AccountIndex a /\ IsPoolType a = false /\
  cd_AccountIndex cand <> TreasuryAccountIndex /\ cd_AccountIndex cand <> InsuranceFundOperatorAccountIdx /\
  let pos := GetPosition (cd_AccountIndex cand) market c in
  cd_PositionSize cand = pos_BaseSize pos /\ pos_BaseSize pos <> 0 /\ IsLong pos = oppositeIsLong /\
  exists snap, GetLiquidationRiskSnapshot (cd_AccountIndex cand) market c = Ok snap /\
    cd_ZeroPrice cand = lrs_ZeroPrice snap /\ 0 < UnrealizedPnL pos (lrs_MarkPrice snap).
Proof.
  unfold adl_candidate. case_match eqn:H1; [done|]. apply orb_false_iff in H1 as [[H1 H2]%orb_false_iff H3]. breflect.
  destruct (GetLiquidationRiskSnapshot _ _ c) as [snap|e| |] eqn:Hs; [|done..]. cbv zeta.
  rewrite (snapshot_position _ _ _ _ Hs). case_match; [done|]. case_match; [done|]. case_match; [done|].
  destruct (lrs_CrossRisk snap); cbn; [|done]. intros [= <-]. breflect. cbn.
  match goal with Hn : Bool.eqb _ _ = true |- _ => apply eqb_prop in Hn end.
  split_and!; eauto.
Qed.

#[local] Instance score_total : Total score_le.
Proof. intros x y. unfold score_le. lia. Qed.
#[local] Instance score_trans : Transitive score_le.
Proof. intros x y z. unfold score_le. lia. Qed.

Lemma sorted_split {A} (R : A -> A -> Prop) l1 l2 x y :
  StronglySorted R (l1 ++ l2) -> x ∈ l1 -> y ∈ l2 -> R x y.
Proof.
  induction l1 as [|a l1 IH]; intros Hs Hx Hy; [by apply not_elem_of_nil in Hx|].
  apply StronglySorted_inv in Hs as [Hs Hall]. apply elem_of_cons in Hx as [->|Hx]; [|by apply IH].
  rewrite Forall_forall in Hall. apply Hall. set_solver.
Qed.

Lemma adl_queue_split limit :
  0 < limit -> exists rest, BuildADLQueue market oppositeIsLong limit c ++ rest ≡ₚ adl_pool /\
    StronglySorted score_le (BuildADLQueue market oppositeIsLong limit c ++ rest) /\
    Z.of_nat (length (BuildADLQueue market oppositeIsLong limit c)) <= limit /\
    (rest <> [] -> Z.of_nat (length (BuildADLQueue market oppositeIsLong limit c)) = limit).
Proof.
  intros Hl. unfold BuildADLQueue. rewrite (proj2 (Z.eqb_neq limit 0)) by lia.
  fold adl_pool. set (l := merge_sort score_le adl_pool). exists (drop (Z.to_nat limit) l).
  rewrite take_drop. split_and!; [apply merge_sort_Permutation|apply (StronglySorted_merge_sort _)| |].
  - rewrite length_take. lia.
  - intros Hr. rewrite length_take. destruct (decide (Z.to_nat limit < length l)%nat); [lia|].
    by rewrite drop_ge in Hr by lia.
Qed.
End adl_queue.

(** C15: the auto-deleveraging queue holds at most the limit of candidates,
    each of them a user account (never the treasury, the insurance fund or a
    pool) with an open, profitable position on the side opposite to the
    victim, and no eligible account left out outranks one that is queued;
    one is left out only when the queue is full. *)
Theorem adl_queue_fair market oppositeIsLong limit c :
  0 < limit ->
  let queue := BuildADLQueue market oppositeIsLong limit c in
  StronglySorted score_le queue /\ Z.of_nat (length queue) <= limit /\
  (forall cand, cand ∈ queue ->
     (exists a, a ∈ IterateAccounts c /\ acc_AccountIndex a = cd_AccountIndex cand /\ IsPoolType a = false) /\
     cd_AccountIndex cand <> TreasuryAccountIndex /\ cd_AccountIndex cand <> InsuranceFundOperatorAccountIdx /\
     let pos := GetPosition (cd_AccountIndex cand) market c in
     pos_BaseSize pos <> 0 /\ IsLong pos = oppositeIsLong /\
     exists snap, GetLiquidationRiskSnapshot (cd_AccountIndex cand) market c = Ok snap /\
       0 < UnrealizedPnL pos (lrs_MarkPrice snap)) /\
  (forall a other, a ∈ IterateAccounts c -> adl_candidate market oppositeIsLong c a = Some other ->
     other ∈ queue \/ (Z.of_nat (length queue) = limit /\ forall cand, cand ∈ queue -> score_le cand other)).
Proof.
  intros Hl queue. destruct (adl_queue_split market oppositeIsLong c limit Hl) as (rest & Hp & Hs & Hlen & Hfull).
  fold queue in Hp, Hs, Hlen, Hfull. split_and!; [|done| |].
  - clear -Hs. induction queue as [|x l IH]; [constructor|]. apply StronglySorted_inv in Hs as [Hs Hall].
    constructor; [by apply IH|]. by apply Forall_app in Hall as [Hall _].
  - intros cand Hin. assert (cand ∈ adl_pool market oppositeIsLong c) as Hc by (rewrite <- Hp; set_solver).
    apply list_elem_of_omap in Hc as (a & Ha & Hc).
    apply adl_candidate_ok in Hc as (H1 & H2 & H3 & H4 & H5 & H6 & H7 & snap & H8 & _ & H9).
    split_and!; eauto.
  - intros a other Ha Ho. assert (other ∈ queue ++ rest) as Hin.
    { rewrite Hp. apply list_elem_of_omap. eauto. }
    apply elem_of_app in Hin as [Hin|Hin]; [by left|right]. split.
    + apply Hfull. intros ->. by apply not_elem_of_nil in Hin.
    + intros cand Hc. by eapply sorted_split.
Qed.

(** An auto-deleveraging fill is priced between the two zero prices, so
    that it is at least as good as its own zero price for either side (the
    long receives at least its own, the short pays at most its own), and its
    size exceeds neither the candidate's position nor what is left of the
    victim's. *)
Theorem adl_fill_fair oppositeIsLong victimZP remaining cand price size :
  adl_proposal oppositeIsLong victimZP remaining cand = Some (price, size) ->
  0 <= victimZP < 2 ^ 32 -> 0 <= cd_ZeroPrice cand < 2 ^ 32 ->
  (if oppositeIsLong then cd_ZeroPrice cand <= price <= victimZP
   else victimZP <= price <= cd_ZeroPrice cand) /\
  Z.abs (2 * price - (victimZP + cd_ZeroPrice cand)) <= 1 /\
  0 < size <= remaining /\ size <= Z.abs (cd_PositionSize cand).
Proof.
  intros H Hv Hc. pose proof (adl_proposal_size _ _ _ _ _ _ H) as (H1 & H2 & H3).
  unfold adl_proposal, ZeroPriceMid, wrap32 in H.
  destruct oppositeIsLong; cbn [negb] in H; (case_match; [done|]); cbv zeta in H;
    rewrite Z.mod_small in H by (split; [apply Z.div_pos|apply Z.div_lt_upper_bound]; lia);
    (case_match; [done|]); simplify_eq; breflect; split_and!; try lia;
    Z.to_euclidean_division_equations; lia.
Qed.

(** ** Concrete runs *)

(** Account 2 is long 10 at a loss; accounts 3 and 4 are short 6 and 4. *)
Definition liq_chain (collateral2 collateral3 entry3 collateral4 entry4 : Z) : Chain :=
  risk_demo <| account := account risk_demo
      <| ast_Accounts := list_to_map
           [(1, new_account 1 0 "insurance" 0 0);
            (2, new_account 2 0 "alice" 0 0 <| acc_Collateral := collateral2 |>);
            (3, new_account 3 0 "bob" 0 0 <| acc_Collateral := collateral3 |>);
            (4, new_account 4 0 "carol" 0 0 <| acc_Collateral := collateral4 |>)] |>
      <| ast_AccountPositions := list_to_map
           [((2, 0), empty_position 2 0 <| pos_BaseSize := 10 |> <| pos_EntryQuote := 1060 |>);
            ((3, 0), empty_position 3 0 <| pos_BaseSize := -6 |> <| pos_EntryQuote := entry3 |>);
            ((4, 0), empty_position 4 0 <| pos_BaseSize := -4 |> <| pos_EntryQuote := entry4 |>)] |> |>
    <| market := market risk_demo
      <| mst_MarketDetails := {[ 0 := demo_details
           <| md_MarkPrice := 100 |> <| md_LastMarkPriceRefreshTimestamp := 90 |> <| md_OpenInterest := 10 |> ]} |> |>.

Definition liq_demo : Chain := liq_chain 20 500 (-640) 50 (-420).
Definition liq_demo_after : Chain := (Deleverage 2 0 3 6 liq_demo).2.

Lemma deleverage_closes_both_witness :
  GetHealthStatus 3 liq_demo_after = Ok HealthHealthy /\
  shrunk 6 (GetPosition 2 0 liq_demo) (GetPosition 2 0 liq_demo_after).
Proof.
  destruct (deleverage_closes_both 2 0 3 6 liq_demo liq_demo_after)
    as (_ & _ & H1 & _ & _ & _ & H2); [by_compute|by_decide..|lia|].
  split; [|exact H1]. apply (H2 (new_account 3 0 "bob" 0 0 <| acc_Collateral := 500 |>)); by_compute || discriminate.
Defined.

Lemma adl_queue_fair_witness :
  Z.of_nat (length (BuildADLQueue 0 false 1 liq_demo)) <= 1 /\
  StronglySorted score_le (BuildADLQueue 0 false 1 liq_demo).
Proof. destruct (adl_queue_fair 0 false 1 liq_demo) as (H1 & H2 & _); [lia|]. by split. Defined.

Lemma adl_fill_fair_witness : 104 <= 111 <= 117.
Proof.
  destruct (adl_fill_fair false 104 10 (mkADLCandidate 4 (-4) 20 117 8000 3808000) 111 4) as (H & _);
    [by_compute|lia|cbn; lia|exact H].
Defined.

(** A fill of the auto-deleveraging loop that the risk check rejects is
    skipped but not rolled back: in this run every fill is refused, so no
    attempt is consumed, and yet all three positions are closed and the
    collaterals have moved. *)
Theorem adl_rejected_fill_persists :
  let c := liq_chain 80 5 (-610) 500 (-450) in
  let c' := (autoADL 2 0 16 5 c).2 in
  (autoADL 2 0 16 5 c).1 = Ok (5, None) /\
  (exists e, (Apply (adl_fill 2 3 0 100 6 false) c).1 = Err e) /\
  (fun a => pos_BaseSize (GetPosition a 0 c')) <$> [2; 3; 4] = [0; 0; 0] /\
  (fun a => acc_Collateral <$> ast_Accounts (account c') !! a) <$> [2; 3; 4] = [Some (-132); Some (-5); Some 722].
Proof. vm_compute. eauto 8. Qed.
