(* ===== verification/AccountMsg.v ===== *)
(** * Messages of the account module

    [x/account/keeper/msg_server.go] with the stateless checks of
    [x/account/types/msgs.go] and [params.go] and the guards of
    [x/account/keeper/guards.go]: deposits and withdrawals against the bank,
    transfers, isolated margin, leverage, sub-accounts and configuration. *)

From S2P Require Import Prelude Constants Types PositionMath Account Market Funding Risk Trade Effects.

(** ** Guards ([guards.go]) *)

Definition settleAllPositionFunding (accountIdx : Z) : K unit := fun c =>
  forM (fun pos => if pos_BaseSize pos =? 0 then mret tt
                   else SettlePositionFunding accountIdx (pos_MarketIndex pos))
    (IterateAccountPositions accountIdx c) c.

Definition requireRiskOKFrom (accountIdx : Z) (pre : PreRiskSnapshot) : K unit :=
  ok ← reads (IsValidRiskChangeFrom accountIdx pre);
  lift (ensure ok (EAccount ErrRiskRegression)).

Definition snapshotPreRisk (accountIdx : Z) : K PreRiskSnapshot := reads (SnapshotRisk accountIdx).

Definition maxUint64 (a b : Z) : Z := if b <? a then a else b.

(** ** Messages *)

Record MsgDeposit := mkMsgDeposit {
  dep_Sender : string; dep_Beneficiary : string; dep_AssetIndex : Z; dep_RouteType : Z; dep_Amount : Z }.
Record MsgWithdraw := mkMsgWithdraw {
  wd_Sender : string; wd_AccountIndex : Z; wd_AssetIndex : Z; wd_RouteType : Z; wd_Amount : Z;
  wd_DestinationAddress : string }.
Record MsgTransfer := mkMsgTransfer {
  tr_Sender : string; tr_FromAccountIndex : Z; tr_ToAccountIndex : Z; tr_AssetIndex : Z; tr_Amount : Z }.
Record MsgUpdateMargin := mkMsgUpdateMargin {
  um_Sender : string; um_AccountIndex : Z; um_MarketIndex : Z; um_Action : Z; um_Amount : Z }.
Record MsgUpdateLeverage := mkMsgUpdateLeverage {
  ul_Sender : string; ul_AccountIndex : Z; ul_MarketIndex : Z; ul_NewInitialMarginFraction : Z;
  ul_NewMarginMode : Z }.

Definition validRoute (r : Z) : bool := (r =? RouteTypePerps) || (r =? RouteTypeSpot).

Definition AccountParams_Validate (p : AccountParams) : R unit :=
  ensure (negb (ap_MinPartialTransferAmount p =? 0)) (EAccount ErrInvalidParams);;
  ensure (negb (ap_MinPartialWithdrawAmount p =? 0)) (EAccount ErrInvalidParams);;
  ensure (negb (ap_LiquidityPoolCooldownPeriodMs p <? 0)) (EAccount ErrInvalidParams).

(** ** The bank

    The coins of the chain are kept by the SDK's bank keeper. The message
    handlers only send one coin between an address and the module account;
    [canonical] is the text form of a decoded address. *)
Class BankKeeper (B : Type) := {
  SendCoinsFromAccountToModule : string -> string -> Z -> M B Error unit;
  SendCoinsFromModuleToAccount : string -> string -> Z -> M B Error unit;
  canonical : string -> string
}.

(** What the module relies on of the bank: a successful send moves the coin
    in or out of the module account and touches no other coin of it. The
    module account is blocked as a recipient, so a payment out never comes
    back to it; it has no key, so it never signs a deposit. *)
Class BankOk (B : Type) `{BankKeeper B} := {
  module_address : string;
  module_balance : string -> B -> Z;
  bank_in addr denom amount b u b' d :
    addr <> module_address -> SendCoinsFromAccountToModule addr denom amount b = (Ok u, b') ->
    module_balance d b' = module_balance d b + (if decide (d = denom) then amount else 0);
  bank_out addr denom amount b u b' d :
    SendCoinsFromModuleToAccount addr denom amount b = (Ok u, b') ->
    module_balance d b' = module_balance d b - (if decide (d = denom) then amount else 0)
}.

Definition on_chain {B A} (m : K A) : M (Chain * B) Error A := fun s =>
  let '(r, c') := m s.1 in (r, (c', s.2)).
Definition on_bank {B A} (m : M B Error A) : M (Chain * B) Error A := fun s =>
  let '(r, b') := m s.2 in (r, (s.1, b')).

Section stateless.
Context `{Env}.

Definition mustValidAddr (s : string) : R unit :=
  ensure (negb (bool_decide (s = EmptyString))) EInvalidAddress;;
  ensure (valid_bech32 s) EInvalidAddress.

Definition optionalAddr (s : string) : R unit :=
  if bool_decide (s = EmptyString) then mret tt else mustValidAddr s.

Definition MsgDeposit_ValidateBasic (m : MsgDeposit) : R unit :=
  mustValidAddr (dep_Sender m);;
  optionalAddr (dep_Beneficiary m);;
  ensure (negb (dep_Amount m =? 0)) (EAccount ErrAmountTooSmall);;
  ensure (validRoute (dep_RouteType m)) (EAccount ErrInvalidRoute).

Definition MsgWithdraw_ValidateBasic (m : MsgWithdraw) : R unit :=
  mustValidAddr (wd_Sender m);;
  optionalAddr (wd_DestinationAddress m);;
  ensure (negb (wd_Amount m =? 0)) (EAccount ErrAmountTooSmall);;
  ensure (validRoute (wd_RouteType m)) (EAccount ErrInvalidRoute).

Definition MsgTransfer_ValidateBasic (m : MsgTransfer) : R unit :=
  mustValidAddr (tr_Sender m);;
  ensure (negb (tr_Amount m =? 0)) (EAccount ErrAmountTooSmall);;
  ensure (negb (tr_FromAccountIndex m =? tr_ToAccountIndex m)) (EAccount ErrInvalidParams).

Definition MsgUpdateMargin_ValidateBasic (m : MsgUpdateMargin) : R unit :=
  mustValidAddr (um_Sender m);;
  ensure (0 <? um_Amount m) (EAccount ErrInvalidParams);;
  ensure ((um_Action m =? AddMargin) || (um_Action m =? RemoveMargin)) (EAccount ErrInvalidMarginAction).

Definition MsgUpdateLeverage_ValidateBasic (m : MsgUpdateLeverage) : R unit :=
  mustValidAddr (ul_Sender m);;
  ensure ((ul_NewMarginMode m =? CrossMargin) || (ul_NewMarginMode m =? IsolatedMargin))
    (EAccount ErrInvalidMarginMode);;
  ensure (negb (MarginTick <? ul_NewInitialMarginFraction m)) (EAccount ErrInvalidParams).
End stateless.

(** ** Handlers ([msg_server.go]) *)

Section handlers.
Context `{Env}.

(** The owner of an account that is not a pool. *)
Definition authorized_user (sender : string) (idx : Z) : K unit :=
  ok ← reads (IsAuthorized sender idx);
  lift (ensure ok (EAccount ErrUnauthorized));;
  reads (rejectPoolAccount idx).

Definition owned_account (sender : string) (idx : Z) : K Account :=
  a ← reads (GetAccount idx);
  lift (ensure (bool_decide (acc_OwnerAddress a = sender)) (EAccount ErrUnauthorized));;
  lift (ensure (negb (IsPoolType a)) (EAccount ErrPoolGenericMsg));;
  mret a.

Definition MsgCreateSubAccount (sender : string) (masterIdx : Z) : K Z :=
  lift (mustValidAddr sender);;
  master ← reads (GetAccount masterIdx);
  lift (ensure (bool_decide (acc_OwnerAddress master = sender)) (EAccount ErrUnauthorized));;
  lift (ensure (acc_AccountType master =? MasterAccountType) (EAccount ErrInvalidAccountType));;
  sub ← CreateSubAccount master;
  mret (acc_AccountIndex sub).

Definition MsgUpdateAccountConfig (sender : string) (idx newTradingMode : Z) : K unit :=
  lift (mustValidAddr sender);;
  lift (ensure ((newTradingMode =? AccountTradingModeSimple) || (newTradingMode =? AccountTradingModeUnified))
          (EAccount ErrInvalidTradingMode));;
  a ← owned_account sender idx;
  UpdateAccountTradingMode (acc_AccountIndex a) newTradingMode.

Definition MsgUpdateAccountAssetConfig (sender : string) (idx assetIdx newMarginMode : Z) : K unit :=
  lift (mustValidAddr sender);;
  lift (ensure ((newMarginMode =? MarginModeDisabled) || (newMarginMode =? MarginModeEnabled))
          (EAccount ErrInvalidMarginMode));;
  owned_account sender idx;;
  SetAccountAssetMarginMode idx assetIdx newMarginMode.

Definition Transfer (msg : MsgTransfer) : K unit := fun c =>
  let from := tr_FromAccountIndex msg in
  let to := tr_ToAccountIndex msg in
  (lift (MsgTransfer_ValidateBasic msg);;
   authorized_user (tr_Sender msg) from;;
   reads (rejectPoolAccount to);;
   asset ← reads (GetAsset (tr_AssetIndex msg));
   lift (ensure (as_Enabled asset) (EAccount ErrAssetDisabled));;
   let params := ast_Params (account c) in
   lift (ensure (negb (tr_Amount msg <?
           maxUint64 (as_MinTransferAmount asset) (ap_MinPartialTransferAmount params)))
           (EAccount ErrAmountTooSmall));;
   let delta := tr_Amount msg * as_ExtensionMultiplier asset in
   if as_MarginMode asset =? MarginModeEnabled then
     settleAllPositionFunding from;;
     pre ← snapshotPreRisk from;
     AddCollateral from (- delta);;
     AddCollateral to delta;;
     requireRiskOKFrom from pre
   else
     AddAccountAssetBalance from (tr_AssetIndex msg) (- delta);;
     AddAccountAssetBalance to (tr_AssetIndex msg) delta) c.

Definition add_margin (d : Z) (p : AccountPosition) : R (AccountPosition * unit) :=
  mret (p <| pos_AllocatedMargin := pos_AllocatedMargin p + d |>, tt).

Definition UpdateMargin (msg : MsgUpdateMargin) : K unit :=
  let acct := um_AccountIndex msg in
  let mkt := um_MarketIndex msg in
  let amount := um_Amount msg in
  lift (MsgUpdateMargin_ValidateBasic msg);;
  authorized_user (um_Sender msg) acct;;
  SettlePositionFunding acct mkt;;
  pre ← snapshotPreRisk acct;
  pos ← reads (fun c => mret (GetPosition acct mkt c));
  lift (ensure (pos_MarginMode pos =? IsolatedMargin) (EAccount ErrPositionNotIsolated));;
  (if um_Action msg =? AddMargin then
     UpdatePosition acct mkt (add_margin amount);;
     AddCollateral acct (- amount)
   else
     lift (ensure (negb (pos_AllocatedMargin pos <? amount)) (EAccount ErrInsufficientFunds));;
     UpdatePosition acct mkt (add_margin (- amount));;
     AddCollateral acct amount);;
  requireRiskOKFrom acct pre.

Definition UpdateLeverage (msg : MsgUpdateLeverage) : K unit :=
  let acct := ul_AccountIndex msg in
  let mkt := ul_MarketIndex msg in
  lift (MsgUpdateLeverage_ValidateBasic msg);;
  authorized_user (ul_Sender msg) acct;;
  md ← reads (GetMarketDetails mkt);
  lift (ensure (negb (ul_NewInitialMarginFraction msg <? md_MinInitialMarginFraction md))
          (EAccount ErrInvalidParams));;
  pos ← reads (fun c => mret (GetPosition acct mkt c));
  lift (ensure (pos_BaseSize pos =? 0) (EAccount ErrPositionNotEmpty));;
  SetPositionLeverage acct mkt (ul_NewMarginMode msg) (ul_NewInitialMarginFraction msg).

Definition Account_UpdateParams (auth : string) (p : AccountParams) : K unit :=
  lift (mustValidAddr auth);;
  lift (AccountParams_Validate p);;
  lift (ensure (bool_decide (auth = authority)) (EAccount ErrInvalidAuthority));;
  set_account_store (fun s => s <| ast_Params := p |>).

(** *** Coins in and out *)

Section bank.
Context {B : Type} `{BankKeeper B}.

Definition Deposit (msg : MsgDeposit) : M (Chain * B) Error Z := fun s =>
  let beneficiary := if bool_decide (dep_Beneficiary msg = EmptyString) then canonical (dep_Sender msg)
                     else canonical (dep_Beneficiary msg) in
  (lift (MsgDeposit_ValidateBasic msg);;
   asset ← on_chain (reads (GetAsset (dep_AssetIndex msg)));
   lift (ensure (as_Enabled asset) (EAccount ErrAssetDisabled));;
   lift (ensure (negb ((dep_RouteType msg =? RouteTypePerps) && negb (as_MarginMode asset =? MarginModeEnabled)))
           (EAccount ErrAssetNotMargin));;
   let params := ast_Params (account s.1) in
   lift (ensure (negb (dep_Amount msg <?
           maxUint64 (as_MinTransferAmount asset) (ap_MinPartialTransferAmount params)))
           (EAccount ErrAmountTooSmall));;
   on_bank (SendCoinsFromAccountToModule (canonical (dep_Sender msg)) (as_Denom asset) (dep_Amount msg));;
   acc ← on_chain (EnsureMasterAccount beneficiary);
   let delta := dep_Amount msg * as_ExtensionMultiplier asset in
   (if dep_RouteType msg =? RouteTypePerps
    then on_chain (AddCollateral (acc_AccountIndex acc) delta)
    else on_chain (AddAccountAssetBalance (acc_AccountIndex acc) (dep_AssetIndex msg) delta));;
   mret (acc_AccountIndex acc)) s.

(** The part of a withdrawal that debits the account. *)
Definition withdraw_debit (acct assetIdx routeType delta : Z) (asset : Asset) : K unit :=
  if routeType =? RouteTypePerps then
    lift (ensure (as_MarginMode asset =? MarginModeEnabled) (EAccount ErrAssetNotMargin));;
    settleAllPositionFunding acct;;
    pre ← snapshotPreRisk acct;
    AddCollateral acct (- delta);;
    requireRiskOKFrom acct pre
  else AddAccountAssetBalance acct assetIdx (- delta).

Definition Withdraw (msg : MsgWithdraw) : M (Chain * B) Error unit := fun s =>
  let dest := if bool_decide (wd_DestinationAddress msg = EmptyString) then canonical (wd_Sender msg)
              else canonical (wd_DestinationAddress msg) in
  (lift (MsgWithdraw_ValidateBasic msg);;
   on_chain (authorized_user (wd_Sender msg) (wd_AccountIndex msg));;
   asset ← on_chain (reads (GetAsset (wd_AssetIndex msg)));
   lift (ensure (as_Enabled asset) (EAccount ErrAssetDisabled));;
   let params := ast_Params (account s.1) in
   lift (ensure (negb (wd_Amount msg <?
           maxUint64 (as_MinWithdrawalAmount asset) (ap_MinPartialWithdrawAmount params)))
           (EAccount ErrAmountTooSmall));;
   let delta := wd_Amount msg * as_ExtensionMultiplier asset in
   on_chain (withdraw_debit (wd_AccountIndex msg) (wd_AssetIndex msg) (wd_RouteType msg) delta asset);;
   on_bank (SendCoinsFromModuleToAccount dest (as_Denom asset) (wd_Amount msg))) s.
End bank.
End handlers.

(** ** What a message does to the balances *)

(** Account indices are allocated upwards: every stored account is below the
    next master index or in the sub-account range below the next one. *)
Definition alloc_ok (c : Chain) : Prop :=
  0 <= ast_NextMasterIndex (account c) <= MinSubAccountIndex /\
  0 <= ast_NextSubIndex (account c) <= MaxAccountIndex + 1 /\
  map_Forall (fun i _ => i < Z.max FirstUserMasterAccountIndex (ast_NextMasterIndex (account c)) \/
                         MinSubAccountIndex <= i < Z.max MinSubAccountIndex (ast_NextSubIndex (account c)))
    (ast_Accounts (account c)).
#[global] Instance alloc_ok_dec c : Decision (alloc_ok c).
Proof. apply _. Defined.

(** Collateral and allocated margin shift by [dc] in total, the balances of
    asset [y] by [db y]; well-formedness is kept. *)
Record shifts (dc : Z) (db : Z -> Z) (c c' : Chain) : Prop := {
  sf_margin : total_collateral c' + total_allocated c' = total_collateral c + total_allocated c + dc;
  sf_balance y : total_balance y c' = total_balance y c + db y;
  sf_keyed : keyed c';
  sf_alloc : alloc_ok c';
  sf_misc : misc c' = misc c
}.

Definition none (_ : Z) : Z := 0.
Definition at_asset (x d y : Z) : Z := if x =? y then d else 0.

Lemma shifts_refl c : keyed c -> alloc_ok c -> shifts 0 none c c.
Proof. intros Hk Ha. split; unfold none; auto with zarith. Qed.

Lemma shifts_trans d1 b1 d2 b2 c c1 c2 dc db :
  shifts d1 b1 c c1 -> shifts d2 b2 c1 c2 -> d1 + d2 = dc -> (forall y, b1 y + b2 y = db y) ->
  shifts dc db c c2.
Proof.
  intros [A1 A2 A3 A4 A5] [B1 B2 B3 B4 B5] Hd Hb. split; [lia| |done|done|congruence].
  intros y. rewrite B2, A2, <- Hb. lia.
Qed.

Lemma alloc_ok_with_account a b c :
  GetAccount (acc_AccountIndex a) c = Ok b -> alloc_ok c -> alloc_ok (with_account a c).
Proof.
  intros Hb%of_option_ok (H1 & H2 & Hc). split; [exact H1|]. split; [exact H2|]. apply map_Forall_insert_2; [|done]. exact (Hc _ _ Hb).
Qed.

Lemma updateAccount_ok a c u c' : updateAccount a c = (Ok u, c') -> c' = with_account a c.
Proof. unfold with_account. by intros ->. Qed.
Lemma setAccountAsset_ok aa c u c' : setAccountAsset aa c = (Ok u, c') -> c' = with_asset aa c.
Proof. unfold with_asset. by intros ->. Qed.

(** Rewriting one account row. *)
Lemma with_account_shifts i a b d c :
  keyed c -> alloc_ok c -> GetAccount i c = Ok a -> acc_AccountIndex b = acc_AccountIndex a ->
  acc_Collateral b = acc_Collateral a + d -> shifts d none c (with_account b c).
Proof.
  intros Hk Hal Ha Hi Hd. assert (GetAccount (acc_AccountIndex b) c = Ok a) as Hb.
  { rewrite Hi. pose proof Ha as Hl. apply of_option_ok in Hl. by rewrite (proj1 Hk _ _ Hl). }
  split; [|by intros y; unfold none; rewrite Z.add_0_r|by auto| |done].
  - rewrite (csum_with_account _ _ a Hb). unfold total_allocated. cbn. lia.
  - by apply (alloc_ok_with_account _ a).
Qed.

Lemma AddCollateral_shifts i d c u c' :
  AddCollateral i d c = (Ok u, c') -> keyed c -> alloc_ok c -> shifts d none c c'.
Proof. intros (a & Ha & ->)%AddCollateral_ok Hk Hal. by apply (with_account_shifts i a). Qed.

Lemma AddAccountAssetBalance_shifts a x d c u c' :
  AddAccountAssetBalance a x d c = (Ok u, c') -> keyed c -> alloc_ok c ->
  shifts 0 (at_asset x d) c c'.
Proof.
  intros H Hk Hal. destruct (get_asset_key c a x Hk) as [Ha Hx].
  assert (c' = with_asset (GetAccountAsset a x c <| aa_Balance := aa_Balance (GetAccountAsset a x c) + d |>) c) as ->.
  { run_asset_op H; done. }
  split; [by rewrite Z.add_0_r| |by auto|exact Hal|done].
  intros y. rewrite (bsum_with_asset _ _ a x) by done. cbn. unfold at_asset. case_match; lia.
Qed.

(** Rewriting one position row. *)
Lemma with_position_shifts a m p d c :
  keyed c -> alloc_ok c -> pos_AccountIndex p = a -> pos_MarketIndex p = m ->
  pos_AllocatedMargin p = pos_AllocatedMargin (GetPosition a m c) + d ->
  shifts d none c (with_position p c).
Proof.
  intros Hk Hal Ha Hm Hd. split; [|by intros y; unfold none; rewrite Z.add_0_r|by auto|exact Hal|done].
  unfold total_allocated. rewrite (psum_with_position pos_AllocatedMargin c p a m) by done.
  unfold total_collateral. cbn. lia.
Qed.

Lemma SettlePositionFunding_shifts a m c u c' :
  SettlePositionFunding a m c = (Ok u, c') -> keyed c -> alloc_ok c -> shifts 0 none c c'.
Proof.
  intros H Hk Hal. apply SettlePositionFunding_inv in H as (d & _ & ->); [|done].
  destruct (get_position_key c a m Hk) as [Ha Hm].
  apply (with_position_shifts a m); [done|done|exact Ha|exact Hm|]. symmetry. apply Z.add_0_r.
Qed.

(** A loop of steps that keep a transitive relation keeps it. *)
Lemma forM_rel {S E A} (P : S -> Prop) (R : S -> S -> Prop) (f : A -> M S E unit) l s u s' :
  (forall s, P s -> R s s) -> (forall a b c, R a b -> R b c -> R a c) -> (forall s s', P s -> R s s' -> P s') ->
  (forall a s u s', f a s = (Ok u, s') -> P s -> R s s') ->
  forM f l s = (Ok u, s') -> P s -> R s s'.
Proof.
  intros Hr Ht Hp Hf. revert s. induction l as [|a l IH]; intros s H Hs; cbn in H.
  - inv_ok. by apply Hr.
  - inv_ok. pose proof (Hf _ _ _ _ H0 Hs) as H1. eapply Ht; [exact H1|]. eapply IH; eauto.
Qed.

Lemma settleAll_shifts a c u c' :
  settleAllPositionFunding a c = (Ok u, c') -> keyed c -> alloc_ok c -> shifts 0 none c c'.
Proof.
  intros H Hk Hal. unfold settleAllPositionFunding in H.
  eapply (forM_rel (fun c => keyed c /\ alloc_ok c) (shifts 0 none)) in H; eauto.
  - intros s [H1 H2]. by apply shifts_refl.
  - intros s1 s2 s3 H1 H2. by eapply shifts_trans; [exact H1|exact H2|lia|].
  - intros s s' _ [_ _ H1 H2 _]. done.
  - intros pos s v s' Hs [H1 H2]. case_match; [inv_ok; by apply shifts_refl|].
    by eapply SettlePositionFunding_shifts.
Qed.

Lemma total_collateral_new i a c :
  ast_Accounts (account c) !! i = None -> msum acc_Collateral (<[i := a]> (ast_Accounts (account c))) =
  acc_Collateral a + total_collateral c.
Proof. intros Hi. unfold total_collateral. by rewrite msum_insert_new. Qed.

(** Storing a new account at a fresh index, whatever the index tables. *)
Definition created (a : Account) (next_master next_sub : Z) (c c' : Chain) : Prop :=
  ast_Accounts (account c') = <[acc_AccountIndex a := a]> (ast_Accounts (account c)) /\
  ast_AccountPositions (account c') = ast_AccountPositions (account c) /\
  ast_AccountAssets (account c') = ast_AccountAssets (account c) /\
  ast_NextMasterIndex (account c') = next_master /\ ast_NextSubIndex (account c') = next_sub /\
  ast_Params (account c') = ast_Params (account c) /\
  market c' = market c /\ misc c' = misc c /\ BlockTime c' = BlockTime c.

Lemma createAccount_run a c :
  exists c', createAccount a c = (Ok tt, c') /\
    created a (ast_NextMasterIndex (account c)) (ast_NextSubIndex (account c)) c c'.
Proof.
  unfold createAccount, created.
  destruct (negb (bool_decide _) && _), (negb (_ =? _) && _); eexists; (split; [reflexivity|]); cbn; split_and!; done.
Qed.

Lemma created_shifts a nm ns c c' :
  created a nm ns c c' -> keyed c -> alloc_ok c ->
  ast_Accounts (account c) !! acc_AccountIndex a = None ->
  ast_NextMasterIndex (account c) <= nm <= MinSubAccountIndex ->
  ast_NextSubIndex (account c) <= ns <= MaxAccountIndex + 1 ->
  acc_AccountIndex a < Z.max FirstUserMasterAccountIndex nm \/
    MinSubAccountIndex <= acc_AccountIndex a < Z.max MinSubAccountIndex ns ->
  shifts (acc_Collateral a) none c c'.
Proof.
  intros (H1 & H2 & H3 & H4 & H5 & _ & _ & H6 & _) (K1 & K2 & K3) (HA & HB & Hal) Hnew Hm Hs Hi. split.
  - unfold total_collateral, total_allocated at 1. rewrite H1, H2, total_collateral_new by done.
    unfold total_collateral, total_allocated. lia.
  - intros y. unfold total_balance, none. rewrite H3. lia.
  - unfold keyed. rewrite H1, H2, H3. split_and!; [|done..]. by apply map_Forall_insert_2.
  - unfold alloc_ok. rewrite H1, H4, H5. split_and!; [lia..|]. apply map_Forall_insert_2; [done|].
    intros j b Hj. specialize (Hal j b Hj). cbn in Hal. lia.
  - done.
Qed.

Lemma fresh_index c i :
  alloc_ok c ->
  i = Z.max FirstUserMasterAccountIndex (ast_NextMasterIndex (account c)) /\ i < MinSubAccountIndex \/
  i = Z.max MinSubAccountIndex (ast_NextSubIndex (account c)) ->
  ast_Accounts (account c) !! i = None.
Proof.
  intros (H1 & H2 & Hal) Hi. destruct (_ !! i) eqn:E; [|done]. apply Hal in E.
  unfold FirstUserMasterAccountIndex, MinSubAccountIndex, MaxAccountIndex in *. lia.
Qed.

Lemma wrap64_small z : 0 <= z < U64 -> wrap64 z = z.
Proof. intros H. unfold wrap64. by apply Z.mod_small. Qed.

(** Allocating a master index and storing its account. *)
Lemma EnsureMasterAccount_ok bech c a c' :
  EnsureMasterAccount bech c = (Ok a, c') -> keyed c -> alloc_ok c ->
  shifts 0 none c c' /\ GetAccount (acc_AccountIndex a) c' = Ok a.
Proof.
  intros H Hk Hal. unfold EnsureMasterAccount in H.
  destruct (GetMasterAccountByOwner bech c) as [b|e| |] eqn:Hg; [|destruct e as [e| | | | | | | | | |]; [destruct e|..]|..];
    try discriminate H.
  { injection H as <- <-. unfold GetMasterAccountByOwner in Hg. inv_ok. pose proof Hg as Hb.
    apply of_option_ok in Hb. rewrite (proj1 Hk _ _ Hb). split; [by apply shifts_refl|done]. }
  apply M_bind_ok in H as (n & c1 & Hn & H). injection Hn as <- <-.
  apply M_bind_ok in H as (i & c2 & Hi & H). set (n := ast_NextMasterIndex (account c)) in *.
  apply M_bind_ok in H as ([] & c3 & [Hmax ->]%lift_ok & H). apply ensure_ok in Hmax. breflect.
  destruct (proj1 Hal) as [Hn0 Hn1]. fold n in Hn0, Hn1.
  assert (i = Z.max FirstUserMasterAccountIndex n /\
          c2 = c <| account := account c <| ast_NextMasterIndex := i + 1 |> |>) as [-> ->].
  { destruct (Z.ltb_spec n FirstUserMasterAccountIndex) in Hi.
    - unfold set_account_store in Hi. inv_ok. subst. split; [lia|]. done.
    - inv_ok. subst. split; [lia|]. by rewrite wrap64_small by (unfold U64, MinSubAccountIndex in *; lia). }
  destruct (createAccount_run (new_account (Z.max FirstUserMasterAccountIndex n) NilMasterAccountIndex bech
    MasterAccountType (BlockTime c))
    (c <| account := account c <| ast_NextMasterIndex := Z.max FirstUserMasterAccountIndex n + 1 |> |>)) as (c4 & Hrun & Hcr).
  rewrite (run_bind _ _ _ _ _ Hrun) in H. inv_ok. subst. split.
  - assert (created (new_account (Z.max FirstUserMasterAccountIndex n) NilMasterAccountIndex bech MasterAccountType
      (BlockTime c)) (Z.max FirstUserMasterAccountIndex n + 1) (ast_NextSubIndex (account c)) c c4) as Hc by exact Hcr.
    apply (created_shifts _ _ _ _ _ Hc Hk Hal).
    + apply fresh_index; [done|]. left. split; [done|]. cbn. unfold MaxMasterAccountIndex, MinSubAccountIndex in *. lia.
    + fold n. unfold MaxMasterAccountIndex, MinSubAccountIndex in *. cbn. lia.
    + destruct Hal as (_ & ? & _). cbn. lia.
    + left. cbn. lia.
  - destruct Hcr as (H1 & _). unfold GetAccount. rewrite H1. cbn. by rewrite lookup_insert_eq.
Qed.

(** The same for a sub-account index. *)
Lemma next_sub_ok {A} (k : Z -> K A) c r c' :
  (idx ← NextSubIndex_Next;
   idx ← (if idx <? MinSubAccountIndex
          then set_account_store (fun s => s <| ast_NextSubIndex := MinSubAccountIndex + 1 |>);;
               mret MinSubAccountIndex
          else mret idx);
   lift (ensure (idx <=? MaxAccountIndex) (EAccount ErrAccountIndexExceed));;
   k idx) c = (Ok r, c') -> alloc_ok c ->
  let i := Z.max MinSubAccountIndex (ast_NextSubIndex (account c)) in
  i <= MaxAccountIndex /\ k i (c <| account := account c <| ast_NextSubIndex := i + 1 |> |>) = (Ok r, c').
Proof.
  intros H (_ & [H0 H1] & _) i.
  apply M_bind_ok in H as (n & c1 & Hn & H). injection Hn as <- <-.
  apply M_bind_ok in H as (j & c2 & Hj & H).
  apply M_bind_ok in H as ([] & c3 & [Hmax ->]%lift_ok & H). apply ensure_ok in Hmax. breflect.
  assert (j = i /\ c2 = c <| account := account c <| ast_NextSubIndex := i + 1 |> |>) as [-> ->]; [|done].
  destruct (Z.ltb_spec (ast_NextSubIndex (account c)) MinSubAccountIndex) in Hj.
  - unfold set_account_store in Hj. inv_ok. subst. assert (i = MinSubAccountIndex) as -> by lia. done.
  - inv_ok. subst. assert (i = ast_NextSubIndex (account c)) as -> by lia.
    by rewrite wrap64_small by (unfold U64, MaxAccountIndex in *; lia).
Qed.

Lemma sub_created a c c' :
  let i := Z.max MinSubAccountIndex (ast_NextSubIndex (account c)) in
  acc_AccountIndex a = i -> i <= MaxAccountIndex ->
  createAccount a (c <| account := account c <| ast_NextSubIndex := i + 1 |> |>) = (Ok tt, c') ->
  keyed c -> alloc_ok c ->
  created a (ast_NextMasterIndex (account c)) (i + 1) c c' /\ shifts (acc_Collateral a) none c c' /\
  ast_Accounts (account c) !! i = None.
Proof.
  intros i Hi Hmax H Hk Hal.
  destruct (createAccount_run a (c <| account := account c <| ast_NextSubIndex := i + 1 |> |>)) as (c1 & Hrun & Hcr).
  rewrite Hrun in H. injection H as <-. pose proof (fresh_index c i Hal (or_intror eq_refl)) as Hf.
  assert (created a (ast_NextMasterIndex (account c)) (i + 1) c c1) as Hc by exact Hcr.
  split_and!; [done| |done]. destruct (Hal) as (HA & HB & _).
  apply (created_shifts _ _ _ _ _ Hc Hk Hal); [by rewrite Hi|lia|lia|right; rewrite Hi; lia].
Qed.

Lemma CreateSubAccount_shifts master c a c' :
  CreateSubAccount master c = (Ok a, c') -> keyed c -> alloc_ok c -> shifts 0 none c c'.
Proof.
  intros H Hk Hal. unfold CreateSubAccount in H.
  apply M_bind_ok in H as ([] & c0 & [_ ->]%lift_ok & H).
  apply next_sub_ok in H as [Hmax H]; [|done]. apply M_bind_ok in H as ([] & c1 & Hrun & H). inv_ok. subst.
  eapply sub_created in Hrun as (_ & Hs & _); [exact Hs|done..].
Qed.

Lemma requireRiskOK_ok a pre c u c' : requireRiskOKFrom a pre c = (Ok u, c') -> c' = c.
Proof. unfold requireRiskOKFrom. intros H. by inv_ok. Qed.
Lemma snapshotPreRisk_ok a c pre c' : snapshotPreRisk a c = (Ok pre, c') -> SnapshotRisk a c = Ok pre /\ c' = c.
Proof. unfold snapshotPreRisk. intros H. by apply reads_ok in H. Qed.

Section message_effects.
Context `{Env}.

Lemma authorized_user_ok sender idx c u c' :
  authorized_user sender idx c = (Ok u, c') ->
  c' = c /\ exists a, GetAccount idx c = Ok a /\ acc_OwnerAddress a = sender /\ sender <> EmptyString /\
    IsPoolType a = false.
Proof.
  unfold authorized_user, IsAuthorized, rejectPoolAccount. intros Hr. inv_ok.
  match goal with Ha : GetAccount idx c = Ok ?a, Hb : GetAccount idx c = Ok ?b |- _ =>
    rewrite Ha in Hb; injection Hb as -> end.
  split; [done|]. eexists. split; [done|]. case_bool_decide; inv_ok; subst; breflect; [done|]. split_and!; congruence.
Qed.

Lemma MsgCreateSubAccount_shifts sender i c r c' :
  MsgCreateSubAccount sender i c = (Ok r, c') -> keyed c -> alloc_ok c -> shifts 0 none c c'.
Proof. unfold MsgCreateSubAccount. intros Hr Hk Hal. inv_ok. subst. by eapply CreateSubAccount_shifts. Qed.

Lemma owned_account_ok sender idx c a c' :
  owned_account sender idx c = (Ok a, c') -> c' = c /\ GetAccount idx c = Ok a.
Proof. unfold owned_account. intros Hr. inv_ok. by subst. Qed.

(** Chains several shifts and adds them up. *)
Ltac chain_shifts :=
  repeat match goal with
  | Hr : authorized_user _ _ _ = (Ok _, _) |- _ => apply authorized_user_ok in Hr as [-> _]
  | Hr : owned_account _ _ _ = (Ok _, _) |- _ => apply owned_account_ok in Hr as [-> _]
  | Hr : requireRiskOKFrom _ _ _ = (Ok _, _) |- _ => apply requireRiskOK_ok in Hr as ->
  | Hr : snapshotPreRisk _ _ = (Ok _, _) |- _ => apply snapshotPreRisk_ok in Hr as [_ ->]
  | Hk : keyed ?c, Ha : alloc_ok ?c, Hr : settleAllPositionFunding _ ?c = (Ok _, _) |- _ =>
      apply settleAll_shifts in Hr; [|assumption..]; destruct Hr as [? ? ? ? ?]
  | Hk : keyed ?c, Ha : alloc_ok ?c, Hr : SettlePositionFunding _ _ ?c = (Ok _, _) |- _ =>
      apply SettlePositionFunding_shifts in Hr; [|assumption..]; destruct Hr as [? ? ? ? ?]
  | Hk : keyed ?c, Ha : alloc_ok ?c, Hr : AddCollateral _ _ ?c = (Ok _, _) |- _ =>
      apply AddCollateral_shifts in Hr; [|assumption..]; destruct Hr as [? ? ? ? ?]
  | Hk : keyed ?c, Ha : alloc_ok ?c, Hr : AddAccountAssetBalance _ _ _ ?c = (Ok _, _) |- _ =>
      apply AddAccountAssetBalance_shifts in Hr; [|assumption..]; destruct Hr as [? ? ? ? ?]
  end.

Ltac add_shifts :=
  split; [lia| |assumption|assumption|congruence];
  intros y; repeat match goal with Hb : forall y, total_balance y _ = _ |- _ => rewrite Hb; clear Hb end;
  unfold none, at_asset; repeat case_match; lia.

Lemma Transfer_shifts msg c u c' :
  Transfer msg c = (Ok u, c') -> keyed c -> alloc_ok c -> shifts 0 none c c'.
Proof. unfold Transfer. intros Hr Hk Hal. inv_ok. case_match; inv_ok; chain_shifts; add_shifts. Qed.

Lemma add_margin_shifts a m d c px c' :
  UpdatePosition a m (add_margin d) c = (Ok px, c') -> keyed c -> alloc_ok c -> shifts d none c c'.
Proof.
  intros Hr Hk Hal. apply UpdatePosition_ok in Hr as [Hr ->]; [|done]. injection Hr as <-.
  destruct (get_position_key c a m Hk) as [Ha Hm].
  by apply (with_position_shifts a m); [done|done|exact Ha|exact Hm|].
Qed.

Lemma UpdateMargin_shifts msg c u c' :
  UpdateMargin msg c = (Ok u, c') -> keyed c -> alloc_ok c -> shifts 0 none c c'.
Proof.
  unfold UpdateMargin. intros Hr Hk Hal. inv_ok. chain_shifts.
  case_match; inv_ok; chain_shifts;
    (match goal with Hp : UpdatePosition _ _ _ _ = _ |- _ =>
       apply add_margin_shifts in Hp; [|assumption..]; destruct Hp as [? ? ? ? ?] end);
    chain_shifts; add_shifts.
Qed.

Lemma UpdateLeverage_shifts msg c u c' :
  UpdateLeverage msg c = (Ok u, c') -> keyed c -> alloc_ok c -> shifts 0 none c c'.
Proof.
  unfold UpdateLeverage, SetPositionLeverage. intros Hr Hk Hal. inv_ok. chain_shifts.
  match goal with Hp : UpdatePosition _ _ _ _ = _ |- _ => apply UpdatePosition_ok in Hp as [Hp ->]; [|done] end.
  inv_ok. subst. destruct (get_position_key c (ul_AccountIndex msg) (ul_MarketIndex msg) Hk) as [Ha Hm].
  apply (with_position_shifts (ul_AccountIndex msg) (ul_MarketIndex msg)); [done|done|exact Ha|exact Hm|].
  symmetry. apply Z.add_0_r.
Qed.

Lemma config_shifts sender i mode c u c' :
  MsgUpdateAccountConfig sender i mode c = (Ok u, c') -> keyed c -> alloc_ok c -> shifts 0 none c c'.
Proof.
  unfold MsgUpdateAccountConfig, UpdateAccountTradingMode. intros Hr Hk Hal. inv_ok. chain_shifts.
  apply updateAccount_ok in Hr as ->. eapply with_account_shifts; [done|done|exact H3|done|]. cbn. lia.
Qed.

Lemma asset_config_shifts sender i x mode c u c' :
  MsgUpdateAccountAssetConfig sender i x mode c = (Ok u, c') -> keyed c -> alloc_ok c -> shifts 0 none c c'.
Proof.
  unfold MsgUpdateAccountAssetConfig. intros Hr Hk Hal. inv_ok. chain_shifts.
  apply setAccountAsset_ok in Hr as ->. set (aa := _ <| aa_MarginMode := mode |>). 
  split; [by rewrite Z.add_0_r| |by auto|exact Hal|done].
  intros y. rewrite (bsum_with_asset c aa i x) by done. unfold none. cbn. case_match; lia.
Qed.

Lemma params_shifts auth p c u c' :
  Account_UpdateParams auth p c = (Ok u, c') -> keyed c -> alloc_ok c -> shifts 0 none c c'.
Proof.
  unfold Account_UpdateParams, set_account_store. intros Hr Hk Hal. inv_ok. subst.
  split; [by rewrite Z.add_0_r|by intros y; unfold none; rewrite Z.add_0_r|exact Hk|exact Hal|done].
Qed.

Lemma withdraw_debit_shifts a x route delta asset c u c' :
  withdraw_debit a x route delta asset c = (Ok u, c') -> keyed c -> alloc_ok c ->
  if route =? RouteTypePerps then as_MarginMode asset = MarginModeEnabled /\ shifts (- delta) none c c'
  else shifts 0 (at_asset x (- delta)) c c'.
Proof.
  unfold withdraw_debit. intros Hr Hk Hal. case_match; inv_ok; chain_shifts; breflect; [split; [done|]|]; add_shifts.
Qed.

Section bank_effects.
Context {B : Type} `{BankOk B}.

Lemma on_chain_ok {A} (m : K A) (s : Chain * B) r s' :
  on_chain m s = (Ok r, s') -> exists c', m s.1 = (Ok r, c') /\ s' = (c', s.2).
Proof. unfold on_chain. destruct (m s.1) as [r0 c0]. naive_solver. Qed.
Lemma on_bank_ok {A} (m : M B Error A) (s : Chain * B) r s' :
  on_bank m s = (Ok r, s') -> exists b', m s.2 = (Ok r, b') /\ s' = (s.1, b').
Proof. unfold on_bank. destruct (m s.2) as [r0 b0]. naive_solver. Qed.

(** The asset a message moves, the coins it takes in (or pays out) and what
    it credits (or debits). *)
Ltac inv_bank :=
  repeat (inv_ok; match goal with
  | Hc : on_chain _ _ = (Ok _, _) |- _ => apply on_chain_ok in Hc as (? & ? & ->); cbn [fst snd] in *
  | Hc : on_bank _ _ = (Ok _, _) |- _ => apply on_bank_ok in Hc as (? & ? & ->); cbn [fst snd] in *
  end); inv_ok.

Lemma Deposit_ok msg s r s' :
  Deposit msg s = (Ok r, s') -> canonical (dep_Sender msg) <> module_address -> keyed s.1 -> alloc_ok s.1 ->
  exists asset, GetAsset (dep_AssetIndex msg) s.1 = Ok asset /\
    (forall d, module_balance d s'.2 = module_balance d s.2 + (if decide (d = as_Denom asset) then dep_Amount msg else 0)) /\
    let delta := dep_Amount msg * as_ExtensionMultiplier asset in
    if dep_RouteType msg =? RouteTypePerps then as_MarginMode asset = MarginModeEnabled /\ shifts delta none s.1 s'.1
    else shifts 0 (at_asset (dep_AssetIndex msg) delta) s.1 s'.1.
Proof.
  unfold Deposit. intros Hr Hsigner Hk Hal. cbv zeta in Hr. inv_bank.
  apply EnsureMasterAccount_ok in H8 as [[? ? ? ? ?] _]; [|done..].
  eexists. split; [done|]. destruct (dep_RouteType msg =? RouteTypePerps) eqn:Hroute; inv_bank; chain_shifts; cbn [fst snd];
    (split; [by intros d; eapply bank_in; [exact Hsigner|]|]); [split; [cbn in *; by breflect|]|]; add_shifts.
Qed.

Lemma Withdraw_ok msg s u s' :
  Withdraw msg s = (Ok u, s') -> keyed s.1 -> alloc_ok s.1 ->
  exists asset, GetAsset (wd_AssetIndex msg) s.1 = Ok asset /\
    (forall d, module_balance d s'.2 = module_balance d s.2 - (if decide (d = as_Denom asset) then wd_Amount msg else 0)) /\
    let delta := wd_Amount msg * as_ExtensionMultiplier asset in
    if wd_RouteType msg =? RouteTypePerps then as_MarginMode asset = MarginModeEnabled /\ shifts (- delta) none s.1 s'.1
    else shifts 0 (at_asset (wd_AssetIndex msg) (- delta)) s.1 s'.1.
Proof.
  unfold Withdraw. intros Hr Hk Hal. cbv zeta in Hr. inv_bank. chain_shifts.
  match goal with Hd : withdraw_debit _ _ _ _ _ _ = _ |- _ => apply withdraw_debit_shifts in Hd; [|done..] end.
  eexists. split; [done|]. cbn [fst snd]. split; [by intros d; eapply bank_out|done].
Qed.
End bank_effects.
End message_effects.
