(* ===== verification/PublicPool.v ===== *)
(** * Public pools

    [x/account/keeper/public_pool.go] and [msg_server_publicpool.go] with the
    stateless checks of [x/account/types/msgs.go]: pools whose shares are
    minted and burnt at net asset value, the operator's stake, the cooldown
    of the liquidity pool, and the strategy buckets of the insurance fund. *)

From S2P Require Import Prelude Constants Types PositionMath Account Market Funding Risk Trade Effects AccountMsg.

(** ** The pool ledger ([public_pool.go]) *)

Record PublicPoolAccountParams := mkPublicPoolAccountParams {
  pp_Master : Account;
  pp_AccountType : Z;
  pp_AccountTradingMode : Z;
  pp_SeedCollateral : Z;
  pp_Info : PublicPoolInfo
}.

Definition allocatePoolSubAccountIndex : K Z :=
  idx ← NextSubIndex_Next;
  idx ← (if idx <? MinSubAccountIndex
         then set_account_store (fun s => s <| ast_NextSubIndex := MinSubAccountIndex + 1 |>);;
              mret MinSubAccountIndex
         else mret idx);
  lift (ensure (idx <=? MaxAccountIndex) (EAccount ErrAccountIndexExceed));;
  mret idx.

Definition pool_account (idx now : Z) (p : PublicPoolAccountParams) : Account :=
  new_account idx (acc_AccountIndex (pp_Master p)) (acc_OwnerAddress (pp_Master p)) (pp_AccountType p) now
    <| acc_AccountTradingMode := pp_AccountTradingMode p |>
    <| acc_Collateral := pp_SeedCollateral p |>
    <| acc_PublicPoolInfo := Some (pp_Info p) |>.

Definition CreatePublicPoolAccount (p : PublicPoolAccountParams) : K Account := fun c =>
  (idx ← allocatePoolSubAccountIndex;
   let pool := pool_account idx (BlockTime c) p in
   createAccount pool;;
   mret pool) c.

Definition UpdatePublicPoolInfo (idx : Z) (mut : PublicPoolInfo -> R PublicPoolInfo) : K Account :=
  a ← reads (GetAccount idx);
  info ← lift (of_option (acc_PublicPoolInfo a) (EAccount ErrInvalidPoolAccount));
  info ← lift (mut info);
  let a := a <| acc_PublicPoolInfo := Some info |> in
  updateAccount a;;
  mret a.

(** The position of a pool's entry in an account's share list. *)
Definition FindShareEntry (user : Account) (poolIdx : Z) : option nat :=
  fst <$> list_find (fun s => sh_PublicPoolIndex s = poolIdx) (acc_PublicPoolShares user).

Definition UpsertPublicPoolShare (masterIdx poolIdx shareDelta principalDelta entryTimestamp : Z) : K unit :=
  master ← reads (GetAccount masterIdx);
  match list_find (fun s => sh_PublicPoolIndex s = poolIdx) (acc_PublicPoolShares master) with
  | Some (i, s) =>
      updateAccount (master <| acc_PublicPoolShares :=
        <[i := s <| sh_ShareAmount := sh_ShareAmount s + shareDelta |>
                 <| sh_PrincipalAmount := sh_PrincipalAmount s + principalDelta |>
                 <| sh_EntryTimestamp := entryTimestamp |>]> (acc_PublicPoolShares master) |>)
  | None =>
      lift (ensure (negb (SharesListSize <=? Z.of_nat (length (acc_PublicPoolShares master))))
              (EAccount ErrSharesListFull));;
      updateAccount (master <| acc_PublicPoolShares :=
        acc_PublicPoolShares master ++
          [mkPublicPoolShare poolIdx shareDelta principalDelta entryTimestamp] |>)
  end.

Definition ReducePublicPoolShare (masterIdx poolIdx shareAmount : Z) : K unit :=
  master ← reads (GetAccount masterIdx);
  '(i, entry) ← lift (of_option
     (list_find (fun s => sh_PublicPoolIndex s = poolIdx) (acc_PublicPoolShares master))
     (EAccount ErrInsufficientShares));
  lift (ensure (negb (sh_ShareAmount entry <? shareAmount)) (EAccount ErrInsufficientShares));;
  let principalDelta := Z.quot (sh_PrincipalAmount entry * shareAmount) (sh_ShareAmount entry) in
  let entry := entry <| sh_ShareAmount := sh_ShareAmount entry - shareAmount |>
                     <| sh_PrincipalAmount := sh_PrincipalAmount entry - principalDelta |> in
  updateAccount (master <| acc_PublicPoolShares :=
    if sh_ShareAmount entry =? 0 then delete i (acc_PublicPoolShares master)
    else <[i := entry]> (acc_PublicPoolShares master) |>).

Definition pool_info (poolIdx : Z) (c : Chain) : R PublicPoolInfo :=
  pool ← GetAccount poolIdx c;
  of_option (acc_PublicPoolInfo pool) (EAccount ErrInvalidPoolAccount).

Definition SharesToUSDCValue (poolIdx shareAmount : Z) (c : Chain) : R Z :=
  if negb (0 <? shareAmount) then mret 0
  else
    info ← pool_info poolIdx c;
    if pi_TotalShares info =? 0 then mret (shareAmount * InitialPoolShareValue)
    else
      tav ← GetTotalAccountValue poolIdx c;
      if negb (0 <? tav) then mret 0
      else
        let denom := pi_TotalShares info * USDCToCollateralMultiplier in
        if denom =? 0 then mret 0
        else mret (Z.quot (shareAmount * tav) denom).

Definition USDCValueToShares (poolIdx usdcAmount : Z) (c : Chain) : R Z :=
  if negb (0 <? usdcAmount) then mret 0
  else
    info ← pool_info poolIdx c;
    if pi_TotalShares info =? 0 then mret (Z.quot usdcAmount InitialPoolShareValue)
    else
      tav ← GetTotalAccountValue poolIdx c;
      ensure (0 <? tav) (EAccount ErrPoolNotActive);;
      mret (Z.quot (usdcAmount * pi_TotalShares info * USDCToCollateralMultiplier) tav).

Definition AvailableSharesToBurn (poolIdx : Z) (c : Chain) : R Z :=
  info ← pool_info poolIdx c;
  if pi_TotalShares info =? 0 then mret 0
  else
    tav ← GetTotalAccountValue poolIdx c;
    if negb (0 <? tav) then mret 0
    else
      avail ← GetAvailableCollateral poolIdx c;
      if negb (0 <? avail) then mret 0
      else mret (Z.quot (avail * pi_TotalShares info) tav).

Definition CheckMinOperatorShareRate (info : PublicPoolInfo) : bool :=
  if pi_TotalShares info =? 0 then true
  else pi_TotalShares info * pi_MinOperatorShareRate info <=? pi_OperatorShares info * ShareTick.

Definition BurnAllowed (info : PublicPoolInfo) : bool :=
  (pi_Status info =? PublicPoolStatusActive) || (pi_Status info =? PublicPoolStatusFrozen).

Definition IsPoolAccount (a : Account) : bool :=
  match acc_PublicPoolInfo a with Some _ => IsPoolType a | None => false end.

(** ** Messages ([msgs.go]) *)

Record MsgCreatePublicPool := mkMsgCreatePublicPool {
  cpp_Sender : string; cpp_MasterAccountIndex : Z; cpp_AccountType : Z; cpp_InitialTotalShares : Z;
  cpp_OperatorFee : Z; cpp_MinOperatorShareRate : Z }.
Record MsgUpdatePublicPool := mkMsgUpdatePublicPool {
  upp_Sender : string; upp_PoolAccountIndex : Z; upp_NewStatus : Z; upp_NewOperatorFee : Z;
  upp_NewMinOperatorShareRate : Z }.

Section handlers.
Context `{Env}.

Definition MsgCreatePublicPool_ValidateBasic (m : MsgCreatePublicPool) : R unit :=
  mustValidAddr (cpp_Sender m);;
  ensure (negb (cpp_InitialTotalShares m =? 0)) (EAccount ErrInvalidParams);;
  ensure (cpp_AccountType m =? PublicPoolAccountType) (EAccount ErrInvalidAccountType);;
  ensure (negb (FeeTick <=? cpp_OperatorFee m)) (EAccount ErrInvalidParams);;
  ensure (negb (ShareTick <? cpp_MinOperatorShareRate m)) (EAccount ErrInvalidParams).

Definition MsgUpdatePublicPool_ValidateBasic (m : MsgUpdatePublicPool) : R unit :=
  mustValidAddr (upp_Sender m);;
  ensure ((upp_NewStatus m =? PublicPoolStatusActive) || (upp_NewStatus m =? PublicPoolStatusFrozen))
    (EAccount ErrInvalidPoolUpdate);;
  ensure (negb (ShareTick <? upp_NewMinOperatorShareRate m)) (EAccount ErrInvalidParams).

(** ** Handlers ([msg_server_publicpool.go]) *)

Definition new_pool_info (msg : MsgCreatePublicPool) : PublicPoolInfo :=
  mkPublicPoolInfo PublicPoolStatusActive (cpp_OperatorFee msg) (cpp_MinOperatorShareRate msg)
    (cpp_InitialTotalShares msg) (cpp_InitialTotalShares msg) (replicate (Z.to_nat NbStrategies) 0).

Definition CreatePublicPool (msg : MsgCreatePublicPool) : K Z :=
  lift (MsgCreatePublicPool_ValidateBasic msg);;
  master ← reads (GetAccount (cpp_MasterAccountIndex msg));
  lift (ensure (negb (bool_decide (acc_OwnerAddress master = EmptyString)) &&
                bool_decide (acc_OwnerAddress master = cpp_Sender msg)) (EAccount ErrUnauthorized));;
  lift (ensure (acc_AccountType master =? MasterAccountType) (EAccount ErrInvalidAccountType));;
  let seedUSDC := cpp_InitialTotalShares msg * InitialPoolShareValue in
  let seedCollat := seedUSDC * USDCToCollateralMultiplier in
  lift (ensure (negb (acc_Collateral master <? seedCollat)) (EAccount ErrInsufficientFunds));;
  settleAllPositionFunding (acc_AccountIndex master);;
  pre ← snapshotPreRisk (acc_AccountIndex master);
  pool ← CreatePublicPoolAccount (mkPublicPoolAccountParams master PublicPoolAccountType
           AccountTradingModeSimple seedCollat (new_pool_info msg));
  AddCollateral (acc_AccountIndex master) (- seedCollat);;
  requireRiskOKFrom (acc_AccountIndex master) pre;;
  mret (acc_AccountIndex pool).

Definition assertPoolEmpty (pool : Account) (c : Chain) : R unit :=
  status ← GetHealthStatus (acc_AccountIndex pool) c;
  ensure (status =? HealthHealthy) (EAccount ErrPoolMustBeEmpty);;
  ensure (acc_TotalOrderCount pool =? 0) (EAccount ErrPoolMustBeEmpty);;
  ensure (forallb (fun p => pos_BaseSize p =? 0) (IterateAccountPositions (acc_AccountIndex pool) c))
    (EAccount ErrPoolMustBeEmpty).

Definition resolveSenderMaster (sender : string) (c : Chain) : R Account :=
  match GetMasterAccountByOwner sender c with
  | Err _ => Err (EAccount ErrAccountNotFound)
  | r => r
  end.

(** The insurance fund of genesis has no owner; governance operates it. *)
Definition is_canonical_fund (pool : Account) : bool :=
  (acc_AccountType pool =? InsuranceFundAccountType) &&
  (acc_AccountIndex pool =? InsuranceFundOperatorAccountIdx).

Definition assertPoolOperator (pool : Account) (sender : string) (c : Chain) : R unit :=
  if is_canonical_fund pool then ensure (bool_decide (sender = authority)) (EAccount ErrUnauthorized)
  else
    master ← GetAccount (acc_MasterAccountIndex pool) c;
    ensure (negb (bool_decide (acc_OwnerAddress master = EmptyString)) &&
            bool_decide (acc_OwnerAddress master = sender)) (EAccount ErrUnauthorized).

Definition isPoolOperator (pool : Account) (sender : string) (c : Chain) : R bool :=
  if is_canonical_fund pool then mret (bool_decide (sender = authority))
  else
    master ← GetAccount (acc_MasterAccountIndex pool) c;
    if bool_decide (acc_OwnerAddress master = EmptyString) then mret false
    else mret (bool_decide (acc_OwnerAddress master = sender)).

(** The pool account of a message. *)
Definition loadPool (idx : Z) (c : Chain) : R (Account * PublicPoolInfo) :=
  pool ← GetAccount idx c;
  ensure (IsPoolAccount pool) (EAccount ErrInvalidPoolAccount);;
  info ← of_option (acc_PublicPoolInfo pool) (EAccount ErrInvalidPoolAccount);
  mret (pool, info).

Definition UpdatePublicPool (msg : MsgUpdatePublicPool) : K unit :=
  lift (MsgUpdatePublicPool_ValidateBasic msg);;
  '(pool, info) ← reads (loadPool (upp_PoolAccountIndex msg));
  lift (EnsureActive (acc_PublicPoolInfo pool));;
  reads (assertPoolOperator pool (upp_Sender msg));;
  lift (ensure (negb (pi_OperatorFee info <? upp_NewOperatorFee msg)) (EAccount ErrInvalidPoolUpdate));;
  lift (ensure (CheckMinOperatorShareRate (info <| pi_MinOperatorShareRate := upp_NewMinOperatorShareRate msg |>))
          (EAccount ErrOperatorRateViolation));;
  (if upp_NewStatus msg =? PublicPoolStatusFrozen then reads (assertPoolEmpty pool) else mret tt);;
  UpdatePublicPoolInfo (acc_AccountIndex pool) (fun info =>
    mret (info <| pi_Status := upp_NewStatus msg |> <| pi_OperatorFee := upp_NewOperatorFee msg |>
               <| pi_MinOperatorShareRate := upp_NewMinOperatorShareRate msg |>));;
  if upp_NewStatus msg =? PublicPoolStatusFrozen
  then set_account_store (fun s =>
         if ap_LiquidityPoolIndex (ast_Params s) =? acc_AccountIndex pool
         then s <| ast_Params := ast_Params s <| ap_LiquidityPoolIndex := 0 |> |> else s)
  else mret tt.

Definition mint_info (shareAmount : Z) (isOperator : bool) (info : PublicPoolInfo) : R PublicPoolInfo :=
  let info := info <| pi_TotalShares := pi_TotalShares info + shareAmount |> in
  if isOperator then mret (info <| pi_OperatorShares := pi_OperatorShares info + shareAmount |>)
  else
    ensure (CheckMinOperatorShareRate info) (EAccount ErrOperatorRateViolation);;
    mret info.

Definition MintShares (sender : string) (poolIdx principalAmount : Z) : K Z := fun c =>
  (lift (mustValidAddr sender);;
   lift (ensure (negb (principalAmount =? 0)) (EAccount ErrAmountTooSmall));;
   '(pool, _) ← reads (loadPool poolIdx);
   lift (EnsureActive (acc_PublicPoolInfo pool));;
   master ← reads (resolveSenderMaster sender);
   isOperator ← reads (isPoolOperator pool sender);
   let usdc := principalAmount in
   let collatDelta := usdc * USDCToCollateralMultiplier in
   lift (ensure (negb (acc_Collateral master <? collatDelta)) (EAccount ErrInsufficientFunds));;
   shareAmount ← reads (USDCValueToShares (acc_AccountIndex pool) usdc);
   lift (ensure (0 <? shareAmount) (EAccount ErrInvalidParams));;
   settleAllPositionFunding (acc_AccountIndex master);;
   pre ← snapshotPreRisk (acc_AccountIndex master);
   AddCollateral (acc_AccountIndex master) (- collatDelta);;
   AddCollateral (acc_AccountIndex pool) collatDelta;;
   UpdatePublicPoolInfo (acc_AccountIndex pool) (mint_info shareAmount isOperator);;
   (if isOperator : bool then mret tt
    else UpsertPublicPoolShare (acc_AccountIndex master) (acc_AccountIndex pool) shareAmount usdc (BlockTime c));;
   requireRiskOKFrom (acc_AccountIndex master) pre;;
   mret shareAmount) c.

(** The entry a burn draws on; an operator burns from the pool's own count. *)
Definition burn_entry (depositor : Account) (info : PublicPoolInfo) (poolIdx shareAmount : Z) (isOperator : bool)
  : R (option PublicPoolShare) :=
  if isOperator then
    ensure (negb (pi_OperatorShares info <? shareAmount)) (EAccount ErrInsufficientShares);;
    mret None
  else
    '(_, entry) ← of_option
       (list_find (fun s => sh_PublicPoolIndex s = poolIdx) (acc_PublicPoolShares depositor))
       (EAccount ErrInsufficientShares);
    ensure (negb (sh_ShareAmount entry <? shareAmount)) (EAccount ErrInsufficientShares);;
    mret (Some entry).

Definition cooldown_elapsed (entry : PublicPoolShare) (poolIdx : Z) (c : Chain) : R unit :=
  let params := ast_Params (account c) in
  if (ap_LiquidityPoolIndex params =? poolIdx) && (0 <? ap_LiquidityPoolCooldownPeriodMs params) then
    let earliest := wrapi64 (sh_EntryTimestamp entry + ap_LiquidityPoolCooldownPeriodMs params) in
    ensure (negb (BlockTime c <? earliest)) (EAccount ErrCooldownNotElapsed)
  else mret tt.

(** The shares the operator keeps of a burn at a profit. *)
Definition operator_fee_shares (info : PublicPoolInfo) (entry : PublicPoolShare)
    (poolIdx shareAmount usdcValue : Z) (c : Chain) : R Z :=
  let usdcPaid := Z.quot (sh_PrincipalAmount entry * shareAmount) (sh_ShareAmount entry) in
  if (usdcPaid <? usdcValue) && (0 <? pi_OperatorFee info) then
    tav ← GetTotalAccountValue poolIdx c;
    if 0 <? tav then
      let profit := usdcValue - usdcPaid in
      let num := profit * pi_OperatorFee info * pi_TotalShares info * USDCToCollateralMultiplier in
      let denom := FeeTick * tav in
      if 0 <? denom then
        let fee := Z.quot num denom in
        mret (if shareAmount <? fee then shareAmount else fee)
      else mret 0
    else mret 0
  else mret 0.

Definition burn_info (shareAmount burnedShares operatorFeeShares : Z) (isOperator frozen : bool)
    (info : PublicPoolInfo) : R PublicPoolInfo :=
  let info := info <| pi_TotalShares := pi_TotalShares info - burnedShares |> in
  let info := if isOperator then info <| pi_OperatorShares := pi_OperatorShares info - shareAmount |>
              else info <| pi_OperatorShares := pi_OperatorShares info + operatorFeeShares |> in
  ensure (negb (negb frozen && negb (CheckMinOperatorShareRate info))) (EAccount ErrOperatorRateViolation);;
  mret info.

Definition burnSharesCore (pool depositor : Account) (isOperator : bool) (shareAmount : Z) (skipCooldown : bool)
  : K Z :=
  lift (ensure (IsPoolAccount pool) (EAccount ErrInvalidPoolAccount));;
  info ← lift (of_option (acc_PublicPoolInfo pool) (EAccount ErrInvalidPoolAccount));
  lift (ensure (BurnAllowed info) (EAccount ErrPoolNotActive));;
  let poolIdx := acc_AccountIndex pool in
  available ← reads (AvailableSharesToBurn poolIdx);
  lift (ensure (negb (available <? shareAmount)) (EAccount ErrInsufficientShares));;
  let frozen := pi_Status info =? PublicPoolStatusFrozen in
  entry ← lift (burn_entry depositor info poolIdx shareAmount isOperator);
  (match entry with
   | Some e => if skipCooldown then mret tt else reads (cooldown_elapsed e poolIdx)
   | None => mret tt
   end);;
  usdcValue ← reads (SharesToUSDCValue poolIdx shareAmount);
  lift (ensure (0 <? usdcValue) (EAccount ErrInvalidParams));;
  operatorFeeShares ← (match entry with
   | Some e => reads (operator_fee_shares info e poolIdx shareAmount usdcValue)
   | None => mret 0
   end);
  let burnedShares := shareAmount - operatorFeeShares in
  let deliveredUSDC := Z.quot (usdcValue * burnedShares) shareAmount in
  let deliveredCollat := deliveredUSDC * USDCToCollateralMultiplier in
  UpdatePublicPoolInfo poolIdx (burn_info shareAmount burnedShares operatorFeeShares isOperator frozen);;
  AddCollateral poolIdx (- deliveredCollat);;
  AddCollateral (acc_AccountIndex depositor) deliveredCollat;;
  (match entry with
   | Some _ => ReducePublicPoolShare (acc_AccountIndex depositor) poolIdx shareAmount
   | None => mret tt
   end);;
  lift (to_uint64 deliveredUSDC).

Definition BurnShares (sender : string) (poolIdx shareAmount : Z) : K Z :=
  lift (mustValidAddr sender);;
  lift (ensure (0 <? shareAmount) (EAccount ErrInvalidParams));;
  '(pool, _) ← reads (loadPool poolIdx);
  depositor ← reads (resolveSenderMaster sender);
  isOperator ← reads (isPoolOperator pool sender);
  burnSharesCore pool depositor isOperator shareAmount false.

Definition ForceBurnShares (auth : string) (poolIdx depositorIdx shareAmount : Z) : K Z := fun c =>
  (lift (mustValidAddr auth);;
   lift (ensure (0 <? shareAmount) (EAccount ErrInvalidParams));;
   lift (ensure (bool_decide (auth = authority)) (EAccount ErrInvalidAuthority));;
   '(pool, _) ← reads (loadPool poolIdx);
   lift (ensure (acc_AccountType pool =? InsuranceFundAccountType) (EAccount ErrNotInsuranceFund));;
   lift (ensure (ap_LiquidityPoolIndex (ast_Params (account c)) =? poolIdx) (EAccount ErrInvalidPoolUpdate));;
   depositor ← map_err (fun _ => EAccount ErrInvalidDepositorIndex) (reads (GetAccount depositorIdx));
   burnSharesCore pool depositor false shareAmount true) c.

(** Resets a bucket list of the wrong length, keeping what it can. *)
Definition fix_strategies (l : list Z) : list Z :=
  let n := Z.to_nat NbStrategies in
  if decide (length l = n) then l else take n l ++ replicate (n - length l) 0.

Definition move_strategy (from to amount : Z) (info : PublicPoolInfo) : R PublicPoolInfo :=
  let l := fix_strategies (pi_Strategies info) in
  match l !! Z.to_nat from, l !! Z.to_nat to with
  | Some f, Some t =>
      ensure (negb (f <? amount)) (EAccount ErrInsufficientFunds);;
      mret (info <| pi_Strategies := <[Z.to_nat to := t + amount]> (<[Z.to_nat from := f - amount]> l) |>)
  | _, _ => Panic
  end.

Definition StrategyTransfer (sender : string) (poolIdx from to amount : Z) : K unit :=
  lift (mustValidAddr sender);;
  lift (ensure (negb (from =? to)) (EAccount ErrInvalidParams));;
  lift (ensure (negb ((NbStrategies <=? from) || (NbStrategies <=? to))) (EAccount ErrInvalidStrategyIdx));;
  lift (ensure (0 <? amount) (EAccount ErrInvalidParams));;
  '(pool, _) ← reads (loadPool poolIdx);
  lift (ensure (acc_AccountType pool =? InsuranceFundAccountType) (EAccount ErrNotInsuranceFund));;
  reads (assertPoolOperator pool sender);;
  lift (EnsureNotFrozen (acc_PublicPoolInfo pool));;
  UpdatePublicPoolInfo (acc_AccountIndex pool) (move_strategy from to amount);;
  mret tt.
End handlers.

(** ** What a message does to a pool's net asset value *)

(** An account's positions are determined by its own rows. *)
Lemma account_positions_ext a c c' :
  (forall m, ast_AccountPositions (account c') !! (a, m) = ast_AccountPositions (account c) !! (a, m)) ->
  IterateAccountPositions a c' = IterateAccountPositions a c.
Proof.
  intros Hrows. unfold IterateAccountPositions. f_equal.
  set (P := fun kv : Z * Z * AccountPosition => kv.1.1 = a).
  assert (forall m : gmap (Z * Z) AccountPosition, StronglySorted rowR (filter P (rows m))) as Hs.
  { intros m. generalize (rows_sorted m). induction 1 as [|x l Hl IH Hall]; [constructor|].
    rewrite filter_cons. case_decide; [|done]. constructor; [done|].
    rewrite Forall_forall in *. intros y [_ Hy]%list_elem_of_filter. auto. }
  assert (forall (m : gmap (Z * Z) AccountPosition) kv, kv ∈ filter P (rows m) <-> kv.1.1 = a /\ m !! kv.1 = Some kv.2) as Hin.
  { intros m [k v]. rewrite list_elem_of_filter, elem_of_rows. done. }
  apply (StronglySorted_unique_strong rowR); [|done|done|].
  - intros [k1 v1] [k2 v2] [H1 H2]%Hin [H3 H4]%Hin H5 H6. cbn in *. destruct k1 as [a1 m1], k2 as [a2 m2]. cbn in *.
    assert ((a1, m1) = (a2, m2)) as E by (eapply key_le_anti; [exact H5|exact H6]). simplify_eq.
    rewrite Hrows in H2. congruence.
  - apply NoDup_Permutation.
    + apply NoDup_filter. rewrite rows_perm. apply NoDup_map_to_list.
    + apply NoDup_filter. rewrite rows_perm. apply NoDup_map_to_list.
    + intros [[a1 m1] v]. rewrite !Hin. cbn. split; intros [-> H]; (split; [done|]); [by rewrite <- Hrows|by rewrite Hrows].
Qed.

(** The owner index leads to master accounts only. *)
Definition owners_ok (c : Chain) : Prop :=
  map_Forall (fun _ i => match ast_Accounts (account c) !! i with
                         | Some a => acc_AccountType a = MasterAccountType
                         | None => True
                         end) (ast_OwnerToIndex (account c)).
#[global] Instance owners_ok_dec c : Decision (owners_ok c).
Proof. unfold owners_ok. apply map_Forall_dec. intros o i. destruct (_ !! i); apply _. Defined.

(** The part of the chain the value of account [p] depends on, apart from its
    collateral, is as before. *)
Record around (p : Z) (c c' : Chain) : Prop := {
  ar_rows m : ast_AccountPositions (account c') !! (p, m) = ast_AccountPositions (account c) !! (p, m);
  ar_market : market c' = market c;
  ar_time : BlockTime c' = BlockTime c;
  ar_owners : ast_OwnerToIndex (account c') = ast_OwnerToIndex (account c);
  ar_types i : acc_AccountType <$> ast_Accounts (account c') !! i = acc_AccountType <$> ast_Accounts (account c) !! i;
  ar_keyed : keyed c'
}.

Definition pool_view (p : Z) (c : Chain) : option (Z * option PublicPoolInfo) :=
  (fun a => (acc_Collateral a, acc_PublicPoolInfo a)) <$> ast_Accounts (account c) !! p.

Lemma around_trans p c c1 c2 : around p c c1 -> around p c1 c2 -> around p c c2.
Proof.
  intros [A1 A2 A3 A4 A5 A6] [B1 B2 B3 B4 B5 B6]. split; [|congruence..| |done]; intros m; [by rewrite B1|by rewrite B5].
Qed.

Lemma around_refl p c : keyed c -> around p c c.
Proof. by split. Qed.

Lemma with_account_around p i a b c :
  GetAccount i c = Ok a -> keyed c -> acc_AccountIndex b = acc_AccountIndex a -> acc_AccountType b = acc_AccountType a ->
  around p c (with_account b c).
Proof.
  intros Ha Hk Hi Ht. pose proof Ha as Hl. apply of_option_ok in Hl. pose proof (proj1 Hk _ _ Hl) as Hai. cbn in Hai.
  split; [done..| |by auto]. intros j. unfold with_account. cbn. rewrite Hi, Hai.
  destruct (decide (i = j)) as [->|]; [rewrite lookup_insert_eq, Hl; cbn; by rewrite Ht|by rewrite lookup_insert_ne].
Qed.

Lemma value_around p c c' k i k' i' tav :
  around p c c' -> pool_view p c = Some (k, i) -> pool_view p c' = Some (k', i') ->
  GetTotalAccountValue p c = Ok tav -> GetTotalAccountValue p c' = Ok (tav + (k' - k)).
Proof.
  intros [H1 H2 H3 _ _ _] Hv Hv' Ht. unfold pool_view in *.
  destruct (ast_Accounts (account c) !! p) as [a|] eqn:Ha; [|done].
  destruct (ast_Accounts (account c') !! p) as [a'|] eqn:Ha'; [|done]. cbn in *. simplify_eq.
  unfold GetTotalAccountValue in *. inv_ok. rename H into Hrp.
  apply ComputeCrossRisk_spec in Hrp as (b & Hb & Hp & Hrp). unfold GetAccount in Hb. rewrite Ha in Hb. injection Hb as <-.
  apply res_bind_ok. eexists. split.
  - apply ComputeCrossRisk_spec. exists a'. unfold GetAccount. rewrite Ha'. split; [done|].
    rewrite (account_positions_ext p c c' H1).
    assert (forall m, GetMarkPriceAndDetails m c' = GetMarkPriceAndDetails m c) as Hm.
    { intros m. unfold GetMarkPriceAndDetails, GetMarketDetails, gateMarkPrice. by rewrite H2, H3. }
    split; [|reflexivity]. apply (Forall_impl _ _ _ Hp). intros pos. unfold priced. by setoid_rewrite Hm.
  - cbv zeta in Hrp. cbn. f_equal. subst x. cbn.
    assert (forall f, contrib f c' = contrib f c) as ->; [|cbn in Ht; lia].
    intros f. unfold contrib, GetMarkPriceAndDetails, GetMarketDetails, gateMarkPrice. by rewrite H2, H3.
Qed.

Lemma owners_ok_around p c c' : around p c c' -> owners_ok c -> owners_ok c'.
Proof.
  intros [_ _ _ Ho Ht _] H o i Hi. rewrite Ho in Hi. specialize (Ht i). specialize (H o i Hi). cbn in H.
  destruct (ast_Accounts (account c') !! i) as [a|], (ast_Accounts (account c) !! i) as [b|]; cbn in *; congruence.
Qed.

(** Every operation of a handler, seen from one account. *)
Lemma AddCollateral_around p i d c u c' :
  AddCollateral i d c = (Ok u, c') -> keyed c ->
  around p c c' /\ pool_view p c' = (if decide (i = p) then (fun v => (v.1 + d, v.2)) <$> pool_view p c else pool_view p c).
Proof.
  intros (a & Ha & ->)%AddCollateral_ok Hk. pose proof Ha as Hi. apply of_option_ok in Hi.
  pose proof (proj1 Hk _ _ Hi) as Hai. cbn in Hai. split; [by apply (with_account_around _ i a)|].
  unfold pool_view, with_account. cbn. rewrite Hai. case_decide as E; subst.
  - rewrite lookup_insert_eq, Hi. done.
  - by rewrite lookup_insert_ne.
Qed.

Lemma UpdatePublicPoolInfo_around p i mut c a c' :
  UpdatePublicPoolInfo i mut c = (Ok a, c') -> keyed c ->
  around p c c' /\ exists k info info', pool_view i c = Some (k, Some info) /\ mut info = Ok info' /\
    pool_view i c' = Some (k, Some info') /\ (i <> p -> pool_view p c' = pool_view p c).
Proof.
  unfold UpdatePublicPoolInfo. intros H Hk. inv_ok. apply updateAccount_ok in H3 as ->. subst.
  pose proof H0 as Hi. apply of_option_ok in Hi. pose proof (proj1 Hk _ _ Hi) as Hai. cbn in Hai.
  split; [by eapply (with_account_around _ i)|]. unfold pool_view, with_account. cbn. rewrite Hai, Hi, lookup_insert_eq. cbn.
  rewrite H1. eexists _, _, _. split_and!; [done|done|done|]. intros Hne. by rewrite lookup_insert_ne.
Qed.

(** A rewrite of an account that only touches its share list. *)
Lemma shares_around p i a l c :
  GetAccount i c = Ok a -> keyed c ->
  around p c (with_account (a <| acc_PublicPoolShares := l |>) c) /\
  pool_view p (with_account (a <| acc_PublicPoolShares := l |>) c) = pool_view p c.
Proof.
  intros Ha Hk. pose proof Ha as Hi. apply of_option_ok in Hi. pose proof (proj1 Hk _ _ Hi) as Hai. cbn in Hai.
  split; [by apply (with_account_around _ i a)|]. unfold pool_view, with_account. cbn. rewrite Hai.
  destruct (decide (i = p)) as [->|]; [by rewrite lookup_insert_eq, Hi|by rewrite lookup_insert_ne].
Qed.

Lemma Upsert_around p i q s pr t c u c' :
  UpsertPublicPoolShare i q s pr t c = (Ok u, c') -> keyed c -> around p c c' /\ pool_view p c' = pool_view p c.
Proof.
  unfold UpsertPublicPoolShare. intros H Hk. inv_ok. destruct (list_find _ _) as [[j e]|]; inv_ok;
    apply updateAccount_ok in H as ->; by eapply shares_around.
Qed.

Lemma Reduce_around p i q s c u c' :
  ReducePublicPoolShare i q s c = (Ok u, c') -> keyed c -> around p c c' /\ pool_view p c' = pool_view p c.
Proof.
  unfold ReducePublicPoolShare. intros H Hk. inv_ok. destruct x1 as [j e]. inv_ok.
  apply updateAccount_ok in H as ->. by eapply shares_around.
Qed.

Lemma settleAll_around p i c u c' :
  settleAllPositionFunding i c = (Ok u, c') -> keyed c -> i <> p ->
  around p c c' /\ pool_view p c' = pool_view p c.
Proof.
  unfold settleAllPositionFunding. intros H Hk Hne.
  eapply (forM_rel keyed (fun c c' => around p c c' /\ ast_Accounts (account c') = ast_Accounts (account c))) in H.
  - destruct H as [H1 H2]. split; [done|]. unfold pool_view. by rewrite H2.
  - intros s Hs. by split; [split|].
  - intros s1 s2 s3 [H1 H2] [H3 H4]. split; [by eapply around_trans|congruence].
  - intros s s' _ [[_ _ _ _ _ Hs] _]. done.
  - intros pos s v s' Hs Hks. case_match; [inv_ok; by split; [split|]|].
    apply SettlePositionFunding_inv in Hs as (d & _ & ->); [|done].
    destruct (get_position_key s i (pos_MarketIndex pos) Hks) as [Ha Hm].
    split; [|done]. split; [|done..|by auto]. intros m. unfold with_position. cbn. rewrite Ha, Hm.
    apply lookup_insert_ne. congruence.
  - done.
Qed.

Lemma resolved_not_pool sender p c m pool :
  owners_ok c -> keyed c -> resolveSenderMaster sender c = Ok m -> GetAccount p c = Ok pool -> IsPoolAccount pool = true ->
  acc_AccountIndex m <> p /\ GetAccount (acc_AccountIndex m) c = Ok m.
Proof.
  intros Ho Hk Hm Hp Hpool. unfold resolveSenderMaster in Hm.
  destruct (GetMasterAccountByOwner sender c) as [m'|e| |] eqn:Hg; simplify_eq.
  unfold GetMasterAccountByOwner in Hg. inv_ok. pose proof Hg as Hi. apply of_option_ok in Hi.
  rewrite (proj1 Hk _ _ Hi). split; [|done]. intros ->.
  rewrite Hp in Hg. simplify_eq. pose proof (Ho _ _ H) as Ht. cbn in Ht. rewrite Hi in Ht. unfold IsPoolAccount, IsPoolType in Hpool.
  case_match; [|done]. by rewrite Ht in Hpool.
Qed.

Lemma pool_info_view p c info :
  pool_info p c = Ok info <-> exists k, pool_view p c = Some (k, Some info).
Proof.
  unfold pool_info, GetAccount, pool_view. destruct (_ !! p) as [a|]; cbn; [|naive_solver].
  destruct (acc_PublicPoolInfo a); cbn; naive_solver.
Qed.

Section pool_value.
Context `{Env}.

(** The pool a handler loads is at the index it was asked for. *)
Lemma loadPool_ok p c pool info :
  loadPool p c = Ok (pool, info) -> keyed c ->
  GetAccount p c = Ok pool /\ IsPoolAccount pool = true /\ acc_AccountIndex pool = p /\
  pool_view p c = Some (acc_Collateral pool, Some info) /\ acc_PublicPoolInfo pool = Some info.
Proof.
  unfold loadPool. intros Hl Hk. inv_ok. simplify_eq. pose proof H0 as Hi. apply of_option_ok in Hi.
  split_and!; [done|done|exact (proj1 Hk _ _ Hi)| |done]. unfold pool_view. rewrite Hi. cbn. congruence.
Qed.

Lemma MintShares_ok sender p x c shares c' :
  MintShares sender p x c = (Ok shares, c') -> keyed c -> owners_ok c ->
  exists k info info', pool_view p c = Some (k, Some info) /\
    USDCValueToShares p x c = Ok shares /\ 0 < shares /\ around p c c' /\
    pool_view p c' = Some (k + x * USDCToCollateralMultiplier, Some info') /\
    pi_TotalShares info' = pi_TotalShares info + shares /\ pi_OperatorFee info' = pi_OperatorFee info.
Proof.
  intros Hr Hk Ho. unfold MintShares in Hr. inv_ok. destruct x4 as [pool info]. inv_ok.
  apply loadPool_ok in H2 as (Hg & Hpool & Hidx & Hv & _); [|done]. subst p.
  match goal with Hm : resolveSenderMaster _ _ = Ok _ |- _ =>
    destruct (resolved_not_pool _ _ _ _ _ Ho Hk Hm Hg Hpool) as [Hne _] end.
  apply snapshotPreRisk_ok in H10 as [_ ->].
  match goal with Hq : requireRiskOKFrom _ _ _ = _ |- _ => apply requireRiskOK_ok in Hq as -> end.
  apply (settleAll_around (acc_AccountIndex pool)) in H9 as [A1 V1]; [|done..].
  apply (AddCollateral_around (acc_AccountIndex pool)) in H11 as [A2 V2]; [|apply A1]. rewrite decide_False in V2 by done.
  apply (AddCollateral_around (acc_AccountIndex pool)) in H12 as [A3 V3]; [|apply A2]. rewrite decide_True in V3 by done.
  apply (UpdatePublicPoolInfo_around (acc_AccountIndex pool)) in H13 as [A4 (k & i1 & i2 & W1 & W2 & W3 & _)]; [|apply A3].
  rewrite V3, V2, V1, Hv in W1. cbn in W1. simplify_eq.
  assert (pi_TotalShares i2 = pi_TotalShares i1 + shares) as Htot.
  { unfold mint_info in W2. destruct x6; inv_ok; by subst. }
  assert (pi_OperatorFee i2 = pi_OperatorFee i1) as Hof.
  { unfold mint_info in W2. destruct x6; inv_ok; by subst. }
  assert (around (acc_AccountIndex pool) x23 x25 /\ pool_view (acc_AccountIndex pool) x25 = pool_view (acc_AccountIndex pool) x23) as [A5 V5].
  { destruct x6; inv_ok; [|eapply Upsert_around; [done|apply A4]]. split; [|done]. apply around_refl, A4. }
  inv_ok. subst. breflect. exists (acc_Collateral pool), i1, i2. split_and!; try done.
  - eauto using around_trans.
  - by rewrite V5.
Qed.

(** Truncated division never pays more than the exact quotient. *)
Lemma quot_le a b : 0 <= a -> 0 < b -> Z.quot a b * b <= a.
Proof. intros Ha Hb. rewrite Z.quot_div_nonneg by lia. rewrite Z.mul_comm. by apply Z.mul_div_le. Qed.

Lemma shares_priced p x info tav c shares :
  USDCValueToShares p x c = Ok shares -> pool_info p c = Ok info -> GetTotalAccountValue p c = Ok tav ->
  0 < pi_TotalShares info -> 0 < shares ->
  0 < x /\ 0 < tav /\ shares * tav <= x * USDCToCollateralMultiplier * pi_TotalShares info.
Proof.
  unfold USDCValueToShares. intros Hs Hi Ht Htot Hpos. case_match; [inv_ok; lia|]. breflect. inv_ok.
  rewrite Hi in H1. simplify_eq. rewrite (proj2 (Z.eqb_neq _ _)) in Hs by lia. rewrite Ht in Hs. cbn in Hs. inv_ok. breflect.
  subst shares. split_and!; [done..|].
  pose proof (quot_le (x * pi_TotalShares x0 * USDCToCollateralMultiplier) tav) as Hq.
  unfold USDCToCollateralMultiplier in *. nia.
Qed.

(** C11: minting shares never dilutes the holders: the value the pool is
    credited with is the whole principal, its share count grows by exactly
    the shares issued, and the value per share does not fall. *)
Theorem mint_never_dilutes sender p x c shares c' info tav :
  MintShares sender p x c = (Ok shares, c') -> keyed c -> owners_ok c ->
  pool_info p c = Ok info -> 0 < pi_TotalShares info -> GetTotalAccountValue p c = Ok tav ->
  exists info' tav', pool_info p c' = Ok info' /\ GetTotalAccountValue p c' = Ok tav' /\
    0 < shares /\ pi_TotalShares info' = pi_TotalShares info + shares /\
    tav' = tav + x * USDCToCollateralMultiplier /\
    tav * pi_TotalShares info' <= tav' * pi_TotalShares info.
Proof.
  intros Hr Hk Ho Hi Htot Ht.
  destruct (MintShares_ok _ _ _ _ _ _ Hr Hk Ho) as (k & i & i' & V & Hs & Hpos & A & V' & Hn & _).
  assert (i = info) as ->. { apply pool_info_view in Hi as [k0 Hi]. rewrite V in Hi. by simplify_eq. }
  destruct (shares_priced _ _ _ _ _ _ Hs Hi Ht Htot Hpos) as (H1 & H2 & H3).
  exists i', (tav + x * USDCToCollateralMultiplier). split_and!; [| |done|done|done|].
  - apply pool_info_view. eauto.
  - rewrite (value_around p c c' _ _ _ _ _ A V V' Ht). f_equal. lia.
  - rewrite Hn. nia.
Qed.

Lemma burn_fee_bounds info e p s v c fee :
  operator_fee_shares info e p s v c = Ok fee -> 0 < s -> 0 <= pi_OperatorFee info -> 0 <= pi_TotalShares info ->
  0 <= fee <= s.
Proof.
  unfold operator_fee_shares. intros Hr Hs Hf Ht. cbv zeta in Hr.
  destruct (_ && _) eqn:E; [|inv_ok; lia]. breflect. inv_ok. destruct (0 <? x) eqn:Ex; [|inv_ok; lia].
  destruct (0 <? FeeTick * x) eqn:Ed; [|inv_ok; lia]. breflect. inv_ok. subst fee.
  match goal with |- context [Z.quot ?a ?b] => assert (0 <= Z.quot a b) end.
  { apply Z.quot_pos; [|lia]. unfold USDCToCollateralMultiplier. repeat apply Z.mul_nonneg_nonneg; lia. }
  case_match; breflect; lia.
Qed.

Lemma shares_redeemed p s info tav c v :
  SharesToUSDCValue p s c = Ok v -> pool_info p c = Ok info -> GetTotalAccountValue p c = Ok tav ->
  0 < pi_TotalShares info -> 0 < s -> 0 < v ->
  0 < tav /\ v * USDCToCollateralMultiplier * pi_TotalShares info <= s * tav.
Proof.
  unfold SharesToUSDCValue. intros Hv Hi Ht Htot Hs Hpos. case_match; breflect; [lia|]. inv_ok.
  rewrite Hi in H1. simplify_eq. rewrite (proj2 (Z.eqb_neq _ _)) in Hv by lia. rewrite Ht in Hv. cbn in Hv.
  case_match; inv_ok; [lia|]. breflect. rewrite (proj2 (Z.eqb_neq _ _)) in Hv by (unfold USDCToCollateralMultiplier; lia).
  inv_ok. subst v. split; [done|].
  pose proof (quot_le (s * tav) (pi_TotalShares x * USDCToCollateralMultiplier)) as Hq.
  unfold USDCToCollateralMultiplier in *. nia.
Qed.

Lemma delivered_bound v burned s m t tav :
  0 <= v -> 0 <= burned -> 0 < s -> 0 <= m * t -> v * m * t <= s * tav ->
  Z.quot (v * burned) s * m * t <= burned * tav.
Proof.
  intros Hv Hb Hs Hmt Hle. pose proof (quot_le (v * burned) s ltac:(nia) Hs) as Hq. set (d := Z.quot _ _) in *.
  apply (Z.mul_le_mono_pos_r _ _ s Hs).
  assert ((d * s) * (m * t) <= (v * burned) * (m * t)) by (apply Z.mul_le_mono_nonneg_r; lia).
  assert (burned * (v * m * t) <= burned * (s * tav)) by (apply Z.mul_le_mono_nonneg_l; lia). lia.
Qed.

Lemma burnSharesCore_ok pool depositor op s skip info tav c usdc c' :
  burnSharesCore pool depositor op s skip c = (Ok usdc, c') -> keyed c ->
  GetAccount (acc_AccountIndex pool) c = Ok pool -> acc_AccountIndex depositor <> acc_AccountIndex pool ->
  acc_PublicPoolInfo pool = Some info -> 0 < pi_TotalShares info -> 0 <= pi_OperatorFee info -> 0 < s ->
  let p := acc_AccountIndex pool in
  GetTotalAccountValue p c = Ok tav ->
  exists burned info', 0 <= burned <= s /\ around p c c' /\
    pool_view p c' = Some (acc_Collateral pool - usdc * USDCToCollateralMultiplier, Some info') /\
    pi_TotalShares info' = pi_TotalShares info - burned /\
    usdc * USDCToCollateralMultiplier * pi_TotalShares info <= burned * tav.
Proof.
  intros Hr Hk Hg Hne Hinfo Htot Hfee Hs p Ht. unfold burnSharesCore in Hr. inv_ok.
  rewrite Hinfo in H1. simplify_eq.
  assert (x12 = c) as ->. { destruct x9 as [e|]; [destruct skip|]; by inv_ok. }
  assert (x18 = c /\ 0 <= x17 <= s) as [-> Hx].
  { destruct x9 as [e|]; inv_ok; [|subst; split; [done|lia]]. split; [done|]. eapply burn_fee_bounds; eauto; lia. }
  assert (pool_view p c = Some (acc_Collateral pool, Some x1)) as Hv.
  { unfold pool_view, p. apply of_option_ok in Hg. rewrite Hg. cbn. by rewrite Hinfo. }
  breflect. destruct (shares_redeemed p s x1 tav c x13) as [Hpos Hred]; [done| |done..|].
  { apply pool_info_view. eauto. }
  assert (usdc = Z.quot (x13 * (s - x17)) s) as Husdc.
  { unfold to_uint64 in Hr. case_match; inv_ok; done. }
  rewrite <- Husdc in *.
  apply (UpdatePublicPoolInfo_around p) in H10 as [A1 (k & i1 & i2 & W1 & W2 & W3 & _)]; [|done].
  fold p in W1, W3. rewrite Hv in W1. simplify_eq.
  apply (AddCollateral_around p) in H11 as [A2 V2]; [|apply A1]. rewrite decide_True in V2 by done.
  apply (AddCollateral_around p) in H12 as [A3 V3]; [|apply A2]. rewrite decide_False in V3 by done.
  assert (around p x24 x26 /\ pool_view p x26 = pool_view p x24) as [A4 V4].
  { destruct x9; [eapply Reduce_around; [done|apply A3]|]. inv_ok. split; [|done]. apply around_refl, A3. }
  exists (s - x17), i2. split_and!; [lia|lia|eauto using around_trans| | |].
  - by rewrite V4, V3, V2, W3.
  - unfold burn_info in W2. inv_ok. subst i2. by destruct op.
  - apply delivered_bound; unfold USDCToCollateralMultiplier in *; lia.
Qed.

Lemma BurnShares_ok sender p s c usdc c' info tav :
  BurnShares sender p s c = (Ok usdc, c') -> keyed c -> owners_ok c ->
  pool_info p c = Ok info -> 0 < pi_TotalShares info -> 0 <= pi_OperatorFee info ->
  GetTotalAccountValue p c = Ok tav ->
  exists k burned info', 0 <= burned <= s /\ around p c c' /\ pool_view p c = Some (k, Some info) /\
    pool_view p c' = Some (k - usdc * USDCToCollateralMultiplier, Some info') /\
    pi_TotalShares info' = pi_TotalShares info - burned /\
    usdc * USDCToCollateralMultiplier * pi_TotalShares info <= burned * tav.
Proof.
  intros Hr Hk Ho Hi Htot Hfee Ht. unfold BurnShares in Hr. inv_ok. destruct x3 as [pool info0]. inv_ok.
  apply loadPool_ok in H2 as (Hg & Hpool & Hidx & Hv & Hinf); [|done].
  assert (info0 = info) as ->. { apply pool_info_view in Hi as [k0 Hi]. rewrite Hv in Hi. by simplify_eq. }
  match goal with Hm : resolveSenderMaster _ _ = Ok _ |- _ =>
    destruct (resolved_not_pool _ _ _ _ _ Ho Hk Hm Hg Hpool) as [Hne _] end.
  subst p. breflect.
  destruct (burnSharesCore_ok _ _ _ _ _ info tav _ _ _ Hr Hk Hg Hne Hinf Htot Hfee ltac:(lia) Ht)
    as (b & i' & B1 & A & V & Hn & Hle).
  eauto 12.
Qed.

(** C12: burning shares never dilutes the remaining holders. In a pool with
    shares, a non-negative operator fee and a computable value, a successful
    burn takes exactly the reported amount out of the pool's value, its share
    count falls by the burnt shares (at most those asked for: the ones the
    operator keeps as a fee stay), and the value per share does not fall. *)
Theorem burn_never_dilutes sender p s c usdc c' info tav :
  BurnShares sender p s c = (Ok usdc, c') -> keyed c -> owners_ok c ->
  pool_info p c = Ok info -> 0 < pi_TotalShares info -> 0 <= pi_OperatorFee info ->
  GetTotalAccountValue p c = Ok tav ->
  exists burned info' tav', 0 <= burned <= s /\ pool_info p c' = Ok info' /\ GetTotalAccountValue p c' = Ok tav' /\
    pi_TotalShares info' = pi_TotalShares info - burned /\
    tav' = tav - usdc * USDCToCollateralMultiplier /\
    tav * pi_TotalShares info' <= tav' * pi_TotalShares info.
Proof.
  intros Hr Hk Ho Hi Htot Hfee Ht.
  destruct (BurnShares_ok _ _ _ _ _ _ _ _ Hr Hk Ho Hi Htot Hfee Ht) as (k & b & i' & H1 & A & V & V' & Hn & Hle).
  exists b, i', (tav - usdc * USDCToCollateralMultiplier). split_and!; [lia|lia| | |done|done|].
  - apply pool_info_view. eauto.
  - rewrite (value_around p c c' _ _ _ _ _ A V V' Ht). f_equal. lia.
  - rewrite Hn. nia.
Qed.

(** C13: minting and burning at once is never profitable in a pool that
    already has shares: with a positive share count, a non-negative operator
    fee and a value that can be computed, the shares a deposit buys redeem
    for at most the deposit, whatever the pool's value and rounding. A pool
    without shares is the exception: its first deposit is priced at the
    initial share value and owns whatever the pool had earned before, as
    [first_mint_takes_pool] shows. *)
Theorem mint_burn_no_profit sender p x c shares c1 usdc c2 info tav :
  MintShares sender p x c = (Ok shares, c1) -> BurnShares sender p shares c1 = (Ok usdc, c2) ->
  keyed c -> owners_ok c ->
  pool_info p c = Ok info -> 0 < pi_TotalShares info -> 0 <= pi_OperatorFee info ->
  GetTotalAccountValue p c = Ok tav -> usdc <= x.
Proof.
  intros Hm Hb Hk Ho Hi Htot Hfee Ht.
  destruct (MintShares_ok _ _ _ _ _ _ Hm Hk Ho) as (k & i & i' & V & Hs & Hpos & A & V' & Hn & Hop).
  assert (i = info) as ->. { apply pool_info_view in Hi as [k0 Hi]. rewrite V in Hi. by simplify_eq. }
  destruct (shares_priced _ _ _ _ _ _ Hs Hi Ht Htot Hpos) as (H1 & H2 & H3).
  pose proof (value_around p c c1 _ _ _ _ _ A V V' Ht) as Ht1.
  assert (pool_info p c1 = Ok i') as Hi1 by (apply pool_info_view; eauto).
  destruct (BurnShares_ok _ _ _ _ _ _ _ _ Hb (ar_keyed _ _ _ A) (owners_ok_around _ _ _ A Ho) Hi1 ltac:(lia) ltac:(lia) Ht1)
    as (k2 & b & i2 & B1 & _ & _ & _ & _ & Hle).
  rewrite Hn in Hle. unfold USDCToCollateralMultiplier in *. nia.
Qed.
End pool_value.

(** ** Pool messages move collateral between accounts only *)

Section pool_effects.
Context `{Env}.

Lemma UpdatePublicPoolInfo_shifts i mut c a c' :
  UpdatePublicPoolInfo i mut c = (Ok a, c') -> keyed c -> alloc_ok c -> shifts 0 none c c'.
Proof.
  unfold UpdatePublicPoolInfo. intros Hr Hk Hal. inv_ok. apply updateAccount_ok in H3 as ->. subst.
  eapply with_account_shifts; [done|done|exact H0|done|]. cbn. lia.
Qed.

Lemma Upsert_shifts i q s pr t c u c' :
  UpsertPublicPoolShare i q s pr t c = (Ok u, c') -> keyed c -> alloc_ok c -> shifts 0 none c c'.
Proof.
  unfold UpsertPublicPoolShare. intros Hr Hk Hal. inv_ok. destruct (list_find _ _) as [[j e]|]; inv_ok;
    apply updateAccount_ok in Hr as ->; (eapply with_account_shifts; [done|done|eassumption|done|cbn; lia]).
Qed.

Lemma Reduce_shifts i q s c u c' :
  ReducePublicPoolShare i q s c = (Ok u, c') -> keyed c -> alloc_ok c -> shifts 0 none c c'.
Proof.
  unfold ReducePublicPoolShare. intros Hr Hk Hal. inv_ok. destruct x1 as [j e]. inv_ok.
  apply updateAccount_ok in Hr as ->. eapply with_account_shifts; [done|done|eassumption|done|cbn; lia].
Qed.

(** Chains the shifts of a handler's calls and adds them up. *)
Ltac chain_pool :=
  repeat match goal with
  | Hr : requireRiskOKFrom _ _ _ = (Ok _, _) |- _ => apply requireRiskOK_ok in Hr as ->
  | Hr : snapshotPreRisk _ _ = (Ok _, _) |- _ => apply snapshotPreRisk_ok in Hr as [_ ->]
  | Hk : keyed ?c, Ha : alloc_ok ?c, Hr : settleAllPositionFunding _ ?c = (Ok _, _) |- _ =>
      apply settleAll_shifts in Hr; [|assumption..]; destruct Hr as [? ? ? ? ?]
  | Hk : keyed ?c, Ha : alloc_ok ?c, Hr : AddCollateral _ _ ?c = (Ok _, _) |- _ =>
      apply AddCollateral_shifts in Hr; [|assumption..]; destruct Hr as [? ? ? ? ?]
  | Hk : keyed ?c, Ha : alloc_ok ?c, Hr : UpdatePublicPoolInfo _ _ ?c = (Ok _, _) |- _ =>
      apply UpdatePublicPoolInfo_shifts in Hr; [|assumption..]; destruct Hr as [? ? ? ? ?]
  | Hk : keyed ?c, Ha : alloc_ok ?c, Hr : UpsertPublicPoolShare _ _ _ _ _ ?c = (Ok _, _) |- _ =>
      apply Upsert_shifts in Hr; [|assumption..]; destruct Hr as [? ? ? ? ?]
  | Hk : keyed ?c, Ha : alloc_ok ?c, Hr : ReducePublicPoolShare _ _ _ ?c = (Ok _, _) |- _ =>
      apply Reduce_shifts in Hr; [|assumption..]; destruct Hr as [? ? ? ? ?]
  end.

Ltac add_pool :=
  split; [lia| |assumption|assumption|congruence];
  intros y; repeat match goal with Hb : forall y, total_balance y _ = _ |- _ => rewrite Hb; clear Hb end;
  unfold none; lia.

Lemma MintShares_shifts sender p x c r c' :
  MintShares sender p x c = (Ok r, c') -> keyed c -> alloc_ok c -> shifts 0 none c c'.
Proof.
  unfold MintShares. intros Hr Hk Hal. inv_ok. destruct x4 as [pool info]. inv_ok. chain_pool.
  match goal with Hu : (if ?b : bool then _ else _) _ = (Ok _, _) |- _ => destruct b; inv_ok end; chain_pool; add_pool.
Qed.

Lemma burnSharesCore_shifts pool dep op s skip c r c' :
  burnSharesCore pool dep op s skip c = (Ok r, c') -> keyed c -> alloc_ok c -> shifts 0 none c c'.
Proof.
  unfold burnSharesCore. intros Hr Hk Hal. inv_ok.
  assert (x12 = c) as -> by (destruct x9 as [e|]; [destruct skip|]; by inv_ok).
  assert (x18 = c) as -> by (destruct x9 as [e|]; by inv_ok). chain_pool.
  destruct x9; inv_ok; chain_pool; add_pool.
Qed.

Lemma BurnShares_shifts sender p s c r c' :
  BurnShares sender p s c = (Ok r, c') -> keyed c -> alloc_ok c -> shifts 0 none c c'.
Proof.
  unfold BurnShares. intros Hr Hk Hal. inv_ok. destruct x3 as [pool info]. inv_ok. by eapply burnSharesCore_shifts.
Qed.

Lemma ForceBurnShares_shifts auth p d s c r c' :
  ForceBurnShares auth p d s c = (Ok r, c') -> keyed c -> alloc_ok c -> shifts 0 none c c'.
Proof.
  unfold ForceBurnShares. intros Hr Hk Hal. inv_ok. destruct x5 as [pool info]. inv_ok. by eapply burnSharesCore_shifts.
Qed.

Lemma StrategyTransfer_shifts sender p f t x c u c' :
  StrategyTransfer sender p f t x c = (Ok u, c') -> keyed c -> alloc_ok c -> shifts 0 none c c'.
Proof.
  unfold StrategyTransfer. intros Hr Hk Hal. inv_ok.
  match goal with q : (Account * PublicPoolInfo)%type |- _ => destruct q as [pool info] end. inv_ok. chain_pool. add_pool.
Qed.

Lemma UpdatePublicPool_shifts msg c u c' :
  UpdatePublicPool msg c = (Ok u, c') -> keyed c -> alloc_ok c -> shifts 0 none c c'.
Proof.
  unfold UpdatePublicPool. intros Hr Hk Hal. inv_ok. destruct x1 as [pool info]. inv_ok.
  match goal with Hf : (if _ then reads _ else _) c = (Ok _, ?d) |- _ => assert (d = c) as -> by (case_match; by inv_ok) end.
  chain_pool.
  case_match; [|inv_ok; by add_pool].
  match type of Hr with set_account_store _ ?d = _ => assert (shifts 0 none c d) as [P1 P2 P3 P4 P5] by add_pool end.
  unfold set_account_store in Hr. inv_ok. subst. case_match; split; done || (exact P4).
Qed.

Lemma CreatePublicPoolAccount_shifts pp c a c' :
  CreatePublicPoolAccount pp c = (Ok a, c') -> keyed c -> alloc_ok c -> shifts (pp_SeedCollateral pp) none c c'.
Proof.
  unfold CreatePublicPoolAccount. intros Hr Hk Hal. apply M_bind_ok in Hr as (i & c1 & Hi & Hr).
  apply next_sub_ok in Hi as [Hmax Hi]; [|done]. inv_ok. subst.
  repeat match goal with q : unit |- _ => destruct q end.
  eapply sub_created in H0 as (_ & Hs & _); [exact Hs|done..].
Qed.

Lemma CreatePublicPool_shifts msg c r c' :
  CreatePublicPool msg c = (Ok r, c') -> keyed c -> alloc_ok c -> shifts 0 none c c'.
Proof.
  unfold CreatePublicPool. intros Hr Hk Hal. inv_ok. chain_pool.
  match goal with Hc : CreatePublicPoolAccount _ _ = _ |- _ =>
    apply CreatePublicPoolAccount_shifts in Hc; [|assumption..]; destruct Hc as [? ? ? ? ?] end.
  cbn [pp_SeedCollateral] in *. chain_pool. add_pool.
Qed.
End pool_effects.

(** ** Concrete runs *)

(** Pool [pool_idx] of operator 3 (bob) with 1000 shares worth twice their
    seed value; account 2 (alice) has the collateral to buy in. *)
Definition pool_idx : Z := MinSubAccountIndex.
Definition pool_demo_info : PublicPoolInfo :=
  mkPublicPoolInfo PublicPoolStatusActive 100000 0 1000 1000 (replicate 8 0).
Definition pool_demo : Chain :=
  empty_chain <| account := account empty_chain
    <| ast_Accounts := list_to_map
         [(2, new_account 2 0 "alice" 0 0 <| acc_Collateral := 1000000000000000 |>);
          (3, new_account 3 0 "bob" 0 0);
          (pool_idx, new_account pool_idx 3 "bob" 2 0 <| acc_Collateral := 2000000000000 |>
             <| acc_PublicPoolInfo := Some pool_demo_info |>)] |>
    <| ast_OwnerToIndex := list_to_map [("alice"%string, 2); ("bob"%string, 3)] |>
    <| ast_NextMasterIndex := 4 |> <| ast_NextSubIndex := pool_idx + 1 |> |>.
Definition pool_minted : Chain := (MintShares (H := demo_env) "alice" pool_idx 777777 pool_demo).2.

Lemma mint_never_dilutes_witness :
  exists info' tav', pool_info pool_idx pool_minted = Ok info' /\ pi_TotalShares info' = 1388 /\
    GetTotalAccountValue pool_idx pool_minted = Ok tav' /\ 2000000000000 * 1388 <= tav' * 1000.
Proof.
  destruct (mint_never_dilutes (H := demo_env) "alice" pool_idx 777777 pool_demo 388 pool_minted pool_demo_info 2000000000000)
    as (i & t & H1 & H2 & _ & H3 & _ & H4); [by_compute|by_decide|by_decide|by_compute|cbn; lia|by_compute|].
  exists i, t. rewrite H3 in *. exact (conj H1 (conj eq_refl (conj H2 H4))).
Defined.

Lemma burn_never_dilutes_witness :
  exists burned info' tav', 0 <= burned <= 300 /\
    pool_info pool_idx (BurnShares (H := demo_env) "alice" pool_idx 300 pool_minted).2 = Ok info' /\
    pi_TotalShares info' = 1388 - burned /\
    GetTotalAccountValue pool_idx (BurnShares (H := demo_env) "alice" pool_idx 300 pool_minted).2 = Ok tav' /\
    2777777000000 * pi_TotalShares info' <= tav' * 1388.
Proof.
  destruct (burn_never_dilutes (H := demo_env) "alice" pool_idx 300 pool_minted 600384
    (BurnShares (H := demo_env) "alice" pool_idx 300 pool_minted).2
    (pool_demo_info <| pi_TotalShares := 1388 |>) 2777777000000)
    as (b & i & t & H1 & H2 & H3 & H4 & _ & H5); [by_compute|by_decide|by_decide|by_compute|cbn; lia|cbn; lia|by_compute|].
  cbn [pi_TotalShares] in H4, H5. exists b, i, t. exact (conj H1 (conj H2 (conj H4 (conj H3 H5)))).
Defined.

Lemma mint_burn_no_profit_witness :
  exists usdc, (BurnShares (H := demo_env) "alice" pool_idx 388 pool_minted).1 = Ok usdc /\ usdc <= 777777.
Proof.
  exists 776496. split; [by_compute|].
  apply (mint_burn_no_profit (H := demo_env) "alice" pool_idx 777777 pool_demo 388 pool_minted 776496
    (BurnShares (H := demo_env) "alice" pool_idx 388 pool_minted).2 pool_demo_info 2000000000000);
    [by_compute|by_compute|by_decide|by_decide|by_compute|cbn; lia|cbn; lia|by_compute].
Defined.

(** The insurance fund as genesis leaves it, without shares, after it has
    been credited with liquidation fees worth 5 USDC. *)
Definition fund_demo : Chain :=
  empty_chain <| account := account empty_chain
    <| ast_Accounts := list_to_map
         [(1, new_account 1 0 EmptyString InsuranceFundAccountType 0 <| acc_Collateral := 5000000000000 |>
             <| acc_PublicPoolInfo := Some (mkPublicPoolInfo 0 0 0 0 0 (replicate 8 0)) |>);
          (2, new_account 2 0 "alice" 0 0 <| acc_Collateral := 1000000000 |>)] |>
    <| ast_OwnerToIndex := list_to_map [("alice"%string, 2)] |> |>.

(** The first deposit into a pool without shares owns everything the pool
    has earned before: with 5 USDC of fees in the insurance fund, a deposit
    of 0.001 USDC buys the only share, and burning it pays out 5.001 USDC. *)
Theorem first_mint_takes_pool :
  let c1 := (MintShares (H := demo_env) "alice" 1 1000 fund_demo).2 in
  (MintShares (H := demo_env) "alice" 1 1000 fund_demo).1 = Ok 1 /\
  (BurnShares (H := demo_env) "alice" 1 1 c1).1 = Ok 5001000 /\
  acc_Collateral <$> ast_Accounts (account (BurnShares (H := demo_env) "alice" 1 1 c1).2) !! 1 = Some 0.
Proof. by_compute || (vm_compute; auto). Qed.
