(* ===== verification/BookGenesis.v ===== *)
(** * Import of an order book

    [x/orderbook/keeper/genesis.go]: only the order rows and the counter are
    exported; the import rebuilds the entries, the reverse index, the price
    levels and the client, open-order, expiry and trigger indexes. The
    import of the rows of a consistent book succeeds and gives the book
    back. *)

From S2P Require Import Prelude Constants Types Account Market OrderBook.

(** Limits of the stored aggregates. *)
Definition level_fits (v : PriceLevelAggregate) : Prop :=
  pl_AskBaseSum v <= MaxUint64 /\ pl_AskQuoteSum v <= MaxUint64 /\ pl_BidBaseSum v <= MaxUint64 /\
  pl_BidQuoteSum v <= MaxUint64 /\ 0 <= pl_AskCount v <= MaxUint32 /\ 0 <= pl_BidCount v <= MaxUint32.

#[global] Instance level_fits_dec v : Decision (level_fits v).
Proof. unfold level_fits. apply _. Defined.

Lemma bump_level_run pl isAsk b q :
  level_fits (bumped isAsk b q 1 pl) -> bump_level pl isAsk b q 1 1 = Ok (bumped isAsk b q 1 pl).
Proof.
  unfold level_fits, bump_level, bumped, ApplyMagDelta, ApplyCountDelta. cbn.
  destruct isAsk; cbn; intros (? & ? & ? & ? & ? & ?);
    repeat (rewrite (proj2 (Z.ltb_ge _ _)) by lia; cbn); by rewrite wrap32_id by (unfold MaxUint32 in *; lia).
Qed.

Lemma adjust_up_run m isAsk price b q c :
  level_fits (bumped isAsk b q 1 (level_of m price (bst_PriceLevels (book c)))) ->
  exists L, adjustPriceLevel m isAsk price b q 1 1 c = (Ok tt, c <| book := book c <| bst_PriceLevels := L |> |>).
Proof.
  intros Hfit%bump_level_run. unfold adjustPriceLevel. rewrite run_ensure. cbn [negb andb Z.eqb Pos.eqb].
  fold (level_of m price (bst_PriceLevels (book c))). rewrite Hfit, run_lift_ok. case_match; eexists; reflexivity.
Qed.

(** Entries with non-negative size whose levels fit. *)
Definition entries_fit (E : gmap (Z * list Z) OrderBookEntry) : Prop :=
  (forall k e, E !! k = Some e -> 0 <= ent_RemainingBaseAmount e /\ 0 <= ent_Price e) /\
  forall m p, level_fits (exact_level m p E).

Lemma entries_fit_sub E E' m p : entries_fit E' -> E ⊆ E' -> level_fits (exact_level m p E).
Proof.
  intros [Hpos Hfit] Hsub. pose proof (Hfit m p) as Hf.
  assert (forall a f, (forall k e, E' !! k = Some e -> 0 <= f e) ->
    0 <= side_sum a m p f E <= side_sum a m p f E') as Hmono.
  { intros a f Hf0. assert (forall k e, E' !! k = Some e -> 0 <= entry_contrib a m p f (k, e)).
    { intros k e He. unfold entry_contrib. case_decide; [|done]. by eapply Hf0. }
    split; [|by apply ksum_subseteq]. rewrite <- (ksum_zero (entry_contrib a m p f) ∅) by done.
    apply ksum_subseteq; [apply map_empty_subseteq|]. intros k e He. eauto using lookup_weaken. }
  unfold level_fits, exact_level in *. cbn in *.
  pose proof (Hmono true ent_RemainingBaseAmount ltac:(intros; by eapply Hpos)).
  pose proof (Hmono false ent_RemainingBaseAmount ltac:(intros; by eapply Hpos)).
  pose proof (Hmono true entry_quote ltac:(intros k e He; destruct (Hpos k e He); unfold entry_quote; nia)).
  pose proof (Hmono false entry_quote ltac:(intros k e He; destruct (Hpos k e He); unfold entry_quote; nia)).
  pose proof (Hmono true (fun _ => 1) ltac:(intros; lia)).
  pose proof (Hmono false (fun _ => 1) ltac:(intros; lia)). lia.
Qed.

(** A resting order whose entry belongs to a book that fits is inserted. *)
Lemma insertEntry_fits o E c :
  book_inv c -> entries_fit E -> resting o ->
  bst_OrderBookEntries (book c) !! (ord_MarketIndex o, order_key o) = None ->
  <[(ord_MarketIndex o, order_key o) := entry_of o]> (bst_OrderBookEntries (book c)) ⊆ E ->
  exists L, insertEntry (ord_MarketIndex o) (ord_IsAsk o) (entry_of o) c =
    (Ok tt, c <| book := book c
       <| bst_OrderBookEntries := <[(ord_MarketIndex o, order_key o) := entry_of o]> (bst_OrderBookEntries (book c)) |>
       <| bst_OrderToSortKey := <[(ord_MarketIndex o, ord_OrderIndex o) := order_key o]> (bst_OrderToSortKey (book c)) |>
       <| bst_PriceLevels := L |> |>).
Proof.
  intros HI HE (Hst & Hrem & Hp & Hn & Hcap) Hfree Hsub.
  pose proof (entries_fit_sub _ _ (ord_MarketIndex o) (ord_Price o) HE Hsub) as Hfit.
  rewrite (exact_insert _ _ _ (ord_IsAsk o)) in Hfit by done. rewrite decide_True in Hfit by done.
  rewrite <- (bi_levels _ _ _ _ HI) in Hfit. cbn in Hfit. unfold entry_quote in Hfit. cbn in Hfit.
  unfold insertEntry. cbn [ent_RemainingBaseAmount ent_Price entry_of ent_Nonce ent_OrderIndex].
  rewrite CheckedQuote_run by lia. rewrite run_lift_ok. unfold Entries_Set, SortKey_Set, set_book. rewrite !run_modify.

  set (c1 := c <| book := _ |> <| book := _ |>). destruct (adjust_up_run (ord_MarketIndex o) (ord_IsAsk o) (ord_Price o)
    (ord_RemainingBaseAmount o) (ord_RemainingBaseAmount o * ord_Price o) c1 Hfit) as [L HL].
  exists L. exact HL.
Qed.

(** The rows of an order in the secondary indexes. *)
Definition client_row (o : Order) : option (Z * Z * Z * Z) :=
  if is_open_status (ord_Status o) && negb (ord_ClientOrderIndex o =? 0) then Some (client_key o, ord_OrderIndex o) else None.
Definition open_row (o : Order) : option (Z * Z * Z) :=
  if is_open_status (ord_Status o) then Some (accountOpenOrderKey o) else None.
Definition expiry_row (o : Order) : option (Z * Z) :=
  if is_open_status (ord_Status o) && indexExpiry o then Some (ord_Expiry o, ord_OrderIndex o) else None.
Definition trigger_row (o : Order) : option (Z * Z * Z) :=
  if ord_Status o =? OrderStatusTriggeredPending then Some (ord_MarketIndex o, ord_TriggerPrice o, ord_OrderIndex o) else None.
Definition open_in (a m : Z) (o : Order) : Z :=
  if is_open_status (ord_Status o) && (ord_OwnerAccountIndex o =? a) && (ord_MarketIndex o =? m) then 1 else 0.

(** The indexes of the live orders among [l]. *)
Record indexed (l : list Order) (c : Chain) : Prop := {
  ix_client : bst_UserOrderIndex (book c) = put_all (omap client_row l) ∅;
  ix_open : bst_AccountOpenOrders (book c) = list_to_set (omap open_row l);
  ix_expiry : bst_ExpiryIndex (book c) = list_to_set (omap expiry_row l);
  ix_count a m : default 0 (bst_AccountOpenOrderCount (book c) !! (a, m)) = lsum (open_in a m) l
}.

(** The book after the import of the orders [l], whose resting entries
    belong to [E]. *)
Record loaded (E : gmap (Z * list Z) OrderBookEntry) (l : list Order) (c : Chain) : Prop := {
  ld_inv : book_inv c;
  ld_orders : bst_Orders (book c) = put_rows ord_OrderIndex l ∅;
  ld_sub : bst_OrderBookEntries (book c) ⊆ E;
  ld_entry o : o ∈ l -> is_resting_status (ord_Status o) = true ->
    bst_OrderBookEntries (book c) !! (ord_MarketIndex o, order_key o) = Some (entry_of o);
  ld_indexed : indexed l c;
  ld_trigger : bst_TriggerIndex (book c) = list_to_set (omap trigger_row l)
}.

(** The client, open-order and expiry rows of a live order. *)
Definition index_live (o : Order) : K unit := indexClientOrder o;; indexAccountOpenOrder o;; addExpiryIndex o.

Lemma bump_count_run a m c :
  0 <= default 0 (bst_AccountOpenOrderCount (book c) !! (a, m)) < MaxUint32 ->
  bumpAccountOpenOrderCount a m 1 c = (Ok tt, c <| book := book c <| bst_AccountOpenOrderCount :=
    <[(a, m) := default 0 (bst_AccountOpenOrderCount (book c) !! (a, m)) + 1]> (bst_AccountOpenOrderCount (book c)) |> |>).
Proof.
  intros Hc. unfold bumpAccountOpenOrderCount, MaxUint32 in *. rewrite !run_ensure.
  rewrite (proj2 (Z.ltb_ge _ 0)), (proj2 (Z.ltb_ge (2 ^ 32 - 1) _)), (proj2 (Z.eqb_neq _ _)), wrap32_id by lia. done.
Qed.

Lemma index_client_run o c :
  is_open_status (ord_Status o) = true ->
  indexClientOrder o c = (Ok tt, c <| book := book c
    <| bst_UserOrderIndex := put_all (option_list (client_row o)) (bst_UserOrderIndex (book c)) |> |>).
Proof. intros Hs. unfold indexClientOrder, client_row. rewrite Hs. destruct c as [? ? ? [] ?]. by case_match. Qed.

Lemma index_open_run o c :
  is_open_status (ord_Status o) = true -> accountOpenOrderKey o ∉ bst_AccountOpenOrders (book c) ->
  0 <= default 0 (bst_AccountOpenOrderCount (book c) !! (ord_OwnerAccountIndex o, ord_MarketIndex o)) < MaxUint32 ->
  indexAccountOpenOrder o c = (Ok tt, c <| book := book c
    <| bst_AccountOpenOrders := list_to_set (option_list (open_row o)) ∪ bst_AccountOpenOrders (book c) |>
    <| bst_AccountOpenOrderCount :=
       <[(ord_OwnerAccountIndex o, ord_MarketIndex o) :=
         default 0 (bst_AccountOpenOrderCount (book c) !! (ord_OwnerAccountIndex o, ord_MarketIndex o)) + 1]>
       (bst_AccountOpenOrderCount (book c)) |> |>).
Proof.
  intros Hs Hk Hc. unfold indexAccountOpenOrder, open_row, set_book. rewrite Hs, bool_decide_eq_false_2, run_modify by done.
  rewrite bump_count_run by done. cbn. by rewrite union_empty_r_L.
Qed.

Lemma add_expiry_run o c :
  is_open_status (ord_Status o) = true ->
  addExpiryIndex o c = (Ok tt, c <| book := book c
    <| bst_ExpiryIndex := list_to_set (option_list (expiry_row o)) ∪ bst_ExpiryIndex (book c) |> |>).
Proof.
  intros Hs. unfold addExpiryIndex, expiry_row, set_book. rewrite Hs. destruct c as [? ? ? [] ?].
  destruct (indexExpiry o); cbn; by rewrite ?union_empty_r_L, ?union_empty_l_L.
Qed.

Lemma index_live_run o c :
  is_open_status (ord_Status o) = true -> accountOpenOrderKey o ∉ bst_AccountOpenOrders (book c) ->
  (forall a m, 0 <= default 0 (bst_AccountOpenOrderCount (book c) !! (a, m)) < MaxUint32) ->
  exists C, index_live o c = (Ok tt, c <| book := book c
      <| bst_UserOrderIndex := put_all (option_list (client_row o)) (bst_UserOrderIndex (book c)) |>
      <| bst_AccountOpenOrders := list_to_set (option_list (open_row o)) ∪ bst_AccountOpenOrders (book c) |>
      <| bst_AccountOpenOrderCount := C |>
      <| bst_ExpiryIndex := list_to_set (option_list (expiry_row o)) ∪ bst_ExpiryIndex (book c) |> |>) /\
    forall a m, default 0 (C !! (a, m)) = default 0 (bst_AccountOpenOrderCount (book c) !! (a, m)) + open_in a m o.
Proof.
  intros Hs Hk Hc. destruct (Hc (ord_OwnerAccountIndex o) (ord_MarketIndex o)) as [Hlo Hhi].
  exists (<[(ord_OwnerAccountIndex o, ord_MarketIndex o) :=
    default 0 (bst_AccountOpenOrderCount (book c) !! (ord_OwnerAccountIndex o, ord_MarketIndex o)) + 1]>
    (bst_AccountOpenOrderCount (book c))). split.
  - unfold index_live. rewrite (run_bind _ _ _ _ _ (index_client_run o c Hs)).
    erewrite run_bind by (apply index_open_run; [done..|exact (conj Hlo Hhi)]). by rewrite (add_expiry_run o _ Hs).
  - intros a m. unfold open_in. rewrite Hs. cbn [andb].
    destruct (decide ((ord_OwnerAccountIndex o, ord_MarketIndex o) = (a, m))) as [[= <- <-]|Hne].
    + by rewrite lookup_insert_eq, !Z.eqb_refl.
    + rewrite lookup_insert_ne by done. destruct (Z.eqb_spec (ord_OwnerAccountIndex o) a), (Z.eqb_spec (ord_MarketIndex o) m);
        cbn; try lia. naive_solver.
Qed.

(** *** One order more *)

Section restore.
Context (E : gmap (Z * list Z) OrderBookEntry) (o : Order) (l : list Order) (HE : entries_fit E)
  (Hnd : NoDup (ord_OrderIndex <$> l ++ [o])) (Hlen : Z.of_nat (length l) < MaxUint32)
  (Ho : is_resting_status (ord_Status o) = true ->
        resting o /\ E !! (ord_MarketIndex o, order_key o) = Some (entry_of o)).

Lemma row_fresh x : x ∈ l -> ord_OrderIndex x <> ord_OrderIndex o.
Proof.
  intros Hx Heq. rewrite fmap_app in Hnd. apply NoDup_app in Hnd as (_ & Hd & _).
  apply (Hd (ord_OrderIndex x)); [by apply list_elem_of_fmap_2|]. rewrite Heq. apply list_elem_of_here.
Qed.

Lemma open_in_length a m : 0 <= lsum (open_in a m) l <= Z.of_nat (length l).
Proof.
  clear. induction l as [|x l' IH]; cbn [lsum length]; [lia|].
  assert (0 <= open_in a m x <= 1) by (unfold open_in; case_match; lia). lia.
Qed.

Lemma index_step c :
  is_open_status (ord_Status o) = true -> indexed l c ->
  exists c', index_live o c = (Ok tt, c') /\ indexed (l ++ [o]) c' /\ c' = c <| book := book c' |> /\
    core c' = core c /\ bst_NextOrderIndex (book c') = bst_NextOrderIndex (book c) /\
    bst_TriggerIndex (book c') = bst_TriggerIndex (book c).
Proof.
  intros Hs [I1 I2 I3 I4]. destruct (index_live_run o c Hs) as (C & Hrun & HC).
  - rewrite I2, elem_of_list_to_set, list_elem_of_omap. intros (x & Hx & Hr). unfold open_row in Hr. case_match; [|done].
    injection Hr as _ _ Hr. by destruct (row_fresh x Hx).
  - intros a m. rewrite I4. pose proof (open_in_length a m). lia.
  - eexists. split; [exact Hrun|]. split; [|done]. split; cbn [book bst_UserOrderIndex bst_AccountOpenOrders bst_ExpiryIndex bst_AccountOpenOrderCount].
    + by rewrite put_all_row, I1.
    + by rewrite list_to_set_row, I2.
    + by rewrite list_to_set_row, I3.
    + intros a m. rewrite HC, I4, lsum_app. cbn. lia.
Qed.

Lemma index_skip c : is_open_status (ord_Status o) = false -> indexed l c -> indexed (l ++ [o]) c.
Proof.
  intros Hs [I1 I2 I3 I4]. split; rewrite ?put_all_row, ?list_to_set_row; unfold client_row, open_row, expiry_row; rewrite ?Hs; cbn.
  - done.
  - by rewrite union_empty_l_L.
  - by rewrite union_empty_l_L.
  - intros a m. rewrite lsum_app, I4. unfold open_in. cbn. rewrite Hs. cbn. lia.
Qed.

Lemma restore_fresh c :
  loaded E l c -> bst_Orders (book c) !! ord_OrderIndex o = None /\ off_book (ord_OrderIndex o) c.
Proof.
  intros [L1 L2 _ _ _ _]. assert (bst_Orders (book c) !! ord_OrderIndex o = None) as Hn.
  { rewrite L2. destruct (put_rows _ _ _ !! _) as [x|] eqn:Hx; [|done]. exfalso.
    apply put_rows_lookup in Hx as [Hx Heq]; [by apply (row_fresh x)|].
    pose proof Hnd as Hnd'. rewrite fmap_app in Hnd'. by apply NoDup_app in Hnd' as (? & _ & _). }
  split; [done|]. intros m. destruct (bst_OrderToSortKey (book c) !! (m, ord_OrderIndex o)) as [sk|] eqn:Hs; [|done].
  apply (Inv_lookup _ _ _ _ L1) in Hs as (x & Hx & _). congruence.
Qed.

(** The entry of a resting order. *)
Lemma restore_entry c :
  loaded E l c -> is_resting_status (ord_Status o) = true ->
  exists c', insertEntry (ord_MarketIndex o) (ord_IsAsk o) (entry_of o) c = (Ok tt, c') /\
    Inv (<[ord_OrderIndex o := o]> (bst_Orders (book c'))) (bst_OrderBookEntries (book c'))
      (bst_OrderToSortKey (book c')) (bst_PriceLevels (book c')) /\
    bst_Orders (book c') = bst_Orders (book c) /\
    bst_OrderBookEntries (book c') = <[(ord_MarketIndex o, order_key o) := entry_of o]> (bst_OrderBookEntries (book c)) /\
    bst_OrderBookEntries (book c') ⊆ E /\
    (exists M SK L, c' = c <| book := book c <| bst_OrderBookEntries := M |> <| bst_OrderToSortKey := SK |> <| bst_PriceLevels := L |> |>).
Proof.
  intros Hl Hs. destruct (restore_fresh c Hl) as [Hn Hoff]. destruct (Ho Hs) as [Hr He]. destruct Hl as [L1 L2 L3 _ _ _].
  assert (bst_OrderBookEntries (book c) !! (ord_MarketIndex o, order_key o) = None) as Hfree.
  { destruct (bst_OrderBookEntries (book c) !! _) as [e|] eqn:Hx; [|done]. exfalso. pose proof (lookup_weaken _ _ _ _ Hx L3) as Hx'.
    rewrite He in Hx'. injection Hx' as <-. apply (bi_entry _ _ _ _ L1) in Hx as (x & Hx & _). cbn in Hx. congruence. }
  assert (<[(ord_MarketIndex o, order_key o) := entry_of o]> (bst_OrderBookEntries (book c)) ⊆ E) as Hsub
    by by apply insert_subseteq_l.
  destruct (insertEntry_fits o E c L1 HE Hr Hfree Hsub) as [L HL]. rewrite HL.
  assert (fresh_order o c) as Hf by (destruct Hr as (_ & ? & ? & ? & _); by split).
  destruct (insertEntry_ok _ _ _ _ HL L1 Hf Hs) as (HI & HO & HEq).
  eexists. split; [done|]. split; [by rewrite HO|]. split_and!; [done|done|by rewrite HEq|]. by do 3 eexists.
Qed.

(** The state before the order row itself is written. *)
Record ready (c c' : Chain) : Prop := {
  rd_inv : Inv (<[ord_OrderIndex o := o]> (bst_Orders (book c'))) (bst_OrderBookEntries (book c'))
    (bst_OrderToSortKey (book c')) (bst_PriceLevels (book c'));
  rd_orders : bst_Orders (book c') = bst_Orders (book c);
  rd_sub : bst_OrderBookEntries (book c') ⊆ E;
  rd_entry x : x ∈ l ++ [o] -> is_resting_status (ord_Status x) = true ->
    bst_OrderBookEntries (book c') !! (ord_MarketIndex x, order_key x) = Some (entry_of x);
  rd_indexed : indexed (l ++ [o]) c';
  rd_trigger : bst_TriggerIndex (book c') = list_to_set (omap trigger_row (l ++ [o]));
  rd_frame : c' = c <| book := book c' |> /\ bst_NextOrderIndex (book c') = bst_NextOrderIndex (book c)
}.

Lemma resting_not_pending s : is_resting_status s = true -> (s =? OrderStatusTriggeredPending) = false.
Proof. unfold is_resting_status, OrderStatusOpen, OrderStatusPartiallyFilled, OrderStatusTriggeredPending. intros H. breflect. destruct H; breflect; lia. Qed.

Lemma entry_skip c : loaded E l c -> is_resting_status (ord_Status o) = false ->
  forall x, x ∈ l ++ [o] -> is_resting_status (ord_Status x) = true ->
    bst_OrderBookEntries (book c) !! (ord_MarketIndex x, order_key x) = Some (entry_of x).
Proof.
  intros [_ _ _ L4 _ _] Hs x [Hx|Hx]%elem_of_app Hr; [by apply L4|]. apply list_elem_of_singleton in Hx as ->. congruence.
Qed.

Lemma restore_resting c :
  loaded E l c -> is_resting_status (ord_Status o) = true ->
  exists c', (insertEntry (ord_MarketIndex o) (ord_IsAsk o) (entry_of o);; index_live o) c = (Ok tt, c') /\ ready c c'.
Proof.
  intros Hl Hs. destruct (restore_entry c Hl Hs) as (c1 & Hins & HI & HO & HEq & Hsub & M & SK & L & Hc1).
  destruct Hl as [L1 L2 L3 L4 L5 L6].
  assert (indexed l c1) as Hix by (subst c1; by destruct L5).
  destruct (index_step c1) as (c2 & Hlive & Hix2 & Hb & Hcore & Hnext & Htr); [|done|].
  { unfold is_resting_status, is_open_status in *. by rewrite Hs. }
  exists c2. split; [by rewrite (run_bind _ _ _ _ _ Hins)|]. unfold core in Hcore. injection Hcore as E1 E2 E3 E4.
  split; [by rewrite E1, E2, E3, E4|by rewrite E1|by rewrite E2| |done| |].
  - intros x Hx Hr. rewrite E2, HEq, lookup_insert_Some. apply elem_of_app in Hx as [Hx|Hx].
    + right. split; [|by apply L4]. intros Heq. pose proof (L4 x Hx Hr) as Hx'. rewrite <- Heq in Hx'.
      destruct (Ho Hs) as [_ He]. pose proof (lookup_weaken _ _ _ _ Hx' L3) as Hw. rewrite He in Hw.
      injection Hw as Hi _. by destruct (row_fresh x Hx).
    + apply list_elem_of_singleton in Hx as ->. by left.
  - rewrite list_to_set_row, Htr. unfold trigger_row at 1. rewrite (resting_not_pending _ Hs). cbn.
    rewrite union_empty_l_L, <- L6. by subst c1.
  - rewrite Hnext. subst c1. split; [|done]. by rewrite Hb.
Qed.

Lemma restore_pending c :
  loaded E l c -> ord_Status o = OrderStatusTriggeredPending ->
  exists c', (addTrigger (ord_MarketIndex o) (ord_TriggerPrice o) (ord_OrderIndex o);; index_live o) c = (Ok tt, c') /\ ready c c'.
Proof.
  intros Hl Hs. destruct (restore_fresh c Hl) as [Hn Hoff].
  assert (is_resting_status (ord_Status o) = false) as Hr by by rewrite Hs.
  pose proof (entry_skip c Hl Hr) as Hskip. destruct Hl as [L1 L2 L3 L4 L5 L6].
  unfold addTrigger, set_book. rewrite run_modify. set (c1 := c <| book := _ |>).
  destruct (index_step c1) as (c2 & Hlive & Hix2 & Hb & Hcore & Hnext & Htr); [by rewrite Hs|by destruct L5|].
  exists c2. split; [exact Hlive|]. unfold core in Hcore. injection Hcore as E1 E2 E3 E4.
  split; [|by rewrite E1|by rewrite E2| |done| |].
  - rewrite E1, E2, E3, E4. by apply Inv_set.
  - rewrite E2. exact Hskip.
  - rewrite list_to_set_row, Htr, <- L6. unfold trigger_row. rewrite Hs. cbn. by rewrite union_empty_r_L.
  - rewrite Hnext. split; [|done]. by rewrite Hb.
Qed.

Lemma restore_closed c : loaded E l c -> is_open_status (ord_Status o) = false -> ready c c.
Proof.
  intros Hl Hs. destruct (restore_fresh c Hl) as [Hn Hoff].
  assert (is_resting_status (ord_Status o) = false /\ (ord_Status o =? OrderStatusTriggeredPending) = false) as [Hr Hp].
  { unfold is_open_status in Hs. by apply orb_false_iff in Hs. }
  pose proof (entry_skip c Hl Hr) as Hskip. destruct Hl as [L1 L2 L3 L4 L5 L6].
  split; [by apply Inv_set|done..|by apply index_skip| |by destruct c].
  rewrite list_to_set_row, <- L6. unfold trigger_row. rewrite Hp. cbn. by rewrite union_empty_l_L.
Qed.

Lemma restore_step c :
  loaded E l c ->
  exists c', (restoreGenesisOrderIndexes o;; setOrder o) c = (Ok tt, c') /\ loaded E (l ++ [o]) c' /\
    c' = c <| book := book c' |> /\ bst_NextOrderIndex (book c') = bst_NextOrderIndex (book c).
Proof.
  intros Hl. assert (exists c2, restoreGenesisOrderIndexes o c = (Ok tt, c2) /\ ready c c2) as (c2 & Hrun & [R1 R2 R3 R4 R5 R6 [R7 R8]]).
  { pose proof (restore_resting c Hl) as H1. pose proof (restore_pending c Hl) as H2. pose proof (restore_closed c Hl) as H3.
    unfold restoreGenesisOrderIndexes. destruct (is_resting_status (ord_Status o)) eqn:Hs; [by apply H1|].
    destruct (Z.eqb_spec (ord_Status o) OrderStatusTriggeredPending) as [Hp|Hp]; [by apply H2|].
    exists c. split; [done|]. apply H3. unfold is_open_status. unfold is_resting_status in Hs.
    rewrite Hs. by apply Z.eqb_neq. }
  rewrite (run_bind _ _ _ _ _ Hrun). eexists. split; [reflexivity|]. split; [|by rewrite R7 at 1].
  split; [exact R1| |done|done|by destruct R5|done].
  unfold put_rows, put_all. rewrite fmap_app, foldl_app. cbn. by rewrite R2, (ld_orders _ _ _ Hl).
Qed.
End restore.

Lemma restore_all E l l0 c :
  entries_fit E -> NoDup (ord_OrderIndex <$> l0 ++ l) -> Z.of_nat (length (l0 ++ l)) <= MaxUint32 ->
  (forall o, o ∈ l -> is_resting_status (ord_Status o) = true ->
   resting o /\ E !! (ord_MarketIndex o, order_key o) = Some (entry_of o)) ->
  loaded E l0 c ->
  exists c', forM (fun o => restoreGenesisOrderIndexes o;; setOrder o) l c = (Ok tt, c') /\ loaded E (l0 ++ l) c' /\
    c' = c <| book := book c' |> /\ bst_NextOrderIndex (book c') = bst_NextOrderIndex (book c).
Proof.
  intros HE. revert l0 c. induction l as [|o l IH]; intros l0 c Hnd Hlen Hall Hl.
  { exists c. rewrite app_nil_r. by destruct c. }
  change (o :: l) with ([o] ++ l) in Hnd, Hlen. rewrite (assoc_L (++) l0 [o] l) in Hnd, Hlen.
  assert (l0 ++ o :: l = (l0 ++ [o]) ++ l) as -> by by rewrite <- (assoc_L (++)).
  rewrite !length_app in Hlen. cbn [length] in Hlen.
  destruct (restore_step E o l0 HE) with (c := c) as (c1 & Hrun & Hl1 & Hb1 & Hn1); [|lia|by apply Hall, list_elem_of_here|done|].
  { rewrite fmap_app in Hnd. by apply NoDup_app in Hnd as (? & _ & _). }
  destruct (IH _ c1 Hnd) as (c2 & Hrun2 & Hl2 & Hb2 & Hn2); [rewrite !length_app; cbn; lia| |done|].
  { intros x Hx. by apply Hall, list_elem_of_further. }
  exists c2. cbn [forM]. rewrite (run_bind _ _ _ _ _ Hrun). split_and!; [done..| |congruence].
  rewrite Hb2. by rewrite Hb1.
Qed.

(** What the order book satisfies between transactions. *)
Record book_ok (c : Chain) : Prop := {
  bk_inv : book_inv c;
  bk_booked i o : bst_Orders (book c) !! i = Some o -> is_resting_status (ord_Status o) = true ->
    bst_OrderBookEntries (book c) !! (ord_MarketIndex o, order_key o) = Some (entry_of o);
  bk_levels m p : level_fits (level_of m p (bst_PriceLevels (book c)));
  bk_size : Z.of_nat (size (bst_Orders (book c))) <= MaxUint32;
  bk_next : 1 <= bst_NextOrderIndex (book c)
}.

Definition no_book (c : Chain) : Prop := exists n, book c = mkBookStore ∅ n ∅ ∅ ∅ ∅ ∅ ∅ ∅ ∅.

Lemma loaded_empty E c : no_book c -> loaded E [] c.
Proof.
  intros [n Hb]. split; rewrite ?Hb; try done.
  - unfold book_inv. rewrite Hb. exact Inv_empty.
  - apply map_empty_subseteq.
  - intros o Ho. by apply not_elem_of_nil in Ho.
  - split; by rewrite ?Hb.
Qed.

(** The reverse index and the levels are determined by the entries. *)
Lemma Inv_unique O E SK SK' L L' :
  Inv O E SK L -> Inv O E SK' L' -> SK = SK' /\ forall m p, level_of m p L = level_of m p L'.
Proof.
  assert (forall SK L m i sk, Inv O E SK L -> SK !! (m, i) = Some sk <-> exists e, E !! (m, sk) = Some e /\ ent_OrderIndex e = i) as Hsk.
  { clear. intros SK L m i sk HI. split; [by apply (bi_key _ _ _ _ HI)|]. intros (e & He & <-).
    by destruct (bi_entry _ _ _ _ HI _ _ _ He) as (o & _ & _ & _ & _ & _ & ?). }
  intros H1 H2. split.
  - apply map_eq. intros [m i]. apply option_eq. intros sk. by rewrite (Hsk _ _ _ _ _ H1), (Hsk _ _ _ _ _ H2).
  - intros m p. by rewrite (bi_levels _ _ _ _ H1), (bi_levels _ _ _ _ H2).
Qed.

Lemma book_roundtrip c c0 :
  book_ok c -> no_book c0 ->
  let gs := Book_ExportGenesis c in
  exists c1, Book_InitGenesis gs.1 gs.2 c0 = (Ok tt, c1) /\ c1 = c0 <| book := book c1 |> /\
    bst_Orders (book c1) = bst_Orders (book c) /\ bst_NextOrderIndex (book c1) = bst_NextOrderIndex (book c) /\
    bst_OrderBookEntries (book c1) = bst_OrderBookEntries (book c) /\
    bst_OrderToSortKey (book c1) = bst_OrderToSortKey (book c) /\
    (forall m p, level_of m p (bst_PriceLevels (book c1)) = level_of m p (bst_PriceLevels (book c))) /\
    indexed gs.2 c1 /\ bst_TriggerIndex (book c1) = list_to_set (omap trigger_row gs.2).
Proof.
  intros [B1 B2 B3 B4 B5] H0 gs. unfold gs, Book_ExportGenesis, Book_InitGenesis. cbn [fst snd].
  rewrite coerce_max, Z.max_r by done. unfold set_book. rewrite run_modify. set (c0' := c0 <| book := _ |>).
  assert (loaded (bst_OrderBookEntries (book c)) [] c0') as Hl0.
  { apply loaded_empty. destruct H0 as [n Hb]. exists (bst_NextOrderIndex (book c)). unfold c0'. cbn. by rewrite Hb. }
  assert (map_Forall (fun i o => ord_OrderIndex o = i) (bst_Orders (book c))) as Hkey by (intros i o; apply (bi_orders _ _ _ _ B1)).
  assert (forall o, o ∈ (rows (bst_Orders (book c))).*2 -> is_resting_status (ord_Status o) = true ->
    resting o /\ bst_OrderBookEntries (book c) !! (ord_MarketIndex o, order_key o) = Some (entry_of o)) as Hrest.
  { intros o [i Hi]%elem_of_values Hs. pose proof (B2 _ _ Hi Hs) as He. split; [|done].
    destruct (bi_entry _ _ _ _ B1 _ _ _ He) as (o' & Ho' & Hr & _). cbn in Ho'. rewrite (Hkey _ _ Hi), Hi in Ho'.
    by injection Ho' as <-. }
  destruct (restore_all (bst_OrderBookEntries (book c)) (rows (bst_Orders (book c))).*2 [] c0')
    as (c1 & Hrun & [D1 D2 D3 D4 D5 D6] & Hb & Hn); [| | |done|done|].
  - split.
    + intros [m sk] e He. destruct (bi_entry _ _ _ _ B1 _ _ _ He) as (o & _ & (_ & ? & ? & _) & _ & _ & -> & _). cbn. lia.
    + intros m p. rewrite <- (bi_levels _ _ _ _ B1). apply B3.
  - cbn. rewrite <- list_fmap_compose. by apply NoDup_keyed_rows.
  - cbn. rewrite length_fmap, rows_perm. by rewrite length_map_to_list.
  - cbn [app] in *. rewrite put_rows_id in D2 by done.
    assert (bst_OrderBookEntries (book c1) = bst_OrderBookEntries (book c)) as HE.
    { apply (anti_symm (⊆)); [done|]. apply map_subseteq_spec. intros [m sk] e He.
      destruct (bi_entry _ _ _ _ B1 _ _ _ He) as (o & Ho & (Hs & _) & <- & -> & -> & _).
      apply D4; [|done]. apply elem_of_values. eauto. }
    unfold book_inv in D1, B1. rewrite D2, HE in D1. destruct (Inv_unique _ _ _ _ _ _ D1 B1) as [HSK HL].
    exists c1. rewrite Hn, D6. split_and!; try done.
Qed.

