(* ===== verification/Solvency.v ===== *)
(** * Coins against claims

    The account and asset messages composed over one state: the chain and
    the coins the bank keeps for the module. The abstract specification is a
    vault per asset (the coins held and what the accounts are owed); every
    history of messages refines it, so the coins always cover what accounts
    hold by the same margin. *)

From S2P Require Import Prelude Constants Types PositionMath Account Market Asset Funding Risk Trade Effects AccountMsg PublicPool.

(** ** The vault of an asset *)

(** What accounts hold of an asset, in ledger units: spot balances and, for
    the margin asset, collateral and isolated margin. *)
Definition claims (a : Asset) (c : Chain) : Z :=
  total_balance (as_AssetIndex a) c +
  (if as_MarginMode a =? MarginModeEnabled then total_collateral c + total_allocated c else 0).

(** Coins enter or leave, and claims follow at [mult] units per coin. *)
Inductive vault_step (mult : Z) : Z * Z -> Z * Z -> Prop :=
| vault_in coins owed n : 0 <= n -> vault_step mult (coins, owed) (coins + n, owed + n * mult)
| vault_out coins owed n : 0 <= n -> vault_step mult (coins, owed) (coins - n, owed - n * mult)
| vault_same v : vault_step mult v v.

(** ** Messages *)

Section messages.
Context `{env : Env, text : AssetText}.

(** A successful message that moves no coin. *)
Inductive account_msg (c c' : Chain) : Prop :=
| am_sub_account sender i r : MsgCreateSubAccount sender i c = (Ok r, c') -> account_msg c c'
| am_config sender i mode u : MsgUpdateAccountConfig sender i mode c = (Ok u, c') -> account_msg c c'
| am_asset_config sender i x mode u : MsgUpdateAccountAssetConfig sender i x mode c = (Ok u, c') -> account_msg c c'
| am_transfer msg u : Transfer msg c = (Ok u, c') -> account_msg c c'
| am_margin msg u : UpdateMargin msg c = (Ok u, c') -> account_msg c c'
| am_leverage msg u : UpdateLeverage msg c = (Ok u, c') -> account_msg c c'
| am_params auth p u : Account_UpdateParams auth p c = (Ok u, c') -> account_msg c c'
| am_create_pool msg r : CreatePublicPool msg c = (Ok r, c') -> account_msg c c'
| am_update_pool msg u : UpdatePublicPool msg c = (Ok u, c') -> account_msg c c'
| am_mint sender p x r : MintShares sender p x c = (Ok r, c') -> account_msg c c'
| am_burn sender p s r : BurnShares sender p s c = (Ok r, c') -> account_msg c c'
| am_force_burn auth p d s r : ForceBurnShares auth p d s c = (Ok r, c') -> account_msg c c'
| am_strategy sender p f t x u : StrategyTransfer sender p f t x c = (Ok u, c') -> account_msg c c'.

Lemma account_msg_shifts c c' : account_msg c c' -> keyed c -> alloc_ok c -> shifts 0 none c c'.
Proof.
  destruct 1; eauto using MsgCreateSubAccount_shifts, config_shifts, asset_config_shifts, Transfer_shifts,
    UpdateMargin_shifts, UpdateLeverage_shifts, params_shifts, CreatePublicPool_shifts, UpdatePublicPool_shifts,
    MintShares_shifts, BurnShares_shifts, ForceBurnShares_shifts, StrategyTransfer_shifts.
Qed.

Lemma asset_step_account c c' : asset_step c c' -> account c' = account c.
Proof.
  destruct 1 as [msg r c' Hr|msg r c' Hr|auth p r c' Hr].
  - unfold RegisterAsset in Hr. guards Hr. unfold mbind, M_bind, NextAssetIndex_Next, lift in Hr. guards Hr.
    destruct (CreateAsset _ _) as [r0 c1] eqn:E. apply CreateAsset_cases in E.
    assert (c' = c1) as -> by (destruct r0; injection Hr as _ <-; done).
    destruct E as [[-> _]|(_ & -> & _)]; done.
  - unfold UpdateAsset, Keeper_UpdateAsset in Hr. guards Hr. by injection Hr as _ <-.
  - unfold Asset_UpdateParams in Hr. guards Hr. by injection Hr as _ <-.
Qed.

Section coins.
Context {B : Type} `{bank : BankKeeper B, bank_laws : !BankOk B}.

(** One successful message; a failed one is rolled back with its
    transaction. The amounts are unsigned, and the module account signs no
    message. *)
Inductive coin_step (s s' : Chain * B) : Prop :=
| cs_deposit msg r : canonical (dep_Sender msg) <> module_address -> 0 <= dep_Amount msg -> Deposit msg s = (Ok r, s') -> coin_step s s'
| cs_withdraw msg u : 0 <= wd_Amount msg -> Withdraw msg s = (Ok u, s') -> coin_step s s'
| cs_account c' : account_msg s.1 c' -> s' = (c', s.2) -> coin_step s s'
| cs_asset c' : asset_step s.1 c' -> s' = (c', s.2) -> coin_step s s'.

Definition vault (a : Asset) (s : Chain * B) : Z * Z := (module_balance (as_Denom a) s.2, claims a s.1).

Record books_ok (c : Chain) : Prop := {
  bo_keyed : keyed c;
  bo_alloc : alloc_ok c;
  bo_assets : asset_inv c
}.

(** The asset [a] is registered, up to its limits and its enabled flag. *)
Definition tracked (a : Asset) (c : Chain) : Prop :=
  exists b, xst_Assets (misc c) !! as_AssetIndex a = Some b /\ identity b = identity a.

Lemma shifts_claims dc db c c' a :
  shifts dc db c c' ->
  claims a c' = claims a c + db (as_AssetIndex a) + (if as_MarginMode a =? MarginModeEnabled then dc else 0).
Proof. intros [H1 H2 _ _ _]. unfold claims. rewrite H2. case_match; lia. Qed.

Lemma shifts_books dc db c c' a : shifts dc db c c' -> books_ok c -> tracked a c -> books_ok c' /\ tracked a c'.
Proof.
  intros [_ _ H1 H2 H3] [_ _ H4] H5. unfold tracked in *. rewrite H3. split; [|done]. split; [done..|].
  by apply (asset_inv_frame c c'); rewrite ?H3.
Qed.

(** What a message that moves [n] coins of the asset [x] does to the vault
    of [a]. *)
Lemma vault_moved a x b n dc db s s' :
  books_ok s.1 -> tracked a s.1 -> xst_Assets (misc s.1) !! x = Some b ->
  (forall d, module_balance d s'.2 = module_balance d s.2 + (if decide (d = as_Denom b) then n else 0)) ->
  shifts dc db s.1 s'.1 ->
  (dc = n * as_ExtensionMultiplier b /\ as_MarginMode b = MarginModeEnabled /\ db = none \/
   dc = 0 /\ db = at_asset x (n * as_ExtensionMultiplier b)) ->
  vault a s' = if decide (as_AssetIndex a = x)
               then ((vault a s).1 + n, (vault a s).2 + n * as_ExtensionMultiplier a) else vault a s.
Proof.
  intros [_ _ [I1 I2 I3 _]] (a0 & Ha0 & E) Hb Hm Hs Hd. unfold vault. rewrite Hm, (shifts_claims _ _ _ _ _ Hs).
  unfold identity in E. injection E as E1 _ _ E2 E3. cbn [fst snd].
  destruct (decide (as_AssetIndex a = x)) as [<-|Hne].
  - assert (b = a0) as -> by congruence. rewrite decide_True by done. f_equal. rewrite <- E2, <- E3.
    destruct Hd as [(-> & -> & ->)|[-> ->]]; unfold none, at_asset; rewrite ?Z.eqb_refl; [|case_match]; lia.
  - rewrite decide_False.
    + f_equal; [lia|]. rewrite <- E3. destruct Hd as [(-> & Hmm & ->)|[-> ->]]; unfold none, at_asset.
      * case_match eqn:Hma; [|lia]. apply Z.eqb_eq in Hma. apply (I3 _ _ Ha0) in Hma. apply (I3 _ _ Hb) in Hmm. congruence.
      * rewrite (proj2 (Z.eqb_neq x _)) by done. case_match; lia.
    + intros Hden. apply Hne. assert (xst_DenomToIndex (misc s.1) !! as_Denom b = Some x) as Hx by (apply I2; eauto).
      assert (xst_DenomToIndex (misc s.1) !! as_Denom b = Some (as_AssetIndex a)) as Hy; [|congruence].
      apply I2. exists a0. split; [done|]. congruence.
Qed.

Lemma coin_step_refines a s s' :
  coin_step s s' -> books_ok s.1 -> tracked a s.1 ->
  vault_step (as_ExtensionMultiplier a) (vault a s) (vault a s') /\ books_ok s'.1 /\ tracked a s'.1.
Proof.
  intros Hstep Hs Ht. destruct Hs as [Hk Hal Hai]. destruct Hstep as [msg r Hsg Hn Hr|msg u Hn Hr|c' Hr ->|c' Hr ->].
  - apply Deposit_ok in Hr as (b & Hb%of_option_ok & Hm & Hr); [|done..]. cbv zeta in Hr.
    assert (exists dc db, shifts dc db s.1 s'.1 /\
      (dc = dep_Amount msg * as_ExtensionMultiplier b /\ as_MarginMode b = MarginModeEnabled /\ db = none \/
       dc = 0 /\ db = at_asset (dep_AssetIndex msg) (dep_Amount msg * as_ExtensionMultiplier b))) as (dc & db & Hsh & Hd).
    { case_match; [destruct Hr|]; eauto 10. }
    split; [|by eapply shifts_books]. rewrite (vault_moved a (dep_AssetIndex msg) b (dep_Amount msg) dc db s s') by done.
    case_decide; [destruct (vault a s); by constructor|constructor].
  - apply Withdraw_ok in Hr as (b & Hb%of_option_ok & Hm & Hr); [|done..]. cbv zeta in Hr.
    rewrite <- Z.mul_opp_l in Hr.
    assert (exists dc db, shifts dc db s.1 s'.1 /\
      (dc = - wd_Amount msg * as_ExtensionMultiplier b /\ as_MarginMode b = MarginModeEnabled /\ db = none \/
       dc = 0 /\ db = at_asset (wd_AssetIndex msg) (- wd_Amount msg * as_ExtensionMultiplier b))) as (dc & db & Hsh & Hd).
    { case_match; [destruct Hr|]; eauto 10. }
    split; [|by eapply shifts_books]. rewrite (vault_moved a (wd_AssetIndex msg) b (- wd_Amount msg) dc db s s'); [|done..| |done|done].
    + case_decide; [|constructor]. rewrite Z.mul_opp_l, !Z.add_opp_r. destruct (vault a s). by constructor.
    + intros d. rewrite Hm. case_decide; lia.
  - apply account_msg_shifts in Hr; [|done..]. split; [|by eapply shifts_books].
    assert (vault a (c', s.2) = vault a s) as ->; [|constructor].
    unfold vault. cbn [fst snd]. rewrite (shifts_claims _ _ _ _ _ Hr). unfold none. f_equal. case_match; lia.
  - pose proof (asset_step_account _ _ Hr) as Hacc.
    assert (asset_inv c' /\ registered_stays s.1 c') as [Hi' Hst].
    { destruct Hr; [by eapply RegisterAsset_inv|by eapply UpdateAsset_inv|by eapply Asset_UpdateParams_inv]. }
    assert (vault a (c', s.2) = vault a s) as ->.
    { unfold vault, claims, total_balance, total_collateral, total_allocated. cbn [fst snd]. by rewrite Hacc. }
    cbn [fst]. split; [constructor|]. split; [split; [|..|done]|].
    + unfold keyed in *. by rewrite Hacc.
    + unfold alloc_ok in *. by rewrite Hacc.
    + destruct Ht as (b & Hb & E). destruct (Hst _ _ Hb) as (b' & Hb' & E'). exists b'. split; [done|congruence].
Qed.

Lemma coin_steps_refine a s s' :
  rtc coin_step s s' -> books_ok s.1 -> tracked a s.1 ->
  rtc (vault_step (as_ExtensionMultiplier a)) (vault a s) (vault a s') /\ books_ok s'.1 /\ tracked a s'.1.
Proof.
  induction 1 as [s|s1 s2 s3 Hstep _ IH]; intros Hb Ht; [by split_and!; [apply rtc_refl|..]|].
  destruct (coin_step_refines a _ _ Hstep Hb Ht) as (H1 & H2 & H3). destruct (IH H2 H3) as (H4 & H5 & H6).
  split_and!; [by eapply rtc_l|done..].
Qed.

(** C4: every history of deposits, withdrawals, transfers, margin,
    leverage, sub-account, configuration, pool and asset messages refines,
    for each registered asset, a vault in which coins only enter or leave
    together with the claims of accounts, at the multiplier of the asset;
    every other message leaves both alone. *)
Theorem messages_refine_vault a s s' :
  rtc coin_step s s' -> books_ok s.1 -> tracked a s.1 ->
  rtc (vault_step (as_ExtensionMultiplier a)) (vault a s) (vault a s').
Proof. intros Hr Hb Ht. by apply (coin_steps_refine a s s'). Qed.

End coins.
End messages.

(** ** A bankrupt account withdraws *)

(** C40: an account without positions whose collateral is already negative
    passes the risk check of a withdrawal of any size: with no requirement
    left the comparison with the state before accepts a worse one, and the
    account is debited in full. *)
Theorem bankrupt_flat_withdraws acct x delta asset c a :
  GetAccount acct c = Ok a -> keyed c -> IterateAccountPositions acct c = [] -> acc_Collateral a < 0 -> 0 <= delta ->
  as_MarginMode asset = MarginModeEnabled ->
  withdraw_debit acct x RouteTypePerps delta asset c =
    (Ok tt, with_account (a <| acc_Collateral := acc_Collateral a - delta |>) c).
Proof.
  intros Ha Hk Hp Hneg Hd Hm. set (k := acc_Collateral a) in *.
  assert (ComputeCrossRisk acct c = Ok (mkRiskParameters k k k 0 0 0)) as Hpre.
  { apply ComputeCrossRisk_spec. exists a. rewrite Hp. split_and!; [done|by apply Forall_nil|]. unfold plus_contribs. cbn. by rewrite !Z.add_0_r. }
  assert (AddCollateral acct (- delta) c = (Ok tt, with_account (a <| acc_Collateral := k - delta |>) c)) as Hadd.
  { apply AddCollateral_ok. exists a. by rewrite Z.add_opp_r. }
  set (c1 := with_account _ c) in Hadd |- *.
  pose proof (ComputeCrossRisk_add_collateral _ _ _ _ _ Hadd Hpre Hk) as Hpost.
  set (pre := mkPreRiskSnapshot (Some (mkRiskParameters k k k 0 0 0)) ∅).
  assert (settleAllPositionFunding acct c = (Ok tt, c)) as Hset by (unfold settleAllPositionFunding; by rewrite Hp).
  assert (snapshotPreRisk acct c = (Ok pre, c)) as Hsnap by (unfold snapshotPreRisk, reads, SnapshotRisk; by rewrite Hpre, Hp).
  assert (IsValidRiskChangeFrom acct pre c1 = Ok true) as Hvalid.
  { unfold IsValidRiskChangeFrom, isCrossRiskChangeValid. rewrite Hpost. cbn [mbind res_bind mret res_ret].
    change (IterateAccountPositions acct c1) with (IterateAccountPositions acct c). rewrite Hp.
    cbn [pre prs_Cross]. rewrite bankrupt_flat_change_accepted; [done|cbn; lia..|done]. }
  unfold withdraw_debit. rewrite Z.eqb_refl, run_ensure, Hm, Z.eqb_refl.
  rewrite (run_bind _ _ _ _ _ Hset), (run_bind _ _ _ _ _ Hsnap), (run_bind _ _ _ _ _ Hadd).
  unfold requireRiskOKFrom. rewrite (run_bind _ _ c1 true c1); [done|]. by apply reads_ok.
Qed.

(** ** Witnesses *)

(** A bank of balances per holder and coin. *)
Notation coins := (gmap (string * string) Z).
Definition held (who denom : string) (b : coins) : Z := default 0 (b !! (who, denom)).
Definition move (from to denom : string) (n : Z) : M coins Error unit := fun b =>
  if bool_decide (from = to) || (held from denom b <? n) then (Err (EAccount ErrInsufficientFunds), b)
  else let b1 := <[(from, denom) := held from denom b - n]> b in
       (Ok tt, <[(to, denom) := held to denom b1 + n]> b1).

Definition vault_address : string := "vault".

#[local] Instance demo_bank : BankKeeper coins := {|
  SendCoinsFromAccountToModule addr denom n := move addr vault_address denom n;
  SendCoinsFromModuleToAccount addr denom n := move vault_address addr denom n;
  canonical s := s |}.

Lemma move_held from to denom n b u b' who d :
  move from to denom n b = (Ok u, b') ->
  from <> to /\ held who d b' = held who d b + (if decide (who = to /\ d = denom) then n else 0)
                                - (if decide (who = from /\ d = denom) then n else 0).
Proof.
  unfold move. destruct (_ || _) eqn:E; intros [= _ <-]. breflect. split; [done|].
  unfold held in *. destruct (decide (who = to /\ d = denom)) as [[-> ->]|Hto].
  - rewrite lookup_insert_eq, lookup_insert_ne by congruence. rewrite decide_False by naive_solver. cbn. lia.
  - rewrite (lookup_insert_ne _ (to, denom) (who, d)) by naive_solver. destruct (decide (who = from /\ d = denom)) as [[-> ->]|Hfrom].
    + rewrite lookup_insert_eq. cbn. lia.
    + rewrite lookup_insert_ne by naive_solver. lia.
Qed.

#[local] Instance demo_bank_ok : BankOk coins.
Proof.
  apply (Build_BankOk coins _ vault_address (held vault_address)).
  - intros addr denom n b u b' d Hne Hr. destruct (move_held _ _ _ _ _ _ _ vault_address d Hr) as [_ ->].
    rewrite (decide_False (P := vault_address = addr /\ _)) by naive_solver. repeat case_decide; naive_solver lia.
  - intros addr denom n b u b' d Hr. destruct (move_held _ _ _ _ _ _ _ vault_address d Hr) as [Hne ->].
    rewrite (decide_False (P := vault_address = addr /\ _)) by naive_solver. repeat case_decide; naive_solver lia.
Defined.

(** Alice deposits 30 USDC and withdraws 10 to Bob. *)
Definition bank0 : Chain * coins := (demo_assets, {[ ("alice", USDCDenom) := 50000000 ]}).
Definition alice_deposit : MsgDeposit := mkMsgDeposit "alice" "" USDCAssetIndex RouteTypePerps 30000000.
Definition bank1 : Chain * coins := (@Deposit demo_env _ _ alice_deposit bank0).2.
Definition alice_withdraw : MsgWithdraw := mkMsgWithdraw "alice" 2 USDCAssetIndex RouteTypePerps 10000000 "bob".
Definition bank2 : Chain * coins := (@Withdraw demo_env _ _ alice_withdraw bank1).2.

Lemma ran {S E A} (m : M S E A) s r : (m s).1 = r -> m s = (r, (m s).2).
Proof. intros <-. apply surjective_pairing. Qed.

Lemma demo_history : rtc (@coin_step demo_env demo_text coins _ _) bank0 bank2.
Proof.
  eapply rtc_l; [|eapply rtc_l; [|apply rtc_refl]].
  - apply (cs_deposit bank0 bank1 alice_deposit 2); [by_decide|by_decide|].
    unfold bank1. apply (ran (@Deposit demo_env _ _ alice_deposit) bank0 (Ok 2)). by_compute.
  - apply (cs_withdraw bank1 bank2 alice_withdraw tt); [by_decide|].
    unfold bank2. apply (ran (@Withdraw demo_env _ _ alice_withdraw) bank1 (Ok tt)). by_compute.
Qed.

Lemma demo_books : books_ok bank0.1 /\ tracked usdc_asset bank0.1.
Proof.
  split; [split; [by_decide|by_decide|apply demo_assets_inv]|]. exists usdc_asset. split; [by_compute|done].
Qed.

Lemma messages_refine_vault_witness :
  rtc (vault_step USDCToCollateralMultiplier) (0, 0) (20000000, 20000000000000).
Proof.
  change (rtc (vault_step (as_ExtensionMultiplier usdc_asset)) (vault usdc_asset bank0) (vault usdc_asset bank2)).
  apply (@messages_refine_vault demo_env demo_text coins _ _ usdc_asset bank0 bank2 demo_history); apply demo_books.
Defined.

Definition broke : Chain :=
  with_account (new_account 2 0 "bob" MasterAccountType 0 <| acc_Collateral := -5 |>) demo_assets.

Lemma bankrupt_flat_withdraws_witness :
  (withdraw_debit 2 USDCAssetIndex RouteTypePerps 10000000000000 usdc_asset broke).1 = Ok tt.
Proof.
  rewrite (bankrupt_flat_withdraws 2 USDCAssetIndex 10000000000000 usdc_asset broke
    (new_account 2 0 "bob" MasterAccountType 0 <| acc_Collateral := -5 |>));
    [reflexivity|by_compute|by_decide|by_compute|reflexivity|discriminate|reflexivity].
Defined.
