(* ===== verification/Sweeps.v ===== *)
(** * Sweeps

    What the block hooks may find and leave on the order book, whatever
    earlier failures left behind: the weak invariant [linked] (an entry
    belongs to a stored order of its market and is the one the reverse index
    finds, a parked trigger's order is off the book), the relation [calm]
    between a state and what matching makes of it, and the matching loop, the
    trigger sweep and the impact-price walk on such states. [Blocks] composes
    them into the life of the chain. *)

From S2P Require Import Prelude Constants Types PositionMath Account Market Oracle Funding Risk Trade OrderBook Effects.
From S2P Require Import Matching Liquidation.

(** ** What the sweeps rely on of the book

    Much weaker than [book_inv]: every entry belongs to a stored order of its
    market and is the one the reverse index finds. An order whose opening
    failed half-way keeps this much. *)

Definition orders (c : Chain) := bst_Orders (book c).
Definition sortkeys (c : Chain) := bst_OrderToSortKey (book c).
Definition triggers (c : Chain) := bst_TriggerIndex (book c).
Definition next_index (c : Chain) := bst_NextOrderIndex (book c).

Definition unbooked (i : Z) (c : Chain) : Prop :=
  forall m sk e, entries c !! (m, sk) = Some e -> ent_OrderIndex e <> i.

Record linked (c : Chain) : Prop := {
  lk_keyed i o : orders c !! i = Some o -> ord_OrderIndex o = i;
  lk_entry m sk e : entries c !! (m, sk) = Some e ->
    (exists o, orders c !! ent_OrderIndex e = Some o /\ ord_MarketIndex o = m) /\
    sortkeys c !! (m, ent_OrderIndex e) = Some sk;
  lk_trigger m p i o : (m, p, i) ∈ triggers c -> orders c !! i = Some o ->
    ord_MarketIndex o = m /\ ord_TriggerPrice o = p /\ unbooked i c;
  lk_next i o : orders c !! i = Some o -> i < next_index c;
  lk_trigger_next m p i : (m, p, i) ∈ triggers c -> i < next_index c
}.

(** The fields of an order that never change. *)
Definition same_id (o o' : Order) : Prop :=
  ord_OrderIndex o' = ord_OrderIndex o /\ ord_MarketIndex o' = ord_MarketIndex o /\
  ord_TriggerPrice o' = ord_TriggerPrice o.

Lemma same_id_refl o : same_id o o.
Proof. done. Qed.
Lemma same_id_trans o1 o2 o3 : same_id o1 o2 -> same_id o2 o3 -> same_id o1 o3.
Proof. unfold same_id. naive_solver congruence. Qed.
#[export] Hint Resolve same_id_refl : core.

(** Entries only leave the book or change in place, orders keep their
    identity, triggers stay. *)
Record calm (c c' : Chain) : Prop := {
  cm_order i o : orders c !! i = Some o -> exists o', orders c' !! i = Some o' /\ same_id o o';
  cm_no_order i o' : orders c' !! i = Some o' -> exists o, orders c !! i = Some o /\ same_id o o';
  cm_entry m sk e' : entries c' !! (m, sk) = Some e' ->
    exists e, entries c !! (m, sk) = Some e /\ ent_OrderIndex e = ent_OrderIndex e' /\
      sortkeys c' !! (m, ent_OrderIndex e') = sortkeys c !! (m, ent_OrderIndex e');
  cm_triggers : triggers c' = triggers c;
  cm_next : next_index c' = next_index c
}.

Definition spine (c : Chain) := (orders c, entries c, sortkeys c, triggers c, next_index c).

Lemma calm_spine c c' : spine c' = spine c -> calm c c'.
Proof. unfold spine. intros [= H1 H2 H3 H4 H5]. split; intros; rewrite ?H1, ?H2, ?H3, ?H4, ?H5 in *; eauto. Qed.
Lemma calm_refl c : calm c c.
Proof. by apply calm_spine. Qed.

Lemma calm_trans c1 c2 c3 : calm c1 c2 -> calm c2 c3 -> calm c1 c3.
Proof.
  intros [A1 A2 A3 A4 A5] [B1 B2 B3 B4 B5]. split.
  - intros i o Ho. destruct (A1 _ _ Ho) as (o2 & H2 & E2). destruct (B1 _ _ H2) as (o3 & H3 & E3).
    eauto using same_id_trans.
  - intros i o Ho. destruct (B2 _ _ Ho) as (o2 & H2 & E2). destruct (A2 _ _ H2) as (o1 & H1 & E1).
    eauto using same_id_trans.
  - intros m sk e He. destruct (B3 _ _ _ He) as (e2 & H2 & E2 & S2). destruct (A3 _ _ _ H2) as (e1 & H1 & E1 & S1).
    exists e1. rewrite S2, <- E2, S1. split_and!; congruence.
  - congruence.
  - congruence.
Qed.

Lemma calm_unbooked i c c' : calm c c' -> unbooked i c -> unbooked i c'.
Proof. intros Hc Hu m sk e He. destruct (cm_entry _ _ Hc _ _ _ He) as (e1 & H1 & <- & _). eauto. Qed.

Lemma calm_linked c c' : calm c c' -> linked c -> linked c'.
Proof.
  intros Hc [L1 L2 L3 L4 L5]. split.
  - intros i o Ho. destruct (cm_no_order _ _ Hc _ _ Ho) as (o1 & H1 & [E _]). rewrite E. auto.
  - intros m sk e He. destruct (cm_entry _ _ Hc _ _ _ He) as (e1 & H1 & E1 & S1).
    destruct (L2 _ _ _ H1) as [(o & Ho & Hm) Hsk]. rewrite E1 in Ho, Hsk. split; [|congruence].
    destruct (cm_order _ _ Hc _ _ Ho) as (o' & Ho' & (_ & E & _)). exists o'. split; [done|congruence].
  - intros m p i o Ht Ho. rewrite (cm_triggers _ _ Hc) in Ht. destruct (cm_no_order _ _ Hc _ _ Ho) as (o1 & H1 & (_ & E2 & E3)).
    destruct (L3 _ _ _ _ Ht H1) as (K1 & K2 & K3). split_and!; [congruence..|by eapply calm_unbooked].
  - intros i o Ho. destruct (cm_no_order _ _ Hc _ _ Ho) as (o1 & H1 & _). rewrite (cm_next _ _ Hc). eauto.
  - intros m p i Ht. rewrite (cm_triggers _ _ Hc) in Ht. rewrite (cm_next _ _ Hc). eauto.
Qed.

(** An order that is stored, up to its mutable fields. *)
Definition known (o : Order) (c : Chain) : Prop :=
  exists o0, orders c !! ord_OrderIndex o = Some o0 /\ same_id o0 o.

Lemma calm_known o c c' : calm c c' -> known o c -> known o c'.
Proof.
  intros Hc (o0 & H0 & E). destruct (cm_order _ _ Hc _ _ H0) as (o1 & H1 & E1). exists o1. split; [done|].
  unfold same_id in *. naive_solver congruence.
Qed.

(** ** Methods that are calm on linked states *)

Definition closed (Q : Chain -> Prop) : Prop := forall c c', calm c c' -> Q c -> Q c'.
Definition tame {A} (Q : Chain -> Prop) (m : K A) : Prop := forall c, Q c -> calm c (m c).2.

Lemma tame_bind {A B} Q (m : K A) (k : A -> K B) :
  closed Q -> tame Q m -> (forall a, tame Q (k a)) -> tame Q (m ≫= k).
Proof.
  intros HQ Hm Hk c Hc. specialize (Hm c Hc). unfold mbind, M_bind.
  destruct (m c) as [[a| | |] c1]; cbn in *; try done. eapply calm_trans; [exact Hm|]. apply Hk. eauto.
Qed.

Lemma tame_frames {A} Q (m : K A) : frames spine m -> tame Q m.
Proof. intros Hm c _. apply calm_spine, Hm. Qed.

Lemma closed_known o : closed (fun c => linked c /\ known o c).
Proof. intros c c' Hc [H1 H2]. eauto using calm_linked, calm_known. Qed.
Lemma closed_linked : closed linked.
Proof. intros c c'. apply calm_linked. Qed.

Lemma frames_book_spine {A} (m : K A) : frames book m -> frames spine m.
Proof. intros Hm c. unfold spine, orders, entries, sortkeys, triggers, next_index. by rewrite Hm. Qed.

Lemma setOrder_tame o : tame (fun c => linked c /\ known o c) (setOrder o).
Proof.
  intros c [_ (o0 & Ho & E)]. split; cbn.
  - intros i o1 H1. unfold orders. cbn. destruct (decide (i = ord_OrderIndex o)) as [->|Hne].
    + rewrite lookup_insert_eq. assert (o1 = o0) as -> by congruence. eauto.
    + rewrite lookup_insert_ne by done. eauto.
  - intros i o1. unfold orders. cbn. rewrite lookup_insert_Some. intros [[<- <-]|[_ H1]]; eauto.
  - intros m sk e He. eauto.
  - done.
  - done.
Qed.

Lemma frames_adjust m a p b q s d : frames spine (adjustPriceLevel m a p b q s d).
Proof.
  intros c. unfold adjustPriceLevel. rewrite run_ensure. destruct (negb _); [|done].
  unfold mbind at 1, M_bind at 1, lift. destruct (bump_level _ _ _ _ _ _); [|done..]. by destruct (level_is_zero _).
Qed.

Lemma removeEntry_tame m a i : tame linked (removeEntry m a i).
Proof.
  intros c Hc. unfold removeEntry. destruct (bst_OrderToSortKey (book c) !! (m, i)) as [sk|] eqn:Hs; [|apply calm_refl].
  destruct (bst_OrderBookEntries (book c) !! (m, sk)) as [e|] eqn:He; [|apply calm_refl].
  unfold Entries_Remove, SortKey_Remove, set_book. rewrite !run_modify.
  match goal with |- calm c (?k ?c1).2 => assert (calm c c1) as H1 end.
  - split; cbn; [intros j o Ho; eauto..| |done|done].
    + intros m' sk' e'. unfold entries, sortkeys. cbn. rewrite lookup_delete_Some. intros [Hne He'].
      exists e'. split_and!; [done..|]. destruct (lk_entry c Hc _ _ _ He') as [_ Hs'].
      rewrite lookup_delete_ne; [done|]. intros [= Em Ei]. unfold sortkeys in Hs'. rewrite <- Em, <- Ei, Hs in Hs'. congruence.
  - eapply calm_trans; [exact H1|].
    match goal with |- calm ?c1 (?k ?c1).2 => change (calm c1 (k c1).2) end.
    apply calm_spine. apply frames_bind_at; [done|]. intros q c2. apply frames_adjust.
Qed.

Lemma calm_read {A B} (f : Chain -> R A) (k : A -> K B) c :
  (forall a, f c = Ok a -> calm c (k a c).2) -> calm c ((a ← reads f; k a) c).2.
Proof. intros Hk. unfold mbind, M_bind, reads. destruct (f c); [by apply Hk|apply calm_refl..]. Qed.

Lemma stored_known i o c o' :
  linked c -> GetOrder i c = Ok o -> same_id o o' -> ord_OrderIndex o' = i /\ known o' c.
Proof.
  intros Hc Ho%of_option_ok E. pose proof (lk_keyed c Hc _ _ Ho) as Hi. destruct E as (E1 & E2 & E3).
  split; [congruence|]. exists o. unfold orders. rewrite E1, Hi. by split_and!.
Qed.

(** *** The index layer *)

Lemma spine_bump a m d : frames spine (bumpAccountOpenOrderCount a m d).
Proof. intros c. unfold bumpAccountOpenOrderCount. rewrite !run_ensure. repeat case_match; done. Qed.
Lemma spine_index_open o : frames spine (indexAccountOpenOrder o).
Proof.
  intros c. unfold indexAccountOpenOrder, set_book. rewrite run_modify. case_match; [done|]. by rewrite spine_bump.
Qed.
Lemma spine_unindex_open o : frames spine (unindexAccountOpenOrder o).
Proof.
  intros c. unfold unindexAccountOpenOrder, set_book. rewrite run_modify. case_match; [done|]. by rewrite spine_bump.
Qed.
Lemma spine_index_client o : frames spine (indexClientOrder o).
Proof. unfold indexClientOrder. by case_match. Qed.
Lemma spine_unindex_client o : frames spine (unindexClientOrder o).
Proof. unfold unindexClientOrder. by case_match. Qed.
Lemma spine_unindex_client_if o : frames spine (unindexClientOrderIfMatches o).
Proof. intros c. unfold unindexClientOrderIfMatches. by repeat case_match. Qed.
Lemma spine_add_expiry o : frames spine (addExpiryIndex o).
Proof. unfold addExpiryIndex. by case_match. Qed.
Lemma spine_remove_expiry o : frames spine (removeExpiryIndex o).
Proof. unfold removeExpiryIndex. by case_match. Qed.
Lemma spine_release o : frames spine (releaseSpotLockOnClose o).
Proof. apply frames_book_spine, frames_release. Qed.
Lemma spine_lock o : frames spine (applySpotLockOnOpen o).
Proof. apply frames_book_spine, frames_spot_lock. Qed.
Create HintDb spine discriminated.
#[export] Hint Resolve spine_index_open spine_unindex_open spine_index_client spine_unindex_client
  spine_unindex_client_if spine_add_expiry spine_remove_expiry spine_release spine_lock frames_adjust : spine.

Ltac tame_steps :=
  repeat first
    [ apply tame_bind; [apply closed_known|..|intros ?]
    | apply setOrder_tame
    | apply tame_frames; solve [auto 1 with spine]
    | by intros ? _; apply calm_refl ].

Lemma close_order_tame o : tame (fun c => linked c /\ known o c) (close_order o).
Proof. unfold close_order. tame_steps. Qed.

Lemma tame_weaken {A} (Q Q' : Chain -> Prop) (m : K A) : (forall c, Q' c -> Q c) -> tame Q m -> tame Q' m.
Proof. intros HQ Hm c Hc. auto. Qed.

Lemma removeEntry_known m a i o : tame (fun c => linked c /\ known o c) (removeEntry m a i).
Proof. eapply tame_weaken; [|apply removeEntry_tame]. by intros c []. Qed.

Lemma EvictMakerOrder_tame i st : tame linked (EvictMakerOrder i st).
Proof.
  intros c Hc. unfold EvictMakerOrder. apply calm_read. intros o Ho.
  destruct (stored_known i o c (o <| ord_Status := st |>) Hc Ho) as [_ Hk]; [done|].
  match goal with |- calm c (?m c).2 => assert (tame (fun c => linked c /\ known (o <| ord_Status := st |>) c) m) as Ht end.
  { apply tame_bind; [apply closed_known|apply removeEntry_known|intros _].
    apply tame_bind; [apply closed_known|apply tame_frames; auto with spine|intros _]. apply close_order_tame. }
  by apply Ht.
Qed.

(** Cancelling a parked order also takes its trigger away. *)
Lemma CancelOrder_resting_tame i o c :
  linked c -> GetOrder i c = Ok o -> ord_Status o <> OrderStatusTriggeredPending -> calm c (CancelOrder i c).2.
Proof.
  intros Hc Ho Hst. unfold CancelOrder. apply calm_read. intros o' Ho'. assert (o' = o) as -> by congruence.
  destruct (stored_known i o c (o <| ord_Status := OrderStatusCancelled |>) Hc Ho) as [_ Hk]; [done|].
  match goal with |- calm c (?m c).2 =>
    assert (tame (fun c => linked c /\ known (o <| ord_Status := OrderStatusCancelled |>) c) m) as Ht end.
  { apply tame_bind; [apply closed_known| |intros _; apply close_order_tame].
    destruct (is_resting_status _).
    - apply tame_bind; [apply closed_known|by intros ? _; apply calm_refl|intros _].
      apply tame_bind; [apply closed_known|apply removeEntry_known|intros _]. apply tame_frames; auto with spine.
    - rewrite (proj2 (Z.eqb_neq _ _) Hst). by intros ? _; apply calm_refl. }
  by apply Ht.
Qed.

Lemma linked_untrigger m p i c : linked c -> linked (removeTrigger m p i c).2.
Proof.
  intros [L1 L2 L3 L4 L5]. split; [exact L1|exact L2| |exact L4|].
  - intros m' p' j o Ht. unfold triggers in Ht. cbn in Ht. apply elem_of_difference in Ht as [Ht _]. apply (L3 _ _ _ _ Ht).
  - intros m' p' j Ht. unfold triggers in Ht. cbn in Ht. apply elem_of_difference in Ht as [Ht _]. apply (L5 _ _ _ Ht).
Qed.

(** A cancel keeps the links and every trigger of another order. *)
Lemma CancelOrder_keeps i c :
  linked c ->
  linked (CancelOrder i c).2 /\
  (forall m p j, (m, p, j) ∈ triggers c -> j <> i -> (m, p, j) ∈ triggers (CancelOrder i c).2) /\
  (forall j, unbooked j c -> unbooked j (CancelOrder i c).2) /\
  next_index (CancelOrder i c).2 = next_index c.
Proof.
  intros Hc. destruct (GetOrder i c) as [o|e| |] eqn:Ho; cycle 1.
  1-3: unfold CancelOrder, mbind, M_bind, reads; rewrite Ho; done.
  destruct (decide (ord_Status o = OrderStatusTriggeredPending)) as [Hst|Hst].
  - assert (exists c1, c1 = (removeTrigger (ord_MarketIndex o) (ord_TriggerPrice o) (ord_OrderIndex o) c).2 /\
      calm c1 (CancelOrder i c).2) as (c1 & -> & Hcalm).
    { eexists. split; [done|]. unfold CancelOrder. rewrite (run_bind _ _ c o c) by by apply reads_ok.
      unfold is_resting_status. rewrite Hst. cbn [Z.eqb orb Pos.eqb OrderStatusTriggeredPending OrderStatusOpen OrderStatusPartiallyFilled].
      match goal with |- calm ?c1 _ => rewrite (run_bind _ _ c tt c1) by done end.
      apply close_order_tame. split; [by apply linked_untrigger|].
      by destruct (stored_known i o c (o <| ord_Status := OrderStatusCancelled |>) Hc Ho). }
    split_and!; [by eapply calm_linked, linked_untrigger| | |by rewrite (cm_next _ _ Hcalm)].
    + intros m p j Ht Hj. rewrite (cm_triggers _ _ Hcalm). unfold triggers. cbn. apply elem_of_difference. split; [done|].
      apply of_option_ok in Ho. rewrite (lk_keyed c Hc _ _ Ho). set_solver.
    + intros j Hj. eapply calm_unbooked; [exact Hcalm|exact Hj].
  - pose proof (CancelOrder_resting_tame i o c Hc Ho Hst) as Hcalm.
    split_and!; [by eapply calm_linked| |intros j; by apply calm_unbooked|apply Hcalm].
    intros m p j Ht _. by rewrite (cm_triggers _ _ Hcalm).
Qed.

Lemma shrinkEntryResidue_tame m a i d : tame linked (shrinkEntryResidue m a i d).
Proof.
  intros c Hc. unfold shrinkEntryResidue. apply calm_read. intros sk Hsk%of_option_ok. apply calm_read.
  intros e He%of_option_ok. set (d' := if _ <? d then _ else d). cbv zeta.
  assert (forall c1, spine c1 = spine c -> forall e', ent_OrderIndex e' = ent_OrderIndex e ->
    calm c (Entries_Set (m, sk) e' c1).2 /\ calm c ((Entries_Remove (m, sk);; SortKey_Remove (m, i)) c1).2) as Hw.
  { intros c1 Hs e' Hi. unfold spine in Hs. injection Hs as H1 H2 H3 H4 H4'. split; split; cbn.
    - intros j o Ho. exists o. split; [|done]. change (orders c1 !! j = Some o). by rewrite H1.
    - intros j o Ho. change (orders c1 !! j = Some o) in Ho. rewrite H1 in Ho. eauto.
    - intros m' sk' e1 H5. change (<[(m, sk) := e']> (entries c1) !! (m', sk') = Some e1) in H5.
      change (exists e0, entries c !! (m', sk') = Some e0 /\ ent_OrderIndex e0 = ent_OrderIndex e1 /\
        sortkeys c1 !! (m', ent_OrderIndex e1) = sortkeys c !! (m', ent_OrderIndex e1)).
      rewrite H3. rewrite H2 in H5. revert H5. rewrite lookup_insert_Some.
      intros [[[= <- <-] <-]|[_ H5]]; eauto.
    - exact H4.
    - exact H4'.
    - intros j o Ho. exists o. split; [|done]. change (orders c1 !! j = Some o). by rewrite H1.
    - intros j o Ho. change (orders c1 !! j = Some o) in Ho. rewrite H1 in Ho. eauto.
    - intros m' sk' e1 H5. change (delete (m, sk) (entries c1) !! (m', sk') = Some e1) in H5.
      change (exists e0, entries c !! (m', sk') = Some e0 /\ ent_OrderIndex e0 = ent_OrderIndex e1 /\
        delete (m, i) (sortkeys c1) !! (m', ent_OrderIndex e1) = sortkeys c !! (m', ent_OrderIndex e1)).
      rewrite H3. rewrite H2 in H5. apply lookup_delete_Some in H5 as [Hne H5]. exists e1. split_and!; [done..|]. destruct (lk_entry c Hc _ _ _ H5) as [_ H6].
      rewrite lookup_delete_ne; [done|]. intros [= Em Ei]. rewrite <- Em, <- Ei in H6. unfold sortkeys in H6. congruence.
    - exact H4.
    - exact H4'. }
  unfold mbind at 1, M_bind at 1, lift at 1. destruct (CheckedQuote _ _); [|apply calm_refl..].
  unfold mbind at 1, M_bind at 1.
  match goal with |- context [adjustPriceLevel ?a1 ?a2 ?a3 ?a4 ?a5 ?a6 ?a7 c] =>
    pose proof (frames_adjust a1 a2 a3 a4 a5 a6 a7 c) as Hf; destruct (adjustPriceLevel a1 a2 a3 a4 a5 a6 a7 c) as [[u| | |] c1] end;
    cbn [snd] in Hf; [|by apply calm_spine..].
  destruct (_ =? 0).
  - destruct (Hw c1 Hf e eq_refl) as [_ Hr]. rewrite <- run_assoc.
    match goal with |- calm c (?m c1).2 => idtac end.
    unfold mbind at 1, M_bind at 1.
    destruct ((Entries_Remove (m, sk);; SortKey_Remove (m, i)) c1) as [[u'| | |] c2] eqn:E; cbn [snd] in Hr; try done.
    eapply calm_trans; [exact Hr|]. apply calm_spine. apply frames_bind_at; [apply frames_adjust|done].
  - match goal with |- context [Entries_Set (m, sk) ?x] => destruct (Hw c1 Hf x eq_refl) as [Hr _] end. exact Hr.
Qed.

Lemma tame_bind_post {A B} Q (m : K A) (k : A -> K B) :
  closed Q -> tame Q m -> (forall c a c1, m c = (Ok a, c1) -> tame Q (k a)) -> tame Q (m ≫= k).
Proof.
  intros HQ Hm Hk c Hc. specialize (Hm c Hc). specialize (Hk c). unfold mbind, M_bind.
  destruct (m c) as [[a| | |] c1]; cbn in *; try done. eapply calm_trans; [exact Hm|]. eapply Hk; [done|]. eauto.
Qed.

Lemma tame_attempt {A} Q (m : K A) : tame Q m -> tame Q (attempt m).
Proof. intros Hm c Hc. specialize (Hm c Hc). unfold attempt. by destruct (m c) as [[] ?]. Qed.

Lemma FillMakerOrder_tame i q : tame linked (FillMakerOrder i q).
Proof.
  intros c Hc. unfold FillMakerOrder. apply calm_read. intros o Ho.
  destruct (stored_known i o c o Hc Ho) as [_ Hk]; [done|].
  match goal with |- calm c (?m c).2 => assert (tame (fun c => linked c /\ known o c) m) as Ht end; [|by apply Ht].
  apply tame_bind; [apply closed_known| |].
  { eapply tame_weaken; [|apply shrinkEntryResidue_tame]. by intros ? []. }
  intros [removed quote]. unfold applyOrderResidue.
  apply tame_bind; [apply closed_known|by intros ? _; apply calm_refl|intros _].
  set (o1 := o <| ord_RemainingBaseAmount := _ |>).
  assert (forall o2, same_id o o2 -> tame (fun c => linked c /\ known o c) (setOrder o2;; mret o2)) as Hset.
  { intros o2 E c1 [H1 (o0 & H2 & E0)].
    assert (tame (fun c => linked c /\ known o2 c) (setOrder o2;; mret o2)) as Ht by tame_steps.
    apply Ht. split; [done|]. exists o0. destruct E as (E1 & E2 & E3). rewrite E1. split; [done|]. unfold same_id in *.
    naive_solver congruence. }
  apply tame_bind_post; [apply closed_known| |].
  - destruct (ord_RemainingBaseAmount o1 =? 0); [|by intros ? _; apply calm_refl]. tame_steps.
  - intros c1 o2 c2 Ho2. apply Hset. destruct (ord_RemainingBaseAmount o1 =? 0); inv_ok; by subst o2.
Qed.

(** *** The book never panics *)

Lemma returned_quote b p : returned (CheckedQuote b p).
Proof. unfold CheckedQuote. solve_safe. Qed.
Lemma returned_level pl a b q s d : returned (bump_level pl a b q s d).
Proof. unfold bump_level, ApplyMagDelta, ApplyCountDelta. solve_safe. Qed.
Lemma returned_order i c : returned (GetOrder i c).
Proof. apply returned_of_option. Qed.
#[export] Hint Resolve returned_quote returned_level returned_order : safe.

(** Runs a method that inspects the state it starts in. *)
Ltac at_state :=
  lazymatch goal with |- safe_at ?P ?m ?s =>
    let t := eval cbv beta zeta in (m s) in
    lazymatch t with ?m' s => change (safe_at P m' s) end end.

Ltac refold := match goal with |- returned (?f ?c).1 /\ _ => change (safe_at sized f c) end.

Lemma adjust_safe m a p b q s d : safe sized (adjustPriceLevel m a p b q s d).
Proof. intros c Hc. unfold adjustPriceLevel, set_book. at_state. solve_safe. Qed.
Lemma bump_safe a m d : safe sized (bumpAccountOpenOrderCount a m d).
Proof. intros c Hc. unfold bumpAccountOpenOrderCount, set_book. at_state. solve_safe. Qed.
Lemma setOrder_safe o : safe sized (setOrder o).
Proof. unfold setOrder, set_book. solve_safe. Qed.
#[export] Hint Resolve adjust_safe bump_safe setOrder_safe : safe.
Lemma index_open_safe o : safe sized (indexAccountOpenOrder o).
Proof. intros c Hc. unfold indexAccountOpenOrder, set_book. at_state. solve_safe. Qed.
Lemma unindex_open_safe o : safe sized (unindexAccountOpenOrder o).
Proof. intros c Hc. unfold unindexAccountOpenOrder, set_book. at_state. solve_safe. Qed.
Lemma index_client_safe o : safe sized (indexClientOrder o).
Proof. unfold indexClientOrder, set_book. solve_safe. Qed.
Lemma unindex_client_safe o : safe sized (unindexClientOrder o).
Proof. unfold unindexClientOrder, set_book. solve_safe. Qed.
Lemma unindex_client_if_safe o : safe sized (unindexClientOrderIfMatches o).
Proof.
  intros c Hc. unfold safe_at, unindexClientOrderIfMatches, set_book. repeat case_match; by split.
Qed.
Lemma add_expiry_safe o : safe sized (addExpiryIndex o).
Proof. unfold addExpiryIndex, set_book. solve_safe. Qed.
Lemma remove_expiry_safe o : safe sized (removeExpiryIndex o).
Proof. unfold removeExpiryIndex, set_book. solve_safe. Qed.
Lemma removeTrigger_safe m p i : safe sized (removeTrigger m p i).
Proof. unfold removeTrigger, set_book. solve_safe. Qed.
Lemma removeEntry_safe m a i : safe sized (removeEntry m a i).
Proof.
  intros c Hc. unfold safe_at, removeEntry. destruct (_ !! (m, i)) as [sk|]; [|by split].
  destruct (_ !! (m, sk)) as [e|]; [|by split].
  refold. unfold Entries_Remove, SortKey_Remove, set_book. solve_safe.
Qed.
Lemma insertEntry_safe m a e : safe sized (insertEntry m a e).
Proof. unfold insertEntry, Entries_Set, SortKey_Set, set_book. solve_safe. Qed.
Lemma shrink_safe m a i d : safe sized (shrinkEntryResidue m a i d).
Proof. unfold shrinkEntryResidue, Entries_Set, Entries_Remove, SortKey_Remove, set_book. solve_safe. Qed.
Lemma unlock_safe o : safe sized (releaseSpotLockOnClose o).
Proof.
  unfold releaseSpotLockOnClose, GetMarket. solve_safe.
  unfold safe_at, DecreaseLockedBalance. case_match; [by split|]. refold.
  unfold setAccountAsset, set_account_store. solve_safe.
Qed.
Lemma lock_safe o : safe sized (applySpotLockOnOpen o).
Proof.
  unfold applySpotLockOnOpen, GetMarket. solve_safe.
  unfold safe_at, IncreaseLockedBalance. case_match; [by split|]. refold.
  unfold setAccountAsset, set_account_store. solve_safe.
Qed.
#[export] Hint Resolve index_open_safe unindex_open_safe index_client_safe unindex_client_safe unindex_client_if_safe
  add_expiry_safe remove_expiry_safe removeTrigger_safe removeEntry_safe insertEntry_safe shrink_safe unlock_safe
  lock_safe : safe.

Lemma close_order_safe o : safe sized (close_order o).
Proof. unfold close_order. solve_safe. Qed.
#[export] Hint Resolve close_order_safe : safe.
Lemma EvictMakerOrder_safe i st : safe sized (EvictMakerOrder i st).
Proof. unfold EvictMakerOrder. solve_safe. Qed.
Lemma CancelOrder_safe i : safe sized (CancelOrder i).
Proof. unfold CancelOrder. solve_safe. Qed.
Lemma FillMakerOrder_safe i q : safe sized (FillMakerOrder i q).
Proof. unfold FillMakerOrder. solve_safe. Qed.
Lemma ActivateTrigger_safe i : safe sized (ActivateTrigger i).
Proof. unfold ActivateTrigger. solve_safe. Qed.
Lemma OpenOrder_safe o : safe sized (OpenOrder o).
Proof. unfold OpenOrder. solve_safe. Qed.
Lemma OpenTriggerOrder_safe o : safe sized (OpenTriggerOrder o).
Proof. unfold OpenTriggerOrder, addTrigger, set_book. solve_safe. Qed.
Lemma TransferAccountAssetBalance_safe a b x n l : safe sized (TransferAccountAssetBalance a b x n l).
Proof.
  intros c Hc. unfold safe_at, TransferAccountAssetBalance. case_match; [by split|]. refold.
  unfold setAccountAsset, set_account_store. solve_safe.
Qed.
#[export] Hint Resolve EvictMakerOrder_safe CancelOrder_safe FillMakerOrder_safe ActivateTrigger_safe OpenOrder_safe
  TransferAccountAssetBalance_safe : safe.
Lemma ApplySpotMatching_safe f b q : safe sized (ApplySpotMatching f b q).
Proof. unfold ApplySpotMatching, spotMakerDebit, spotTakerDebit. solve_safe. Qed.
#[export] Hint Resolve ApplySpotMatching_safe : safe.

(** ** Matching returns *)

Lemma calm_size c c' : calm c c' -> (size (entries c') <= size (entries c))%nat.
Proof.
  intros Hc. rewrite <- !(size_dom (D := gset (Z * list Z))). apply subseteq_size. intros [m sk].
  rewrite !elem_of_dom. intros [e He]. destruct (cm_entry _ _ Hc _ _ _ He) as (e0 & H0 & _). eauto.
Qed.

Lemma peek_entry m a c e : PeekBest m a c = Some e -> exists sk, entries c !! (m, sk) = Some e.
Proof.
  unfold PeekBest. intros Hp. destruct (head _) as [[[m' sk] e']|] eqn:Hh; cbn in Hp; [|done]. injection Hp as ->.
  apply head_filter_rows in Hh as (Hl & [H1 H2] & _). cbn in *.
  destruct (decide (m = m')) as [->|Hne]; [by exists sk|]. congruence.
Qed.

(** Evicting the head of a linked book removes its entry. *)
Lemma evict_head m a e st c r c' :
  PeekBest m a c = Some e -> linked c -> EvictMakerOrder (ent_OrderIndex e) st c = (Ok r, c') ->
  S (size (entries c')) = size (entries c).
Proof.
  intros [sk He]%peek_entry Hc Hr. destruct (lk_entry c Hc _ _ _ He) as [(o & Ho & Hm) Hsk].
  unfold EvictMakerOrder in Hr. inv_ok. unfold GetOrder in H. inv_ok. unfold orders in Ho. assert (x = o) as -> by congruence.
  assert (entries c' = entries x2) as ->.
  { rewrite (frames_run entries _ _ _ _ (close_order_entries _) Hr).
    by apply (frames_run entries _ _ _ _ (frames_core_entries _ (frames_book_core _ (frames_release o)))) in H1. }
  assert (entries x2 = delete (m, sk) (entries c)) as ->.
  { unfold removeEntry in H0. rewrite Hm in H0. unfold sortkeys in Hsk. rewrite Hsk in H0.
    unfold entries in He. rewrite He in H0. unfold Entries_Remove, SortKey_Remove, set_book in H0. inv_ok. subst.
    match goal with H : adjustPriceLevel ?a1 ?a2 ?a3 ?a4 ?a5 ?a6 ?a7 ?c0 = _ |- _ =>
      pose proof (frames_adjust a1 a2 a3 a4 a5 a6 a7 c0) as Hf; rewrite H in Hf end.
    unfold spine in Hf. by injection Hf as _ ? _ _ _. }
  rewrite map_size_delete, He. assert (size (entries c) <> 0%nat); [|lia].
  intros Hz%map_size_empty_iff. by rewrite Hz in He.
Qed.

(** What a step of the sweep may do to the state. *)
Definition quiet {A} (c : Chain) (x : R A * Chain) : Prop := returned x.1 /\ sized x.2 /\ calm c x.2.

Lemma quiet_intro {A} (m : K A) c : linked c -> sized c -> tame linked m -> safe sized m -> quiet c (m c).
Proof. intros Hl Hs Ht Hsafe. destruct (Hsafe c Hs). by split_and!; [..|apply Ht]. Qed.

Lemma quiet_bind {A B} (m : K A) (k : A -> K B) c :
  quiet c (m c) -> (forall a c1, m c = (Ok a, c1) -> calm c c1 -> sized c1 -> quiet c1 (k a c1)) -> quiet c ((m ≫= k) c).
Proof.
  unfold mbind, M_bind. intros (H1 & H2 & H3) Hk. destruct (m c) as [[a| | |] c1]; cbn in *; try done.
  destruct (Hk a c1 eq_refl H3 H2) as (K1 & K2 & K3). split_and!; [done..|by eapply calm_trans].
Qed.

Lemma quiet_read {A B} (f : Chain -> R A) (k : A -> K B) c :
  sized c -> returned (f c) -> (forall a, f c = Ok a -> quiet c (k a c)) -> quiet c ((a ← reads f; k a) c).
Proof.
  intros Hs Hr Hk. unfold mbind, M_bind, reads. destruct (f c); cbn in *; [auto|..]; by split_and!; [..|apply calm_refl].
Qed.

Lemma quiet_ret {A} (r : R A) c : sized c -> returned r -> quiet c (r, c).
Proof. intros Hs Hr. by split_and!; [..|apply calm_refl]. Qed.

Lemma evict_quiet i st c : linked c -> sized c -> quiet c (EvictMakerOrder i st c).
Proof. intros Hl Hs. apply quiet_intro; [done..|apply EvictMakerOrder_tame|auto with safe]. Qed.

Lemma nextMaker_loop_quiet fuel taker isPerp now c :
  linked c -> sized c -> (size (entries c) < fuel)%nat ->
  quiet c (nextMaker_loop fuel taker isPerp now c) /\
  forall maker c', nextMaker_loop fuel taker isPerp now c = (Ok (Some maker), c') ->
    PeekBest (ord_MarketIndex taker) (negb (ord_IsAsk taker)) c' = Some maker.
Proof.
  revert c. induction fuel as [|fuel IH]; intros c Hl Hs Hf; [lia|]. cbn [nextMaker_loop].
  destruct (PeekBest _ _ c) as [best|] eqn:Hp; [|split; [by apply quiet_ret|done]].
  destruct (price_unreachable taker best); [split; [by apply quiet_ret|done]|].
  destruct (_ =? _); [split; [by apply quiet_ret|done]|].
  assert (quiet c ((EvictMakerOrder (ent_OrderIndex best) OrderStatusCancelled;; nextMaker_loop fuel taker isPerp now) c) /\
    forall maker c', (EvictMakerOrder (ent_OrderIndex best) OrderStatusCancelled;; nextMaker_loop fuel taker isPerp now) c
      = (Ok (Some maker), c') -> PeekBest (ord_MarketIndex taker) (negb (ord_IsAsk taker)) c' = Some maker) as Hev.
  { assert (forall o c1, EvictMakerOrder (ent_OrderIndex best) OrderStatusCancelled c = (Ok o, c1) -> calm c c1 -> sized c1 ->
      quiet c1 (nextMaker_loop fuel taker isPerp now c1) /\ forall maker c', nextMaker_loop fuel taker isPerp now c1
      = (Ok (Some maker), c') -> PeekBest (ord_MarketIndex taker) (negb (ord_IsAsk taker)) c' = Some maker) as Hn.
    { intros o c1 Hr Hc1 Hs1. apply IH; [by eapply calm_linked|done|]. pose proof (evict_head _ _ _ _ _ _ _ Hp Hl Hr). lia. }
    split.
    - apply quiet_bind; [by apply evict_quiet|]. intros o c1 Hr Hc1 Hs1. by eapply Hn.
    - intros maker c' Hr. inv_ok. destruct (evict_quiet (ent_OrderIndex best) OrderStatusCancelled c Hl Hs) as (_ & Q2 & Q3).
      rewrite H in Q2, Q3. eapply Hn; eauto. }
  destruct (_ && _); [done|]. destruct (isPerp && _ && _); [split; [by apply quiet_ret|done]|].
  destruct (isPerp && _ && _); [done|]. split; [by apply quiet_ret|]. by intros maker c' [= <- <-].
Qed.

Lemma matchSize_returned taker maker isPerp c : sized c -> returned (matchSize taker maker isPerp c).
Proof.
  intros Hc. unfold matchSize, reduce_cap.
  repeat (first [apply returned_bind; [|intros ?] | exact I | rewrite to_uint64_size by by apply get_position_sized | case_match]).
Qed.

(** A fill engine that is quiet and evicts the head when it does not
    commit. *)
Definition quiet_engine (apply : Order -> OrderBookEntry -> Z -> K bool) : Prop :=
  forall t maker b c, linked c -> sized c -> PeekBest (ord_MarketIndex t) (negb (ord_IsAsk t)) c = Some maker ->
    quiet c (apply t maker b c) /\
    forall c', apply t maker b c = (Ok false, c') -> S (size (entries c')) = size (entries c).

Lemma quiet_in_cache t maker b c fill :
  safe sized fill -> frames book fill -> linked c -> sized c ->
  PeekBest (ord_MarketIndex t) (negb (ord_IsAsk t)) c = Some maker ->
  quiet c (apply_in_cache (ent_OrderIndex maker) b fill c) /\
  forall c', apply_in_cache (ent_OrderIndex maker) b fill c = (Ok false, c') -> S (size (entries c')) = size (entries c).
Proof.
  intros Hf Hb Hl Hs Hp. unfold apply_in_cache.
  assert (quiet c ((fill;; FillMakerOrder (ent_OrderIndex maker) b) c)) as Hq.
  { apply quiet_intro; [done..| |intros c0 H0; solve_safe].
    apply tame_bind; [apply closed_linked|by apply tame_frames, frames_book_spine|]. intros _. apply FillMakerOrder_tame. }
  destruct ((fill;; FillMakerOrder _ b) c) as [[o|e| |] c1]; destruct Hq as (Q1 & Q2 & Q3); cbn in Q1; [by split| |done..].
  unfold classifyApplyError. destruct (IsRecoverableMakerError e); [|destruct (IsRecoverableTakerError e); split; [by apply quiet_ret|done|by apply quiet_ret|done]].
  split.
  - apply quiet_bind; [by apply evict_quiet|]. intros o c2 _ _ H2. by apply quiet_ret.
  - intros c' Hr. inv_ok. subst. by eapply evict_head.
Qed.

Lemma user_engine_quiet m : quiet_engine (applyUserFill m).
Proof.
  intros t maker b c Hl Hs Hp. unfold applyUserFill. destruct (_ =? _); (apply (quiet_in_cache t); [| |done..]).
  - apply Apply_safe.
  - apply Apply_book.
  - apply ApplySpotMatching_safe.
  - apply ApplySpotMatching_book.
Qed.

Definition same_order (t t' : Order) : Prop :=
  ord_OrderIndex t' = ord_OrderIndex t /\ ord_MarketIndex t' = ord_MarketIndex t.

Lemma match_loop_quiet apply go_on isPerp now maxFills fuel taker tf fills c :
  quiet_engine apply -> (forall t c, returned (go_on t c)) -> linked c -> sized c -> (Z.to_nat (maxFills - fills) + size (entries c) < fuel)%nat ->
  let x := match_loop apply go_on isPerp now maxFills fuel taker tf fills c in
  quiet c x /\ forall t' tf' rej c', x = (Ok (t', tf', rej), c') -> same_order taker t'.
Proof.
  intros Hap Hgo. revert taker tf fills c. induction fuel as [|fuel IH]; intros taker tf fills c Hl Hs Hf; [lia|].
  cbn [match_loop]. destruct (negb _) eqn:Hg; [split; [by apply quiet_ret|by intros ? ? ? ? [= <- _ _ _]]|]. breflect.
  destruct (nextMaker_loop_quiet (S (size (entries c))) taker isPerp now c Hl Hs ltac:(lia)) as [Hn1 Hn2].
  cbv zeta.
  match goal with |- quiet c ((?m ≫= ?k) c) /\ _ =>
    assert (forall a c1, m c = (Ok a, c1) -> calm c c1 -> sized c1 ->
      quiet c1 (k a c1) /\ forall t' tf' rej c', k a c1 = (Ok (t', tf', rej), c') -> same_order taker t') as Hk end.
  2:{ split; [apply quiet_bind; [done|]; intros a c1 H1 H2 H3; by apply Hk|].
      intros t' tf' rej c' Hr. apply M_bind_ok in Hr as (a & c1 & H1 & Hr). destruct Hn1 as (_ & Q2 & Q3). unfold nextMaker in H1.
      unfold entries in Q2, Q3. rewrite H1 in Q2, Q3. eapply Hk; eauto. }
  intros maker c1 Hm Hc1 Hs1. destruct maker as [maker|]; [|split; [by apply quiet_ret|by intros ? ? ? ? [= <- _ _ _]]].
  pose proof (Hn2 _ _ Hm) as Hp. pose proof (calm_linked _ _ Hc1 Hl) as Hl1. pose proof (calm_size _ _ Hc1) as Hz1.
  pose proof (matchSize_returned taker maker isPerp c1 Hs1) as Hret.
  destruct (matchSize taker maker isPerp c1) as [base|e| |] eqn:Hms; try done.
  2:{ unfold mbind, M_bind, reads. rewrite Hms. split; [by apply quiet_ret|done]. }
  rewrite (run_bind _ _ c1 base c1) by by apply reads_ok.
  destruct base as [base|]; [|split; [by apply quiet_ret|by intros ? ? ? ? [= <- _ _ _]]].
  destruct (Hap taker maker base c1 Hl1 Hs1 Hp) as [Hq Hz].
  unfold mbind at 1 3, M_bind at 1 3, catch_rejected.
  destruct (apply taker maker base c1) as [[committed|e| |] c2] eqn:Ha; destruct Hq as (Q1 & Q2 & Q3); cbn in Q1, Q2, Q3; try done.
  2:{ destruct e as [| | | |[]| | | | | |]; (split; [by split_and!|]); try done; by intros ? ? ? ? [= <- _ _ _]. }
  pose proof (calm_linked _ _ Q3 Hl1) as Hl2. pose proof (calm_size _ _ Q3) as Hz2.
  assert (forall (x : R (Order * Z * bool) * Chain), quiet c2 x -> quiet c1 x) as Hq12.
  { intros x (R1 & R2 & R3). by split_and!; [..|eapply calm_trans]. }
  destruct committed.
  - cbv zeta. set (t2 := taker <| ord_RemainingBaseAmount := _ |>).
    pose proof (Hgo t2 c2) as Hg. destruct (go_on t2 c2) as [more|e| |] eqn:Hmore; try done.
    2:{ unfold mbind, M_bind, reads. rewrite Hmore. by split; [apply Hq12, quiet_ret|]. }
    rewrite (run_bind _ _ c2 more c2) by by apply reads_ok.
    destruct more; cbn [negb]; [|by split; [apply Hq12, quiet_ret|intros ? ? ? ? [= <- _ _ _]]].
    match goal with |- quiet c1 (match_loop _ _ _ _ _ _ ?t ?f ?n _) /\ _ =>
      destruct (IH t f n c2 Hl2 Q2 ltac:(lia)) as [R1 R2] end.
    split; [by apply Hq12|]. intros t' tf' rej c' Hr. apply R2 in Hr. exact Hr.
  - specialize (Hz c2 eq_refl). destruct (IH taker tf fills c2 Hl2 Q2 ltac:(lia)) as [R1 R2].
    split; [by apply Hq12|]. done.
Qed.

Lemma MatchOrder_quiet taker maxFills c :
  linked c -> sized c ->
  quiet c (MatchOrder taker maxFills c) /\
  forall t' f s c', MatchOrder taker maxFills c = (Ok (t', f, s), c') -> same_order taker t'.
Proof.
  intros Hl Hs. unfold MatchOrder, MatchOrder_with, GetMarket.
  destruct (mst_Markets (market c) !! ord_MarketIndex taker) as [m|] eqn:Hm.
  2:{ unfold mbind, M_bind, reads. rewrite Hm. split; [by apply quiet_ret|done]. }
  rewrite (run_bind _ _ c m c) by by (unfold reads; rewrite Hm).
  assert (forall (t : Order) (c : Chain), returned (mret true : R bool)) as Hgo by done.
  destruct (match_loop_quiet (applyUserFill m) (fun _ _ => mret true) (mkt_MarketType m =? MarketTypePerps) (BlockTime c) maxFills
    (S (Z.to_nat maxFills + size (entries c))) taker 0 0 c (user_engine_quiet m) Hgo Hl Hs ltac:(lia)) as [H1 H2].
  split.
  - apply quiet_bind; [exact H1|]. intros [[t' f] rej] c1 _ _ Hs1. by apply quiet_ret.
  - intros t' f s c' [[[t1 f1] rej] [c1 [Hr Hr']]]%M_bind_ok. injection Hr' as <- <- <- <-. by eapply H2.
Qed.

(** ** The trigger sweep *)

(** Order [i] is stored in market [m] and has no trigger key. *)
Definition loose (i m : Z) (T : gset (Z * Z * Z)) (c : Chain) : Prop :=
  linked c /\ triggers c = T /\ (forall m' p, (m', p, i) ∉ T) /\
  exists o, orders c !! i = Some o /\ ord_MarketIndex o = m.

Lemma loose_calm i m T c c' : calm c c' -> loose i m T c -> loose i m T c'.
Proof.
  intros Hc (H1 & H2 & H3 & o & Ho & Hm). destruct (cm_order _ _ Hc _ _ Ho) as (o' & Ho' & (_ & Em & _)).
  split_and!; [by eapply calm_linked|by rewrite (cm_triggers _ _ Hc)|done|]. exists o'. split; [done|congruence].
Qed.

Lemma loose_frames {A} i m T (k : K A) : frames spine k -> stable (loose i m T) k.
Proof. intros Hk. eapply stable_frames; [exact Hk|]. intros c c' E. by apply loose_calm, calm_spine. Qed.

Lemma setOrder_loose o T : stable (loose (ord_OrderIndex o) (ord_MarketIndex o) T) (setOrder o).
Proof.
  intros c ([L1 L2 L3 L4 L5] & HT & Hn & o0 & Ho & Hm). unfold loose, setOrder, orders, triggers in *. cbn. split_and!; [|done..|].
  - split; unfold orders, triggers; cbn.
    + intros i o1. rewrite lookup_insert_Some. intros [[<- <-]|[_ H1]]; eauto.
    + intros m sk e He. destruct (L2 m sk e He) as [(o1 & H1 & H2) H3]. split; [|exact H3].
      destruct (decide (ent_OrderIndex e = ord_OrderIndex o)) as [E|Hne].
      * rewrite E, lookup_insert_eq. exists o. split; [done|]. unfold orders in H1. rewrite E in H1. congruence.
      * rewrite lookup_insert_ne by done. eauto.
    + intros m p i o1 Ht. rewrite HT in Ht. rewrite lookup_insert_ne by (intros <-; by eapply Hn).
      intros Ho1. apply (L3 m p i o1); [|done]. unfold triggers. by rewrite HT.
    + intros i o1. rewrite lookup_insert_Some. intros [[<- <-]|[_ H1]]; [exact (L4 _ _ Ho)|exact (L4 _ _ H1)].
    + exact L5.
  - exists o. by rewrite lookup_insert_eq.
Qed.

Lemma insertEntry_loose o T c :
  unbooked (ord_OrderIndex o) c -> loose (ord_OrderIndex o) (ord_MarketIndex o) T c ->
  loose (ord_OrderIndex o) (ord_MarketIndex o) T (insertEntry (ord_MarketIndex o) (ord_IsAsk o) (entry_of o) c).2.
Proof.
  intros Hu ([L1 L2 L3 L4 L5] & HT & Hn & o0 & Ho & Hm). unfold insertEntry.
  apply bind_state; [by split_and!; eauto|]. intros q c0 Hq. inv_ok. cbv zeta.
  unfold Entries_Set, SortKey_Set, set_book. rewrite !run_modify. apply loose_frames; [apply frames_adjust|].
  set (sk := SortableKey _ _ _). split_and!; [|done..|by eauto].
  split; [exact L1| | |exact L4|exact L5].
  - intros m' sk' e. unfold entries, sortkeys. cbn. rewrite lookup_insert_Some. intros [[[= <- <-] <-]|[Hne He]].
    + cbn. rewrite lookup_insert_eq. eauto.
    + destruct (L2 _ _ _ He) as [H1 H2]. split; [done|]. rewrite lookup_insert_ne; [done|]. intros [= _ E].
      by apply (Hu _ _ _ He).
  - intros m' p i o1 Ht Ho1. destruct (L3 _ _ _ _ Ht Ho1) as (K1 & K2 & K3). split_and!; [done..|].
    intros m2 sk2 e2. unfold entries. cbn. rewrite lookup_insert_Some. intros [[_ <-]|[_ He]]; [|by eapply K3].
    cbn. intros <-. apply (Hn m' p). by rewrite <- HT.
Qed.

Ltac loose_steps :=
  repeat first [ apply stable_bind; [|intros ?] | apply setOrder_loose | apply loose_frames; solve [auto 1 with spine] ].

Lemma OpenOrder_loose o T c :
  unbooked (ord_OrderIndex o) c -> loose (ord_OrderIndex o) (ord_MarketIndex o) T c ->
  loose (ord_OrderIndex o) (ord_MarketIndex o) T (OpenOrder o c).2.
Proof.
  intros Hu Hc. unfold OpenOrder. destruct (is_resting_status _); cycle 1.
  { revert c Hu Hc. enough (stable (loose (ord_OrderIndex o) (ord_MarketIndex o) T)
      ((unindexClientOrderIfMatches o;; unindexAccountOpenOrder o;; removeExpiryIndex o);; setOrder o)) by (intros; auto).
    loose_steps. }
  rewrite run_assoc. apply bind_state; [by apply loose_frames; [apply spine_lock|]|]. intros u c1 Hr.
  rewrite run_assoc. pose proof (frames_run _ _ _ _ _ (spine_lock o) Hr) as Hs.
  assert (loose (ord_OrderIndex o) (ord_MarketIndex o) T c1) as Hc1 by (eapply loose_calm; [by apply calm_spine|exact Hc]).
  assert (unbooked (ord_OrderIndex o) c1) as Hu1 by (eapply calm_unbooked; [by apply calm_spine|exact Hu]).
  pose proof (insertEntry_loose o T c1 Hu1 Hc1) as Hi.
  apply bind_state; [done|]. intros u2 c2 Hr2. rewrite Hr2 in Hi. cbn in Hi. clear Hr2 Hr Hs Hc1 Hu1. revert c2 Hi.
  enough (stable (loose (ord_OrderIndex o) (ord_MarketIndex o) T)
      ((indexClientOrder o;; indexAccountOpenOrder o;; addExpiryIndex o);; setOrder o)) by (intros; auto).
  loose_steps.
Qed.

(** A due trigger key of another order survives the firing of this one. *)
Definition sweeping (js : list Z) (c : Chain) : Prop :=
  sized c /\ linked c /\ forall j, j ∈ js -> exists m p, (m, p, j) ∈ triggers c.

(** What the run of one activated order leaves, whatever its outcome. *)
Definition left_loose (i m : Z) (T : gset (Z * Z * Z)) (c : Chain) : Prop := sized c /\ loose i m T c.

Lemma run_activated_loose o T c :
  unbooked (ord_OrderIndex o) c -> left_loose (ord_OrderIndex o) (ord_MarketIndex o) T c ->
  safe_at (left_loose (ord_OrderIndex o) (ord_MarketIndex o) T) (run_activated o) c.
Proof.
  intros Hu [Hs Hc]. unfold run_activated, safe_at. erewrite run_bind by (by apply reads_ok).
  destruct (MatchOrder_quiet o (mtp_MaxFillsPerMsg (xst_MatchingParams (misc c))) c) as [Hq Hid]; [by apply Hc|done|].
  unfold mbind at 1 2, M_bind at 1 2.
  destruct (MatchOrder _ _ c) as [[[[o1 f] st]|e| |] c1]; destruct Hq as (Q1 & Q2 & Q3); cbn in Q1, Q2, Q3; try done.
  - destruct (Hid _ _ _ _ eq_refl) as [E1 E2]. cbv zeta. set (o2 := o1 <| ord_Status := _ |>).
    pose proof (OpenOrder_safe o2 c1 Q2) as [P1 P2]. split; [exact P1|]. split; [exact P2|].
    rewrite <- E1, <- E2. apply (OpenOrder_loose o2).
    + cbn. rewrite E1. by eapply calm_unbooked.
    + cbn. rewrite E1, E2. by eapply loose_calm.
  - split; [done|]. split; [done|]. by eapply loose_calm.
Qed.

Lemma ActivateTrigger_result i c o :
  linked c -> orders c !! i = Some o -> (exists m p, (m, p, i) ∈ triggers c) ->
  exists c', ActivateTrigger i c = (Ok (o <| ord_Status := OrderStatusOpen |>), c') /\
    unbooked i c' /\ loose i (ord_MarketIndex o) (triggers c ∖ {[(ord_MarketIndex o, ord_TriggerPrice o, i)]}) c' /\
    account c' = account c.
Proof.
  intros Hc Ho (m & p & Ht). pose proof (lk_keyed c Hc _ _ Ho) as Hi.
  destruct (lk_trigger c Hc _ _ _ _ Ht Ho) as (Em & Ep & Hu).
  unfold ActivateTrigger. rewrite (run_bind _ _ c o c) by (apply reads_ok; unfold GetOrder; unfold orders in Ho; by rewrite Ho).
  unfold removeTrigger, set_book. rewrite run_modify. rewrite Hi.
  match goal with |- exists c', (_ ≫= ?k) ?c1 = _ /\ _ =>
    assert (loose i (ord_MarketIndex o) (triggers c ∖ {[(ord_MarketIndex o, ord_TriggerPrice o, i)]}) c1) as H1 end.
  { split_and!; [apply (linked_untrigger (ord_MarketIndex o) (ord_TriggerPrice o) i c Hc)|done| |by eauto].
    intros m' p' [Ht' Hne]%elem_of_difference. destruct (lk_trigger c Hc _ _ _ _ Ht' Ho) as (<- & <- & _). set_solver. }
  match goal with |- exists c', ((?k1 ≫= ?k2) ?c1) = _ /\ _ => set (c1' := c1) in *;
    pose proof (spine_remove_expiry o c1') as Hf; assert (exists c2, removeExpiryIndex o c1' = (Ok tt, c2) /\ account c2 = account c1') as (c2 & Hr & Ha) end.
  { unfold removeExpiryIndex. case_match; eauto. }
  rewrite (run_bind _ _ _ _ _ Hr). rewrite Hr in Hf. cbn in Hf. eexists. split; [done|].
  assert (unbooked i c2) as Hu2.
  { eapply calm_unbooked; [by apply calm_spine|]. exact Hu. }
  split_and!; [exact Hu2| |exact Ha].
  assert (forall T, stable (loose i (ord_MarketIndex o) T) (setOrder (o <| ord_Status := OrderStatusOpen |>))) as Hset.
  { intros T. rewrite <- Hi. exact (setOrder_loose (o <| ord_Status := OrderStatusOpen |>) T). }
  apply (Hset _ c2). eapply loose_calm; [by apply calm_spine|exact H1].
Qed.

Lemma attempt_safe {A} P (m : K A) c : safe_at P m c -> exists r c', attempt m c = (Ok r, c') /\ P c' /\ c' = (m c).2.
Proof. unfold safe_at, attempt. destruct (m c) as [[] ?]; cbn; naive_solver. Qed.

(** One firing uses up its own trigger and leaves the others alone. *)
Lemma fire_trigger_sweeping i js c :
  sweeping (i :: js) c -> i ∉ js -> exists c', fire_trigger i c = (Ok tt, c') /\ sweeping js c'.
Proof.
  intros (Hs & Hl & Hj) Hni. unfold fire_trigger. destruct (orders c !! i) as [o|] eqn:Ho; cycle 1.
  { exists c. split; [|split_and!; [done..|]; intros; apply Hj; set_solver].
    unfold mbind, M_bind, attempt, ActivateTrigger, mbind, M_bind, reads, GetOrder. unfold orders in Ho. by rewrite Ho. }
  pose proof (lk_keyed c Hl _ _ Ho) as Hi.
  destruct (ActivateTrigger_result i c o Hl Ho (Hj i ltac:(set_solver))) as (c1 & Hr1 & Hu1 & Hc1 & Ha).
  assert (forall j, j ∈ js -> exists m p, (m, p, j) ∈ triggers c1) as Hj1.
  { intros j Hin. destruct (Hj j) as (m & p & Ht); [set_solver|]. exists m, p. destruct Hc1 as (_ & -> & _). set_solver. }
  rewrite (run_bind _ _ c (Some (o <| ord_Status := OrderStatusOpen |>)) c1) by (unfold attempt; by rewrite Hr1).
  cbv beta match. set (o1 := activated_twin _).
  assert (ord_OrderIndex o1 = i /\ ord_MarketIndex o1 = ord_MarketIndex o) as [E1 E2].
  { unfold o1, activated_twin. by case_match; cbn. }
  destruct (attempt_safe (left_loose (ord_OrderIndex o1) (ord_MarketIndex o1) (triggers c1)) (run_activated o1) c1)
    as (r & c2 & Hr2 & [Hs2 (Hl2 & Ht2 & _)] & _).
  { apply run_activated_loose; [by rewrite E1|]. split; [by eapply sized_account|]. rewrite E1, E2.
    pose proof Hc1 as (_ & K2 & _). by rewrite K2. }
  rewrite (run_bind _ _ _ _ _ Hr2). destruct r as [u|].
  { exists c2. split; [done|]. split_and!; [done..|]. by rewrite Ht2. }
  destruct (attempt_safe sized (CancelOrder i) c2) as (r & c3 & Hr3 & Hs3 & E3); [by apply CancelOrder_safe|].
  cbn [ord_OrderIndex]. 
  rewrite (run_bind _ _ c2 r c3) by (rewrite <- Hr3; by cbn; rewrite Hi).
  exists c3. split; [done|]. destruct (CancelOrder_keeps i c2 Hl2) as (K1 & K2 & _). rewrite E3. split_and!; [by rewrite <- E3|done|].
  intros j Hin. destruct (Hj1 j Hin) as (m & p & Ht). exists m, p. apply K2; [by rewrite Ht2|]. by intros ->.
Qed.

(** ** The levels the impact price walks *)

Definition levels (c : Chain) := bst_PriceLevels (book c).

(** A level is stored under its price; at price zero it is worth nothing. *)
Definition flat_level (p : Z) (v : PriceLevelAggregate) : Prop :=
  pl_Price v = p /\ (p = 0 -> pl_AskQuoteSum v = 0 /\ pl_BidQuoteSum v = 0).
Definition flat (c : Chain) : Prop := forall m p v, levels c !! (m, p) = Some v -> flat_level p v.

Lemma flat_levels c c' : levels c' = levels c -> flat c -> flat c'.
Proof. unfold flat. by intros ->. Qed.
Lemma flat_frames {A} (k : K A) : frames levels k -> stable flat k.
Proof. intros Hk. eapply stable_frames; [exact Hk|]. apply flat_levels. Qed.
Lemma flat_book {A} (k : K A) : frames book k -> stable flat k.
Proof. intros Hk. apply flat_frames. intros c. unfold levels. by rewrite Hk. Qed.

Lemma mag_delta_zero cur mag sign x : cur = 0 -> mag = 0 -> ApplyMagDelta cur mag sign = Ok x -> x = 0.
Proof. intros -> ->. unfold ApplyMagDelta. repeat case_match; intros Hr; inv_ok; by simplify_eq. Qed.

Lemma bump_level_flat p v a b q s d v' :
  flat_level p v -> (p = 0 -> q = 0) -> bump_level v a b q s d = Ok v' -> flat_level p v'.
Proof.
  intros [H1 H2] Hq Hb. unfold bump_level in Hb. destruct a; inv_ok; subst; (split; [done|]); cbn; intros Hp;
    destruct (H2 Hp); eauto using mag_delta_zero.
Qed.

Lemma adjust_flat m a p b q s d : (p = 0 -> q = 0) -> stable flat (adjustPriceLevel m a p b q s d).
Proof.
  intros Hq c Hc. unfold adjustPriceLevel. rewrite run_ensure. destruct (negb _); [|done].
  apply bind_state; [done|]. intros v c1 Hv. inv_ok.
  assert (flat_level p v) as Hf.
  { eapply bump_level_flat; [|exact Hq|exact Hv]. destruct (bst_PriceLevels (book c) !! (m, p)) eqn:E; cbn; [by eapply Hc|by split]. }
  intros m' p' v'. destruct (level_is_zero v); unfold levels; cbn.
  - rewrite lookup_delete_Some. intros [_ ?]. by eapply Hc.
  - rewrite lookup_insert_Some. intros [[[= <- <-] <-]|[_ ?]]; [done|by eapply Hc].
Qed.

Lemma CheckedQuote_zero b p q : CheckedQuote b p = Ok q -> p = 0 -> q = 0.
Proof. unfold CheckedQuote. intros H ->. repeat case_match; inv_ok; simplify_eq; try done; lia. Qed.

Lemma insertEntry_flat m a e : stable flat (insertEntry m a e).
Proof.
  intros c Hc. unfold insertEntry. apply bind_state; [done|]. intros q c0 Hq. inv_ok.
  apply (stable_bind flat); [by apply flat_frames|intros _|done]. apply stable_bind; [by apply flat_frames|intros _].
  apply adjust_flat. by eapply CheckedQuote_zero.
Qed.
Lemma removeEntry_flat m a i : stable flat (removeEntry m a i).
Proof.
  intros c Hc. unfold removeEntry. repeat case_match; try done.
  apply (stable_bind flat); [by apply flat_frames|intros _|done]. apply stable_bind; [by apply flat_frames|intros _].
  intros c1 H1. apply bind_state; [done|]. intros q c0 Hq. inv_ok. apply adjust_flat; [by eapply CheckedQuote_zero|done].
Qed.
Lemma shrink_flat m a i d : stable flat (shrinkEntryResidue m a i d).
Proof.
  intros c Hc. unfold shrinkEntryResidue. apply bind_state; [done|]. intros sk c0 Hsk. inv_ok.
  apply bind_state; [done|]. intros e c0 He. inv_ok. apply bind_state; [done|]. intros q c0 Hq. inv_ok.
  apply (stable_bind flat); [apply adjust_flat; by eapply CheckedQuote_zero|intros _|done].
  destruct (_ =? 0); repeat (apply stable_bind; [first [by apply adjust_flat|by apply flat_frames]|intros _]); by apply flat_frames.
Qed.


Lemma flat_core {A} (k : K A) : frames core k -> stable flat k.
Proof. intros Hk. apply flat_frames. intros c. specialize (Hk c). unfold core in Hk. by injection Hk. Qed.

Create HintDb flat discriminated.
#[export] Hint Constants Opaque : flat.
#[export] Hint Resolve insertEntry_flat removeEntry_flat shrink_flat : flat.

Ltac flat_steps :=
  repeat (cbv zeta; first
    [ solve [auto 1 with flat]
    | lazymatch goal with
      | |- stable flat (_ ≫= _) => apply stable_bind; [|intros ?]
      | |- stable flat (match ?x with _ => _ end) => destruct x
      | |- _ => by apply flat_frames
      end ]).

Lemma flat_release o : stable flat (releaseSpotLockOnClose o).
Proof. apply flat_book, frames_release. Qed.
Lemma flat_lock o : stable flat (applySpotLockOnOpen o).
Proof. apply flat_book, frames_spot_lock. Qed.
#[export] Hint Resolve flat_release flat_lock : flat.
#[export] Hint Extern 1 (stable flat (indexClientOrder _)) => apply flat_core, frames_index_client : flat.
#[export] Hint Extern 1 (stable flat (unindexClientOrder _)) => apply flat_core, frames_unindex_client : flat.
#[export] Hint Extern 1 (stable flat (unindexClientOrderIfMatches _)) => apply flat_core, frames_unindex_client_if : flat.
#[export] Hint Extern 1 (stable flat (indexAccountOpenOrder _)) => apply flat_core, frames_index_open : flat.
#[export] Hint Extern 1 (stable flat (unindexAccountOpenOrder _)) => apply flat_core, frames_unindex_open : flat.
#[export] Hint Extern 1 (stable flat (addExpiryIndex _)) => apply flat_core, frames_add_expiry : flat.
#[export] Hint Extern 1 (stable flat (removeExpiryIndex _)) => apply flat_core, frames_remove_expiry : flat.

Lemma close_order_flat o : stable flat (close_order o).
Proof. unfold close_order. flat_steps. Qed.
#[export] Hint Resolve close_order_flat : flat.
Lemma EvictMakerOrder_flat i st : stable flat (EvictMakerOrder i st).
Proof. unfold EvictMakerOrder. flat_steps. Qed.
Lemma CancelOrder_flat i : stable flat (CancelOrder i).
Proof. unfold CancelOrder. flat_steps. Qed.
Lemma FillMakerOrder_flat i q : stable flat (FillMakerOrder i q).
Proof. unfold FillMakerOrder. flat_steps. Qed.
Lemma ActivateTrigger_flat i : stable flat (ActivateTrigger i).
Proof. unfold ActivateTrigger. flat_steps. Qed.
Lemma OpenOrder_flat o : stable flat (OpenOrder o).
Proof. unfold OpenOrder. flat_steps. Qed.
Lemma OpenTriggerOrder_flat o : stable flat (OpenTriggerOrder o).
Proof. unfold OpenTriggerOrder. flat_steps. Qed.
#[export] Hint Resolve EvictMakerOrder_flat CancelOrder_flat FillMakerOrder_flat ActivateTrigger_flat OpenOrder_flat
  OpenTriggerOrder_flat : flat.

(** *** Matching *)

Lemma nextMaker_loop_flat fuel taker isPerp now : stable flat (nextMaker_loop fuel taker isPerp now).
Proof.
  induction fuel as [|fuel IH]; intros c Hc; cbn [nextMaker_loop]; [done|].
  assert (forall i st, flat ((EvictMakerOrder i st;; nextMaker_loop fuel taker isPerp now) c).2) as Hev.
  { intros i st. apply (stable_bind flat); [auto with flat|by intros _|done]. }
  repeat case_match; done || apply Hev.
Qed.

Lemma apply_in_cache_flat i b fill : frames book fill -> stable flat (apply_in_cache i b fill).
Proof.
  intros Hf c Hc. unfold apply_in_cache. assert (flat ((fill;; FillMakerOrder i b) c).2) as H1.
  { apply (stable_bind flat); [by apply flat_book|intros _; auto with flat|done]. }
  destruct ((fill;; FillMakerOrder i b) c) as [[o|e| |] c1]; [exact H1| |exact Hc..].
  unfold classifyApplyError. case_match; [|case_match; exact Hc].
  apply (stable_bind flat); [auto with flat|by intros ? ? ?|done].
Qed.

Lemma user_engine_flat m taker maker b : stable flat (applyUserFill m taker maker b).
Proof.
  unfold applyUserFill. case_match; apply apply_in_cache_flat; [apply Apply_book|apply ApplySpotMatching_book].
Qed.

Lemma match_loop_flat engine go_on isPerp now maxFills fuel taker tf fills :
  (forall t maker b, stable flat (engine t maker b)) ->
  stable flat (match_loop engine go_on isPerp now maxFills fuel taker tf fills).
Proof.
  intros Hen. revert taker tf fills. induction fuel as [|fuel IH]; intros taker tf fills c Hc; cbn [match_loop]; [done|].
  case_match; [done|]. apply (stable_bind flat); [|intros [maker|]; [|by intros ? ?]|done].
  { intros c0. apply nextMaker_loop_flat. }
  apply stable_bind; [by intros ? ?|]. intros [base|]; [|by intros ? ?]. apply stable_bind.
  { intros c0 H0. pose proof (Hen taker maker base c0 H0) as H1. unfold catch_rejected.
    destruct (engine _ _ _ c0) as [[?|e| |] c1]; [done| |done..]. by destruct e as [| | | |[]| | | | | |]. }
  intros [[]|]; [|apply IH|by intros ? ?]. apply stable_bind; [by intros ? ?|]. intros []; [apply IH|by intros ? ?].
Qed.

Lemma MatchOrder_flat taker maxFills : stable flat (MatchOrder taker maxFills).
Proof.
  intros c Hc. unfold MatchOrder, MatchOrder_with. apply (stable_bind flat); [by intros ? ?| |done].
  intros m. apply stable_bind; [intros c0; apply match_loop_flat, user_engine_flat|]. by intros [[t f] rej] ? ?.
Qed.
#[export] Hint Resolve MatchOrder_flat : flat.

Lemma fire_trigger_flat i : stable flat (fire_trigger i).
Proof.
  assert (forall A (k : K A), stable flat k -> stable flat (attempt k)) as Hat.
  { intros A k Hk c Hc. specialize (Hk c Hc). unfold attempt. by destruct (k c) as [[] ?]. }
  unfold fire_trigger. apply stable_bind; [apply Hat; auto with flat|]. intros [o|]; [|by intros ? ?].
  apply stable_bind; [apply Hat|].
  - unfold run_activated. apply stable_bind; [by intros ? ?|]. intros n. apply stable_bind; [auto with flat|].
    intros [[t f] rej]. cbv zeta. auto with flat.
  - intros [u|]; [by intros ? ?|]. apply stable_bind; [apply Hat; auto with flat|by intros ? ? ?].
Qed.

(** ** The begin of a block *)

Lemma impact_walk_returned isAsk notional lvs accBase accQuote :
  (forall v, v ∈ lvs -> flat_level (pl_Price v) v) -> 0 <= accQuote < notional -> notional < U64 ->
  returned (impact_walk isAsk notional lvs accBase accQuote).
Proof.
  intros Hf Hacc Hn. revert accBase accQuote Hacc. induction lvs as [|v lvs IH]; intros accBase accQuote Hacc; cbn; [done|].
  assert (forall b q, 0 <= q < notional -> returned (impact_walk isAsk notional lvs b q)) as IH'.
  { intros b q Hq. apply IH; [|done]. intros; apply Hf; set_solver. }
  destruct (_ =? 0); [by apply IH'|]. cbv zeta. destruct (notional <=? _) eqn:Hle; breflect; cycle 1.
  { apply IH'. unfold wrap64 in *. pose proof (Z.mod_pos_bound (accQuote + (if isAsk then pl_AskQuoteSum v else pl_BidQuoteSum v)) U64 ltac:(done)). lia. }
  destruct (pl_Price v =? 0) eqn:Hp; [|done]. breflect. exfalso. destruct (Hf v) as [_ Hz]; [set_solver|].
  destruct (Hz Hp) as [Ha Hb]. revert Hle. replace (if isAsk then _ else _) with 0 by (destruct isAsk; congruence).
  rewrite Z.add_0_r, wrap64_id by lia. lia.
Qed.

Lemma ComputeImpactPrice_returned m isAsk c : flat c -> returned (ComputeImpactPrice m isAsk c).
Proof.
  intros Hc. unfold ComputeImpactPrice, MarketImpactNotional, GetMarketDetails.
  destruct (mst_MarketDetails (market c) !! m) as [d|]; [|done]. cbn. destruct (_ =? 0); [done|].
  set (out := Z.quot _ _). destruct (_ && _) eqn:Hr; [|done]. breflect. cbn. destruct (out =? 0) eqn:Hz; [done|]. breflect.
  pose proof (impact_walk_returned isAsk out (if isAsk then market_levels m c else rev (market_levels m c)) 0 0) as Hw.
  destruct (impact_walk _ _ _ 0 0) as [[b q]|e| |]; cbn in *; [by repeat case_match|done|..]; apply Hw; try lia;
    intros v Hv; assert (v ∈ market_levels m c) as Hv' by (destruct isAsk; [done|by apply list_elem_of_In, in_rev, list_elem_of_In in Hv]);
    unfold market_levels in Hv'; apply list_elem_of_fmap in Hv' as ([[m' p] v'] & -> & Hf);
    apply list_elem_of_filter in Hf as [_ Hf]; apply elem_of_rows in Hf; cbn;
    destruct (Hc _ _ _ Hf) as [Hp ?]; by rewrite Hp.
Qed.

