(* ===== verification/Blocks.v ===== *)
(** * Blocks

    The order in which the application runs the modules around the
    transactions of a block ([app/modules.go], [orderBeginBlockers] and
    [orderEndBlockers]) and the theorem that the composition never halts the
    chain: the modules swallow their errors, so what remains is that no loop
    runs forever and nothing panics, on states that earlier failures may have
    left behind. *)

From S2P Require Import Prelude Constants Types PositionMath Account Market Oracle Funding Risk Trade OrderBook Asset.
From S2P Require Import Effects Matching Liquidation AccountMsg PublicPool Solvency Sweeps.

(** The x/oracle and x/market modules have no begin-blocker of their own and
    x/oracle no end-blocker. *)
Definition BeginBlock : K unit := Funding_BeginBlocker.
Definition EndBlock : K unit :=
  Market_EndBlocker;; Book_EndBlocker;; Matching_EndBlocker;; Liquidation_EndBlocker.

(** ** The sweeps of the other modules leave the book alone *)

Lemma frames_trap {A T} (f : Chain -> T) (m : K A) : frames f m -> frames f (trap m).
Proof. intros Hm c. specialize (Hm c). unfold trap. by destruct (m c) as [[] ?]. Qed.

Section book_frames.
#[local] Hint Resolve frames_trap frames_attempt : frames.

Lemma Deleverage_book v m d b : frames book (Deleverage v m d b).
Proof. intros c. unfold Deleverage, ApplyPerpsMatching. solve_frames. Qed.
#[local] Hint Resolve Deleverage_book : frames.

Lemma tryLLPAbsorb_book v m n : frames book (tryLLPAbsorb v m n).
Proof.
  intros c. unfold tryLLPAbsorb. destruct (n =? 0); [done|]. destruct (GetAccount _ c) as [llp|e| |]; [|done..].
  destruct (EnsureActive _) as [u|e| |]; [|done..]. solve_frames.
Qed.

Lemma adl_loop_book v m opp ask cands zp remaining n : frames book (adl_loop v m opp ask cands zp remaining n).
Proof.
  revert zp remaining n. induction cands as [|cand cands IH]; intros zp remaining n; cbn; [done|].
  case_match; [done|]. case_match; [|apply IH]. case_match.
  apply frames_bind; [done|]. intros base. apply frames_bind; [apply frames_attempt, Apply_book|].
  intros [u|]; [|apply IH]. cbv zeta. apply frames_bind; [by apply frames_trap|].
  intros [snap|e]; [|done]. repeat case_match; [done..|apply IH].
Qed.

Lemma autoADL_book v m k n : frames book (autoADL v m k n).
Proof.
  intros c. unfold autoADL. case_match; [done|]. apply frames_bind_at; [by apply frames_at, frames_trap|]. intros [snap|e] c1; [|done].
  cbv zeta. repeat case_match; [done..|]. apply adl_loop_book.
Qed.

Lemma liquidation_end_blocker_book : frames book Liquidation_EndBlocker.
Proof.
  assert (forall a k ranked n, frames book (process_ranked a k ranked n)) as Hp.
  { intros a k ranked. induction ranked as [|rp ranked IH]; intros n; cbn; [done|]. case_match; [done|].
    apply frames_bind; [by apply frames_trap|]. intros [st|e]; [|done]. case_match; [apply IH|].
    apply frames_bind; [apply frames_attempt, tryLLPAbsorb_book|].
    assert (frames book (autoADL a (rk_MarketIndex rp) k n ≫= fun '(n', _) => process_ranked a k ranked n')) as Hadl.
    { apply frames_bind; [apply autoADL_book|]. intros [n' ?]. apply IH. }
    intros [[]|]; [apply IH|done..]. }
  assert (forall k accts n, frames book (liquidate_accounts k accts n)) as Hl.
  { intros k accts. induction accts as [|a accts IH]; intros n; cbn; [done|]. case_match; [apply IH|].
    apply frames_bind; [|intros [n' ?]; apply IH].
    intros c. unfold processAccount. case_match; [apply Hp|done..]. }
  intros c. apply Hl.
Qed.

Lemma exit_account_book m price a : frames book (exit_account m price a).
Proof.
  intros c. unfold exit_account. case_match; [done|]. cbv zeta. case_match; [done|].
  apply frames_bind_at; [done|]. intros b c1. apply frames_bind_at; [|done]. apply frames_attempt, Apply_book.
Qed.

Lemma ApplyExitPosition_book i : frames book (ApplyExitPosition i).
Proof.
  intros c. unfold ApplyExitPosition. apply frames_bind_at; [done|]. intros d c1. case_match; [done|].
  apply (frames_forM _ (exit_account _ (md_MarkPrice d)) (IterateAccounts c1)). intros. apply exit_account_book.
Qed.

Lemma expireMarket_book m : frames book (expireMarket m).
Proof.
  unfold expireMarket, updateMarket, applyMarketExit. apply frames_bind.
  { unfold Markets_Set, ExpiryIndex_Remove, ExpiryIndex_Set, set_market_store. intros c. solve_frames. }
  intros _. apply frames_bind; [|done]. apply frames_attempt, ApplyExitPosition_book.
Qed.
End book_frames.

(** ** The invariant of the block hooks *)

Definition block_ready (c : Chain) : Prop := sized c /\ linked c /\ flat c.

Lemma linked_book c c' : book c' = book c -> linked c -> linked c'.
Proof. intros E. apply calm_linked, calm_spine. unfold spine, orders, entries, sortkeys, triggers, next_index. by rewrite E. Qed.

Lemma ready_book c c' : book c' = book c -> sized c' -> block_ready c -> block_ready c'.
Proof.
  intros E Hs (_ & Hl & Hf). split_and!; [done|by apply (linked_book c)|]. apply (flat_levels c); [|done]. unfold levels. by rewrite E.
Qed.

Lemma ready_ledger {A} (m : K A) : frames book m -> stable sized m -> stable block_ready m.
Proof. intros Hb Hm c Hc. apply (ready_book c); [apply Hb|apply Hm, Hc|done]. Qed.

Lemma ready_safe {A} (m : K A) : frames book m -> safe sized m -> safe block_ready m.
Proof.
  intros Hf Hm c Hc. split; [apply Hm, Hc|]. by apply ready_ledger; [|apply safe_stable|].
Qed.

Lemma ready_succeeds {A} (m : K A) : frames book m -> succeeds sized m -> succeeds block_ready m.
Proof.
  intros Hf Hm c Hc. destruct (Hm c) as (a & c' & Hr & Hs'); [apply Hc|]. exists a, c'. split; [done|].
  apply (ready_book c); [|done..]. exact (frames_run _ _ _ _ _ Hf Hr).
Qed.

Definition ledger_and_book (c : Chain) := (account c, book c).

Lemma block_ready_frames {A} (k : K A) : frames ledger_and_book k -> stable block_ready k.
Proof.
  intros Hk c Hc. specialize (Hk c). unfold ledger_and_book in Hk. injection Hk as Ha Hb.
  apply (ready_book c); [done| |done]. apply (sized_account c); [done|apply Hc].
Qed.

(** ** The end of a block *)

Lemma expireMarket_safe m : safe sized (expireMarket m).
Proof.
  intros c Hc. unfold expireMarket, updateMarket, applyMarketExit. apply safe_at_bind.
  - unfold Markets_Set, ExpiryIndex_Remove, ExpiryIndex_Set, set_market_store. solve_safe.
  - intros _ c1 _ H1. apply safe_at_bind; [|by intros; apply safe_at_ret].
    apply succeeds_safe; [|done]. apply succeeds_attempt, ApplyExitPosition_safe.
Qed.

Lemma iterateExpired_loop_succeeds (P : Chain -> Prop) visit budget n due :
  (forall m, safe P (visit m)) -> (forall key, succeeds P (ExpiryIndex_Remove key)) ->
  succeeds P (iterateExpired_loop visit budget n due).
Proof.
  intros Hv Hr. revert n. induction due as [|key due IH]; intros n c Hc; cbn; [by eauto|]. case_match; [|by eauto].
  pose proof (succeeds_bind P _ _ (Hr key) (fun _ => IH n) c Hc) as Hrm.
  repeat case_match; [done| |done..]. apply (succeeds_bind P); [by apply succeeds_attempt|by intros; apply IH|done].
Qed.

Lemma Market_EndBlocker_ready : succeeds block_ready Market_EndBlocker.
Proof.
  intros c Hc. unfold Market_EndBlocker, iterateExpired. case_match; [by eauto|].
  apply iterateExpired_loop_succeeds; [| |done].
  - intros m. apply ready_safe; [apply expireMarket_book|apply expireMarket_safe].
  - intros key. apply ready_succeeds; [done|]. intros c0 H0. by eexists _, _.
Qed.

Lemma CancelOrder_ready i : safe block_ready (CancelOrder i).
Proof.
  intros c (Hs & Hl & Hf). destruct (CancelOrder_safe i c Hs) as [H1 H2].
  split; [done|]. split_and!; [done|by apply CancelOrder_keeps|by apply CancelOrder_flat].
Qed.

Lemma Book_EndBlocker_ready : succeeds block_ready Book_EndBlocker.
Proof.
  intros c Hc. apply succeeds_forM; [|done]. intros i. apply succeeds_bind; [|intros; apply succeeds_ret].
  apply succeeds_attempt, CancelOrder_ready.
Qed.

Lemma due_triggers_keyed c :
  linked c -> NoDup (due_triggers c) /\ forall j, j ∈ due_triggers c -> exists m p, (m, p, j) ∈ triggers c.
Proof.
  intros Hl. unfold due_triggers, IterateTriggers.
  assert (forall k, k ∈ keys (bst_TriggerIndex (book c)) -> k ∈ triggers c) as Hin by by intros k ?%elem_of_keys.
  assert (NoDup (keys (bst_TriggerIndex (book c)))) as Hnd by by rewrite keys_perm; apply NoDup_elements.
  induction (keys (bst_TriggerIndex (book c))) as [|[[m p] i] l IH]; [by split; [constructor|set_solver]|].
  apply NoDup_cons in Hnd as [Hni Hnd]. destruct IH as [IH1 IH2]; [set_solver|done|].
  cbn. destruct (bst_Orders (book c) !! i) as [o|] eqn:Ho; [|done].
  rewrite filter_cons. case_decide; [|done]. cbn. pose proof (lk_keyed c Hl _ _ Ho) as Hi. rewrite Hi. split.
  - constructor; [|done]. rewrite list_elem_of_fmap. intros (o' & E & Hf). apply list_elem_of_filter in Hf as [_ Hf].
    apply list_elem_of_omap in Hf as ([[m' p'] i'] & Hk & Ho'). cbn in Ho'. pose proof (lk_keyed c Hl _ _ Ho') as Hi'.
    assert (i' = i) as -> by congruence.
    destruct (lk_trigger c Hl m' p' i o') as (? & ? & _); [apply Hin; set_solver|done|].
    destruct (lk_trigger c Hl m p i o) as (? & ? & _); [apply Hin; set_solver|done|].
    unfold orders in *. simplify_eq. done.
  - intros j. rewrite elem_of_cons. intros [->|Hj]; [|by apply IH2]. exists m, p. apply Hin. set_solver.
Qed.

Lemma Matching_EndBlocker_ready : succeeds block_ready Matching_EndBlocker.
Proof.
  intros c (Hs & Hl & Hf). unfold Matching_EndBlocker. destruct (due_triggers_keyed c Hl) as [Hnd Hj].
  assert (sweeping (due_triggers c) c) as Hsw by by split_and!.
  clear Hs Hl Hj. revert Hnd Hsw. generalize (due_triggers c) as js. intros js. revert c Hf.
  induction js as [|i js IH]; intros c Hf Hnd Hsw; [destruct Hsw as (? & ? & _); cbn; eexists _, _; by split_and!|].
  apply NoDup_cons in Hnd as [Hni Hnd]. destruct (fire_trigger_sweeping i js c Hsw Hni) as (c1 & Hr & H1).
  pose proof (fire_trigger_flat i c Hf) as Hf1. rewrite Hr in Hf1.
  cbn [forM]. rewrite (run_bind _ _ _ _ _ Hr). by apply IH.
Qed.

Lemma Liquidation_EndBlocker_ready : succeeds block_ready Liquidation_EndBlocker.
Proof.
  apply ready_succeeds; [apply liquidation_end_blocker_book|]. intros c Hc.
  destruct (liquidation_end_blocker_returns c Hc) as (c' & ? & ?). eauto.
Qed.

Lemma EndBlock_ready : succeeds block_ready EndBlock.
Proof.
  unfold EndBlock. apply succeeds_bind; [apply Market_EndBlocker_ready|intros _].
  apply succeeds_bind; [apply Book_EndBlocker_ready|intros _].
  apply succeeds_bind; [apply Matching_EndBlocker_ready|intros _]. apply Liquidation_EndBlocker_ready.
Qed.

(** ** The begin of a block *)

Lemma store_sample_frames i now p d b a : frames ledger_and_book (store_sample i now p d b a).
Proof. intros c. unfold store_sample. by repeat case_match. Qed.

Lemma processMarketSample_ready i now p : succeeds block_ready (processMarketSample i now p).
Proof.
  intros c Hc. unfold processMarketSample. destruct (GetMarketDetails i c) as [d| | |]; [|by eauto..].
  case_match; [by eauto|]. assert (flat c) as Hf by apply Hc.
  assert (forall a, exists r, attempt (reads (ImpactPrice i a)) c = (Ok r, c)) as Himp.
  { intros a. pose proof (ComputeImpactPrice_returned i a c Hf) as Hr. unfold attempt, reads. cbn.
    destruct (ComputeImpactPrice i a c); cbn in Hr; by eauto. }
  destruct (Himp false) as [bid Hbid]. rewrite (run_bind _ _ _ _ _ Hbid). destruct bid as [bid|]; [|by eexists _, _].
  destruct (Himp true) as [ask Hask]. rewrite (run_bind _ _ _ _ _ Hask). destruct ask as [ask|]; [|by eexists _, _].
  pose proof (block_ready_frames _ (store_sample_frames i now p d bid ask) c Hc) as Hc'.
  assert (exists c', store_sample i now p d bid ask c = (Ok tt, c')) as [c' Hr].
  { unfold store_sample. repeat case_match; by eexists. }
  rewrite Hr in Hc'. eauto.
Qed.

Lemma Funding_BeginBlocker_ready : succeeds block_ready Funding_BeginBlocker.
Proof.
  assert (forall k : K unit, frames ledger_and_book k -> (forall c, exists c', k c = (Ok tt, c')) -> succeeds block_ready k) as Hq.
  { intros k Hk Ht c Hc. pose proof (block_ready_frames k Hk c Hc) as Hc'. destruct (Ht c) as [c' Hr]. rewrite Hr in Hc'. eauto. }
  intros c Hc. unfold Funding_BeginBlocker. cbv zeta.
  apply (succeeds_bind block_ready); [|intros _|done].
  - apply succeeds_forM. intros m. case_match; [|apply succeeds_ret].
    apply succeeds_bind; [apply processMarketSample_ready|intros _].
    apply Hq; intros c0; unfold refreshMarkPrice; repeat case_match; by eauto.
  - case_match; [|apply succeeds_ret]. apply succeeds_bind; [|intros _; apply Hq; [done|by eauto]].
    intros c0 H0. unfold SettleAllMarkets. apply succeeds_forM; [|done]. intros m. case_match; [|apply succeeds_ret].
    apply Hq; intros c1; unfold settleMarket; repeat case_match; by eauto.
Qed.

(** ** Transactions on the book *)

(** An index just taken from the sequence. *)
Definition fresh (i : Z) (c : Chain) : Prop :=
  orders c !! i = None /\ (forall m p, (m, p, i) ∉ triggers c) /\ i < next_index c.

Lemma fresh_calm i c c' : calm c c' -> fresh i c -> fresh i c'.
Proof.
  intros Hc (H1 & H2 & H3). unfold fresh. rewrite (cm_triggers _ _ Hc), (cm_next _ _ Hc). split_and!; [|done..].
  destruct (orders c' !! i) as [o'|] eqn:Ho; [|done]. destruct (cm_no_order _ _ Hc _ _ Ho) as (o & ? & _). congruence.
Qed.

Lemma fresh_unbooked i c : linked c -> fresh i c -> unbooked i c.
Proof.
  intros Hl (H1 & _) m sk e He Hi. destruct (lk_entry c Hl _ _ _ He) as [(o & Ho & _) _]. congruence.
Qed.

(** Storing a fresh order that has no trigger. *)
Lemma linked_store o c c' :
  linked c -> fresh (ord_OrderIndex o) c ->
  orders c' = <[ord_OrderIndex o := o]> (orders c) -> triggers c' = triggers c -> next_index c' = next_index c ->
  (entries c' = entries c /\ sortkeys c' = sortkeys c \/
   exists sk, entries c' = <[(ord_MarketIndex o, sk) := entry_of o]> (entries c) /\
     sortkeys c' = <[(ord_MarketIndex o, ord_OrderIndex o) := sk]> (sortkeys c)) ->
  linked c'.
Proof.
  intros Hl Hf EO ET EN HE. pose proof (fresh_unbooked _ c Hl Hf) as Hu. destruct Hl as [L1 L2 L3 L4 L5]. destruct Hf as (F1 & F2 & F3).
  assert (forall m sk e, entries c !! (m, sk) = Some e ->
    exists o1, orders c' !! ent_OrderIndex e = Some o1 /\ ord_MarketIndex o1 = m) as Hold.
  { intros m sk e He. destruct (L2 _ _ _ He) as [(o1 & H1 & H2) _]. exists o1. split; [|done].
    rewrite EO, lookup_insert_ne; [done|]. intros E. rewrite <- E in H1. congruence. }
  split.
  - intros i o1. rewrite EO, lookup_insert_Some. intros [[<- <-]|[_ H1]]; eauto.
  - intros m sk e He. destruct HE as [[E1 E2]|(sk0 & E1 & E2)]; rewrite E1 in He; rewrite E2.
    + split; [by eapply Hold|]. by destruct (L2 _ _ _ He).
    + apply lookup_insert_Some in He as [[[= <- <-] <-]|[_ He]].
      * rewrite EO, !lookup_insert_eq. eauto.
      * split; [by eapply Hold|]. rewrite lookup_insert_ne; [by destruct (L2 _ _ _ He)|]. intros [= _ E]. by apply (Hu _ _ _ He).
  - intros m p i o1 Ht. rewrite ET in Ht. rewrite EO, lookup_insert_ne by (intros <-; by eapply F2). intros Ho1.
    destruct (L3 _ _ _ _ Ht Ho1) as (K1 & K2 & K3). split_and!; [done..|]. intros m2 sk2 e2 He2.
    destruct HE as [[E1 E2]|(sk0 & E1 & E2)]; rewrite E1 in He2; [by eapply K3|].
    apply lookup_insert_Some in He2 as [[_ <-]|[_ He2]]; [cbn; intros <-; by eapply F2|by eapply K3].
  - intros i o1. rewrite EO, EN, lookup_insert_Some. intros [[<- <-]|[_ H1]]; eauto.
  - intros m p i. rewrite ET, EN. eauto.
Qed.

Ltac spine_steps := repeat (apply frames_bind; [solve [auto 1 with spine]|intros ?]); solve [auto 1 with spine].

Lemma spine_run {A} (k : K A) c r c' : frames spine k -> k c = (r, c') ->
  orders c' = orders c /\ entries c' = entries c /\ sortkeys c' = sortkeys c /\ triggers c' = triggers c /\ next_index c' = next_index c.
Proof. intros Hk Hr. pose proof (frames_run _ _ _ _ _ Hk Hr) as E. unfold spine in E. by injection E. Qed.

Lemma insertEntry_run m a e c c' :
  insertEntry m a e c = (Ok tt, c') -> exists sk,
  orders c' = orders c /\ entries c' = <[(m, sk) := e]> (entries c) /\
  sortkeys c' = <[(m, ent_OrderIndex e) := sk]> (sortkeys c) /\ triggers c' = triggers c /\ next_index c' = next_index c.
Proof.
  unfold insertEntry, Entries_Set, SortKey_Set, set_book. intros Hr. inv_ok. subst.
  destruct (spine_run _ _ _ _ (frames_adjust _ _ _ _ _ _ _) Hr) as (-> & -> & -> & -> & ->). by eexists.
Qed.

Lemma OpenOrder_linked o c c' :
  linked c -> fresh (ord_OrderIndex o) c -> OpenOrder o c = (Ok tt, c') -> linked c'.
Proof.
  intros Hl Hf Hr. unfold OpenOrder in Hr. apply M_bind_ok in Hr as (u & c1 & Hbody & Hset). injection Hset as <-.
  assert (orders c1 = orders c /\ triggers c1 = triggers c /\ next_index c1 = next_index c /\
    (entries c1 = entries c /\ sortkeys c1 = sortkeys c \/
     exists sk, entries c1 = <[(ord_MarketIndex o, sk) := entry_of o]> (entries c) /\
     sortkeys c1 = <[(ord_MarketIndex o, ord_OrderIndex o) := sk]> (sortkeys c))) as (E1 & E2 & E3 & E4).
  { destruct (is_resting_status _).
    - apply M_bind_ok in Hbody as (? & c2 & Hlock & Hbody). apply M_bind_ok in Hbody as ([] & c3 & Hins & Hbody).
      destruct (spine_run _ _ _ _ (spine_lock o) Hlock) as (A1 & A2 & A3 & A4 & A5).
      destruct (insertEntry_run _ _ _ _ _ Hins) as (sk & B1 & B2 & B3 & B4 & B5).
      assert (frames spine (indexClientOrder o;; indexAccountOpenOrder o;; addExpiryIndex o)) as Hfr.
      { spine_steps. }
      destruct (spine_run _ _ _ _ Hfr Hbody) as (C1 & C2 & C3 & C4 & C5). cbn in B3.
      split_and!; [congruence..|]. right. exists sk. rewrite C2, C3, B2, B3, A2, A3. done.
    - assert (frames spine (unindexClientOrderIfMatches o;; unindexAccountOpenOrder o;; removeExpiryIndex o)) as Hfr.
      { spine_steps. }
      destruct (spine_run _ _ _ _ Hfr Hbody) as (C1 & C2 & C3 & C4 & C5). split_and!; [done..|]. by left. }
  eapply (linked_store o c); [done|done| |exact E2|exact E3|exact E4].
  unfold orders in *. cbn. by rewrite E1.
Qed.

Lemma OpenTriggerOrder_linked o c c' :
  linked c -> fresh (ord_OrderIndex o) c -> OpenTriggerOrder o c = (Ok tt, c') -> linked c'.
Proof.
  intros Hl Hf Hr. unfold OpenTriggerOrder in Hr.
  apply M_bind_ok in Hr as (u0 & c0 & Hadd & Hr). injection Hadd as _ <-.
  apply M_bind_ok in Hr as (u1 & c1 & H1 & Hr). apply M_bind_ok in Hr as (u2 & c2 & H2 & Hr).
  apply M_bind_ok in Hr as (u3 & c3 & H3 & Hr). injection Hr as <-.
  destruct (spine_run _ _ _ _ (spine_index_client o) H1) as (A1 & A2 & A3 & A4 & A5).
  destruct (spine_run _ _ _ _ (spine_index_open o) H2) as (B1 & B2 & B3 & B4 & B5).
  destruct (spine_run _ _ _ _ (spine_add_expiry o) H3) as (C1 & C2 & C3 & C4 & C5).
  set (i := ord_OrderIndex o) in *. set (c4 := (setOrder o c).2).
  assert (linked c4) as Hc4 by (eapply (linked_store o c); eauto).
  assert (unbooked i c4) as Hu by exact (fresh_unbooked i c Hl Hf).
  assert (linked (c4 <| book := book c4 <| bst_TriggerIndex := {[(ord_MarketIndex o, ord_TriggerPrice o, i)]} ∪ triggers c |> |>)) as Hc5.
  { destruct Hc4 as [L1 L2 L3 L4 L5]. split; [exact L1|exact L2| |exact L4|].
    - intros m p j o1 Ht Ho1. unfold triggers in Ht. cbn in Ht. apply elem_of_union in Ht as [Ht|Ht]; [|by apply (L3 m p j o1)].
      apply elem_of_singleton in Ht as [= -> -> ->]. unfold orders in Ho1. cbn in Ho1. rewrite lookup_insert_eq in Ho1.
      by injection Ho1 as <-.
    - intros m p j Ht. unfold triggers in Ht. cbn in Ht. apply elem_of_union in Ht as [Ht|Ht]; [|by apply (L5 m p j)].
      apply elem_of_singleton in Ht as [= -> -> ->]. apply Hf. }
  eapply calm_linked; [|exact Hc5]. apply calm_spine. unfold spine, orders, entries, sortkeys, triggers, next_index in *. cbn in *.
  by rewrite C1, B1, A1, C2, B2, A2, C3, B3, A3, C4, B4, A4, C5, B5, A5.
Qed.

Lemma AllocateOrderIndex_fresh c :
  linked c -> 0 <= next_index c < U64 - 1 ->
  exists c', AllocateOrderIndex c = (Ok (next_index c), c') /\ linked c' /\ fresh (next_index c) c' /\
    account c' = account c /\ levels c' = levels c.
Proof.
  intros [L1 L2 L3 L4 L5] Hn. eexists. split; [done|].
  assert (next_index (c <| book := book c <| bst_NextOrderIndex := wrap64 (bst_NextOrderIndex (book c) + 1) |> |>) = next_index c + 1) as En.
  { unfold next_index in *. cbn. apply wrap64_id. lia. }
  split_and!; [|split_and!|done|done].
  - split; [exact L1|exact L2|exact L3| |].
    + intros i o Ho. rewrite En. specialize (L4 i o Ho). lia.
    + intros m p i Ht. rewrite En. specialize (L5 m p i Ht). lia.
  - destruct (orders c !! next_index c) as [o|] eqn:Ho; [|exact Ho]. specialize (L4 _ _ Ho). lia.
  - intros m p Ht. specialize (L5 m p _ Ht). lia.
  - rewrite En. lia.
Qed.

Lemma AllocateNonce_ledger_and_book m a : frames ledger_and_book (AllocateNonce m a).
Proof. intros c. unfold AllocateNonce. solve_frames. Qed.

Lemma calm_ready {A} (m : K A) c r c' :
  block_ready c -> quiet c (m c) -> stable flat m -> m c = (r, c') -> block_ready c'.
Proof.
  intros (Hs & Hl & Hf) (_ & Hs' & Hc) Hm Hr. specialize (Hm c Hf). rewrite Hr in *. cbn in *.
  split_and!; [done|by eapply calm_linked|done].
Qed.

Section order_messages.
Context `{env : Env}.

Lemma CreateOrder_ready msg c r c' :
  block_ready c -> 0 <= next_index c < U64 - 1 -> CreateOrder msg c = (Ok r, c') -> block_ready c'.
Proof.
  intros (Hs & Hl & Hf) Hn Hr. unfold CreateOrder in Hr. apply M_bind_ok in Hr as (m & c0 & Hg & Hr).
  apply reads_ok in Hg as [_ ->].
  destruct (AllocateOrderIndex_fresh c Hl Hn) as (c1 & Ha & Hl1 & Hfr1 & Ea & El).
  rewrite (run_bind _ _ _ _ _ Ha) in Hr.
  assert (block_ready c1) as Hb1.
  { split_and!; [by apply (sized_account c)|done|by apply (flat_levels c)]. }
  apply M_bind_ok in Hr as (nonce & c2 & Hno & Hr).
  pose proof (block_ready_frames _ (AllocateNonce_ledger_and_book (co_MarketIndex msg) (co_IsAsk msg)) c1 Hb1) as Hb2. rewrite Hno in Hb2. cbn in Hb2.
  assert (fresh (next_index c) c2) as Hfr2.
  { eapply fresh_calm; [|exact Hfr1]. apply calm_spine. pose proof (AllocateNonce_ledger_and_book (co_MarketIndex msg) (co_IsAsk msg) c1) as E.
    rewrite Hno in E. unfold ledger_and_book in E. injection E as _ E. unfold spine, orders, entries, sortkeys, triggers, next_index. by rewrite E. }
  apply M_bind_ok in Hr as (now & c3 & Hnow & Hr). apply reads_ok in Hnow as [_ ->]. cbv zeta in Hr.
  set (o := order_of_msg msg (next_index c) nonce now) in *. destruct Hb2 as (Hs2 & Hl2 & Hf2).
  destruct (IsTriggerOrder _).
  - set (o' := o <| ord_Status := _ |> <| ord_TriggerStatus := _ |>) in Hr.
    apply M_bind_ok in Hr as ([] & c4 & Ho & Hr). injection Hr as _ <-.
    pose proof (OpenTriggerOrder_safe o' c2 Hs2) as [_ Hs4]. pose proof (OpenTriggerOrder_flat o' c2 Hf2) as Hf4.
    rewrite Ho in Hs4, Hf4. split_and!; [done| |done]. by apply (OpenTriggerOrder_linked o' c2).
  - apply M_bind_ok in Hr as (mf & c4 & Hmf & Hr). apply reads_ok in Hmf as [_ ->].
    apply M_bind_ok in Hr as ([[o1 filled] st] & c5 & Hm & Hr).
    destruct (MatchOrder_quiet o mf c2 Hl2 Hs2) as [(_ & Hs5 & Hc5) Hid]. pose proof (MatchOrder_flat o mf c2 Hf2) as Hf5.
    rewrite Hm in Hs5, Hc5, Hf5. cbn in Hs5, Hc5, Hf5. destruct (Hid _ _ _ _ Hm) as [Ei _].
    apply M_bind_ok in Hr as (st' & c6 & Hst & Hr). apply reads_ok in Hst as [_ ->].
    apply M_bind_ok in Hr as ([] & c7 & Ho & Hr). injection Hr as _ <-.
    match type of Ho with OpenOrder ?x _ = _ => set (o2 := x) in * end.
    pose proof (OpenOrder_safe o2 c5 Hs5) as [_ Hs7]. pose proof (OpenOrder_flat o2 c5 Hf5) as Hf7.
    rewrite Ho in Hs7, Hf7. split_and!; [done| |done].
    apply (OpenOrder_linked o2 c5); [by eapply calm_linked| |done]. cbn. rewrite Ei. by eapply fresh_calm.
Qed.

Lemma cancel_each_ready l : stable block_ready (cancel_each l).
Proof.
  unfold cancel_each. induction l as [|o l IH]; [by intros ? ?|]. cbn. apply stable_bind; [|by intros _].
  apply stable_bind; [apply safe_stable, CancelOrder_ready|by intros ? ? ?].
Qed.

Lemma MsgModifyOrder_ready sender i base price trigger c r c' :
  block_ready c -> 0 <= next_index c < U64 - 1 ->
  MsgModifyOrder sender i base price trigger c = (Ok r, c') -> block_ready c'.
Proof.
  intros Hc Hn Hr. unfold MsgModifyOrder in Hr. inv_ok. subst.
  match goal with H : CancelOrder ?j c = (Ok ?x, ?c1), H' : CreateOrder ?msg ?c1 = (Ok ?y, ?c2) |- _ =>
    pose proof (CancelOrder_ready j c Hc) as [_ Hc1]; pose proof (CancelOrder_keeps j c (proj1 (proj2 Hc))) as (_ & _ & _ & Hn1);
    rewrite H in Hc1, Hn1; apply (CreateOrder_ready msg c1 y c2 Hc1); [|exact H'] end.
  cbn in Hn1. lia.
Qed.

Lemma liquidation_engine_quiet zp fee rcpt : quiet_engine (applyLiquidationFill zp fee rcpt).
Proof.
  intros t maker b c Hl Hs Hp. apply (quiet_in_cache t); [apply Apply_safe|apply Apply_book|done..].
Qed.

Lemma MatchLiquidationOrder_ready v m zp b fee rcpt : stable block_ready (MatchLiquidationOrder v m zp b fee rcpt).
Proof.
  intros c Hc. unfold MatchLiquidationOrder, MatchLiquidationOrder_with.
  rewrite !run_ensure. repeat (case_match; [|done]). cbv zeta.
  apply bind_state; [done|]. intros abs c1 Habs. apply lift_ok in Habs as [_ ->].
  unfold matchLiquidation_with. apply bind_state; [done|]. intros mk c1 Hmk. apply reads_ok in Hmk as [_ ->].
  rewrite run_ensure. case_match; [|done]. cbv zeta.
  match goal with |- block_ready ((?k1 ≫= _) c).2 => set (run := k1); assert (block_ready (run c).2) as Hrun end.
  { destruct Hc as (Hs & Hl & Hf). unfold run, match_run.
    match goal with |- context [match_loop ?e ?g ?p ?n ?mf ?fu ?t 0 0 c] =>
      destruct (match_loop_quiet e g p n mf fu t 0 0 c) as [Hq _]; [apply liquidation_engine_quiet| |done|done|unfold entries; lia|];
      pose proof (match_loop_flat e g p n mf fu t 0 0) as Hfl end.
    - intros t c0. unfold needsLiquidation. solve_safe.
    - destruct Hq as (_ & Hs' & Hcalm). split_and!; [done|by eapply calm_linked|].
      apply Hfl; [|done]. intros. apply apply_in_cache_flat, Apply_book. }
  apply bind_state; [exact Hrun|]. intros [[t f] rej] c1 Hr1. rewrite Hr1 in Hrun. exact Hrun.
Qed.

Lemma Liquidate_ready v m b : stable block_ready (Liquidate v m b).
Proof.
  unfold Liquidate. apply stable_bind; [by intros ? ?|]. intros [pos zp].
  repeat (apply stable_bind; [by intros ? ?|intros ?]).
  apply stable_bind; [intros c; apply cancel_each_ready|intros _].
  apply stable_bind; [by intros ? ?|intros ?]. apply stable_bind; [apply MatchLiquidationOrder_ready|by intros ? ? ?].
Qed.

Lemma Deleverage_ready v m d b : stable block_ready (Deleverage v m d b).
Proof.
  apply ready_ledger; [apply Deleverage_book|apply safe_stable, Deleverage_safe].
Qed.
End order_messages.

(** ** The other transactions

    The messages of the account module write the ledger only: the book is
    untouched and no position changes its size, on every outcome. *)

Definition ledger_at {A} (m : K A) (c : Chain) : Prop := book (m c).2 = book c /\ (sized c -> sized (m c).2).

Lemma ledger_at_bind {A B} (m : K A) (k : A -> K B) c :
  ledger_at m c -> (forall a c1, ledger_at (k a) c1) -> ledger_at (m ≫= k) c.
Proof.
  unfold ledger_at, mbind, M_bind. intros [H1 H2] Hk. destruct (m c) as [[a|e| |] c1]; cbn in *; try done.
  destruct (Hk a c1) as [K1 K2]. split; [congruence|auto].
Qed.

Lemma ledger_at_map_err {A} (f : Error -> Error) (m : K A) c : ledger_at m c -> ledger_at (map_err f m) c.
Proof. unfold ledger_at, map_err. by destruct (m c) as [[] ?]. Qed.

Lemma ledger_at_forM {A} (f : A -> K unit) l c : (forall a c, ledger_at (f a) c) -> ledger_at (forM f l) c.
Proof. intros Hf. revert c. induction l as [|a l IH]; intros c; [by split|]. by apply ledger_at_bind. Qed.

Lemma UpdatePosition_ledger {X} a m (g : AccountPosition -> R (AccountPosition * X)) c :
  (forall p px, g p = Ok px -> pos_BaseSize px.1 = pos_BaseSize p) -> ledger_at (UpdatePosition a m g) c.
Proof.
  intros Hg. split; [by apply UpdatePosition_frames|]. intros Hc. unfold UpdatePosition. cbv zeta.
  apply bind_state; [done|]. intros px c1 Hpx. apply lift_ok in Hpx as [Hpx ->].
  apply map_Forall_insert_2; [|exact Hc]. rewrite (Hg _ _ Hpx). exact (get_position_sized a m c Hc).
Qed.

Lemma ledger_at_eq {A} (m m' : K A) c : m c = m' c -> ledger_at m' c -> ledger_at m c.
Proof. unfold ledger_at. by intros ->. Qed.

Create HintDb ledger discriminated.
#[export] Hint Constants Opaque : ledger.

(** Turns a method given as a function of the state into its body there. *)
Ltac ledger_here :=
  lazymatch goal with |- ledger_at ?m ?s =>
    let t := eval cbv beta in (m s) in
    lazymatch t with
    | ?m' s => refine (ledger_at_eq m m' s eq_refl _)
    | _ => let t := eval cbv beta zeta in (m s) in lazymatch t with ?m' s => refine (ledger_at_eq m m' s eq_refl _) end
    end end.

(** A leaf that touches neither positions nor the book is in the ledger by
    computation. *)
Ltac ledger_steps :=
  repeat (intros; cbv beta zeta; first
    [ solve [auto 1 with ledger]
    | lazymatch goal with
      | |- ledger_at (_ ≫= _) _ => apply ledger_at_bind
      | |- ledger_at (match ?x with _ => _ end) _ => destruct x
      | |- ledger_at (map_err _ _) _ => apply ledger_at_map_err
      | |- ledger_at (forM _ _) _ => apply ledger_at_forM
      | |- ledger_at _ _ => split; [reflexivity|let H := fresh in intros H; exact H]
      end ]).

Lemma AddCollateral_ledger i d c : ledger_at (AddCollateral i d) c.
Proof. unfold AddCollateral, updateAccount, Accounts_Set, set_account_store. ledger_steps. Qed.
Lemma SettlePositionFunding_ledger a m c : ledger_at (SettlePositionFunding a m) c.
Proof.
  unfold SettlePositionFunding. apply ledger_at_bind; [by split|]. intros d c1. apply ledger_at_bind; [|by split].
  apply UpdatePosition_ledger. intros p px H. repeat case_match; by injection H as <-.
Qed.
#[export] Hint Resolve AddCollateral_ledger SettlePositionFunding_ledger : ledger.
Lemma settleAll_ledger a c : ledger_at (settleAllPositionFunding a) c.
Proof. unfold settleAllPositionFunding. ledger_here. ledger_steps. Qed.
Lemma AddAccountAssetBalance_ledger a x d c : ledger_at (AddAccountAssetBalance a x d) c.
Proof. unfold AddAccountAssetBalance, setAccountAsset, set_account_store. ledger_here. ledger_steps. Qed.
Lemma createAccount_ledger a c : ledger_at (createAccount a) c.
Proof. unfold createAccount, Accounts_Set, set_account_store. ledger_steps. Qed.
#[export] Hint Resolve settleAll_ledger AddAccountAssetBalance_ledger createAccount_ledger : ledger.
Lemma CreateSubAccount_ledger a c : ledger_at (CreateSubAccount a) c.
Proof. unfold CreateSubAccount, set_account_store. ledger_here. ledger_steps. Qed.
Lemma CreatePublicPoolAccount_ledger p c : ledger_at (CreatePublicPoolAccount p) c.
Proof. unfold CreatePublicPoolAccount, allocatePoolSubAccountIndex, set_account_store. ledger_here. ledger_steps. Qed.
Lemma EnsureMasterAccount_ledger b c : ledger_at (EnsureMasterAccount b) c.
Proof.
  unfold ledger_at, EnsureMasterAccount, set_account_store. repeat case_match; try done.
  all: match goal with |- book (?m ?c0).2 = _ /\ _ => change (ledger_at m c0) end; ledger_steps.
Qed.
Lemma UpdatePublicPoolInfo_ledger i f c : ledger_at (UpdatePublicPoolInfo i f) c.
Proof. unfold UpdatePublicPoolInfo, updateAccount, Accounts_Set, set_account_store. ledger_steps. Qed.
Lemma UpsertPublicPoolShare_ledger m p s d t c : ledger_at (UpsertPublicPoolShare m p s d t) c.
Proof. unfold UpsertPublicPoolShare, updateAccount, Accounts_Set, set_account_store. ledger_steps. Qed.
Lemma ReducePublicPoolShare_ledger m p s c : ledger_at (ReducePublicPoolShare m p s) c.
Proof. unfold ReducePublicPoolShare, updateAccount, Accounts_Set, set_account_store. ledger_steps. Qed.
#[export] Hint Resolve CreateSubAccount_ledger CreatePublicPoolAccount_ledger EnsureMasterAccount_ledger UpdatePublicPoolInfo_ledger
  UpsertPublicPoolShare_ledger ReducePublicPoolShare_ledger : ledger.

Section account_messages.
Context `{env : Env, text : AssetText}.

Lemma burnSharesCore_ledger p d o s k c : ledger_at (burnSharesCore p d o s k) c.
Proof. unfold burnSharesCore. ledger_steps. Qed.
Lemma UpdateMargin_ledger msg c : ledger_at (UpdateMargin msg) c.
Proof.
  unfold UpdateMargin, authorized_user, snapshotPreRisk, requireRiskOKFrom. ledger_steps.
  all: apply UpdatePosition_ledger; by intros p px [= <-].
Qed.
Lemma UpdateLeverage_ledger msg c : ledger_at (UpdateLeverage msg) c.
Proof.
  unfold UpdateLeverage, authorized_user, SetPositionLeverage. ledger_steps.
  apply UpdatePosition_ledger. by intros p px [= <-].
Qed.
Lemma withdraw_debit_ledger a x r d s c : ledger_at (withdraw_debit a x r d s) c.
Proof. unfold withdraw_debit, snapshotPreRisk, requireRiskOKFrom. ledger_steps. Qed.
Lemma Transfer_ledger msg c : ledger_at (Transfer msg) c.
Proof. unfold Transfer, authorized_user, snapshotPreRisk, requireRiskOKFrom. ledger_here. ledger_steps. Qed.
Lemma UpdatePublicPool_ledger msg c : ledger_at (UpdatePublicPool msg) c.
Proof.
  unfold UpdatePublicPool, set_account_store. ledger_steps.
  unfold ledger_at. cbn. split; [done|]. by destruct (_ =? _).
Qed.
#[local] Hint Resolve burnSharesCore_ledger withdraw_debit_ledger : ledger.

(** The account and the book of a state a message leads to. *)
Definition ledger_step (c c' : Chain) : Prop := book c' = book c /\ (sized c -> sized c').

Lemma account_msg_ledger c c' : account_msg c c' -> ledger_step c c'.
Proof.
  intros Hm. assert (forall A (m : K A) r, m c = (r, c') -> ledger_at m c -> ledger_step c c') as Hrun.
  { intros A m r Hr. unfold ledger_at. by rewrite Hr. }
  destruct Hm as [sender i r Hr|sender i mode u Hr|sender i x mode u Hr|msg u Hr|msg u Hr|msg u Hr|auth p u Hr|msg r Hr
    |msg u Hr|sender p x r Hr|sender p s r Hr|auth p d s r Hr|sender p f t x u Hr]; (eapply Hrun; [exact Hr|]); clear Hr.
  - unfold MsgCreateSubAccount. ledger_steps.
  - unfold MsgUpdateAccountConfig, owned_account, UpdateAccountTradingMode, updateAccount, Accounts_Set, set_account_store. ledger_steps.
  - unfold MsgUpdateAccountAssetConfig, owned_account. ledger_steps.
  - apply Transfer_ledger.
  - apply UpdateMargin_ledger.
  - apply UpdateLeverage_ledger.
  - unfold Account_UpdateParams, set_account_store. ledger_steps.
  - unfold CreatePublicPool, snapshotPreRisk, requireRiskOKFrom. ledger_steps.
  - apply UpdatePublicPool_ledger.
  - unfold MintShares, snapshotPreRisk, requireRiskOKFrom. ledger_here. ledger_steps.
  - unfold BurnShares. ledger_steps.
  - unfold ForceBurnShares. ledger_here. ledger_steps.
  - unfold StrategyTransfer. ledger_steps.
Qed.

(** Assets live in a store of their own. *)
Lemma asset_step_frames c c' : asset_step c c' -> ledger_and_book c' = ledger_and_book c.
Proof.
  destruct 1 as [msg r c' Hr|msg r c' Hr|auth p r c' Hr].
  - unfold RegisterAsset in Hr. guards Hr. unfold mbind, M_bind, NextAssetIndex_Next, lift in Hr. guards Hr.
    destruct (CreateAsset _ _) as [r0 c1] eqn:E. apply CreateAsset_cases in E.
    assert (c' = c1) as -> by (destruct r0; injection Hr as _ <-; done).
    destruct E as [[-> _]|(_ & -> & _)]; done.
  - unfold UpdateAsset, Keeper_UpdateAsset in Hr. guards Hr. by injection Hr as _ <-.
  - unfold Asset_UpdateParams in Hr. guards Hr. by injection Hr as _ <-.
Qed.

Section coins.
Context {B : Type} `{bank : BankKeeper B, bank_laws : !BankOk B}.

Definition side_at {A} (m : M (Chain * B) Error A) (s : Chain * B) : Prop := ledger_step s.1 (m s).2.1.

Lemma side_at_bind {A A'} (m : M (Chain * B) Error A) (k : A -> M (Chain * B) Error A') s :
  side_at m s -> (forall a s1, side_at (k a) s1) -> side_at (m ≫= k) s.
Proof.
  unfold side_at, ledger_step, mbind, M_bind. intros [H1 H2] Hk. destruct (m s) as [[a|e| |] s1]; cbn in *; try done.
  destruct (Hk a s1) as [K1 K2]. split; [congruence|auto].
Qed.
Lemma on_chain_side {A} (m : K A) s : ledger_at m s.1 -> side_at (on_chain m) s.
Proof. unfold side_at, ledger_at, ledger_step, on_chain. by destruct (m s.1). Qed.
Lemma on_bank_side {A} (m : M B Error A) s : side_at (on_bank m) s.
Proof. unfold side_at, on_bank. by destruct (m s.2). Qed.

Ltac side_steps :=
  repeat (intros; cbv beta zeta; lazymatch goal with
    | |- side_at (_ ≫= _) _ => apply side_at_bind
    | |- side_at (on_chain _) _ => apply on_chain_side
    | |- side_at (on_bank _) _ => apply on_bank_side
    | |- side_at (match ?x with _ => _ end) _ => destruct x
    | |- side_at _ _ => by split
    end).
Ltac side_here :=
  lazymatch goal with |- side_at ?m ?s =>
    let t := eval cbv beta zeta in (m s) in
    lazymatch t with ?m' s => change (side_at m' s) end end.

Lemma coin_step_ledger s s' : coin_step s s' -> ledger_step s.1 s'.1.
Proof.
  assert (forall A (m : M (Chain * B) Error A) r, m s = (r, s') -> side_at m s -> ledger_step s.1 s'.1) as Hrun.
  { intros A m r Hr. unfold side_at. by rewrite Hr. }
  intros Hst. destruct Hst as [msg r Hcan Hamt Hr|msg u Hamt Hr|c' Hm ->|c' Hm ->].
  - eapply Hrun; [exact Hr|]. unfold Deposit. side_here. side_steps; ledger_steps.
  - eapply Hrun; [exact Hr|]. unfold Withdraw, authorized_user. side_here. side_steps; ledger_steps.
  - by apply account_msg_ledger.
  - pose proof (asset_step_frames _ _ Hm) as E. unfold ledger_and_book in E. injection E as E1 E2.
    split; [done|]. by apply sized_account.
Qed.
End coins.
End account_messages.

(** *** Markets and parameters *)

Lemma applyMarketExit_ready m : stable block_ready (applyMarketExit m).
Proof.
  unfold applyMarketExit. apply stable_bind; [|by intros ? ?].
  intros c Hc. apply ready_ledger; [| |done].
  - apply frames_attempt, ApplyExitPosition_book.
  - intros c0 H0. destruct (succeeds_attempt sized _ (ApplyExitPosition_safe (mkt_MarketIndex m)) c0 H0) as (r & c1 & Hr & H1).
    cbn. by rewrite Hr.
Qed.

Section history.
Context `{env : Env, text : AssetText}.

Lemma CreateMarket_ready msg : stable block_ready (CreateMarket msg).
Proof.
  apply block_ready_frames. intros c. unfold CreateMarket, createMarket, SetMarketDetails, Markets_Set, ExpiryIndex_Set, set_market_store.
  solve_frames.
Qed.

Lemma UpdateMarket_ready msg : stable block_ready (UpdateMarket msg).
Proof.
  intros c Hc. unfold UpdateMarket. apply (stable_bind block_ready); [by intros ? ?| |done]. intros _.
  do 4 (apply stable_bind; [by intros ? ?|intros ?]). cbv zeta. apply stable_bind.
  - apply block_ready_frames. intros c0. unfold updateMarket, Markets_Set, ExpiryIndex_Remove, ExpiryIndex_Set, set_market_store. solve_frames.
  - intros _. case_match; [apply applyMarketExit_ready|by intros ? ?].
Qed.

Lemma governance_ready :
  (forall msg, stable block_ready (UpdateMarketDetails msg)) /\ (forall a p, stable block_ready (Market_UpdateParams a p)) /\
  (forall a p, stable block_ready (Oracle_UpdateParams a p)) /\ (forall a p, stable block_ready (Matching_UpdateParams a p)).
Proof.
  split_and!; intros; apply block_ready_frames; intros c;
    unfold UpdateMarketDetails, Market_UpdateParams, Oracle_UpdateParams, Matching_UpdateParams, SetMarketDetails, set_market_store;
    solve_frames.
Qed.

Lemma PreBlocker_ready enabled height tx0 : succeeds block_ready (PreBlocker enabled height tx0).
Proof.
  intros c Hc. unfold PreBlocker. repeat case_match; try (by eauto). apply succeeds_forM; [|done].
  generalize (xst_OracleParams (misc c)) as params. clear c Hc. intros params agg c Hc.
  unfold apply_aggregation. cbv zeta. set (p := applyMarkSmoothing _ _ c).
  apply (succeeds_bind block_ready); [|by intros; apply succeeds_ret|done]. apply succeeds_attempt.
  intros c0 Hc0. unfold SetPrice, SetPriceUnsafe. unfold safe_at. rewrite run_ensure. case_match; [|by split].
  split; [done|]. by apply block_ready_frames.
Qed.

Context {B : Type} `{bank : BankKeeper B, bank_laws : !BankOk B}.

(** ** The life of the chain *)

(** A transaction that went through; a failed one is rolled back by the
    application. The amounts and prices of a decoded message have their Go
    types; the 64-bit order sequence is not used up. *)
Inductive tx (c c' : Chain) : Prop :=
| tx_create msg r : 0 <= next_index c < U64 - 1 -> MsgCreateOrder_typed msg -> CreateOrder msg c = (Ok r, c') -> tx c c'
| tx_modify sender i b p t r : 0 <= next_index c < U64 - 1 -> 0 <= b < 2 ^ 64 /\ 0 <= p < 2 ^ 32 /\ 0 <= t < 2 ^ 32 ->
    MsgModifyOrder sender i b p t c = (Ok r, c') -> tx c c'
| tx_cancel sender i u : MsgCancelOrder sender i c = (Ok u, c') -> tx c c'
| tx_cancel_all sender a m mode u : MsgCancelAllOrders sender a m mode c = (Ok u, c') -> tx c c'
| tx_liquidate sender v m b u : 0 <= b -> MsgLiquidate sender v m b c = (Ok u, c') -> tx c c'
| tx_deleverage sender v m d b u : MsgDeleverage sender v m d b c = (Ok u, c') -> tx c c'
| tx_funds b b' : coin_step (c, b) (c', b') -> tx c c'
| tx_create_market msg u : CreateMarket msg c = (Ok u, c') -> tx c c'
| tx_update_market msg u : UpdateMarket msg c = (Ok u, c') -> tx c c'
| tx_market_details msg u : UpdateMarketDetails msg c = (Ok u, c') -> tx c c'
| tx_market_params auth p u : Market_UpdateParams auth p c = (Ok u, c') -> tx c c'
| tx_oracle_params auth p u : Oracle_UpdateParams auth p c = (Ok u, c') -> tx c c'
| tx_matching_params auth p u : Matching_UpdateParams auth p c = (Ok u, c') -> tx c c'.

(** The application's entry points, in the order consensus calls them. *)
Inductive chain_step (c c' : Chain) : Prop :=
| step_time t : c' = c <| BlockTime := t |> -> chain_step c c'
| step_pre enabled height tx0 : PreBlocker enabled height tx0 c = (Ok tt, c') -> chain_step c c'
| step_begin : BeginBlock c = (Ok tt, c') -> chain_step c c'
| step_tx : tx c c' -> chain_step c c'
| step_end : EndBlock c = (Ok tt, c') -> chain_step c c'.

Lemma stable_result {A} (m : K A) c r c' : stable block_ready m -> block_ready c -> m c = (r, c') -> block_ready c'.
Proof. intros Hm Hc Hr. specialize (Hm c Hc). by rewrite Hr in Hm. Qed.
Lemma succeeds_result {A} (m : K A) c a c' : succeeds block_ready m -> block_ready c -> m c = (Ok a, c') -> block_ready c'.
Proof. intros Hm Hc Hr. destruct (Hm c Hc) as (a' & c1 & Hr' & H1). congruence. Qed.

Lemma cancel_messages_ready :
  (forall s i, stable block_ready (MsgCancelOrder s i)) /\ (forall s a m mode, stable block_ready (MsgCancelAllOrders s a m mode)).
Proof.
  split.
  - intros s i. unfold MsgCancelOrder. do 4 (apply stable_bind; [by intros ? ?|intros ?]).
    apply stable_bind; [apply safe_stable, CancelOrder_ready|by intros ? ? ?].
  - intros s a m mode c Hc. unfold MsgCancelAllOrders. apply (stable_bind block_ready); [by intros ? ?|intros _|done].
    do 4 (apply stable_bind; [by intros ? ?|intros ?]). apply cancel_each_ready.
Qed.

Lemma liquidation_messages_ready :
  (forall s v m b, stable block_ready (MsgLiquidate s v m b)) /\ (forall s v m d b, stable block_ready (MsgDeleverage s v m d b)).
Proof.
  split.
  - intros s v m b. unfold MsgLiquidate. do 2 (apply stable_bind; [by intros ? ?|intros ?]). apply Liquidate_ready.
  - intros s v m d b. unfold MsgDeleverage. do 2 (apply stable_bind; [by intros ? ?|intros ?]).
    apply stable_bind; [|intros _; apply Deleverage_ready]. case_match; [by intros ? ?|].
    apply stable_bind; [by intros ? ?|by intros ? ? ?].
Qed.

Lemma tx_ready c c' : tx c c' -> block_ready c -> block_ready c'.
Proof.
  intros Ht Hc. destruct governance_ready as (G1 & G2 & G3 & G4). destruct cancel_messages_ready as [C1 C2].
  destruct liquidation_messages_ready as [L1 L2].
  destruct Ht as [msg r Hn _ Hr|s i b p t r Hn _ Hr|s i u Hr|s a m mode u Hr|s v m b u _ Hr|s v m d b u Hr|b b' Hs|msg u Hr|msg u Hr
    |msg u Hr|a p u Hr|a p u Hr|a p u Hr].
  - by eapply CreateOrder_ready.
  - by eapply MsgModifyOrder_ready.
  - by eapply (stable_result (MsgCancelOrder s i)).
  - by eapply (stable_result (MsgCancelAllOrders s a m mode)).
  - by eapply (stable_result (MsgLiquidate s v m b)).
  - by eapply (stable_result (MsgDeleverage s v m d b)).
  - destruct (coin_step_ledger (c, b) (c', b') Hs) as [K1 K2]. apply (ready_book c); [done|apply K2, Hc|done].
  - by eapply (stable_result (CreateMarket msg)); [apply CreateMarket_ready|..].
  - by eapply (stable_result (UpdateMarket msg)); [apply UpdateMarket_ready|..].
  - by eapply (stable_result (UpdateMarketDetails msg)).
  - by eapply (stable_result (Market_UpdateParams a p)).
  - by eapply (stable_result (Oracle_UpdateParams a p)).
  - by eapply (stable_result (Matching_UpdateParams a p)).
Qed.

Lemma chain_step_ready c c' : chain_step c c' -> block_ready c -> block_ready c'.
Proof.
  intros Hst Hc. destruct Hst as [t ->|en h tx0 Hr|Hr|Ht|Hr].
  - by apply (ready_book c); [|apply Hc|].
  - by eapply (succeeds_result (PreBlocker en h tx0)); [apply PreBlocker_ready|..].
  - by eapply (succeeds_result BeginBlock); [apply Funding_BeginBlocker_ready|..].
  - by apply (tx_ready c).
  - by eapply (succeeds_result EndBlock); [apply EndBlock_ready|..].
Qed.

(** C3: the chain never halts: after every history of blocks and successful
    transactions from a ready state (genesis is one), the next pre-block,
    begin-block and end-block hooks return without an error, a panic or an
    endless loop, and leave a state they can be run on again; whatever
    partial writes earlier failures of matching, triggers, liquidations,
    market exits or oracle updates left behind. *)
Theorem chain_never_halts c c' :
  rtc chain_step c c' -> block_ready c -> forall enabled height tx0,
  (exists c1, PreBlocker enabled height tx0 c' = (Ok tt, c1)) /\
  (exists c1, BeginBlock c' = (Ok tt, c1)) /\
  (exists c1, EndBlock c' = (Ok tt, c1)).
Proof.
  intros Hh Hc enabled height tx0. assert (block_ready c') as Hc'.
  { induction Hh; [done|]. eauto using chain_step_ready. }
  destruct (PreBlocker_ready enabled height tx0 c' Hc') as ([] & c1 & H1 & _).
  destruct (Funding_BeginBlocker_ready c' Hc') as ([] & c2 & H2 & _).
  destruct (EndBlock_ready c' Hc') as ([] & c3 & H3 & _). split_and!; eauto.
Qed.
End history.

(** ** Ready states *)

(** A consistent book whose parked orders are off the book is ready: the
    state the operations of the order book keep is one the hooks can start
    from. *)
Lemma consistent_ready c :
  sized c -> book_inv c -> map_Forall (fun i _ => i < next_index c) (orders c) ->
  (forall m p i, (m, p, i) ∈ triggers c -> i < next_index c /\ off_book i c /\
     forall o, orders c !! i = Some o -> ord_MarketIndex o = m /\ ord_TriggerPrice o = p) ->
  block_ready c.
Proof.
  intros Hs [I1 I2 _ I4 _] Hn Ht. split_and!; [done| |].
  - split.
    + exact I1.
    + intros m sk e He. destruct (I2 _ _ _ He) as (o & H1 & _ & H2 & _ & _ & H3). split; [by exists o|done].
    + intros m p i o Hin Ho. destruct (Ht _ _ _ Hin) as (_ & Hoff & Hid). destruct (Hid o Ho). split_and!; [done..|].
      intros m' sk e He Hi. destruct (I2 _ _ _ He) as (o' & _ & _ & _ & _ & _ & H3). rewrite Hi in H3. by rewrite Hoff in H3.
    + exact Hn.
    + intros m p i Hin. by apply (Ht m p).
  - intros m p v Hv. specialize (I4 m p). unfold level_of in I4. unfold levels in Hv. rewrite Hv in I4. cbn in I4. subst v.
    split; [done|]. intros ->. cbn. split; apply ksum_zero; intros [m' sk] e He; unfold entry_contrib; (case_decide as Hd; [|done]);
      destruct Hd as (_ & _ & Hp); unfold entry_quote; cbn in *; rewrite Hp; lia.
Qed.

(** ** Concrete runs *)

(** A bid is posted, the block ends, and the clock moves on. *)
Definition block_demo1 : Chain := (@CreateOrder demo_env post_only_bid trade_demo).2.
Definition block_demo2 : Chain := (EndBlock block_demo1).2.
Definition block_demo : Chain := block_demo2 <| BlockTime := 5000 |>.

Lemma block_demo_start : block_ready trade_demo.
Proof. apply consistent_ready; [by_decide|exact Inv_empty|by_decide|]. intros m p i Hin. by vm_compute in Hin. Qed.

Lemma block_demo_history : rtc (@chain_step demo_env demo_text coins demo_bank demo_bank_ok) trade_demo block_demo.
Proof.
  eapply (rtc_l _ _ block_demo1); [|eapply (rtc_l _ _ block_demo2); [|eapply rtc_l; [|apply rtc_refl]]].
  - apply step_tx. eapply (tx_create _ _ post_only_bid); [by_decide|by_decide|]. unfold block_demo1.
    apply (ran (@CreateOrder demo_env post_only_bid) trade_demo (Ok (mkCreateOrderResponse 1 0 0))). by_compute.
  - apply step_end. apply (ran EndBlock block_demo1 (Ok tt)). by_compute.
  - by apply (step_time _ _ 5000).
Qed.

Lemma chain_never_halts_witness :
  (exists c1, BeginBlock block_demo = (Ok tt, c1)) /\ (exists c1, EndBlock block_demo = (Ok tt, c1)).
Proof.
  destruct (@chain_never_halts demo_env demo_text coins demo_bank demo_bank_ok trade_demo block_demo
    block_demo_history block_demo_start false 0 None) as (_ & H1 & H2). by split.
Defined.
