(* ===== verification/Typed.v ===== *)
(** * Stored orders are well-typed

    What the types of the Go structs and the stateless checks promise of an
    order holds of every order and every book entry in the store, after any
    history of blocks and transactions: the enumerations hold declared
    values, the amounts stay within the order's initial amount and the
    message limit, prices fit their 32 bits, and an order of a type that
    requires a limit price has one. *)

From S2P Require Import Prelude Constants Types PositionMath Account Market Oracle Funding Risk Trade OrderBook Asset.
From S2P Require Import Effects Matching Liquidation AccountMsg PublicPool Solvency Sweeps Blocks.

Definition valid_status (s : Z) : bool :=
  (s =? OrderStatusOpen) || (s =? OrderStatusPartiallyFilled) || (s =? OrderStatusFilled)
  || (s =? OrderStatusCancelled) || (s =? OrderStatusTriggeredPending).

Record order_ok (o : Order) : Prop := {
  ok_remaining : 0 <= ord_RemainingBaseAmount o <= ord_InitialBaseAmount o;
  ok_initial : 0 < ord_InitialBaseAmount o <= MaxOrderBaseAmount;
  ok_price : 0 <= ord_Price o < 2 ^ 32;
  ok_trigger : 0 <= ord_TriggerPrice o < 2 ^ 32;
  ok_status : valid_status (ord_Status o) = true;
  ok_type : validateOrderType (ord_OrderType o) = true;
  ok_tif : validateTIF (ord_TimeInForce o) = true;
  ok_limit : requiresLimitPrice (ord_OrderType o) = true -> 0 < ord_Price o
}.

Definition entry_ok (e : OrderBookEntry) : Prop :=
  0 <= ent_RemainingBaseAmount e <= MaxOrderBaseAmount /\ 0 <= ent_Price e < 2 ^ 32.

Definition typed (c : Chain) : Prop :=
  map_Forall (fun _ o => order_ok o) (orders c) /\ map_Forall (fun _ e => entry_ok e) (entries c).

Lemma order_ok_entry o : order_ok o -> entry_ok (entry_of o).
Proof. intros [? ? ? _ _ _ _ _]. split; cbn; lia. Qed.

Lemma order_ok_status o s : order_ok o -> valid_status s = true -> order_ok (o <| ord_Status := s |>).
Proof. intros [] Hs. by split. Qed.

Lemma order_ok_remaining o r :
  order_ok o -> 0 <= r <= ord_RemainingBaseAmount o -> order_ok (o <| ord_RemainingBaseAmount := r |>).
Proof. intros [? ? ? ? ? ? ? ?] Hr. split; cbn; try done. lia. Qed.

(** ** The index layer *)

Definition rows_of (c : Chain) := (orders c, entries c).

Lemma typed_rows c c' : rows_of c' = rows_of c -> typed c -> typed c'.
Proof. unfold rows_of, typed. by intros [= -> ->]. Qed.
Lemma typed_frames {A} (k : K A) : frames rows_of k -> stable typed k.
Proof. intros Hk. eapply stable_frames; [exact Hk|]. apply typed_rows. Qed.
Lemma typed_core {A} (k : K A) : frames core k -> stable typed k.
Proof. intros Hk. apply typed_frames. intros c. specialize (Hk c). unfold core in Hk. unfold rows_of, orders, entries. by injection Hk as -> ->. Qed.
Lemma typed_book {A} (k : K A) : frames book k -> stable typed k.
Proof. intros Hk. apply typed_frames. intros c. unfold rows_of, orders, entries. by rewrite Hk. Qed.

Lemma setOrder_typed o : order_ok o -> stable typed (setOrder o).
Proof. intros Ho c [H1 H2]. split; [by apply map_Forall_insert_2|exact H2]. Qed.

Lemma adjust_typed m a p b q s d : stable typed (adjustPriceLevel m a p b q s d).
Proof.
  apply typed_frames. intros c. pose proof (frames_adjust m a p b q s d c) as E. unfold spine in E. unfold rows_of.
  by injection E as -> -> _ _ _.
Qed.

Create HintDb typed discriminated.
#[export] Hint Constants Opaque : typed.
#[export] Hint Resolve setOrder_typed adjust_typed order_ok_entry : typed.
#[export] Hint Extern 1 (stable typed (indexClientOrder _)) => apply typed_core, frames_index_client : typed.
#[export] Hint Extern 1 (stable typed (unindexClientOrder _)) => apply typed_core, frames_unindex_client : typed.
#[export] Hint Extern 1 (stable typed (unindexClientOrderIfMatches _)) => apply typed_core, frames_unindex_client_if : typed.
#[export] Hint Extern 1 (stable typed (indexAccountOpenOrder _)) => apply typed_core, frames_index_open : typed.
#[export] Hint Extern 1 (stable typed (unindexAccountOpenOrder _)) => apply typed_core, frames_unindex_open : typed.
#[export] Hint Extern 1 (stable typed (addExpiryIndex _)) => apply typed_core, frames_add_expiry : typed.
#[export] Hint Extern 1 (stable typed (removeExpiryIndex _)) => apply typed_core, frames_remove_expiry : typed.
#[export] Hint Extern 1 (stable typed (releaseSpotLockOnClose _)) => apply typed_book, frames_release : typed.
#[export] Hint Extern 1 (stable typed (applySpotLockOnOpen _)) => apply typed_book, frames_spot_lock : typed.

Ltac typed_steps :=
  repeat (cbv beta zeta; first
    [ solve [auto 4 with typed]
    | lazymatch goal with
      | |- stable typed (_ ≫= _) => apply stable_bind; [|intros ?]
      | |- stable typed (match ?x with _ => _ end) => destruct x
      | |- stable typed _ => by apply typed_frames
      end ]).

(** Past a read, with what was read. *)
Lemma typed_read {A B} (f : Chain -> R A) (k : A -> K B) :
  (forall c a, typed c -> f c = Ok a -> stable typed (k a)) -> stable typed (reads f ≫= k).
Proof.
  intros Hk c Hc. apply bind_state; [done|]. intros a c1 Hr. apply reads_ok in Hr as [Hr ->]. by apply (Hk c a).
Qed.

Lemma stored_ok i o c : typed c -> GetOrder i c = Ok o -> order_ok o.
Proof. intros [H _] Ho%of_option_ok. exact (H _ _ Ho). Qed.

Lemma insertEntry_typed m a e : entry_ok e -> stable typed (insertEntry m a e).
Proof.
  intros He. unfold insertEntry. apply stable_bind; [by intros ? ?|]. intros q. cbv zeta.
  apply stable_bind; [|intros _; apply stable_bind; [by apply typed_frames|intros _; auto with typed]].
  intros c [H1 H2]. split; [exact H1|]. by apply map_Forall_insert_2.
Qed.

Lemma Entries_Remove_typed k : stable typed (Entries_Remove k).
Proof. intros c [H1 H2]. split; [exact H1|]. by apply map_Forall_delete. Qed.
#[export] Hint Resolve insertEntry_typed Entries_Remove_typed : typed.

Lemma removeEntry_typed m a i : stable typed (removeEntry m a i).
Proof.
  intros c Hc. unfold removeEntry. repeat case_match; try done.
  apply (stable_bind typed); [auto with typed|intros _|done]. typed_steps.
Qed.

Lemma shrink_typed m a i d : 0 <= d -> stable typed (shrinkEntryResidue m a i d).
Proof.
  intros Hd. unfold shrinkEntryResidue. apply stable_bind; [by intros ? ?|]. intros sk. apply typed_read.
  intros c e Hc He%of_option_ok. pose proof (proj2 Hc _ _ He) as [He1 He2].
  set (d' := if _ <? d then _ else d). cbv zeta.
  assert (0 <= d' <= ent_RemainingBaseAmount e) as Hd'.
  { unfold d'. case_match; breflect; lia. }
  apply stable_bind; [by intros ? ?|]. intros q. apply stable_bind; [auto with typed|intros _].
  destruct (_ =? 0); [typed_steps|]. apply stable_bind; [|by intros ? ? ?].
  intros c1 [H1 H2]. split; [exact H1|]. apply map_Forall_insert_2; [|done]. split; cbn; lia.
Qed.
#[export] Hint Resolve removeEntry_typed shrink_typed : typed.

(** ** The lifecycle *)

Lemma close_order_typed o : order_ok o -> stable typed (close_order o).
Proof. intros Ho. unfold close_order. typed_steps. Qed.
#[export] Hint Resolve close_order_typed order_ok_status : typed.
#[export] Hint Extern 1 (valid_status _ = true) => reflexivity : typed.

Lemma EvictMakerOrder_typed i st : valid_status st = true -> stable typed (EvictMakerOrder i st).
Proof.
  intros Hst. unfold EvictMakerOrder. apply typed_read. intros c o Hc Ho. pose proof (stored_ok _ _ _ Hc Ho). typed_steps.
Qed.

Lemma CancelOrder_typed i : stable typed (CancelOrder i).
Proof.
  unfold CancelOrder. apply typed_read. intros c o Hc Ho. pose proof (stored_ok _ _ _ Hc Ho).
  apply stable_bind; [typed_steps|]. intros _. auto with typed.
Qed.

Lemma OpenOrder_typed o : order_ok o -> stable typed (OpenOrder o).
Proof. intros Ho. unfold OpenOrder. typed_steps. Qed.

Lemma OpenTriggerOrder_typed o : order_ok o -> stable typed (OpenTriggerOrder o).
Proof. intros Ho. unfold OpenTriggerOrder. typed_steps. Qed.

Lemma ActivateTrigger_typed i : stable typed (ActivateTrigger i).
Proof.
  unfold ActivateTrigger. apply typed_read. intros c o Hc Ho. pose proof (stored_ok _ _ _ Hc Ho). typed_steps.
Qed.

Lemma FillMakerOrder_typed i q : 0 <= q -> stable typed (FillMakerOrder i q).
Proof.
  intros Hq. unfold FillMakerOrder. apply typed_read. intros c o Hc Ho. pose proof (stored_ok _ _ _ Hc Ho) as Hok.
  set (q' := if _ <? q then _ else q). assert (0 <= q' <= ord_RemainingBaseAmount o) as Hq'.
  { pose proof (ok_remaining o Hok). unfold q'. case_match; breflect; lia. }
  apply stable_bind; [apply shrink_typed; lia|]. intros [removed quote]. unfold applyOrderResidue.
  rewrite (proj2 (Z.ltb_ge _ q')) by lia. set (o1 := o <| ord_RemainingBaseAmount := _ |>).
  assert (order_ok o1) by (apply order_ok_remaining; [done|lia]).
  apply stable_bind; [by intros ? ?|intros _]. intros c1 Hc1.
  match goal with |- typed ((?k ≫= ?k2) c1).2 => assert (typed (k c1).2 /\ forall o2 c2, k c1 = (Ok o2, c2) -> order_ok o2) as [K1 K2] end.
  { destruct (ord_RemainingBaseAmount o1 =? 0).
    - split.
      + revert c1 Hc1. match goal with |- forall c1, typed c1 -> typed (?k c1).2 => change (stable typed k) end. typed_steps.
      + intros o2 c2 Hr. inv_ok. subst. by apply order_ok_status.
    - split; [done|]. intros o2 c2 [= <- _]. by apply (order_ok_status o1). }
  apply bind_state; [exact K1|]. intros o2 c2 Hr. pose proof (K2 _ _ Hr) as Ho2. rewrite Hr in K1.
  apply (stable_bind typed); [auto with typed|by intros ? ? ?|exact K1].
Qed.
#[export] Hint Resolve EvictMakerOrder_typed CancelOrder_typed OpenOrder_typed OpenTriggerOrder_typed ActivateTrigger_typed
  FillMakerOrder_typed : typed.

(** ** Matching *)

(** A run leaves a typed state, and its value satisfies [Q]. *)
Definition yields {A} (Q : A -> Prop) (x : R A * Chain) : Prop :=
  typed x.2 /\ forall a c', x = (Ok a, c') -> Q a.

Lemma yields_ret {A} (Q : A -> Prop) a c : typed c -> Q a -> yields Q (Ok a, c).
Proof. intros Hc Ha. split; [done|]. by intros a' c' [= <- _]. Qed.

Lemma yields_fail {A} (Q : A -> Prop) (r : R A) c : typed c -> (forall a, r <> Ok a) -> yields Q (r, c).
Proof. intros Hc Hr. split; [done|]. intros a' c' [= E _]. by destruct (Hr a'). Qed.

Lemma yields_bind {A B} (Q : A -> Prop) (Q' : B -> Prop) (m : K A) (k : A -> K B) c :
  yields Q (m c) -> (forall a c1, typed c1 -> Q a -> yields Q' (k a c1)) -> yields Q' ((m ≫= k) c).
Proof.
  unfold mbind, M_bind. intros [H1 H2] Hk. destruct (m c) as [[a|e| |] c1]; [by eapply Hk, H2|by apply yields_fail..].
Qed.

Lemma yields_stable {A} (m : K A) c : stable typed m -> typed c -> yields (fun _ => True) (m c).
Proof. intros Hm Hc. split; [by apply Hm|done]. Qed.

Lemma yields_read {A B} (f : Chain -> R A) (Q : B -> Prop) (k : A -> K B) c :
  typed c -> (forall a, f c = Ok a -> yields Q (k a c)) -> yields Q ((reads f ≫= k) c).
Proof.
  intros Hc Hk. unfold mbind, M_bind, reads. destruct (f c); [by apply Hk|by apply yields_fail..].
Qed.

Lemma peek_ok m a c e : typed c -> PeekBest m a c = Some e -> entry_ok e.
Proof. intros [_ H] [sk He]%peek_entry. exact (H _ _ He). Qed.

Definition maker_ok (maker : option OrderBookEntry) : Prop := from_option entry_ok True maker.

Lemma nextMaker_loop_typed fuel taker isPerp now c :
  typed c -> yields maker_ok (nextMaker_loop fuel taker isPerp now c).
Proof.
  revert c. induction fuel as [|fuel IH]; intros c Hc; cbn [nextMaker_loop]; [by apply yields_fail|].
  destruct (PeekBest _ _ c) as [best|] eqn:Hp; [|by apply yields_ret].
  pose proof (peek_ok _ _ _ _ Hc Hp) as Hb.
  assert (yields maker_ok ((EvictMakerOrder (ent_OrderIndex best) OrderStatusCancelled;;
    nextMaker_loop fuel taker isPerp now) c)) as Hev.
  { eapply yields_bind; [by apply yields_stable; [apply EvictMakerOrder_typed|]|]. intros _ c1 H1 _. by apply IH. }
  repeat case_match; first [exact Hev|by apply yields_ret].
Qed.

Lemma reduce_cap_sizes a m b c b' : 0 <= b -> reduce_cap a m b c = Ok (Some b') -> 0 <= b' <= b.
Proof.
  intros Hb Hr. unfold reduce_cap in Hr. apply res_bind_ok in Hr as (limit & Hl & Hr).
  assert (0 <= limit) by (unfold to_uint64 in Hl; destruct (_ && _) eqn:E; [|done]; injection Hl as <-; breflect; lia).
  destruct (limit =? 0); [done|]. injection Hr as <-. case_match; breflect; lia.
Qed.

Lemma matchSize_sizes taker maker isPerp c b :
  0 <= ord_RemainingBaseAmount taker -> entry_ok maker -> matchSize taker maker isPerp c = Ok (Some b) ->
  0 <= b <= ord_RemainingBaseAmount taker.
Proof.
  intros Ht [[Hm _] _] Hr. unfold matchSize in Hr. apply res_bind_ok in Hr as (b1 & H1 & Hr).
  destruct b1 as [b1|]; [|done]. apply res_bind_ok in Hr as (b2 & H2 & Hr). destruct b2 as [b2|]; [|done].
  assert (0 <= b1 <= ord_RemainingBaseAmount taker).
  { set (b0 := if _ <? ord_RemainingBaseAmount taker then _ else _) in H1. 
    assert (0 <= b0 <= ord_RemainingBaseAmount taker) as Hb0.
    { unfold b0. destruct (_ <? _) eqn:E; breflect; lia. }
    destruct (isPerp && _); [apply reduce_cap_sizes in H1; lia|]. by injection H1 as <-. }
  assert (0 <= b2 <= b1) by (destruct (isPerp && _ && _); [apply reduce_cap_sizes in H2; lia|injection H2 as <-; lia]).
  destruct (b2 =? 0); [done|]. injection Hr as <-. lia.
Qed.

(** The taker after a run of the loop: only its residue has shrunk. *)
Definition consumed (t t' : Order) : Prop :=
  exists r, t' = t <| ord_RemainingBaseAmount := r |> /\ 0 <= r <= ord_RemainingBaseAmount t.

Lemma match_loop_typed engine go_on isPerp now maxFills fuel taker tf fills c :
  (forall t maker b, 0 <= b -> stable typed (engine t maker b)) -> 0 <= ord_RemainingBaseAmount taker -> typed c ->
  yields (fun x => consumed taker x.1.1) (match_loop engine go_on isPerp now maxFills fuel taker tf fills c).
Proof.
  intros Hen. revert taker tf fills c. induction fuel as [|fuel IH]; intros taker tf fills c Ht Hc; cbn [match_loop]; [by apply yields_fail|].
  assert (consumed taker taker) as Hsame by (exists (ord_RemainingBaseAmount taker); by destruct taker).
  case_match; [by apply yields_ret|].
  eapply yields_bind; [apply nextMaker_loop_typed, Hc|]. intros [maker|] c1 H1 Hmk; [|by apply yields_ret].
  apply yields_read; [done|]. intros [b|] Hms; [|by apply yields_ret].
  pose proof (matchSize_sizes _ _ _ _ _ Ht Hmk Hms) as Hb.
  eapply yields_bind.
  { apply yields_stable; [|exact H1]. intros c0 H0. pose proof (Hen taker maker b (proj1 Hb) c0 H0) as H2. unfold catch_rejected.
    destruct (engine _ _ _ c0) as [[?|e| |] c2]; [done| |done..]. by destruct e as [| | | |[]| | | | | |]. }
  intros [[]|] c2 H2 _; [|by apply IH|by apply yields_ret].
  cbv zeta. set (t2 := taker <| ord_RemainingBaseAmount := _ |>).
  assert (consumed taker t2) as Ht2 by (exists (ord_RemainingBaseAmount taker - b); split; [done|lia]).
  apply yields_read; [done|]. intros more _. destruct more; [|by apply yields_ret]. cbn [negb].
  destruct (IH t2 (tf + b) (fills + 1) c2) as [K1 K2]; [cbn; lia|done|]. split; [done|].
  intros x c' Hr. destruct (K2 _ _ Hr) as (r & Er & Hr'). exists r. rewrite Er. cbn in Hr'. split; [done|lia].
Qed.

Lemma apply_in_cache_typed i b fill : frames book fill -> 0 <= b -> stable typed (apply_in_cache i b fill).
Proof.
  intros Hf Hb c Hc. unfold apply_in_cache. assert (typed ((fill;; FillMakerOrder i b) c).2) as H1.
  { apply (stable_bind typed); [by apply typed_book|intros _; by apply FillMakerOrder_typed|done]. }
  destruct ((fill;; FillMakerOrder i b) c) as [[o|e| |] c1]; [exact H1| |exact Hc..].
  unfold classifyApplyError. case_match; [|case_match; exact Hc].
  apply (stable_bind typed); [auto with typed|by intros ? ? ?|done].
Qed.

Lemma MatchOrder_typed taker maxFills c :
  0 <= ord_RemainingBaseAmount taker -> typed c ->
  yields (fun x => consumed taker x.1.1 /\ valid_status x.2 = true) (MatchOrder taker maxFills c).
Proof.
  intros Ht Hc. unfold MatchOrder, MatchOrder_with. apply yields_read; [done|]. intros m _. cbv zeta.
  eapply yields_bind.
  { apply match_loop_typed; [|done..]. intros t maker b Hb. unfold applyUserFill.
    case_match; apply apply_in_cache_typed; try done; [apply Apply_book|apply ApplySpotMatching_book]. }
  intros [[t1 f1] rej] c1 H1 Hcons. apply yields_ret; [done|]. split; [done|]. cbn. unfold match_status. by repeat case_match.
Qed.

Lemma MatchLiquidationOrder_typed v m zp b fee rcpt : 0 <= b -> stable typed (MatchLiquidationOrder v m zp b fee rcpt).
Proof.
  intros Hb c Hc. unfold MatchLiquidationOrder, MatchLiquidationOrder_with. rewrite !run_ensure. repeat (case_match; [|done]). cbv zeta.
  apply bind_state; [done|]. intros abs c1 Habs. apply lift_ok in Habs as [Habs ->].
  assert (0 <= abs) as Ha by (unfold to_uint64 in Habs; destruct (_ && _) eqn:E; [|done]; injection Habs as <-; breflect; lia).
  unfold matchLiquidation_with. apply bind_state; [done|]. intros mk c1 Hmk. apply reads_ok in Hmk as [_ ->].
  rewrite run_ensure. case_match; [|done]. cbv zeta.
  match goal with |- typed (?x).2 => enough (yields (fun _ => True) x) as [? _]; [done|] end.
  eapply yields_bind; [|intros [[t f] rej] c1 Hc1 _; by apply yields_ret].
  apply match_loop_typed; [| |done].
  - intros t maker q Hq. apply apply_in_cache_typed; [apply Apply_book|done].
  - cbn. case_match; lia.
Qed.

(** ** Messages *)

Section messages.
Context `{env : Env, text : AssetText}.

Lemma create_guards_ok msg c m idx nonce now :
  create_guards msg c = Ok m -> MsgCreateOrder_typed msg -> order_ok (order_of_msg msg idx nonce now).
Proof.
  intros Hg (Hb & Hp & Ht). unfold create_guards, MsgCreateOrder_ValidateBasic in Hg. inv_ok. breflect. split; cbn; try done; try lia.
  intros Hreq. rewrite Hreq in *. cbn in *. breflect. lia.
Qed.

Lemma residue_status_valid m tif o c : valid_status (ord_Status o) = true -> valid_status (residue_status m tif o c) = true.
Proof. intros Hs. unfold residue_status. by repeat case_match. Qed.

Lemma consumed_ok o t' : order_ok o -> consumed o t' -> order_ok t'.
Proof. intros Ho (r & -> & Hr). by apply order_ok_remaining. Qed.

Lemma CreateOrder_typed msg : MsgCreateOrder_typed msg -> stable typed (CreateOrder msg).
Proof.
  intros Hmsg c Hc. unfold CreateOrder. match goal with |- typed (?x).2 => enough (yields (fun _ => True) x) as [? _]; [done|] end.
  apply yields_read; [done|]. intros m Hg.
  eapply yields_bind; [apply yields_stable; [by apply typed_frames|done]|]. intros idx c1 H1 _.
  eapply yields_bind; [apply yields_stable; [apply typed_book, AllocateNonce_book|done]|]. intros nonce c2 H2 _.
  apply yields_read; [done|]. intros now _. cbv zeta.
  pose proof (create_guards_ok msg c m idx nonce now Hg Hmsg) as Ho. set (o := order_of_msg msg idx nonce now) in *.
  destruct (IsTriggerOrder _).
  - eapply yields_bind; [|intros _ c3 H3 _; by apply yields_ret]. apply yields_stable; [|done].
    apply OpenTriggerOrder_typed. destruct Ho. by split.
  - apply yields_read; [done|]. intros mf _.
    eapply yields_bind; [apply MatchOrder_typed; [apply Ho|done]|]. intros [[o1 f] st] c3 H3 [Hcons Hst]. cbn in Hcons, Hst.
    apply yields_read; [done|]. intros st' Hst'. injection Hst' as <-.
    eapply yields_bind; [|intros _ c4 H4 _; by apply yields_ret]. apply yields_stable; [|done].
    pose proof (consumed_ok o o1 Ho Hcons) as Ho1.
    apply OpenOrder_typed, order_ok_status; [by apply order_ok_status|by apply residue_status_valid].
Qed.

Lemma cancel_each_typed l : stable typed (cancel_each l).
Proof.
  unfold cancel_each. induction l as [|o l IH]; [by intros ? ?|]. cbn. apply stable_bind; [|by intros _].
  apply stable_bind; [apply CancelOrder_typed|by intros ? ? ?].
Qed.

Lemma fire_trigger_typed i : stable typed (fire_trigger i).
Proof.
  assert (forall A (k : K A) c, typed (k c).2 -> typed (attempt k c).2) as Hat.
  { intros A k c Hk. unfold attempt. by destruct (k c) as [[] ?]. }
  intros c Hc. unfold fire_trigger.
  match goal with |- typed (?x).2 => enough (yields (fun _ => True) x) as [? _]; [done|] end.
  apply (yields_bind (fun r => from_option order_ok True r)).
  { split; [apply Hat, ActivateTrigger_typed, Hc|]. intros r c1 Hr. unfold attempt in Hr.
    destruct (ActivateTrigger i c) as [[o|e| |] c2] eqn:Ha; try done; injection Hr as <- <-; [|done]. cbn.
    unfold ActivateTrigger in Ha. inv_ok. subst. match goal with H : GetOrder i c = Ok _ |- _ => apply stored_ok in H; [|done] end.
    by apply order_ok_status. }
  intros [o|] c1 H1 Ho; [|by apply yields_ret]. cbn in Ho.
  eapply yields_bind; [|intros [u|] c2 H2 _; [by apply yields_ret|]].
  2:{ eapply yields_bind; [split; [apply Hat, CancelOrder_typed, H2|]|intros _ c3 H3 _; by apply yields_ret]. intros a c' _. exact I. }
  split; [apply Hat|intros a c' _; exact I].
  assert (order_ok (activated_twin o)) as Htw.
  { destruct Ho. unfold activated_twin. destruct (_ || _) eqn:Hlim; split; cbn; try done.
    intros _. apply ok_limit0. apply orb_true_iff in Hlim as [->%Z.eqb_eq| ->%Z.eqb_eq]; reflexivity. }
  unfold run_activated. match goal with |- typed (?x).2 => enough (yields (fun _ => True) x) as [? _]; [done|] end.
  apply yields_read; [done|]. intros mf _.
  eapply yields_bind; [apply MatchOrder_typed; [apply Htw|done]|]. intros [[o1 f] st] c3 H3 [Hcons Hst]. cbn in Hcons, Hst.
  apply yields_stable; [|done]. apply OpenOrder_typed, order_ok_status; [by eapply consumed_ok|]. by case_match.
Qed.

(** ** The chain *)

Lemma attempt_typed {A} (k : K A) : stable typed k -> stable typed (attempt k).
Proof. intros Hk c Hc. specialize (Hk c Hc). unfold attempt. by destruct (k c) as [[] ?]. Qed.

Lemma iterateExpired_loop_book visit budget n due :
  (forall m, frames book (visit m)) -> frames book (iterateExpired_loop visit budget n due).
Proof.
  intros Hv. revert n. induction due as [|key due IH]; intros n c; cbn; [done|]. case_match; [|done].
  assert (forall n, book ((ExpiryIndex_Remove key;; iterateExpired_loop visit budget n due) c).2 = book c) as Hrm.
  { intros n0. apply frames_bind_at; [done|]. intros _. apply IH. }
  repeat case_match; auto. apply frames_bind_at; [by apply frames_attempt|]. intros r c1. apply IH.
Qed.

Lemma EndBlock_typed : stable typed EndBlock.
Proof.
  unfold EndBlock. apply stable_bind.
  { apply typed_book. intros c. unfold Market_EndBlocker, iterateExpired. case_match; [done|].
    apply iterateExpired_loop_book, expireMarket_book. }
  intros _. apply stable_bind.
  { intros c. apply (stable_forM typed). intros i. apply stable_bind; [apply attempt_typed, CancelOrder_typed|by intros ? ?]. }
  intros _. apply stable_bind; [|intros _; apply typed_book, liquidation_end_blocker_book].
  intros c. apply (stable_forM typed). apply fire_trigger_typed.
Qed.

Lemma Funding_BeginBlocker_book : frames book Funding_BeginBlocker.
Proof.
  intros c. unfold Funding_BeginBlocker. cbv zeta. apply frames_bind_at.
  - apply (frames_at book), frames_forM. intros m. case_match; [|done]. apply frames_bind.
    + intros c0. unfold processMarketSample. repeat case_match; try done.
      apply frames_bind_at; [by apply frames_at, frames_attempt|]. intros [bid|] c1; [|done].
      apply frames_bind_at; [by apply frames_at, frames_attempt|]. intros [ask|] c2; [|done]. unfold store_sample. by repeat case_match.
    + intros _ c0. unfold refreshMarkPrice. by repeat case_match.
  - intros _ c1. case_match; [|done]. apply frames_bind_at; [|done]. unfold SettleAllMarkets.
    apply (frames_at book), frames_forM. intros m. case_match; [|done]. intros c0. unfold settleMarket. by repeat case_match.
Qed.
Context {B : Type} `{bank : BankKeeper B, bank_laws : !BankOk B}.

Lemma typed_result {A} (m : K A) c r c' : stable typed m -> typed c -> m c = (r, c') -> typed c'.
Proof. intros Hm Hc Hr. specialize (Hm c Hc). by rewrite Hr in Hm. Qed.

Lemma book_result {A} (m : K A) c r c' : frames book m -> typed c -> m c = (r, c') -> typed c'.
Proof. intros Hm. apply typed_result, typed_book, Hm. Qed.

Lemma order_messages_typed :
  (forall s i, stable typed (MsgCancelOrder s i)) /\ (forall s a m mode, stable typed (MsgCancelAllOrders s a m mode)) /\
  (forall s v m b, 0 <= b -> stable typed (MsgLiquidate s v m b)) /\
  (forall s i b p t, 0 <= b < 2 ^ 64 /\ 0 <= p < 2 ^ 32 /\ 0 <= t < 2 ^ 32 -> stable typed (MsgModifyOrder s i b p t)).
Proof.
  split_and!.
  - intros s i. unfold MsgCancelOrder. do 4 (apply stable_bind; [by intros ? ?|intros ?]).
    apply stable_bind; [apply CancelOrder_typed|by intros ? ? ?].
  - intros s a m mode c Hc. unfold MsgCancelAllOrders. apply (stable_bind typed); [by intros ? ?|intros _|done].
    do 4 (apply stable_bind; [by intros ? ?|intros ?]). apply cancel_each_typed.
  - intros s v m b Hb. unfold MsgLiquidate, Liquidate. do 2 (apply stable_bind; [by intros ? ?|intros ?]).
    apply stable_bind; [by intros ? ?|]. intros [pos zp]. do 5 (apply stable_bind; [by intros ? ?|intros ?]).
    apply stable_bind; [intros c; apply cancel_each_typed|intros _]. apply stable_bind; [by intros ? ?|intros ?].
    apply stable_bind; [by apply MatchLiquidationOrder_typed|by intros ? ? ?].
  - intros s i b p t Hr. unfold MsgModifyOrder. do 7 (apply stable_bind; [by intros ? ?|intros ?]).
    apply stable_bind; [apply CancelOrder_typed|intros _]. apply stable_bind; [by apply CreateOrder_typed|by intros ? ? ?].
Qed.

Lemma tx_typed c c' : tx c c' -> typed c -> typed c'.
Proof.
  intros Ht Hc. destruct order_messages_typed as (M1 & M2 & M3 & M4).
  destruct Ht as [msg r _ Hm Hr|s i b p t r _ Hm Hr|s i u Hr|s a m mode u Hr|s v m b u Hb Hr|s v m d b u Hr|b b' Hs|msg u Hr|msg u Hr
    |msg u Hr|a p u Hr|a p u Hr|a p u Hr].
  - exact (typed_result _ _ _ _ (CreateOrder_typed msg Hm) Hc Hr).
  - exact (typed_result _ _ _ _ (M4 s i b p t Hm) Hc Hr).
  - exact (typed_result _ _ _ _ (M1 s i) Hc Hr).
  - exact (typed_result _ _ _ _ (M2 s a m mode) Hc Hr).
  - exact (typed_result _ _ _ _ (M3 s v m b Hb) Hc Hr).
  - refine (book_result _ _ _ _ _ Hc Hr). intros c0. unfold MsgDeleverage. do 2 (apply frames_bind_at; [done|intros ? ?]).
    apply frames_bind_at; [solve_frames|]. intros _ c1. apply Deleverage_book.
  - destruct (coin_step_ledger (c, b) (c', b') Hs) as [E _]. cbn in E. apply (typed_rows c); [|done].
    unfold rows_of, orders, entries. by rewrite E.
  - refine (book_result _ _ _ _ _ Hc Hr). intros c0.
    unfold CreateMarket, createMarket, SetMarketDetails, Markets_Set, ExpiryIndex_Set, set_market_store. solve_frames.
  - refine (book_result _ _ _ _ _ Hc Hr). intros c0.
    unfold UpdateMarket, updateMarket, Markets_Set, ExpiryIndex_Remove, ExpiryIndex_Set, set_market_store. solve_frames.
    apply frames_at, frames_attempt, ApplyExitPosition_book.
  - refine (book_result _ _ _ _ _ Hc Hr). intros c0. unfold UpdateMarketDetails, SetMarketDetails, set_market_store. solve_frames.
  - refine (book_result _ _ _ _ _ Hc Hr). intros c0. unfold Market_UpdateParams, set_market_store. solve_frames.
  - refine (book_result _ _ _ _ _ Hc Hr). intros c0. unfold Oracle_UpdateParams. solve_frames.
  - refine (book_result _ _ _ _ _ Hc Hr). intros c0. unfold Matching_UpdateParams. solve_frames.
Qed.

Lemma PreBlocker_book enabled height tx0 : frames book (PreBlocker enabled height tx0).
Proof.
  intros c. unfold PreBlocker. repeat case_match; try done. apply (frames_at book), frames_forM. intros agg c0.
  unfold apply_aggregation. apply frames_bind_at; [|done]. apply (frames_at book), frames_attempt.
  intros c1. unfold SetPrice, SetPriceUnsafe. solve_frames.
Qed.

(** C8: every stored order and every entry of the book is well-typed after any
    history of blocks and transactions: declared enumeration values, amounts
    between zero and the initial amount, which a message may set at most at
    the limit, prices within 32 bits, and a positive price where the order
    type asks for one; partial writes of failed steps included. *)
Theorem stored_orders_well_typed c c' :
  rtc chain_step c c' -> typed c ->
  (forall i o, orders c' !! i = Some o -> order_ok o) /\
  (forall m sk e, entries c' !! (m, sk) = Some e -> entry_ok e).
Proof.
  intros Hh Hc. assert (typed c') as [H1 H2]; [|by split; [|intros m sk e; apply H2]].
  induction Hh as [|c1 c2 c3 Hst _ IH]; [done|]. apply IH. destruct Hst as [t ->|en h tx0 Hr|Hr|Ht|Hr].
  - by apply (typed_rows c1).
  - exact (book_result _ _ _ _ (PreBlocker_book en h tx0) Hc Hr).
  - exact (book_result _ _ _ _ Funding_BeginBlocker_book Hc Hr).
  - by apply (tx_typed c1).
  - exact (typed_result _ _ _ _ EndBlock_typed Hc Hr).
Qed.
End messages.

(** ** Concrete runs *)

Lemma stored_orders_well_typed_witness :
  exists o, orders block_demo !! 1 = Some o /\ order_ok o.
Proof.
  destruct (@stored_orders_well_typed demo_env demo_text coins demo_bank demo_bank_ok trade_demo block_demo block_demo_history)
    as [H _]; [by split; apply map_Forall_empty|].
  eexists. split; [by_compute|]. apply (H 1). by_compute.
Defined.
