(* ===== verification/Genesis.v ===== *)
(** * Genesis

    The state of every module written out and read back ([InitGenesis],
    [ExportGenesis] and [GenesisState.Validate] of each module) and the whole
    application in the order of [app/modules.go] ([orderInitBlockers]).
    Secondary indexes are not exported; the import rebuilds them. *)

From S2P Require Import Prelude Constants Types PositionMath Account Market Asset Oracle Funding Risk Trade OrderBook.
From S2P Require Import Effects Matching Liquidation AccountMsg PublicPool BookGenesis Solvency Sweeps Blocks.

(** ** Accounts ([x/account/types/genesis.go], [x/account/keeper/genesis.go]) *)

Record AccountGenesis := mkAccountGenesis {
  gs_Params : AccountParams;
  gs_NextMasterAccountIndex : Z;
  gs_NextSubAccountIndex : Z;
  gs_Accounts : list Account;
  gs_AccountAssets : list AccountAsset;
  gs_AccountPositions : list AccountPosition;
  gs_AccountMetas : list AccountMeta
}.

Definition Account_DefaultParams : AccountParams :=
  mkAccountParams TreasuryAccountIndex InsuranceFundOperatorAccountIdx MinPartialTransferAmount
    MinPartialWithdrawAmount InsuranceFundOperatorAccountIdx DefaultLLPCooldownPeriodMs.

Definition DefaultInsurancePoolInfo : PublicPoolInfo :=
  mkPublicPoolInfo PublicPoolStatusActive 0 0 0 0 (replicate (Z.to_nat NbStrategies) 0).

Definition treasury_account : Account := new_account TreasuryAccountIndex NilMasterAccountIndex "" MasterAccountType 0.
Definition fund_account : Account :=
  new_account InsuranceFundOperatorAccountIdx NilMasterAccountIndex "" InsuranceFundAccountType 0
    <| acc_AccountTradingMode := AccountTradingModeUnified |>
    <| acc_PublicPoolInfo := Some DefaultInsurancePoolInfo |>.

Definition Account_DefaultGenesis : AccountGenesis :=
  mkAccountGenesis Account_DefaultParams FirstUserMasterAccountIndex MinSubAccountIndex
    [treasury_account; fund_account] [] [] [].

Definition valid_account_type (t : Z) : bool :=
  (t =? MasterAccountType) || (t =? SubAccountType) || (t =? PublicPoolAccountType) || (t =? InsuranceFundAccountType).

(** The checks on the pool part of an account. *)
Definition validate_pool (a : Account) : R unit :=
  if IsPoolType a then
    match acc_PublicPoolInfo a with
    | None => Err (EAccount ErrInvalidPoolAccount)
    | Some info =>
        ensure (negb (pi_TotalShares info <? 0)) (EAccount ErrInvalidParams);;
        ensure (negb (pi_OperatorShares info <? 0)) (EAccount ErrInvalidParams);;
        ensure (Z.of_nat (length (pi_Strategies info)) =? NbStrategies) (EAccount ErrInvalidParams)
    end
  else ensure (match acc_PublicPoolInfo a with None => true | Some _ => false end) (EAccount ErrInvalidAccountType).

(** One row of the account loop: the indices and the master owners seen. *)
Definition validate_account (s : gset Z * gset string) (a : Account) : R (gset Z * gset string) :=
  let '(seen, owners) := s in
  ensure (negb (bool_decide (acc_AccountIndex a ∈ seen))) (EAccount ErrAccountExists);;
  ensure (valid_account_type (acc_AccountType a)) (EAccount ErrInvalidAccountType);;
  ensure ((acc_AccountTradingMode a =? AccountTradingModeSimple) || (acc_AccountTradingMode a =? AccountTradingModeUnified))
    (EAccount ErrInvalidTradingMode);;
  owners ← (if (acc_AccountType a =? MasterAccountType) && negb (bool_decide (acc_OwnerAddress a = EmptyString)) then
              ensure (negb (bool_decide (acc_OwnerAddress a ∈ owners))) (EAccount ErrAccountExists);;
              mret ({[ acc_OwnerAddress a ]} ∪ owners)
            else mret owners);
  ensure (negb (acc_Collateral a <? 0)) (EAccount ErrInvalidParams);;
  validate_pool a;;
  ensure (negb ((acc_AccountType a =? InsuranceFundAccountType) &&
                negb (acc_AccountIndex a =? InsuranceFundOperatorAccountIdx))) (EAccount ErrInvalidAccountType);;
  ensure (negb (SharesListSize <? Z.of_nat (length (acc_PublicPoolShares a)))) (EAccount ErrInvalidParams);;
  mret ({[ acc_AccountIndex a ]} ∪ seen, owners).

Definition validate_asset_row (seen : gset (Z * Z)) (aa : AccountAsset) : R (gset (Z * Z)) :=
  let key := (aa_AccountIndex aa, aa_AssetIndex aa) in
  ensure (negb (bool_decide (key ∈ seen))) (EAccount ErrInvalidParams);;
  ensure (negb (aa_Balance aa <? 0)) (EAccount ErrInvalidParams);;
  mret ({[ key ]} ∪ seen).

Definition validate_position_row (seen : gset (Z * Z)) (p : AccountPosition) : R (gset (Z * Z)) :=
  let key := (pos_AccountIndex p, pos_MarketIndex p) in
  ensure (negb (bool_decide (key ∈ seen))) (EAccount ErrInvalidParams);;
  ensure ((pos_MarginMode p =? CrossMargin) || (pos_MarginMode p =? IsolatedMargin)) (EAccount ErrInvalidMarginMode);;
  mret ({[ key ]} ∪ seen).

Definition validate_meta_row (seen : gset Z) (m : AccountMeta) : R (gset Z) :=
  ensure (negb (bool_decide (am_AccountIndex m ∈ seen))) (EAccount ErrInvalidParams);;
  mret ({[ am_AccountIndex m ]} ∪ seen).

Definition AccountGenesis_Validate (gs : AccountGenesis) : R unit :=
  AccountParams_Validate (gs_Params gs);;
  ensure (negb (MaxMasterAccountIndex + 1 <? gs_NextMasterAccountIndex gs)) (EAccount ErrInvalidParams);;
  ensure (negb (negb (gs_NextSubAccountIndex gs =? 0) && (gs_NextSubAccountIndex gs <? MinSubAccountIndex)))
    (EAccount ErrInvalidParams);;
  ensure (negb (MaxAccountIndex + 1 <? gs_NextSubAccountIndex gs)) (EAccount ErrInvalidParams);;
  foldM validate_account (∅, ∅) (gs_Accounts gs);;
  foldM validate_asset_row ∅ (gs_AccountAssets gs);;
  foldM validate_position_row ∅ (gs_AccountPositions gs);;
  foldM validate_meta_row ∅ (gs_AccountMetas gs);;
  mret tt.

Definition AccountMetas_Set (m : AccountMeta) : K unit :=
  set_account_store (fun s => s <| ast_AccountMetas := <[am_AccountIndex m := m]> (ast_AccountMetas s) |>).

Definition Account_InitGenesis (gs : AccountGenesis) : K unit :=
  set_account_store (fun s => s <| ast_Params := gs_Params gs |>);;
  forM createAccount (gs_Accounts gs);;
  forM setAccountAsset (gs_AccountAssets gs);;
  forM setPosition (gs_AccountPositions gs);;
  forM AccountMetas_Set (gs_AccountMetas gs);;
  let masterCounter := gs_NextMasterAccountIndex gs in
  let masterCounter := if masterCounter <? FirstUserMasterAccountIndex then FirstUserMasterAccountIndex
                       else masterCounter in
  set_account_store (fun s => s <| ast_NextMasterIndex := masterCounter |>);;
  let subCounter := gs_NextSubAccountIndex gs in
  let subCounter := if subCounter <? MinSubAccountIndex then MinSubAccountIndex else subCounter in
  set_account_store (fun s => s <| ast_NextSubIndex := subCounter |>).

Definition Account_ExportGenesis (c : Chain) : AccountGenesis :=
  mkAccountGenesis (ast_Params (account c)) (ast_NextMasterIndex (account c)) (ast_NextSubIndex (account c))
    (IterateAccounts c) (rows (ast_AccountAssets (account c))).*2 (rows (ast_AccountPositions (account c))).*2
    (rows (ast_AccountMetas (account c))).*2.

(** ** Markets ([x/market]) *)

Record MarketGenesis := mkMarketGenesis {
  gm_Params : MarketParams;
  gm_Markets : list Market;
  gm_MarketDetails : list MarketDetails
}.

Definition Market_DefaultParams : MarketParams :=
  mkMarketParams MaxPerpsMarketIndex MinSpotMarketIndex MaxSpotMarketIndex 32 300000.
Definition Market_DefaultGenesis : MarketGenesis := mkMarketGenesis Market_DefaultParams [] [].

Definition validate_market (p : MarketParams) (seen : gset Z) (m : Market) : R (gset Z) :=
  ensure (negb (bool_decide (mkt_MarketIndex m ∈ seen))) (EMarket ErrMarketExists);;
  ensure ((mkt_Status m =? MarketStatusActive) || (mkt_Status m =? MarketStatusExpired)) (EMarket ErrInvalidMarket);;
  validateMarketStatics m;;
  ensure (IsValidIndex p (mkt_MarketIndex m)) (EMarket ErrMarketIndexExceed);;
  mret ({[ mkt_MarketIndex m ]} ∪ seen).

Definition validate_details (markets seen : gset Z) (d : MarketDetails) : R (gset Z) :=
  ensure (negb (bool_decide (md_MarketIndex d ∈ seen))) (EMarket ErrInvalidMarket);;
  ensure (bool_decide (md_MarketIndex d ∈ markets)) (EMarket ErrInvalidMarket);;
  validateMarketDetailsStatics d;;
  mret ({[ md_MarketIndex d ]} ∪ seen).

Definition MarketGenesis_Validate (gs : MarketGenesis) : R unit :=
  MarketParams_Validate (gm_Params gs);;
  seenMarket ← foldM (validate_market (gm_Params gs)) ∅ (gm_Markets gs);
  seenDetails ← foldM (validate_details seenMarket) ∅ (gm_MarketDetails gs);
  ensure (bool_decide (seenMarket ⊆ seenDetails)) (EMarket ErrInvalidMarket).

Definition Market_InitGenesis (gs : MarketGenesis) : K unit :=
  set_market_store (fun s => s <| mst_Params := gm_Params gs |>);;
  forM createMarket (gm_Markets gs);;
  forM SetMarketDetails (gm_MarketDetails gs).

Definition Market_ExportGenesis (c : Chain) : R MarketGenesis :=
  let markets := IterateMarkets c in
  let details := (rows (mst_MarketDetails (market c))).*2 in
  ensure (length markets =? length details)%nat (EMarket ErrInvalidMarket);;
  mret (mkMarketGenesis (mst_Params (market c)) markets details).

(** ** Oracle, funding, matching and liquidation *)

Record OracleGenesis := mkOracleGenesis { go_Params : OracleParams; go_Prices : list OraclePrice }.

Definition Oracle_DefaultGenesis : OracleGenesis := mkOracleGenesis DefaultOracleParams [].

Definition validate_price (seen : gset Z) (p : OraclePrice) : R (gset Z) :=
  ensure (negb (bool_decide (op_MarketIndex p ∈ seen))) (EOracle ErrDuplicatePrice);;
  mret ({[ op_MarketIndex p ]} ∪ seen).

Definition OracleGenesis_Validate (gs : OracleGenesis) : R unit :=
  OracleParams_Validate (go_Params gs);;
  foldM validate_price ∅ (go_Prices gs);;
  mret tt.

Definition Oracle_InitGenesis (gs : OracleGenesis) : K unit :=
  set_misc_store (fun s => s <| xst_OracleParams := go_Params gs |>);;
  forM SetPriceUnsafe (go_Prices gs).

Definition Oracle_ExportGenesis (c : Chain) : OracleGenesis :=
  mkOracleGenesis (xst_OracleParams (misc c)) (rows (xst_OraclePrices (misc c))).*2.

Record FundingGenesis := mkFundingGenesis { gf_Params : FundingParams; gf_LastFundingRoundTimestamp : Z }.

Definition Funding_DefaultGenesis : FundingGenesis :=
  mkFundingGenesis (mkFundingParams FundingPeriod FundingPeriodDivisor MaxPremiumSampleCount) 0.

Definition Funding_InitGenesis (gs : FundingGenesis) : K unit :=
  set_misc_store (fun s => s <| xst_FundingParams := gf_Params gs |>);;
  set_misc_store (fun s => s <| xst_LastFundingRoundTimestamp := gf_LastFundingRoundTimestamp gs |>).

Definition Funding_ExportGenesis (c : Chain) : FundingGenesis :=
  mkFundingGenesis (xst_FundingParams (misc c)) (xst_LastFundingRoundTimestamp (misc c)).

Definition Matching_InitGenesis (p : MatchingParams) : K unit :=
  set_misc_store (fun s => s <| xst_MatchingParams := p |>).
Definition Matching_ExportGenesis (c : Chain) : MatchingParams := xst_MatchingParams (misc c).

Definition Liquidation_InitGenesis (p : LiquidationParams) : K unit :=
  set_misc_store (fun s => s <| xst_LiquidationParams := p |>).
Definition Liquidation_ExportGenesis (c : Chain) : LiquidationParams := xst_LiquidationParams (misc c).

(** ** The application *)

Record AppGenesis := mkAppGenesis {
  app_asset : AssetGenesis;
  app_account : AccountGenesis;
  app_market : MarketGenesis;
  app_oracle : OracleGenesis;
  app_orderbook : Z * list Order;
  app_funding : FundingGenesis;
  app_matching : MatchingParams;
  app_liquidation : LiquidationParams
}.

(** x/risk and x/trade have empty parameters and no other state. *)
Definition App_InitGenesis (gs : AppGenesis) : K unit :=
  Asset_InitGenesis (app_asset gs);;
  Account_InitGenesis (app_account gs);;
  Market_InitGenesis (app_market gs);;
  Oracle_InitGenesis (app_oracle gs);;
  Book_InitGenesis (app_orderbook gs).1 (app_orderbook gs).2;;
  Funding_InitGenesis (app_funding gs);;
  Matching_InitGenesis (app_matching gs);;
  Liquidation_InitGenesis (app_liquidation gs).

Definition App_ExportGenesis (c : Chain) : R AppGenesis :=
  asset ← Asset_ExportGenesis c;
  market ← Market_ExportGenesis c;
  mret (mkAppGenesis asset (Account_ExportGenesis c) market (Oracle_ExportGenesis c) (Book_ExportGenesis c)
          (Funding_ExportGenesis c) (Matching_ExportGenesis c) (Liquidation_ExportGenesis c)).

(** ** Round trips *)

(** *** Accounts *)

Lemma set_assets_run l c :
  forM setAccountAsset l c = (Ok tt, c <| account := account c <| ast_AccountAssets :=
    put_rows (fun aa => (aa_AccountIndex aa, aa_AssetIndex aa)) l (ast_AccountAssets (account c)) |> |>).
Proof. revert c. induction l as [|a l IH]; intros c; [by destruct c as [? [] ? ? ?]|]. exact (IH _). Qed.

Lemma set_positions_run l c :
  forM setPosition l c = (Ok tt, c <| account := account c <| ast_AccountPositions :=
    put_rows (fun p => (pos_AccountIndex p, pos_MarketIndex p)) l (ast_AccountPositions (account c)) |> |>).
Proof. revert c. induction l as [|a l IH]; intros c; [by destruct c as [? [] ? ? ?]|]. exact (IH _). Qed.

Lemma set_metas_run l c :
  forM AccountMetas_Set l c = (Ok tt, c <| account := account c <| ast_AccountMetas :=
    put_rows am_AccountIndex l (ast_AccountMetas (account c)) |> |>).
Proof. revert c. induction l as [|a l IH]; intros c; [by destruct c as [? [] ? ? ?]|]. exact (IH _). Qed.

(** The rows of an account in the two secondary indexes. *)
Definition owner_row (a : Account) : option (string * Z) :=
  if negb (bool_decide (acc_OwnerAddress a = EmptyString)) && (acc_AccountType a =? MasterAccountType)
  then Some (acc_OwnerAddress a, acc_AccountIndex a) else None.
Definition sub_row (a : Account) : option (Z * Z) :=
  if negb (acc_AccountType a =? MasterAccountType) && negb (acc_MasterAccountIndex a =? NilMasterAccountIndex)
  then Some (acc_MasterAccountIndex a, acc_AccountIndex a) else None.

Definition index_account (a : Account) (s : AccountStore) : AccountStore :=
  s <| ast_Accounts := <[acc_AccountIndex a := a]> (ast_Accounts s) |>
    <| ast_OwnerToIndex := put_all (option_list (owner_row a)) (ast_OwnerToIndex s) |>
    <| ast_MasterSubAccounts := list_to_set (option_list (sub_row a)) ∪ ast_MasterSubAccounts s |>.

Lemma create_account_run a c : createAccount a c = (Ok tt, c <| account := index_account a (account c) |>).
Proof.
  unfold createAccount, Accounts_Set, set_account_store, index_account, owner_row, sub_row.
  destruct c as [? [] ? ? ?]. rewrite run_modify.
  destruct (negb (bool_decide _) && _), (negb (_ =? _) && _); cbn; rewrite ?union_empty_r_L, ?union_empty_l_L; reflexivity.
Qed.

Lemma create_accounts_run l c :
  forM createAccount l c = (Ok tt, c <| account := foldl (fun s a => index_account a s) (account c) l |>).
Proof.
  revert c. induction l as [|a l IH]; intros c; [by destruct c|]. cbn [forM].
  rewrite (run_bind _ _ _ _ _ (create_account_run _ _)). exact (IH _).
Qed.

Lemma index_accounts l s :
  foldl (fun s a => index_account a s) s l =
  s <| ast_Accounts := put_rows acc_AccountIndex l (ast_Accounts s) |>
    <| ast_OwnerToIndex := put_all (omap owner_row l) (ast_OwnerToIndex s) |>
    <| ast_MasterSubAccounts := list_to_set (omap sub_row l) ∪ ast_MasterSubAccounts s |>.
Proof.
  revert s. induction l as [|a l IH]; intros s.
  { destruct s. cbn. by rewrite union_empty_l_L. }
  cbn [foldl]. rewrite IH. unfold index_account. destruct s. cbn. f_equal.
  - by destruct (owner_row a) as [[]|].
  - destruct (sub_row a) as [[]|]; cbn; set_solver.
Qed.

(** What the account store satisfies between transactions: rows under their
    own keys, exact secondary indexes and counters past the reserved
    range. *)
Record accounts_ok (c : Chain) : Prop := {
  ak_keyed : keyed c;
  ak_metas : map_Forall (fun i m => am_AccountIndex m = i) (ast_AccountMetas (account c));
  ak_owner o i : ast_OwnerToIndex (account c) !! o = Some i <->
    exists a, ast_Accounts (account c) !! i = Some a /\ owner_row a = Some (o, i);
  ak_subs m i : (m, i) ∈ ast_MasterSubAccounts (account c) <->
    exists a, ast_Accounts (account c) !! i = Some a /\ sub_row a = Some (m, i);
  ak_next : FirstUserMasterAccountIndex <= ast_NextMasterIndex (account c) /\ MinSubAccountIndex <= ast_NextSubIndex (account c)
}.

Definition no_accounts (c : Chain) : Prop :=
  let s := account c in
  ast_Accounts s = ∅ /\ ast_OwnerToIndex s = ∅ /\ ast_AccountAssets s = ∅ /\ ast_AccountPositions s = ∅ /\
  ast_MasterSubAccounts s = ∅ /\ ast_AccountMetas s = ∅.

Lemma Account_InitGenesis_run gs c :
  no_accounts c ->
  Account_InitGenesis gs c = (Ok tt, c <| account := mkAccountStore (gs_Params gs)
    (put_rows acc_AccountIndex (gs_Accounts gs) ∅) (put_all (omap owner_row (gs_Accounts gs)) ∅)
    (put_rows (fun aa => (aa_AccountIndex aa, aa_AssetIndex aa)) (gs_AccountAssets gs) ∅)
    (put_rows (fun p => (pos_AccountIndex p, pos_MarketIndex p)) (gs_AccountPositions gs) ∅)
    (Z.max FirstUserMasterAccountIndex (gs_NextMasterAccountIndex gs))
    (Z.max MinSubAccountIndex (gs_NextSubAccountIndex gs))
    (list_to_set (omap sub_row (gs_Accounts gs)))
    (put_rows am_AccountIndex (gs_AccountMetas gs) ∅) |>).
Proof.
  intros (H1 & H2 & H3 & H4 & H5 & H6). unfold Account_InitGenesis, set_account_store. rewrite run_modify.
  rewrite (run_bind _ _ _ _ _ (create_accounts_run _ _)), index_accounts, (run_bind _ _ _ _ _ (set_assets_run _ _)),
    (run_bind _ _ _ _ _ (set_positions_run _ _)), (run_bind _ _ _ _ _ (set_metas_run _ _)).
  cbv zeta. rewrite run_modify, !coerce_max. unfold modify. cbn.
  by rewrite H1, H2, H3, H4, H5, H6, union_empty_r_L.
Qed.

Lemma owner_row_index a o i : owner_row a = Some (o, i) -> acc_AccountIndex a = i.
Proof. unfold owner_row. case_match; [|done]. by intros [= _ <-]. Qed.
Lemma sub_row_index a m i : sub_row a = Some (m, i) -> acc_AccountIndex a = i.
Proof. unfold sub_row. case_match; [|done]. by intros [= _ <-]. Qed.

(** The owner rows of the stored accounts are the owner index. *)
Lemma owner_index_rebuilt c :
  accounts_ok c -> put_all (omap owner_row (rows (ast_Accounts (account c))).*2) ∅ = ast_OwnerToIndex (account c).
Proof.
  intros [[K1 _] _ K5 _ _].
  assert (forall o i, (o, i) ∈ omap owner_row (rows (ast_Accounts (account c))).*2 <->
                      ast_OwnerToIndex (account c) !! o = Some i) as Hin.
  { intros o i. rewrite list_elem_of_omap, K5. setoid_rewrite elem_of_values. split.
    - intros (a & [k Hk] & Ho). exists a. split; [|done]. by rewrite <- (owner_row_index _ _ _ Ho), (K1 _ _ Hk).
    - intros (a & Ha & Ho). exists a. eauto. }
  assert (NoDup (omap owner_row (rows (ast_Accounts (account c))).*2).*1) as Hnd.
  { apply NoDup_fmap_2_strong.
    - intros [o i] [o' j] Hi%Hin Hj%Hin E. cbn in E. subst. congruence.
    - apply NoDup_omap_strong.
      + intros a b [o i] [k Ha]%elem_of_values [k' Hb]%elem_of_values Ea%owner_row_index Eb%owner_row_index.
        rewrite (K1 _ _ Ha) in Ea. rewrite (K1 _ _ Hb) in Eb. congruence.
      + apply (NoDup_fmap_1 acc_AccountIndex). rewrite <- list_fmap_compose. by apply NoDup_keyed_rows. }
  apply map_eq. intros o. apply option_eq. intros i.
  rewrite (put_all_lookup _ _ _ _ Hnd), Hin, lookup_empty. naive_solver.
Qed.

Lemma account_roundtrip c c0 :
  accounts_ok c -> no_accounts c0 ->
  Account_InitGenesis (Account_ExportGenesis c) c0 = (Ok tt, c0 <| account := account c |>).
Proof.
  intros Hok H0. rewrite Account_InitGenesis_run by done. do 2 f_equal. unfold Account_ExportGenesis, IterateAccounts.
  cbn [gs_Params gs_Accounts gs_AccountAssets gs_AccountPositions gs_NextMasterAccountIndex gs_NextSubAccountIndex gs_AccountMetas].
  rewrite owner_index_rebuilt by done.
  destruct Hok as [(K1 & K2 & K3) K4 _ K6 [K7 K8]].
  rewrite !put_rows_id, !Z.max_r by done.
  replace (list_to_set _ : gset (Z * Z)) with (ast_MasterSubAccounts (account c)).
  2: { symmetry. apply set_eq. intros [m i]. rewrite elem_of_list_to_set, list_elem_of_omap, K6. setoid_rewrite elem_of_values. split.
    - intros (a & [k Hk] & Ho). exists a. split; [|done]. by rewrite <- (sub_row_index _ _ _ Ho), (K1 _ _ Hk).
    - intros (a & Ha & Ho). exists a. eauto. }
  by destruct (account c).
Qed.

(** *** Markets *)

Record markets_ok (c : Chain) : Prop := {
  mk_expiry : expiry_inv c;
  mk_details : map_Forall (fun i d => md_MarketIndex d = i) (mst_MarketDetails (market c));
  mk_paired : dom (mst_Markets (market c)) = dom (mst_MarketDetails (market c))
}.

Definition no_markets (c : Chain) : Prop :=
  mst_Markets (market c) = ∅ /\ mst_MarketDetails (market c) = ∅ /\ mst_ExpiryIndex (market c) = ∅.

Definition market_row (m : Market) : option (Z * Z) :=
  if (mkt_Status m =? MarketStatusActive) && (0 <? mkt_ExpiryTimestamp m)
  then Some (mkt_ExpiryTimestamp m, mkt_MarketIndex m) else None.

Lemma create_markets_run l c :
  forM createMarket l c = (Ok tt, c <| market := market c
    <| mst_Markets := put_rows mkt_MarketIndex l (mst_Markets (market c)) |>
    <| mst_ExpiryIndex := list_to_set (omap market_row l) ∪ mst_ExpiryIndex (market c) |> |>).
Proof.
  revert c. induction l as [|m l IH]; intros c.
  { destruct c as [? ? [] ? ?]. cbn. by rewrite union_empty_l_L. }
  destruct (createMarket_run m c) as (ix & Hrun & Hix). cbn [forM]. rewrite (run_bind _ _ _ _ _ Hrun), IH.
  assert (list_to_set (omap market_row (m :: l)) ∪ mst_ExpiryIndex (market c) = list_to_set (omap market_row l) ∪ ix) as ->; [|done].
  subst ix. cbn. unfold market_row at 1. destruct (_ && _); cbn; set_solver.
Qed.

Lemma set_details_run l c :
  forM SetMarketDetails l c = (Ok tt, c <| market := market c
    <| mst_MarketDetails := put_rows md_MarketIndex l (mst_MarketDetails (market c)) |> |>).
Proof. revert c. induction l as [|a l IH]; intros c; [by destruct c as [? ? [] ? ?]|]. exact (IH _). Qed.

Lemma market_roundtrip c c0 :
  markets_ok c -> no_markets c0 ->
  exists gs, Market_ExportGenesis c = Ok gs /\ Market_InitGenesis gs c0 = (Ok tt, c0 <| market := market c |>).
Proof.
  intros [[K1 K2] K3 K4] (N1 & N2 & N3). unfold Market_ExportGenesis, IterateMarkets.
  rewrite (proj2 (Nat.eqb_eq _ _)); [|rewrite !length_fmap, !rows_perm, !length_map_to_list, <- !size_dom; by rewrite K4].
  eexists. split; [reflexivity|]. unfold Market_InitGenesis, set_market_store. rewrite run_modify.
  cbn [gm_Params gm_Markets gm_MarketDetails].
  assert (list_to_set (omap market_row (rows (mst_Markets (market c))).*2) = mst_ExpiryIndex (market c)) as Hx.
  { apply set_eq. intros [e i]. rewrite elem_of_list_to_set, list_elem_of_omap, K2. setoid_rewrite elem_of_values.
    unfold market_row. split.
    - intros (m & [k Hk] & Hr). case_match eqn:Ha; [|done]. injection Hr as <- <-. exists m. rewrite (K1 _ _ Hk).
      split_and!; [done|by apply auto_expiry_spec|done].
    - intros (m & Hm & Ha%auto_expiry_spec & <-). exists m. rewrite Ha, (K1 _ _ Hm). eauto. }
  rewrite (run_bind _ _ _ _ _ (create_markets_run _ _)), set_details_run.
  cbn -[put_rows rows]. rewrite N1, N2, N3, !put_rows_id, union_empty_r_L, Hx by done. by destruct (market c).
Qed.

(** *** The application *)

(** The state between transactions of every module. *)
Record app_ok (c : Chain) : Prop := {
  ap_accounts : accounts_ok c;
  ap_markets : markets_ok c;
  ap_book : book_ok c;
  ap_assets : asset_inv c;
  ap_next : MinAssetIndex <= xst_NextAssetIndex (misc c) <= xst_MaxAssetIndex (misc c) + 1;
  ap_below : map_Forall (fun i _ => i < xst_NextAssetIndex (misc c)) (xst_Assets (misc c));
  ap_prices : map_Forall (fun i p => op_MarketIndex p = i) (xst_OraclePrices (misc c))
}.

(** The stores of a chain that starts. *)
Definition empty_app (c : Chain) : Prop :=
  fresh_assets c /\ no_accounts c /\ no_markets c /\ no_book c /\ xst_OraclePrices (misc c) = ∅.

Lemma set_prices_run l c :
  forM SetPriceUnsafe l c = (Ok tt, c <| misc := misc c
    <| xst_OraclePrices := put_rows op_MarketIndex l (xst_OraclePrices (misc c)) |> |>).
Proof. revert c. induction l as [|a l IH]; intros c; [by destruct c as [? ? ? ? []]|]. exact (IH _). Qed.

Definition same_orders (b b' : BookStore) : Prop :=
  bst_Orders b = bst_Orders b' /\ bst_NextOrderIndex b = bst_NextOrderIndex b' /\
  bst_OrderBookEntries b = bst_OrderBookEntries b' /\ bst_OrderToSortKey b = bst_OrderToSortKey b' /\
  forall m p, level_of m p (bst_PriceLevels b) = level_of m p (bst_PriceLevels b').

(** C19: exporting a chain and importing the result into empty stores loses
    nothing: the export succeeds, the import succeeds, and the account,
    market, asset, oracle and parameter stores come back equal, with the
    owner, sub-account, denom and market-expiry indexes that are not
    exported; so do the orders, the book entries, the reverse index, the
    counter and every price level, and the client, open-order, expiry and
    trigger indexes hold exactly the rows of the live orders. *)
Theorem app_genesis_roundtrip c c0 :
  app_ok c -> empty_app c0 ->
  exists gs c1, App_ExportGenesis c = Ok gs /\ App_InitGenesis gs c0 = (Ok tt, c1) /\
    account c1 = account c /\ market c1 = market c /\ misc c1 = misc c /\ same_orders (book c1) (book c) /\
    indexed (rows (bst_Orders (book c))).*2 c1 /\
    bst_TriggerIndex (book c1) = list_to_set (omap trigger_row (rows (bst_Orders (book c))).*2).
Proof.
  intros [A1 A2 A3 A4 A5 A6 A7] (E1 & E2 & E3 & E4 & E5).
  assert (exists ag, Asset_ExportGenesis c = Ok ag) as [ag Hag].
  { unfold Asset_ExportGenesis. destruct (ai_max _ A4) as [_ ?]. unfold MaxAssetIndex in *.
    rewrite (proj2 (Z.ltb_ge _ _)), (proj2 (Z.ltb_ge _ _)) by lia. eexists. reflexivity. }
  destruct (asset_genesis_roundtrip _ _ _ A4 (proj1 A5) A6 Hag E1) as (c1 & Ha & HA1 & HA2 & HA3 & HA4 & HA5).
  assert (no_accounts c1) as N1 by (by rewrite HA5).
  pose proof (account_roundtrip c c1 A1 N1) as Hac. set (c2 := c1 <| account := account c |>) in Hac.
  assert (no_markets c2) as N2 by (unfold c2; by rewrite HA5).
  destruct (market_roundtrip c c2 A2 N2) as (mg & Hmg & Hm). set (c3 := c2 <| market := market c |>) in Hm.
  assert (Oracle_InitGenesis (Oracle_ExportGenesis c) c3 = (Ok tt, c3 <| misc := misc c3
    <| xst_OracleParams := xst_OracleParams (misc c) |> <| xst_OraclePrices := xst_OraclePrices (misc c) |> |>)) as Ho.
  { unfold Oracle_InitGenesis, set_misc_store. rewrite run_modify, set_prices_run. unfold Oracle_ExportGenesis.
    cbn [go_Prices go_Params].
    assert (xst_OraclePrices (misc (c3 <| misc := misc c3 <| xst_OracleParams := xst_OracleParams (misc c) |> |>)) = ∅) as ->
      by (unfold c3, c2; rewrite HA5; exact E5).
    by rewrite put_rows_id. }
  set (c4 := c3 <| misc := _ |>) in Ho.
  assert (no_book c4) as N4 by (unfold c4, c3, c2; by rewrite HA5).
  destruct (book_roundtrip c c4 A3 N4) as (c5 & Hb & Hfr & B1 & B2 & B3 & B4 & B5 & B6 & B7).
  unfold App_ExportGenesis. rewrite Hag. cbn [mbind res_bind]. rewrite Hmg. eexists. eexists. split; [reflexivity|].
  unfold App_InitGenesis. cbn [app_asset app_account app_market app_oracle app_orderbook].
  rewrite (run_bind _ _ _ _ _ Ha), (run_bind _ _ _ _ _ Hac), (run_bind _ _ _ _ _ Hm), (run_bind _ _ _ _ _ Ho), (run_bind _ _ _ _ _ Hb).
  split; [reflexivity|].
  assert (account c5 = account c /\ market c5 = market c /\ misc c5 = misc c4) as (F1 & F2 & F3) by (by rewrite Hfr).
  split_and!; [exact F1|exact F2| |done|by destruct B6|exact B7].
  cbn. rewrite F3. unfold c4, c3, c2. cbn. rewrite HA1, HA2, HA3, HA4. unfold Matching_ExportGenesis, Liquidation_ExportGenesis. by destruct (misc c).
Qed.

(** ** A validated genesis *)

(** A loop that refuses a key it has seen. *)
Lemma foldM_seen {A S B} `{Countable B} (f : A -> option B) (g : S -> gset B) (step : S -> A -> R S) l s s' :
  (forall s a s', step s a = Ok s' -> (forall k, f a = Some k -> k ∉ g s) /\ g s' = list_to_set (option_list (f a)) ∪ g s) ->
  foldM step s l = Ok s' ->
  NoDup (omap f l) /\ (forall k, k ∈ omap f l -> k ∉ g s) /\ g s' = list_to_set (omap f l) ∪ g s.
Proof.
  intros Hstep. revert s. induction l as [|a l IH]; intros s Hs.
  { cbn in Hs. injection Hs as <-. split_and!; [constructor|by intros k ?%not_elem_of_nil|cbn; by rewrite union_empty_l_L]. }
  cbn [foldM] in Hs. inv_ok. destruct (Hstep _ _ _ ltac:(eassumption)) as [K1 K2]. destruct (IH _ Hs) as (I1 & I2 & I3).
  rewrite K2 in I2, I3. cbn. destruct (f a) as [k|]; cbn in *.
  - split_and!; [constructor; [|done]|..]; [intros Hk; specialize (I2 k Hk); set_solver| |set_solver].
    intros k' [->|Hk']%elem_of_cons; [by apply K1|]. specialize (I2 _ Hk'). set_solver.
  - split_and!; [done| |set_solver]. intros k Hk. specialize (I2 k Hk). set_solver.
Qed.

Lemma omap_some {A B} (f : A -> B) (l : list A) : omap (fun a => Some (f a)) l = f <$> l.
Proof. induction l as [|a l IH]; [done|]. cbn. by rewrite <- IH. Qed.

Definition master_owner (a : Account) : option string := fst <$> owner_row a.

Lemma validate_account_seen s a s' :
  validate_account s a = Ok s' ->
  acc_AccountIndex a ∉ s.1 /\ s'.1 = {[acc_AccountIndex a]} ∪ s.1 /\
  (forall o, master_owner a = Some o -> o ∉ s.2) /\ s'.2 = list_to_set (option_list (master_owner a)) ∪ s.2.
Proof.
  destruct s as [seen owners]. unfold validate_account, master_owner, owner_row. intros Hv. inv_ok. subst s'. cbn.
  rewrite (andb_comm (negb _)) in *. destruct (_ && _); inv_ok; subst; breflect; cbn; split_and!; set_solver.
Qed.

Lemma put_rows_keyed {B V} `{Countable B} (f : V -> B) l (m : gmap B V) :
  map_Forall (fun k v => f v = k) m -> map_Forall (fun k v => f v = k) (put_rows f l m).
Proof. revert m. induction l as [|v l IH]; intros m Hm; [done|]. apply IH. by apply map_Forall_insert_2. Qed.

(** The checks that make the import exact: no index and no master owner
    twice. *)
Lemma valid_accounts_distinct gs :
  AccountGenesis_Validate gs = Ok tt ->
  NoDup (acc_AccountIndex <$> gs_Accounts gs) /\ NoDup (omap owner_row (gs_Accounts gs)).*1.
Proof.
  intros Hv. unfold AccountGenesis_Validate in Hv. inv_ok.
  match goal with H : foldM validate_account _ _ = _ |- _ => rename H into HF end. split.
  - rewrite <- omap_some. eapply (foldM_seen _ fst); [|exact HF]. intros s a s' (K1 & K2 & _)%validate_account_seen.
    split; [by intros k [= <-]|]. rewrite K2. set_solver.
  - assert ((omap owner_row (gs_Accounts gs)).*1 = omap master_owner (gs_Accounts gs)) as ->.
    { clear. induction (gs_Accounts gs) as [|a l IH]; [done|]. cbn. unfold master_owner at 1. destruct (owner_row a); cbn; by rewrite IH. }
    eapply (foldM_seen _ snd); [|exact HF]. by intros s a s' (_ & _ & K3 & K4)%validate_account_seen.
Qed.

Lemma valid_accounts_import gs c :
  AccountGenesis_Validate gs = Ok tt -> no_accounts c ->
  exists c', Account_InitGenesis gs c = (Ok tt, c') /\ accounts_ok c' /\ c' = c <| account := account c' |> /\
    ast_AccountPositions (account c') =
      put_rows (fun p => (pos_AccountIndex p, pos_MarketIndex p)) (gs_AccountPositions gs) ∅ /\
    forall i a, ast_Accounts (account c') !! i = Some a <-> a ∈ gs_Accounts gs /\ acc_AccountIndex a = i.
Proof.
  intros Hv Hn. destruct (valid_accounts_distinct gs Hv) as [D1 D2]. rewrite Account_InitGenesis_run by done.
  assert (forall i a, put_rows acc_AccountIndex (gs_Accounts gs) ∅ !! i = Some a <-> a ∈ gs_Accounts gs /\ acc_AccountIndex a = i)
    as Hrow by (intros; by apply put_rows_lookup).
  eexists. split; [done|]. split; [|split; [|split]; done]. split; [split_and!; by apply put_rows_keyed| by apply put_rows_keyed|..].
  - intros o i. cbn -[put_rows put_all]. rewrite put_all_lookup, list_elem_of_omap by done. setoid_rewrite Hrow.
    rewrite lookup_empty. split; [intros [(a & Ha & Ho)|[_ ?]]; [|done]|intros (a & [Ha _] & Ho); eauto].
    exists a. by rewrite (owner_row_index _ _ _ Ho).
  - intros m i. cbn -[put_rows]. rewrite elem_of_list_to_set, list_elem_of_omap. setoid_rewrite Hrow.
    split; [intros (a & Ha & Ho)|intros (a & [Ha _] & Ho); eauto]. exists a. by rewrite (sub_row_index _ _ _ Ho).
  - cbn. lia.
Qed.

Lemma dom_put_rows {B V} `{Countable B} (f : V -> B) l : dom (put_rows f l ∅ : gmap B V) = list_to_set (f <$> l).
Proof.
  assert (forall m : gmap B V, dom (put_rows f l m) = list_to_set (f <$> l) ∪ dom m) as Hd.
  { induction l as [|v l IH]; intros m; [cbn; by rewrite union_empty_l_L|].
    rewrite put_rows_cons, IH, dom_insert_L. cbn. set_solver. }
  rewrite Hd, dom_empty_L. set_solver.
Qed.

Lemma validate_market_seen p s m s' :
  validate_market p s m = Ok s' -> mkt_MarketIndex m ∉ s /\ s' = {[mkt_MarketIndex m]} ∪ s.
Proof. unfold validate_market. intros Hm. inv_ok. breflect. by subst. Qed.

Lemma validate_details_seen ms s d s' :
  validate_details ms s d = Ok s' -> md_MarketIndex d ∉ s /\ md_MarketIndex d ∈ ms /\ s' = {[md_MarketIndex d]} ∪ s.
Proof. unfold validate_details. intros Hm. inv_ok. breflect. by subst. Qed.

(** A loop over rows that carry their own key. *)
Lemma foldM_seen_keys {A B} `{Countable B} (f : A -> B) (step : gset B -> A -> R (gset B)) l s' :
  (forall s a s', step s a = Ok s' -> f a ∉ s /\ s' = {[f a]} ∪ s) -> foldM step ∅ l = Ok s' ->
  NoDup (f <$> l) /\ s' = list_to_set (f <$> l).
Proof.
  intros Hstep Hs. rewrite <- omap_some. destruct (foldM_seen (fun a => Some (f a)) id step l ∅ s') as (K1 & _ & K2); [|done|].
  - intros s a s1 [Ha ->]%Hstep. cbn. split; [by intros k [= <-]|set_solver].
  - split; [done|]. cbn in K2. by rewrite K2, union_empty_r_L.
Qed.

Lemma foldM_all {A S} (step : S -> A -> R S) (P : A -> Prop) l s s' :
  (forall s a s', step s a = Ok s' -> P a) -> foldM step s l = Ok s' -> Forall P l.
Proof. intros Hstep. revert s. induction l as [|a l IH]; intros s Hs; [constructor|]. cbn [foldM] in Hs. inv_ok. constructor; eauto. Qed.

Lemma valid_markets_paired gs :
  MarketGenesis_Validate gs = Ok tt ->
  NoDup (mkt_MarketIndex <$> gm_Markets gs) /\
  (list_to_set (mkt_MarketIndex <$> gm_Markets gs) = list_to_set (md_MarketIndex <$> gm_MarketDetails gs) :> gset Z).
Proof.
  intros Hv. unfold MarketGenesis_Validate in Hv. inv_ok. breflect.
  match goal with H : foldM (validate_market _) _ _ = Ok ?x, H' : foldM (validate_details _) _ _ = Ok ?y |- _ =>
    rename H into HM, H' into HD, x into ms, y into ds end.
  destruct (foldM_seen_keys mkt_MarketIndex _ _ _ (validate_market_seen _) HM) as [M1 M2].
  destruct (foldM_seen_keys md_MarketIndex (validate_details ms) (gm_MarketDetails gs) ds) as [D1 D2];
    [by intros s d s' (? & _ & ?)%validate_details_seen|done|].
  assert (Forall (fun d => md_MarketIndex d ∈ ms) (gm_MarketDetails gs)) as HF
    by (eapply foldM_all; [|exact HD]; by intros s d s' (_ & ? & _)%validate_details_seen).
  split; [done|]. rewrite <- M2, <- D2. apply (anti_symm (⊆)); [done|]. subst ds. intros i.
  rewrite elem_of_list_to_set, list_elem_of_fmap. intros (d & -> & Hd). by eapply Forall_forall in HF.
Qed.

Lemma valid_markets_import gs c :
  MarketGenesis_Validate gs = Ok tt -> no_markets c ->
  exists c', Market_InitGenesis gs c = (Ok tt, c') /\ markets_ok c' /\ c' = c <| market := market c' |> /\
    forall i m, mst_Markets (market c') !! i = Some m <-> m ∈ gm_Markets gs /\ mkt_MarketIndex m = i.
Proof.
  intros Hv (N1 & N2 & N3). destruct (valid_markets_paired gs Hv) as [M1 M2].
  assert (forall i m, put_rows mkt_MarketIndex (gm_Markets gs) ∅ !! i = Some m <-> m ∈ gm_Markets gs /\ mkt_MarketIndex m = i)
    as Hrow by (intros; by apply put_rows_lookup).
  unfold Market_InitGenesis, set_market_store. rewrite run_modify, (run_bind _ _ _ _ _ (create_markets_run _ _)), set_details_run.
  eexists. split; [done|]. cbn -[put_rows]. rewrite N1, N2, N3. split; [|done].
  split; [split|..]; cbn -[put_rows].
  - by apply put_rows_keyed.
  - intros e i. rewrite union_empty_r_L, elem_of_list_to_set, list_elem_of_omap. setoid_rewrite Hrow. unfold market_row. split.
    + intros (m & Hm & Hr). case_match eqn:Ha; [|done]. injection Hr as <- <-. exists m. by rewrite <- auto_expiry_spec.
    + intros (m & [Hm <-] & Ha%auto_expiry_spec & <-). exists m. by rewrite Ha.
  - by apply put_rows_keyed.
  - by rewrite !dom_put_rows.
Qed.

(** The modules after x/market, with no orders. *)
Lemma later_modules_run gs c :
  (app_orderbook gs).2 = [] ->
  exists c', (Oracle_InitGenesis (app_oracle gs);; Book_InitGenesis (app_orderbook gs).1 (app_orderbook gs).2;;
     Funding_InitGenesis (app_funding gs);; Matching_InitGenesis (app_matching gs);;
     Liquidation_InitGenesis (app_liquidation gs)) c = (Ok tt, c') /\
    account c' = account c /\ market c' = market c /\
    book c' = book c <| bst_NextOrderIndex := Z.max 1 (app_orderbook gs).1 |> /\
    xst_Assets (misc c') = xst_Assets (misc c) /\ xst_DenomToIndex (misc c') = xst_DenomToIndex (misc c) /\
    xst_NextAssetIndex (misc c') = xst_NextAssetIndex (misc c) /\ xst_MaxAssetIndex (misc c') = xst_MaxAssetIndex (misc c) /\
    xst_OraclePrices (misc c') = put_rows op_MarketIndex (go_Prices (app_oracle gs)) (xst_OraclePrices (misc c)).
Proof.
  intros ->. unfold Book_InitGenesis. rewrite coerce_max. cbn [forM].
  erewrite run_bind by (unfold Oracle_InitGenesis, set_misc_store; rewrite run_modify; apply set_prices_run).
  eexists. split; [reflexivity|]. done.
Qed.

Lemma accounts_ok_frame c c' : account c' = account c -> accounts_ok c -> accounts_ok c'.
Proof. intros E [K1 K2 K3 K4 K5]. unfold keyed in K1. rewrite <- E in *. by split. Qed.
Lemma markets_ok_frame c c' : market c' = market c -> markets_ok c -> markets_ok c'.
Proof. intros E [K1 K2 K3]. unfold expiry_inv in K1. rewrite <- E in *. by split. Qed.
Lemma assets_frame c c' :
  xst_Assets (misc c') = xst_Assets (misc c) -> xst_DenomToIndex (misc c') = xst_DenomToIndex (misc c) ->
  xst_MaxAssetIndex (misc c') = xst_MaxAssetIndex (misc c) -> asset_inv c -> asset_inv c'.
Proof. intros E1 E2 E3 [K1 K2 K3 K4]. rewrite <- E1 in *. rewrite <- E2 in *. rewrite <- E3 in *. by split. Qed.

Lemma put_rows_Forall {B V} `{Countable B} (P : V -> Prop) (f : V -> B) l (m : gmap B V) :
  Forall P l -> map_Forall (fun _ v => P v) m -> map_Forall (fun _ v => P v) (put_rows f l m).
Proof. intros Hl. revert m. induction Hl as [|v l Hv Hl IH]; intros m Hm; [done|]. apply IH. by apply map_Forall_insert_2. Qed.

Lemma fresh_book_ok c n : book c = mkBookStore ∅ (Z.max 1 n) ∅ ∅ ∅ ∅ ∅ ∅ ∅ ∅ -> book_ok c.
Proof.
  intros E. split; rewrite ?E; cbn; try done; try lia.
  - unfold book_inv. rewrite E. exact Inv_empty.
Qed.

Section starting.
Context `{AssetText}.

(** The validators of the modules that keep rows. *)
Definition valid_genesis (gs : AppGenesis) : Prop :=
  AssetGenesis_Validate (app_asset gs) = Ok tt /\ AccountGenesis_Validate (app_account gs) = Ok tt /\
  MarketGenesis_Validate (app_market gs) = Ok tt /\ OracleGenesis_Validate (app_oracle gs) = Ok tt.

(** A validated genesis without orders and with positions within the size
    limit starts the chain: the import of every module succeeds, every
    secondary index is exact, and the state is one from which the block
    hooks never halt. *)
Theorem valid_genesis_starts gs c0 :
  valid_genesis gs -> (app_orderbook gs).2 = [] ->
  Forall (fun p => Z.abs (pos_BaseSize p) <= MaxPositionSize) (gs_AccountPositions (app_account gs)) -> empty_app c0 ->
  exists c, App_InitGenesis gs c0 = (Ok tt, c) /\ app_ok c /\ block_ready c.
Proof.
  intros (V1 & V2 & V3 & _) Hord Hpos (E1 & E2 & E3 & [n E4] & E5).
  destruct (valid_asset_genesis_imports _ c0 V1 E1) as (c1 & Ha & A1 & _ & A2 & A3 & Hf1).
  assert (no_accounts c1) as N1 by by rewrite Hf1.
  destruct (valid_accounts_import _ c1 V2 N1) as (c2 & Hb & B1 & Hf2 & Hp2 & _).
  assert (no_markets c2) as N2 by (rewrite Hf2, Hf1; done).
  destruct (valid_markets_import _ c2 V3 N2) as (c3 & Hc & C1 & Hf3 & _).
  destruct (later_modules_run gs c3 Hord) as (c & Hd & D1 & D2 & D3 & D4 & D5 & D6 & D7 & D8).
  exists c. unfold App_InitGenesis. rewrite (run_bind _ _ _ _ _ Ha), (run_bind _ _ _ _ _ Hb), (run_bind _ _ _ _ _ Hc).
  split; [exact Hd|].
  assert (account c3 = account c2 /\ misc c3 = misc c1 /\ book c3 = book c0) as (F1 & F2 & F3)
    by (rewrite Hf3, Hf2, Hf1; done).
  rewrite F1 in D1. rewrite F2 in D4, D5, D6, D7, D8. rewrite F3, E4 in D3. cbn in D3. split.
  - split.
    + by apply (accounts_ok_frame c2).
    + by apply (markets_ok_frame c3).
    + by eapply fresh_book_ok.
    + by apply (assets_frame c1).
    + by rewrite D6, D7.
    + by rewrite D4, D6.
    + rewrite D8. apply put_rows_keyed. rewrite Hf1. cbn. by rewrite E5.
  - apply consistent_ready.
    + unfold sized. rewrite D1, Hp2. by apply put_rows_Forall.
    + apply (fresh_book_ok c _ D3).
    + unfold orders. by rewrite D3.
    + intros m p i. unfold triggers. rewrite D3. cbn. set_solver.
Qed.
End starting.

(** ** Two gaps of the account genesis *)

(** [ExportGenesis] writes rows that [Validate] refuses: a chain with an
    account in debt exports a genesis that does not validate. *)
Theorem debt_does_not_reimport c i a :
  ast_Accounts (account c) !! i = Some a -> acc_Collateral a < 0 ->
  AccountGenesis_Validate (Account_ExportGenesis c) <> Ok tt.
Proof.
  intros Ha Hneg Hv. unfold AccountGenesis_Validate in Hv. inv_ok.
  match goal with H : foldM validate_account _ _ = _ |- _ => rename H into HF end.
  apply (foldM_all _ (fun a => 0 <= acc_Collateral a)) in HF.
  - rewrite Forall_forall in HF. specialize (HF a). cbn in HF. assert (0 <= acc_Collateral a); [|lia].
    apply HF. unfold IterateAccounts. apply elem_of_values. eauto.
  - intros [seen owners] b s' Hb. unfold validate_account in Hb. inv_ok. breflect. lia.
Qed.

(** A genesis with a user account at the slot the counter names. *)
Definition stale_counter : AccountGenesis :=
  mkAccountGenesis Account_DefaultParams FirstUserMasterAccountIndex MinSubAccountIndex
    [treasury_account; fund_account; new_account 2 NilMasterAccountIndex "alice" MasterAccountType 0 <| acc_Collateral := 100 |>]
    [] [] [].

(** [Validate] accepts a counter at or below a stored account, and the next
    new owner then overwrites that account: its collateral is lost and its
    owner's index row points at the new owner's account. *)
Theorem stale_counter_overwrites :
  AccountGenesis_Validate stale_counter = Ok tt /\
  exists c1 a c2, Account_InitGenesis stale_counter empty_chain = (Ok tt, c1) /\
    acc_Collateral <$> ast_Accounts (account c1) !! 2 = Some 100 /\
    EnsureMasterAccount "bob" c1 = (Ok a, c2) /\ acc_AccountIndex a = 2 /\
    ast_Accounts (account c2) !! 2 = Some a /\ acc_Collateral a = 0 /\ acc_OwnerAddress a = "bob"%string /\
    ast_OwnerToIndex (account c2) !! "alice"%string = Some 2.
Proof. split; [by vm_compute|]. do 3 eexists. split; [vm_compute; reflexivity|]. split_and!; by vm_compute. Qed.

(** ** Concrete runs *)

(** USDC, the two reserved accounts, two users with a position each and one
    perps market. *)
Definition demo_accounts : AccountGenesis :=
  mkAccountGenesis Account_DefaultParams 4 MinSubAccountIndex
    [treasury_account; fund_account;
     new_account 2 NilMasterAccountIndex "alice" MasterAccountType 0 <| acc_Collateral := 1000 |>;
     new_account 3 NilMasterAccountIndex "bob" MasterAccountType 0 <| acc_Collateral := 1000 |>;
     new_account MinSubAccountIndex 2 "alice" SubAccountType 0]
    [] [demo_position 2 10 1000; demo_position 3 (-10) (-1000)] [].

Definition demo_genesis : AppGenesis :=
  mkAppGenesis Asset_DefaultGenesis demo_accounts (mkMarketGenesis Market_DefaultParams [demo_market] [demo_details])
    Oracle_DefaultGenesis (1, []) Funding_DefaultGenesis (mkMatchingParams 100 200) (mkLiquidationParams 8 16).

Definition genesis_demo : Chain := (App_InitGenesis demo_genesis empty_chain).2.

Lemma empty_chain_app : empty_app empty_chain.
Proof. split_and!; try done. by exists 1. Qed.

Lemma genesis_demo_ok : app_ok genesis_demo /\ block_ready genesis_demo.
Proof.
  destruct (@valid_genesis_starts demo_text demo_genesis empty_chain) as (c & Hrun & Hc).
  - split_and!; by vm_compute.
  - reflexivity.
  - repeat constructor; vm_compute; discriminate.
  - apply empty_chain_app.
  - unfold genesis_demo. rewrite Hrun. exact Hc.
Qed.

(** The chain the default genesis of every module starts. *)
Definition App_DefaultGenesis : AppGenesis :=
  mkAppGenesis Asset_DefaultGenesis Account_DefaultGenesis Market_DefaultGenesis Oracle_DefaultGenesis (1, [])
    Funding_DefaultGenesis (mkMatchingParams 100 200) (mkLiquidationParams 8 16).

Lemma default_genesis_starts : exists c, App_InitGenesis App_DefaultGenesis empty_chain = (Ok tt, c) /\ app_ok c /\ block_ready c.
Proof.
  apply (@valid_genesis_starts demo_text); [split_and!; by vm_compute|done|constructor|apply empty_chain_app].
Qed.

(** The demo chain with the three orders of [book_demo]. *)
Definition genesis_book : Chain := genesis_demo <| book := book book_demo |>.

Lemma app_ok_book c b : app_ok c -> book_ok (c <| book := b |>) -> app_ok (c <| book := b |>).
Proof.
  intros [A1 A2 A3 A4 A5 A6 A7] Hb. split; [by apply (accounts_ok_frame c)|by apply (markets_ok_frame c)|done|by apply (assets_frame c)|done..].
Qed.

Lemma genesis_book_ok : book_ok genesis_book.
Proof.
  split.
  - apply (book_steps_inv _ _ book_demo_steps), book_demo_start.
  - intros i o Ho Hs. revert i o Ho Hs. by_decide.
  - assert (map_Forall (fun _ v => level_fits v) (bst_PriceLevels (book genesis_book))) as Hf by by_decide.
    intros m p. unfold level_of. destruct (_ !! _) as [v|] eqn:Hv; [exact (Hf _ _ Hv)|].
    unfold level_fits, MaxUint64, MaxUint32; cbn; lia.
  - by vm_compute.
  - by vm_compute.
Qed.

Lemma app_genesis_roundtrip_witness :
  exists gs c1, App_ExportGenesis genesis_book = Ok gs /\ App_InitGenesis gs empty_chain = (Ok tt, c1) /\
    account c1 = account genesis_book /\ bst_OrderBookEntries (book c1) = bst_OrderBookEntries (book genesis_book).
Proof.
  destruct (app_genesis_roundtrip genesis_book empty_chain) as (gs & c1 & K1 & K2 & K3 & _ & _ & (_ & _ & K4 & _) & _).
  - apply app_ok_book; [apply genesis_demo_ok|exact genesis_book_ok].
  - apply empty_chain_app.
  - exists gs, c1. split_and!; [exact K1|exact K2|exact K3|exact K4].
Defined.
