(* ===== verification/Queries.v ===== *)
(** * Queries

    The gRPC query servers ([x/*/keeper/grpc_query.go]) as views of the
    chain. A request may be nil; errors of the keepers become status codes.
    Pagination is code of the SDK and a parameter. *)

From S2P Require Import Prelude Constants Types PositionMath Account Market Asset Oracle Funding Risk Trade OrderBook.
From S2P Require Import Effects Matching Liquidation AccountMsg PublicPool BookGenesis Solvency Sweeps Blocks Genesis.

Inductive Code := InvalidArgument | NotFound | Internal.

Notation grpc A := (res Code A).

(** [if req == nil] of the handlers. *)
Definition with_request {X A} (req : option X) (k : X -> grpc A) : grpc A :=
  match req with None => Err InvalidArgument | Some x => k x end.

(** [status.Error(code, err.Error())] *)
Definition status {A} (code : Error -> Code) (r : R A) : grpc A :=
  match r with
  | Ok a => Ok a
  | Err e => Err (code e)
  | Panic => Panic
  | NoFuel => NoFuel
  end.

Definition internal : Error -> Code := fun _ => Internal.
Definition not_found : Error -> Code := fun _ => NotFound.

(** [query.CollectionPaginate] and [query.CollectionFilteredPaginate]: a page
    of the rows, or of the rows that match. *)
Class Paginator := {
  PageRequest : Type;
  PageResponse : Type;
  paginate : forall {A}, PageRequest -> list A -> list A * PageResponse
}.

(** A page is a run of consecutive rows. *)
Class PaginatorOk `{Paginator} := {
  page_segment {A} req (l : list A) : exists l1 l2, l = l1 ++ (paginate req l).1 ++ l2
}.

(** The transform of a page stops at its first error. *)
Fixpoint traverse {A B} (f : A -> R B) (l : list A) : R (list B) :=
  match l with
  | [] => mret []
  | a :: l => b ← f a; bs ← traverse f l; mret (b :: bs)
  end.

Section queries.
Context `{Paginator}.

(** ** x/account *)

Definition Query_Account (req : option Z) (c : Chain) : grpc Account :=
  with_request req (fun i => status not_found (GetAccount i c)).

Definition Query_AccountByOwner (req : option string) (c : Chain) : grpc Account :=
  with_request req (fun o => status not_found (GetMasterAccountByOwner o c)).

Definition Query_SubAccounts (req : option (Z * PageRequest)) (c : Chain) : grpc (list Account * PageResponse) :=
  with_request req (fun '(master, page) =>
    let '(keys, res) := paginate page (filter (fun k => k.1 = master) (keys (ast_MasterSubAccounts (account c)))) in
    status internal (accs ← traverse (fun k => GetAccount k.2 c) keys; mret (accs, res))).

Definition Query_AccountAssets (req : option (Z * PageRequest)) (c : Chain) : grpc (list AccountAsset * PageResponse) :=
  with_request req (fun '(acc, page) =>
    mret (paginate page (filter (fun kv => kv.1.1 = acc) (rows (ast_AccountAssets (account c)))).*2)).

Definition Query_AccountPositions (req : option (Z * PageRequest)) (c : Chain)
  : grpc (list AccountPosition * PageResponse) :=
  with_request req (fun '(acc, page) =>
    mret (paginate page (filter (fun kv => kv.1.1 = acc) (rows (ast_AccountPositions (account c)))).*2)).

Definition Query_AccountPosition (req : option (Z * Z)) (c : Chain) : grpc AccountPosition :=
  with_request req (fun '(acc, mkt) => mret (GetPosition acc mkt c)).

Definition Query_AccountParams (c : Chain) : grpc AccountParams := mret (ast_Params (account c)).

Definition Query_PublicPoolInfo (req : option Z) (c : Chain) : grpc PublicPoolInfo :=
  with_request req (fun i =>
    a ← status not_found (GetAccount i c);
    match acc_PublicPoolInfo a with None => Err NotFound | Some info => mret info end).

Definition Query_PublicPoolShares (req : option Z) (c : Chain) : grpc (list PublicPoolShare) :=
  with_request req (fun i => a ← status not_found (GetAccount i c); mret (acc_PublicPoolShares a)).

Definition Query_SharesToUSDCValue (req : option (Z * Z)) (c : Chain) : grpc Z :=
  with_request req (fun '(pool, shares) => status internal (SharesToUSDCValue pool shares c)).

(** ** x/asset *)

Definition asset_code (e : Error) : Code :=
  match e with EAsset ErrAssetNotFound => NotFound | _ => Internal end.

Definition Query_Asset (req : option Z) (c : Chain) : grpc Asset :=
  with_request req (fun i => status asset_code (GetAsset i c)).

Definition Query_AssetByDenom (req : option string) (c : Chain) : grpc Asset :=
  with_request req (fun d => status asset_code (GetAssetByDenom d c)).

Definition Query_Assets (req : option PageRequest) (c : Chain) : grpc (list Asset * PageResponse) :=
  with_request req (fun page => mret (paginate page (rows (xst_Assets (misc c))).*2)).

Definition Query_AssetParams (req : option unit) (c : Chain) : grpc Z :=
  with_request req (fun _ => mret (xst_MaxAssetIndex (misc c))).

(** ** x/market *)

Definition asGRPCError (e : Error) : Code :=
  match e with EMarket ErrMarketNotFound => NotFound | _ => Internal end.

Definition Query_Market (req : option Z) (c : Chain) : grpc Market :=
  with_request req (fun i => status asGRPCError (GetMarket i c)).

Definition Query_MarketDetails (req : option Z) (c : Chain) : grpc MarketDetails :=
  with_request req (fun i => status asGRPCError (GetMarketDetails i c)).

Record QueryMarketsRequest := mkQueryMarketsRequest {
  qm_FilterByType : bool;
  qm_MarketType : Z;
  qm_Pagination : PageRequest
}.

Definition Query_Markets (req : option QueryMarketsRequest) (c : Chain) : grpc (list Market * PageResponse) :=
  with_request req (fun r =>
    mret (paginate (qm_Pagination r)
      (filter (fun m => ~ (qm_FilterByType r = true /\ mkt_MarketType m <> qm_MarketType r)) (IterateMarkets c)))).

Definition Query_MarketParams (req : option unit) (c : Chain) : grpc MarketParams :=
  with_request req (fun _ => mret (mst_Params (market c))).

(** ** x/funding *)

(** The handlers look for the store's own [ErrNotFound]. *)
Definition store_code (e : Error) : Code := match e with ENotFound => NotFound | _ => Internal end.

Definition Query_Metadata (req : option unit) (c : Chain) : grpc Z :=
  with_request req (fun _ => mret (xst_LastFundingRoundTimestamp (misc c))).

Definition Query_MarketFundingRate (req : option Z) (c : Chain) : grpc (Z * Z) :=
  with_request req (fun i =>
    d ← status store_code (GetMarketDetails i c);
    mret (md_FundingRatePrefixSum d, xst_LastFundingRoundTimestamp (misc c))).

Definition Query_PositionPendingFunding (req : option (Z * Z)) (c : Chain) : grpc Z :=
  with_request req (fun '(acc, mkt) =>
    let pos := GetPosition acc mkt c in
    d ← status store_code (GetMarketDetails mkt c);
    mret (Z.quot (pos_BaseSize pos * (md_FundingRatePrefixSum d - pos_LastFundingRatePrefixSum pos)) FundingRateTick)).

Definition Query_FundingParams (req : option unit) (c : Chain) : grpc FundingParams :=
  with_request req (fun _ => mret (xst_FundingParams (misc c))).

(** ** x/risk *)

(** These handlers read the request without a nil check. *)
Definition deref {X A} (req : option X) (k : X -> grpc A) : grpc A :=
  match req with None => Panic | Some x => k x end.

Definition Query_CrossRisk (req : option Z) (c : Chain) : grpc RiskParameters :=
  deref req (fun a => status internal (ComputeCrossRisk a c)).
Definition Query_IsolatedRisk (req : option (Z * Z)) (c : Chain) : grpc RiskParameters :=
  deref req (fun '(a, m) => status internal (ComputeIsolatedRisk a m c)).
Definition Query_HealthStatus (req : option Z) (c : Chain) : grpc Z :=
  deref req (fun a => status internal (GetHealthStatus a c)).
Definition Query_AvailableCollateral (req : option Z) (c : Chain) : grpc Z :=
  deref req (fun a => status internal (GetAvailableCollateral a c)).
Definition Query_PositionZeroPrice (req : option (Z * Z)) (c : Chain) : grpc Z :=
  deref req (fun '(a, m) => status internal (GetPositionZeroPrice a m c)).

(** ** x/oracle, x/matching, x/liquidation *)

Definition Query_OraclePrice (req : option Z) (c : Chain) : grpc OraclePrice :=
  with_request req (fun i => status not_found (GetStoredPrice i c)).

(** These handlers ignore the request. *)
Definition Query_OracleParams (c : Chain) : grpc OracleParams := mret (xst_OracleParams (misc c)).
Definition Query_MatchingParams (c : Chain) : grpc MatchingParams := mret (xst_MatchingParams (misc c)).
Definition Query_LiquidationParams (c : Chain) : grpc LiquidationParams := mret (xst_LiquidationParams (misc c)).

Definition Query_ADLQueue (req : option (Z * bool * Z)) (c : Chain) : grpc (list ADLCandidate) :=
  with_request req (fun '(mkt, oppositeIsLong, limit) =>
    let limit := if limit =? 0 then
                   let l := lp_MaxAdlCandidatesPerVictim (xst_LiquidationParams (misc c)) in
                   if l =? 0 then DefaultMaxADLCandidatesPerVictim else l
                 else limit in
    mret (BuildADLQueue mkt oppositeIsLong limit c)).

(** ** x/orderbook *)

Definition Query_Order (req : option Z) (c : Chain) : grpc Order :=
  with_request req (fun i => status not_found (GetOrder i c)).

Definition Query_OrderByClientId (req : option (Z * Z * Z)) (c : Chain) : grpc Order :=
  with_request req (fun '(mkt, acc, cli) => status not_found (GetOrderByClientID mkt acc cli c)).

Definition order_matches (acc mkt : Z) (o : Order) : Prop :=
  (acc = 0 \/ ord_OwnerAccountIndex o = acc) /\ (mkt = 0 \/ ord_MarketIndex o = mkt).
#[global] Instance order_matches_dec acc mkt o : Decision (order_matches acc mkt o).
Proof. unfold order_matches. apply _. Defined.

Definition Query_Orders (req : option (Z * Z * PageRequest)) (c : Chain) : grpc (list Order * PageResponse) :=
  with_request req (fun '(acc, mkt, page) =>
    mret (paginate page (filter (order_matches acc mkt) (rows (bst_Orders (book c))).*2))).

Definition DefaultOrderBookSnapshotMaxDepth : Z := 50.

Definition side_base (isAsk : bool) (v : PriceLevelAggregate) : Z := if isAsk then pl_AskBaseSum v else pl_BidBaseSum v.

(** The walk over the levels; it stops when [depth] are collected. *)
Fixpoint collect_levels (isAsk : bool) (depth : nat) (levels : list PriceLevelAggregate) : list PriceLevelAggregate :=
  match levels, depth with
  | [], _ | _, O => []
  | v :: levels, S d =>
      if side_base isAsk v =? 0 then collect_levels isAsk depth levels else v :: collect_levels isAsk d levels
  end.

Definition collectSnapshotSide (mkt depth : Z) (isAsk : bool) (c : Chain) : list PriceLevelAggregate :=
  let levels := market_levels mkt c in
  collect_levels isAsk (Z.to_nat depth) (if isAsk then levels else rev levels).

Definition Query_OrderBookSnapshot (req : option (Z * Z)) (c : Chain)
  : grpc (list PriceLevelAggregate * list PriceLevelAggregate) :=
  with_request req (fun '(mkt, depth) =>
    let depth := if (depth =? 0) || (DefaultOrderBookSnapshotMaxDepth <? depth) then DefaultOrderBookSnapshotMaxDepth else depth in
    mret (collectSnapshotSide mkt depth false c, collectSnapshotSide mkt depth true c)).

Definition Query_BestBidAsk (req : option Z) (c : Chain) : grpc (Z * Z) :=
  with_request req (fun mkt => mret (BestBidAsk mkt c)).

Definition Query_ImpactPrice (req : option Z) (c : Chain) : grpc (Z * Z * Z) :=
  with_request req (fun mkt =>
    bidImp ← status internal (ComputeImpactPrice mkt false c);
    askImp ← status internal (ComputeImpactPrice mkt true c);
    let mid := if negb (bidImp =? 0) && negb (askImp =? 0) then wrap32 (wrap64 (bidImp + askImp) / 2) else 0 in
    mret (bidImp, askImp, mid)).
End queries.

(** ** The book snapshot *)

Lemma collect_levels_take isAsk d l :
  collect_levels isAsk d l = take d (filter (fun v => side_base isAsk v <> 0) l).
Proof.
  revert d. induction l as [|v l IH]; intros d; [by destruct d|]. destruct d as [|d]; [done|]. cbn [collect_levels].
  destruct (Z.eqb_spec (side_base isAsk v) 0) as [Hz|Hz].
  - rewrite IH, filter_cons_False by lia. done.
  - rewrite IH, filter_cons_True by done. done.
Qed.

(** The best price comes first. *)
Definition better (isAsk : bool) (p q : Z) : Prop := if isAsk then p < q else q < p.

Section levels.
Context (c : Chain) (HI : book_inv c).

Lemma market_levels_elem mkt v :
  v ∈ market_levels mkt c <-> bst_PriceLevels (book c) !! (mkt, pl_Price v) = Some v.
Proof.
  assert (forall m p v, bst_PriceLevels (book c) !! (m, p) = Some v -> pl_Price v = p) as Hp.
  { intros m p w Hw. pose proof (bi_levels _ _ _ _ HI m p) as HL. unfold level_of in HL. rewrite Hw in HL. cbn in HL. by subst w. }
  unfold market_levels. rewrite list_elem_of_fmap. split.
  - intros ([[m p] w] & -> & [Hm Hw%elem_of_rows]%list_elem_of_filter). cbn in *. subst m. by rewrite (Hp _ _ _ Hw).
  - intros Hv. exists ((mkt, pl_Price v), v). split; [done|]. apply list_elem_of_filter. split; [done|]. by apply elem_of_rows.
Qed.

Lemma levels_price m p v : bst_PriceLevels (book c) !! (m, p) = Some v -> v = exact_level m p (bst_OrderBookEntries (book c)).
Proof. intros Hv. rewrite <- (bi_levels _ _ _ _ HI). unfold level_of. by rewrite Hv. Qed.

Lemma market_levels_sorted mkt : StronglySorted Z.lt (pl_Price <$> market_levels mkt c).
Proof.
  unfold market_levels. pose proof (rows_sorted (bst_PriceLevels (book c))) as Hs.
  assert (NoDup (rows (bst_PriceLevels (book c))).*1) as Hnd by (rewrite rows_perm; apply NoDup_fst_map_to_list).
  assert (forall kv, kv ∈ rows (bst_PriceLevels (book c)) -> pl_Price kv.2 = kv.1.2) as Hp.
  { intros [[m p] v] Hv%elem_of_rows. by rewrite (levels_price _ _ _ Hv). }
  revert Hs Hnd Hp. generalize (rows (bst_PriceLevels (book c))). intros l.
  induction l as [|[[m p] v] l IH]; intros Hs Hnd Hp; [constructor|].
  apply StronglySorted_inv in Hs as [Hs Hall]. cbn in Hnd. apply NoDup_cons in Hnd as [Hni Hnd].
  assert (StronglySorted Z.lt (pl_Price <$> (filter (fun kv => kv.1.1 = mkt) l).*2)) as IH'
    by (apply IH; [done..|]; intros; by apply Hp, list_elem_of_further).
  destruct (decide (m = mkt)) as [->|Hne]; [rewrite filter_cons_True by done|by rewrite filter_cons_False].
  cbn. constructor; [done|]. apply Forall_forall.
  intros q (w & -> & ([[m' p'] w'] & -> & [Hm Hin]%list_elem_of_filter)%list_elem_of_fmap)%list_elem_of_fmap. cbn in *. subst m'.
  pose proof (Hp _ (list_elem_of_here _ _)) as E1. pose proof (Hp _ (list_elem_of_further _ _ _ Hin)) as E2. cbn in E1, E2.
  rewrite Forall_forall in Hall. specialize (Hall _ Hin). unfold rowR, key_leR in Hall. cbn in Hall.
  rewrite decide_True in Hall by done. breflect. rewrite E1, E2. assert (p <> p'); [|lia]. intros ->. apply Hni.
  by apply (list_elem_of_fmap_2 fst l (mkt, p', w')).
Qed.

(** The levels of a side, best first. *)
Definition side_levels (mkt : Z) (isAsk : bool) : list PriceLevelAggregate :=
  filter (fun v => side_base isAsk v <> 0) (if isAsk then market_levels mkt c else rev (market_levels mkt c)).

Lemma StronglySorted_rev (R : Z -> Z -> Prop) l : StronglySorted R l -> StronglySorted (flip R) (rev l).
Proof.
  induction 1 as [|x l Hs IH Hx]; cbn; [constructor|]. apply StronglySorted_app_2; [|done|repeat constructor].
  intros y z Hy Hz. apply list_elem_of_singleton in Hz as ->. rewrite Forall_forall in Hx. apply Hx.
  apply list_elem_of_In, List.in_rev. by apply list_elem_of_In.
Qed.
Lemma StronglySorted_sublist {A} (R : A -> A -> Prop) l k : StronglySorted R l -> sublist k l -> StronglySorted R k.
Proof.
  intros Hs Hk. revert Hs. induction Hk as [|x k l Hk IH|x k l Hk IH]; intros Hs; [done|..];
    apply StronglySorted_inv in Hs as [Hs Hx]; [|auto]. constructor; [auto|].
  rewrite Forall_forall in Hx |- *. intros y Hy. apply Hx. eapply elem_of_submseteq; [exact Hy|by apply sublist_submseteq].
Qed.

Lemma side_levels_sorted mkt isAsk : StronglySorted (better isAsk) (pl_Price <$> side_levels mkt isAsk).
Proof.
  eapply StronglySorted_sublist; [|apply fmap_sublist, sublist_filter]. pose proof (market_levels_sorted mkt) as Hs.
  destruct isAsk; [exact Hs|]. apply StronglySorted_rev in Hs.
  assert (pl_Price <$> rev (market_levels mkt c) = rev (pl_Price <$> market_levels mkt c)) as -> by exact (List.map_rev _ _).
  exact Hs.
Qed.

(** The level of a resting order is one of them. *)
Lemma side_levels_complete mkt isAsk o :
  on_book o c -> ord_MarketIndex o = mkt -> ord_IsAsk o = isAsk ->
  exists v, v ∈ side_levels mkt isAsk /\ pl_Price v = ord_Price o.
Proof.
  intros [Ho He] Hm Ha. pose proof (bi_levels _ _ _ _ HI mkt (ord_Price o)) as HL.
  assert (0 < side_base isAsk (exact_level mkt (ord_Price o) (bst_OrderBookEntries (book c)))) as Hpos.
  { destruct (bi_entry _ _ _ _ HI _ _ _ He) as (o' & Ho' & (_ & Hrem & _) & _ & _ & E & _). injection E as E _ _ _ Erem _ _ _.
    assert (entry_contrib isAsk mkt (ord_Price o) ent_RemainingBaseAmount ((ord_MarketIndex o, order_key o), entry_of o)
      <= side_sum isAsk mkt (ord_Price o) ent_RemainingBaseAmount (bst_OrderBookEntries (book c))) as Hge.
    { apply ksum_ge; [|done]. intros [m sk] e He'. destruct (bi_entry _ _ _ _ HI _ _ _ He') as (o2 & _ & (_ & Hr2 & _) & _ & _ & -> & _).
      unfold entry_contrib. case_decide; cbn; lia. }
    unfold entry_contrib in Hge. rewrite decide_True in Hge by (cbn; rewrite Ha; done). cbn in Hge.
    assert (side_base isAsk (exact_level mkt (ord_Price o) (bst_OrderBookEntries (book c))) =
      side_sum isAsk mkt (ord_Price o) ent_RemainingBaseAmount (bst_OrderBookEntries (book c))) as -> by by destruct isAsk.
    rewrite Erem in Hge. lia. }
  exists (exact_level mkt (ord_Price o) (bst_OrderBookEntries (book c))). split; [|done].
  unfold side_levels. apply list_elem_of_filter. split; [lia|].
  assert (exact_level mkt (ord_Price o) (bst_OrderBookEntries (book c)) ∈ market_levels mkt c) as Hin.
  { apply market_levels_elem. cbn. unfold level_of in HL. destruct (bst_PriceLevels (book c) !! _) as [v|] eqn:Hv; [by rewrite <- HL|].
    rewrite <- HL in Hpos. destruct isAsk; cbn in Hpos; lia. }
  destruct isAsk; [done|]. apply list_elem_of_In. rewrite <- List.in_rev. by apply list_elem_of_In.
Qed.

(** What a side of the snapshot shows. *)
Record shows (mkt : Z) (isAsk : bool) (depth : Z) (l : list PriceLevelAggregate) : Prop := {
  sh_exact v : v ∈ l -> v = exact_level mkt (pl_Price v) (bst_OrderBookEntries (book c)) /\ side_base isAsk v <> 0;
  sh_sorted : StronglySorted (better isAsk) (pl_Price <$> l);
  sh_bound : Z.of_nat (length l) <= depth;
  sh_complete o : on_book o c -> ord_MarketIndex o = mkt -> ord_IsAsk o = isAsk ->
    ord_Price o ∈ pl_Price <$> l \/
    Z.of_nat (length l) = depth /\ forall p, p ∈ pl_Price <$> l -> better isAsk p (ord_Price o)
}.

Lemma snapshot_side_shows mkt isAsk depth : 0 <= depth -> shows mkt isAsk depth (collectSnapshotSide mkt depth isAsk c).
Proof.
  intros Hd. unfold collectSnapshotSide. rewrite collect_levels_take. fold (side_levels mkt isAsk).
  pose proof (side_levels_sorted mkt isAsk) as Hs. split.
  - intros v Hv. assert (v ∈ side_levels mkt isAsk) as Hi by (rewrite <- (take_drop (Z.to_nat depth)); apply elem_of_app; by left).
    unfold side_levels in Hi. apply list_elem_of_filter in Hi as [Hnz Hin]. split; [|done].
    assert (v ∈ market_levels mkt c) as Hm by (destruct isAsk; [done|]; apply list_elem_of_In, List.in_rev; by apply list_elem_of_In).
    apply market_levels_elem in Hm. exact (levels_price _ _ _ Hm).
  - eapply StronglySorted_sublist; [exact Hs|]. apply fmap_sublist. rewrite <- (take_drop (Z.to_nat depth) (side_levels mkt isAsk)) at 2.
    apply sublist_inserts_r. done.
  - rewrite length_take. lia.
  - intros o Hon Hm Ha. destruct (side_levels_complete mkt isAsk o Hon Hm Ha) as (v & Hv & Hp).
    rewrite <- (take_drop (Z.to_nat depth) (side_levels mkt isAsk)) in Hv, Hs. apply elem_of_app in Hv as [Hv|Hv].
    + left. rewrite <- Hp. by apply list_elem_of_fmap_2.
    + right. split.
      * rewrite length_take. assert (0 < length (drop (Z.to_nat depth) (side_levels mkt isAsk)))%nat as Hl
          by (destruct (drop _ _); [by apply not_elem_of_nil in Hv|cbn; lia]). rewrite length_drop in Hl. lia.
      * intros p Hin. rewrite fmap_app in Hs. rewrite <- Hp. eapply StronglySorted_app_1_elem_of; [exact Hs|done|].
        by apply list_elem_of_fmap_2.
Qed.
End levels.

Section snapshot.
Context `{Paginator}.

(** C32: a snapshot of a consistent book shows the book: each side lists price
    levels best first without repetition, each with exactly the sums of the
    resting orders at that price, at most fifty and at most as many as asked
    for; and a resting order's price is missing only when the side is full
    of strictly better prices. *)
Theorem snapshot_shows_book mkt depth c bids asks :
  book_inv c -> 0 <= depth -> Query_OrderBookSnapshot (Some (mkt, depth)) c = Ok (bids, asks) ->
  exists d, 0 < d <= DefaultOrderBookSnapshotMaxDepth /\ (depth <> 0 -> d <= depth) /\
    shows c mkt false d bids /\ shows c mkt true d asks.
Proof.
  intros HI Hd Hq. cbn in Hq. injection Hq as <- <-. unfold DefaultOrderBookSnapshotMaxDepth.
  eexists. split; [|split; [|split; apply snapshot_side_shows; [done| |done|]]]; case_match; breflect; try lia;
    destruct H0; breflect; lia.
Qed.
End snapshot.

(** ** Accounts *)

Section accounts.
Context `{PaginatorOk} (c : Chain) (Hok : accounts_ok c).

(** The owner query finds exactly the master account of the owner. *)
Theorem account_by_owner_exact owner a :
  Query_AccountByOwner (Some owner) c = Ok a <->
  owner <> EmptyString /\ acc_OwnerAddress a = owner /\ acc_AccountType a = MasterAccountType /\
  ast_Accounts (account c) !! acc_AccountIndex a = Some a.
Proof.
  destruct Hok as [[K1 _] _ K5 _ _]. unfold Query_AccountByOwner, GetMasterAccountByOwner. cbn. split.
  - destruct (ast_OwnerToIndex (account c) !! owner) as [i|] eqn:Hi; cbn; [|done]. unfold GetAccount.
    destruct (ast_Accounts (account c) !! i) as [b|] eqn:Hb; cbn; [|done]. intros [= <-].
    apply K5 in Hi as (a' & Ha' & Ho). rewrite Hb in Ha'. injection Ha' as <-. unfold owner_row in Ho.
    destruct (negb _ && _) eqn:E; [|done]. injection Ho as <- _. breflect. by rewrite (K1 _ _ Hb).
  - intros (Hne & <- & Ht & Ha). assert (ast_OwnerToIndex (account c) !! acc_OwnerAddress a = Some (acc_AccountIndex a)) as ->.
    { apply K5. exists a. split; [done|]. unfold owner_row. rewrite bool_decide_eq_false_2, Ht by done. done. }
    cbn. unfold GetAccount. by rewrite Ha.
Qed.

Lemma traverse_ok {A B} (f : A -> R B) (g : A -> B) l : (forall a, a ∈ l -> f a = Ok (g a)) -> traverse f l = Ok (g <$> l).
Proof.
  induction l as [|a l IH]; intros Hf; [done|]. cbn. rewrite (Hf a (list_elem_of_here _ _)). cbn.
  rewrite IH; [done|]. intros b Hb. by apply Hf, list_elem_of_further.
Qed.

(** The sub-account query never fails on a row of its index, and returns
    only accounts of that master. *)
Theorem sub_accounts_exact master page :
  exists accs res, Query_SubAccounts (Some (master, page)) c = Ok (accs, res) /\
    forall a, a ∈ accs -> acc_MasterAccountIndex a = master /\ acc_AccountType a <> MasterAccountType /\
      ast_Accounts (account c) !! acc_AccountIndex a = Some a.
Proof.
  destruct Hok as [[K1 _] _ _ K6 _]. unfold Query_SubAccounts. cbn [with_request].
  set (ks := filter _ _). destruct (page_segment page ks) as (l1 & l2 & Hseg). destruct (paginate page ks) as [pk res]. cbn in Hseg.
  assert (forall k, k ∈ pk -> exists a, ast_Accounts (account c) !! k.2 = Some a /\ sub_row a = Some (master, k.2)) as Hk.
  { intros [m i] Hin. assert ((m, i) ∈ ks) as Hks by (rewrite Hseg, !elem_of_app; auto).
    apply list_elem_of_filter in Hks as [Hm Hks%elem_of_keys]. cbn in Hm. subst m. by apply K6. }
  rewrite (traverse_ok _ (fun k => default treasury_account (ast_Accounts (account c) !! k.2))).
  - do 2 eexists. split; [reflexivity|]. intros a (k & -> & Hin)%list_elem_of_fmap. destruct (Hk k Hin) as (a & Ha & Hs).
    rewrite Ha. cbn. unfold sub_row in Hs. destruct (negb _ && _) eqn:E; [|done]. injection Hs as Hm Hi. breflect.
    by rewrite Hi.
  - intros k Hin. destruct (Hk k Hin) as (a & Ha & _). unfold GetAccount. by rewrite Ha.
Qed.
End accounts.

(** ** Funding *)

(** The pending funding a position is shown is what settling it adds to
    its entry quote. *)
Theorem pending_funding_settles `{Paginator} acc mkt c p :
  keyed c -> Query_PositionPendingFunding (Some (acc, mkt)) c = Ok p ->
  exists c', SettlePositionFunding acc mkt c = (Ok tt, c') /\
    pos_EntryQuote (GetPosition acc mkt c') = pos_EntryQuote (GetPosition acc mkt c) + p.
Proof.
  intros Hk Hq. cbn in Hq. destruct (GetMarketDetails mkt c) as [d| | |] eqn:Hd; try done. cbn in Hq. injection Hq as <-.
  destruct (settle_position_once acc mkt c d Hk Hd) as (c1 & H1 & _ & Hp & _). exists c1. split; [done|]. by rewrite Hp.
Qed.

(** The handler tests for the store's error, but the market keeper has
    already replaced it: an unknown market is reported as an internal error. *)
Theorem missing_market_is_internal `{Paginator} i c :
  mst_MarketDetails (market c) !! i = None -> Query_MarketFundingRate (Some i) c = Err Internal.
Proof. intros Hn. cbn. unfold GetMarketDetails. by rewrite Hn. Qed.

(** ** Orders *)

(** The order query returns stored orders that match the filter. *)
Theorem orders_query_matches `{PaginatorOk} acc mkt page c os res :
  book_inv c -> Query_Orders (Some (acc, mkt, page)) c = Ok (os, res) ->
  forall o, o ∈ os -> GetOrder (ord_OrderIndex o) c = Ok o /\ order_matches acc mkt o.
Proof.
  intros HI Hq o Ho. cbn in Hq. injection Hq as Hq.
  destruct (page_segment page (filter (order_matches acc mkt) (rows (bst_Orders (book c))).*2)) as (l1 & l2 & Hseg).
  rewrite Hq in Hseg. assert (o ∈ filter (order_matches acc mkt) (rows (bst_Orders (book c))).*2) as Hin
    by (rewrite Hseg, !elem_of_app; auto).
  apply list_elem_of_filter in Hin as [Hm ([i o'] & -> & Hr%elem_of_rows)%list_elem_of_fmap]. cbn in *. split; [|done].
  unfold GetOrder. by rewrite (bi_orders _ _ _ _ HI _ _ Hr), Hr.
Qed.

(** ** Examples *)

(** Pages by offset and limit. *)
#[local] Instance offset_pages : Paginator :=
  {| PageRequest := nat * nat; PageResponse := nat; paginate A p l := (take p.2 (drop p.1 l), length l) |}.
#[local] Instance offset_pages_ok : PaginatorOk.
Proof.
  split. intros A [o n] l. exists (take o l), (drop n (drop o l)). cbn. by rewrite !take_drop.
Qed.

Lemma snapshot_shows_book_witness :
  exists bids asks d, Query_OrderBookSnapshot (Some (0, 3)) book_demo = Ok (bids, asks) /\
    0 < d <= DefaultOrderBookSnapshotMaxDepth /\ (3 <> 0 -> d <= 3) /\
    shows book_demo 0 false d bids /\ shows book_demo 0 true d asks.
Proof.
  do 2 eexists. destruct (snapshot_shows_book 0 3 book_demo _ _
    (book_steps_inv _ _ book_demo_steps book_demo_start) ltac:(lia) eq_refl) as (d & Hd & Hle & Hb & Ha).
  exists d. exact (conj eq_refl (conj Hd (conj Hle (conj Hb Ha)))).
Defined.

Example book_demo_snapshot :
  match Query_OrderBookSnapshot (Some (0, 0)) book_demo with
  | Ok (bids, asks) => (pl_Price <$> bids, pl_Price <$> asks) = ([], [100; 101])
  | _ => False
  end.
Proof. by_compute. Qed.
